(* ===== verification/_CoqProject ===== *)
-Q . S2P
Prelude.v
Effects.v
WebApi.v
Codecs.v
Float32.v
Chunk.v
Account.v
Wire.v
Frames.v
SocketManager.v
Sql.v
Sqlite.v
ClientDb.v
ClientStore.v
ClientSpec.v
InMemory.v
Outbox.v
Client.v
Redis.v
Server.v
Presence.v
RedisQueue.v
Cache.v
DenimManager.v
Queues.v
MessagesManager.v
Postgres.v
PostgresSpec.v
BundleSpec.v
Api.v
KeyManager.v
Registration.v
DenimIncoming.v
Messaging.v
Endpoints.v
Routing.v
Interleaving.v
WebSocket.v
ClientReceive.v
ClientKeys.v
KeyExchange.v
ClientServer.v
ClientHttp.v
EndToEnd.v
ClientReassembly.v
ClientContacts.v
Service.v
Delivery.v
