(* ===== verification/Prelude.v ===== *)
(** * Denim: deniable instant messaging, verified

    Denim is a Signal-like messenger.  Clients send _regular_ messages; every
    regular message carries a fixed share of _deniable_ traffic next to it, so
    that an observer who knows the regular traffic learns nothing about the
    deniable one.  A client cuts its deniable payloads into chunks that ride
    on its regular messages; the server collects the chunks of a sender, puts
    the payloads together again, queues them for their receiver, and sends
    them on in the ballast of the regular messages the receiver gets.

    ** The parts and how they are modelled

    All effects go through small command types; a program is a tree of
    commands ([Effects.prog]: return, fail, panic, or a command with its
    continuation), and a handler gives the commands their meaning on a state.
    Theorems about the code hold for every handler that keeps the contract its
    commands document; the witnesses run concrete handlers.

    - [Prelude]: outcomes ([Ok], [Err], [Panic]), bytes, machine integers,
      text, lists.  [Effects]: programs, handlers, running, embedding and
      refining them.
    - [WebApi], [Codecs], [Wire] ([common/src/web_api], [common/src/websocket],
      [common/src/protocol_address.rs], [common/src/envelope.rs], and the
      padding of [client/src/encryption.rs]): data on the wire, codecs as type
      classes with their documented laws, headers, addresses, paths, padding.
    - [Float32], [Chunk] ([common/src/deniable]): the chunker.  The free space
      [len * q] is computed in binary32 with rounding.  The sending buffer is
      the interface [bufferE]; [fifo_buffer] is its specification.
    - [Account] ([server/src/account.rs], [server/src/validators]).

    The client:
    - [Sqlite], [ClientDb] ([client/src/storage/device.rs] and the migrations
      in [client/client_db]): the tables, and every method of [Device] with its
      SQL.  [ClientStore] ([client/src/storage/database.rs]): the stores that
      libsignal and the chunker use, over the interface [clientE] of the
      database.  [ClientSpec]: what the stores promise.
      [InMemory] ([client/src/storage/in_memory.rs]): the database in memory.
    - [Outbox]: the table of deniable payloads as the sending buffer of the
      chunker; it implements [fifo_buffer].
    - [Client] ([client/src/client.rs], [contact_manager.rs], [encryption.rs]):
      contacts and sending.  [ClientReceive]: receiving, key responses, logging
      in.  [ClientReassembly], [ClientContacts]: their properties.
    - [ClientKeys] ([client/src/key_manager.rs], [register] of [client.rs]): key
      ids, bundles, and registration.
    - [Frames], [SocketManager] ([client/src/socket_manager.rs],
      [persistent_receiver.rs]): the connection of a client.  Its tasks (the
      reader, the forwarder, callers that wait) interleave as a step relation;
      closing from the client's side is not one of its events.
    - [ClientServer] ([client/src/server.rs]): requests over HTTP and the
      socket, over the interface [transportE].

    The server:
    - [Redis], [RedisQueue] ([server/src/storage/redis.rs]): Redis commands as
      an interface with a documented server, the queue of values with its
      metadata hash; it refines a list of items.  [Queues]: queues of several
      owners in one server, and what keeps them apart.
    - [Server], [Cache] ([server/src/managers/denim/*_cache.rs],
      [server/src/managers/message/message_cache.rs]): the server's shared
      world (Redis, listeners, tasks, clock, random values) and the caches.
    - [DenimManager], [DenimIncoming]
      ([server/src/managers/denim/denim_manager.rs]): both directions of the
      deniable traffic, composed with the client's chunker.
    - [MessagesManager] ([server/src/managers/message/messages_manager.rs],
      [server/src/persisters/message_persister.rs]).
    - [Sql], [Postgres], [PostgresSpec], [BundleSpec]
      ([server/src/storage/postgres.rs], [server/database/init.sql]): tables,
      statements and every method of the database with its SQL.
    - [Presence] ([server/src/managers/client_presence_manager.rs]).
    - [Api], [KeyManager], [Registration] ([server/src/error.rs],
      [account_manager.rs], [account_authenticator.rs], [key_manager.rs],
      [server.rs]): handlers over the database that answer with an HTTP status.
    - [Messaging] ([handle_put_messages], [handle_receiving_chunks] of
      [server.rs]): the handlers that use the managers and the database,
      over the interface [stateE].  [Routing]: where deniable messages go.
    - [Endpoints] (the endpoints and the router of [server.rs]).
    - [WebSocket] ([server/src/managers/websocket], the tasks of
      [availability_listener.rs], the upgrade and the keepalive of [server.rs]):
      connections, the map of connections, and their locks, over a socket that
      may fail.
    - [Service] (the managers' lookup, [account_manager.rs], the persister's
      task, the headers of the upgrade, the redirect): what runs around the
      handlers.

    Client and server together:
    - [ClientHttp]: the client's HTTP requests meet the router of the server.
    - [KeyExchange]: bundles from the server's database to the client's
      sessions.  [EndToEnd]: a client from its registration to the first
      message that it can be sent.
    - [Delivery]: deniable messages from client to client.
    - [Interleaving]: pools of programs whose calls interleave in any order.

    ** What the theorems show

    - _Hiding_: the size of what a message carries depends on the regular
      message only, whatever is queued, on the client
      ([wire_size_independent_of_buffer]) and on the server
      ([denim_message_hides_payloads]).  On the client, the two planes share no
      sessions and no identities ([planes_are_separate]).
    - _Delivery_: enough regular messages carry every deniable payload over,
      in order and complete, from client to client
      ([deniable_messages_are_delivered]) and over each part of the way
      ([stored_payloads_are_sent],
      [enough_messages_deliver_all], [client_payloads_reach_server],
      [deniable_messages_are_routed], [payloads_reach_receiver],
      [waiting_messages_are_sent], [client_assembles_payloads]).  Whatever the
      order of its tasks, a client gets what arrives on its socket
      ([received_messages_are_delivered]) and its requests their responses.
    - _Joining_: a client that registers keeps every key it uploads, can be
      contacted at once ([new_client_can_be_contacted]), and chunks its
      messages as the server does ([clients_chunk_like_the_server]).
    - _Refinement_: the Redis queue is a list; the stored messages of a device
      are kept whatever the order of rows ([stored_messages_are_kept]); the
      presence manager is a map of listeners and the set of keys that have not
      expired ([presence_is_a_roster]); the database in memory is libsignal's
      stores, with one plane only ([in_memory_planes_are_one]).
    - _Storage_: what is stored is read back; persisting moves messages and
      loses none; one-time keys are handed out once; deleting cascades;
      contacts survive a login.
    - _Access_: an endpoint runs for exactly the device whose credentials a
      request brings ([credentials_come_first]); a registered device logs in
      with its password and with none of another hash; link tokens expire ([link_tokens_expire]) and
      are used once; messages are accepted for the complete list of devices only.
    - _Errors_: where the code does not do what it means to, the theorem says
      what it does instead (an upload of rotated keys that is never served, a
      flush beyond a page, chunks and messages lost with a broken socket, a
      keepalive that waits for its own lock, flags and headers that panic, a
      slow client that stops receiving, an accepted message that an overlapping
      acknowledgement deletes).

    ** Bounds and fuel

    Loops without a structural measure take fuel: the chunker's loops take the
    free space plus the pending bytes, which every round lowers
    ([create_chunks_never_panics]); the cache's dequeue loop takes the bytes
    it may take; [persist_rounds] takes one round per cached message.  Each
    theorem about such a loop shows that its fuel is enough.  Integers keep
    their width: lengths are [usize] with checked subtraction, ids and counts
    wrap or panic as the code's casts do.  The loop of a connection runs over
    the frames it receives.

    ** Concurrency

    In most files a handler runs from its start to its end; spawned tasks are
    recorded and run later, one at a time, in any order.  [Interleaving] runs
    any number of programs whose calls interleave: a call is one Redis command,
    or one method of the database, which is taken to be atomic.  The tasks of a
    client's connection interleave in [SocketManager].  Locks are modelled where
    a task can ask for one that it holds itself: it then waits forever, which is
    the panic [WebSocket.forever].

    ** Not modelled

    Third-party code is a parameter with its documented laws: serialization
    ([bincode], [serde_json], base64, protobuf), HKDF, HMAC and SHA-256,
    signatures, UUIDs, the HTTP status texts, the HTTP client and its sockets,
    the broadcast channel, the Signal protocol and its stores in memory
    (libsignal), and the servers Redis and PostgreSQL as far as their
    documentation goes.  PostgreSQL returns rows in any order unless the
    statement orders them ([ScanOrder]); the client's SQLite is a parameter too,
    and where a theorem needs rows by their ids although the statement does not
    order them, it says so ([scans_by_rowid]).  The keys of Redis keep the time
    to live that the code gives them.  That a key expires is an event of
    [Presence], whose keys live for eleven minutes; elsewhere nothing expires
    (a queue and its metadata do 31 days after the last insertion).  Scores are
    integers.
    The runtime (tokio, axum, TLS), what [start_server] reads from the
    environment, the CORS and compression layers, the connections to Redis and
    PostgreSQL, the statements of one database method interleaved with others,
    [chunk_persister.rs] (an empty file), the generated protobuf code, the
    demonstration in [client/src/main.rs], and the test utilities are left
    out. *)
From stdpp Require Export base list strings pretty gmap sets sorting.
From Stdlib Require Export Strings.Byte Ascii ZArith Lia.

Declare Scope denim_scope.
Delimit Scope denim_scope with denim.

(** ** Orders of rows *)

(** The order in which a scan without [ORDER BY] meets the rows: some order. *)
Class ScanOrder := {
  scan : ∀ {A}, list A → list A;
  scan_perm : ∀ {A} (l : list A), scan l ≡ₚ l;
}.

(** The order of insertion. *)
Definition in_order : ScanOrder := {| scan _ l := l; scan_perm _ _ := reflexivity _ |}.

(** ** Outcomes

    A Rust function that returns [Result<A, E>] and may panic ends in one of
    three ways. *)
Inductive outcome (E A : Type) : Type :=
| Ok (a : A)
| Err (e : E)
| Panic (why : string).
Arguments Ok {E A} a.
Arguments Err {E A} e.
Arguments Panic {E A} why.

Global Instance outcome_ret E : MRet (outcome E) := λ A a, Ok a.
Global Instance outcome_bind E : MBind (outcome E) := λ A B f m,
  match m with Ok a => f a | Err e => Err e | Panic w => Panic w end.
Global Instance outcome_fmap E : FMap (outcome E) := λ A B f m,
  match m with Ok a => Ok (f a) | Err e => Err e | Panic w => Panic w end.

(** [Option::ok_or] *)
Definition ok_or {E A} (e : E) (o : option A) : outcome E A :=
  match o with Some a => Ok a | None => Err e end.

(** [Option::expect] and [Option::unwrap] *)
Definition expect {E A} (why : string) (o : option A) : outcome E A :=
  match o with Some a => Ok a | None => Panic why end.

Definition is_ok {E A} (o : outcome E A) : bool :=
  match o with Ok _ => true | _ => false end.

Definition is_panic {E A} (o : outcome E A) : bool :=
  match o with Panic _ => true | _ => false end.

(** [Iterator::map(f).collect::<Result<Vec<_>, _>>()] *)
Fixpoint collect {E A B} (f : A → outcome E B) (l : list A) : outcome E (list B) :=
  match l with
  | [] => Ok []
  | x :: l => y ← f x; ys ← collect f l; Ok (y :: ys)
  end.

(** ** Bytes *)
Abbreviation byte := Byte.byte.
Abbreviation bytes := (list Byte.byte).

Global Instance byte_eq_dec : EqDecision byte := Byte.byte_eq_dec.
Global Program Instance byte_countable : Countable byte :=
  inj_countable Byte.to_N Byte.of_N _.
Next Obligation. apply Byte.of_to_N. Qed.

(** [vec![0; n]] *)
Definition zeroes (n : nat) : bytes := replicate n x00.

(** The length of a vector, as the [usize] the code computes with. *)
Definition len {A} (l : list A) : Z := Z.of_nat (length l).

Lemma len_nonneg {A} (l : list A) : (0 ≤ len l)%Z.
Proof. unfold len. lia. Qed.

Lemma len_nil {A} : len (@nil A) = 0%Z.
Proof. done. Qed.

Lemma len_cons {A} (x : A) l : len (x :: l) = (1 + len l)%Z.
Proof. unfold len. cbn [length]. lia. Qed.

Lemma len_app {A} (l k : list A) : len (l ++ k) = (len l + len k)%Z.
Proof. unfold len. rewrite length_app. lia. Qed.

Lemma len_zeroes n : len (zeroes n) = Z.of_nat n.
Proof. unfold len, zeroes. by rewrite length_replicate. Qed.

Lemma len_take {A} (n : nat) (l : list A) : (Z.of_nat n ≤ len l)%Z → len (take n l) = Z.of_nat n.
Proof. unfold len. rewrite length_take. lia. Qed.

Lemma len_drop {A} (n : nat) (l : list A) : (Z.of_nat n ≤ len l)%Z → len (drop n l) = (len l - Z.of_nat n)%Z.
Proof. unfold len. rewrite length_drop. lia. Qed.

(** ** Machine integers *)

Definition u64_max : Z := 2 ^ 64 - 1.
Definition i32_min : Z := - 2 ^ 31.
Definition i32_max : Z := 2 ^ 31 - 1.

Definition in_u64 (z : Z) : bool := (0 <=? z)%Z && (z <=? u64_max)%Z.
Definition in_i64 (z : Z) : bool := (- 2 ^ 63 <=? z)%Z && (z <=? 2 ^ 63 - 1)%Z.
Definition in_i32 (z : Z) : bool := (i32_min <=? z)%Z && (z <=? i32_max)%Z.
Definition in_u32 (z : Z) : bool := (0 <=? z)%Z && (z <=? 2 ^ 32 - 1)%Z.

(** [z as i32] wraps in two's complement. *)
Definition as_i32 (z : Z) : Z := ((z + 2 ^ 31) mod 2 ^ 32 - 2 ^ 31)%Z.

(** [z as u32] wraps. *)
Definition as_u32 (z : Z) : Z := (z mod 2 ^ 32)%Z.

(** Subtraction on [usize] and [i32] panics on overflow in the profile the
    crates are built and tested with. *)
Definition usize_sub {E} (a b : Z) : outcome E Z :=
  if (b <=? a)%Z then Ok (a - b)%Z else Panic "attempt to subtract with overflow".

Definition i32_dec {E} (a : Z) : outcome E Z :=
  if (a =? i32_min)%Z then Panic "attempt to subtract with overflow" else Ok (a - 1)%Z.

Lemma usize_sub_ok {E} a b : (b ≤ a)%Z → @usize_sub E a b = Ok (a - b)%Z.
Proof. intros. unfold usize_sub. by rewrite (proj2 (Z.leb_le _ _)). Qed.

Lemma usize_sub_not_err {E} a b e : @usize_sub E a b ≠ Err e.
Proof. unfold usize_sub. by case_match. Qed.

Lemma i32_dec_not_err {E} a e : @i32_dec E a ≠ Err e.
Proof. unfold i32_dec. by case_match. Qed.

Lemma as_i32_id z : in_i32 z = true → as_i32 z = z.
Proof.
  unfold in_i32, as_i32, i32_min, i32_max. intros H.
  rewrite Z.mod_small; lia.
Qed.

Lemma in_i32_as_i32 z : in_i32 (as_i32 z) = true.
Proof.
  unfold in_i32, as_i32, i32_min, i32_max.
  pose proof (Z.mod_pos_bound (z + 2 ^ 31) (2 ^ 32)). lia.
Qed.

(** ** Strings *)

(** stdpp keeps [+:+] folded; these open it one character at a time. *)
Lemma append_nil s : "" +:+ s = s.
Proof. done. Qed.

Lemma append_cons a s t : String a s +:+ t = String a (s +:+ t).
Proof. done. Qed.

(** [str::split(c)] for a one-character pattern: always at least one piece. *)
Fixpoint split_on (c : ascii) (s : string) : list string :=
  match s with
  | EmptyString => [""]
  | String a s =>
      if decide (a = c) then "" :: split_on c s
      else match split_on c s with
           | [] => [String a ""]
           | p :: ps => String a p :: ps
           end
  end.

Fixpoint string_mem (c : ascii) (s : string) : bool :=
  match s with
  | EmptyString => false
  | String a s => if decide (a = c) then true else string_mem c s
  end.

Lemma split_on_free c s : string_mem c s = false → split_on c s = [s].
Proof.
  induction s as [|a s IH]; [done|]. cbn. case_decide; [done|].
  intros Hs. by rewrite IH.
Qed.

Lemma split_on_app c s t :
  string_mem c s = false → split_on c (s +:+ String c t) = s :: split_on c t.
Proof.
  induction s as [|a s IH]; rewrite ?append_nil, ?append_cons; cbn.
  - intros _. by rewrite decide_True.
  - case_decide; [done|]. intros Hs. by rewrite IH.
Qed.

Lemma string_mem_app c s t :
  string_mem c (s +:+ t) = string_mem c s || string_mem c t.
Proof.
  induction s as [|a s IH]; rewrite ?append_nil, ?append_cons; cbn; [done|].
  by case_decide.
Qed.

(** *** Decimal numbers, as [Display] prints and [FromStr] reads them *)

Definition digit_of (a : ascii) : option N :=
  let n := N_of_ascii a in
  if ((48 <=? n)%N && (n <=? 57)%N) then Some (n - 48)%N else None.

Fixpoint digits_from (acc : N) (s : string) : option N :=
  match s with
  | EmptyString => Some acc
  | String a s => d ← digit_of a; digits_from (acc * 10 + d)%N s
  end.

(** A non-empty run of digits. *)
Definition parse_digits (s : string) : option N :=
  match s with EmptyString => None | _ => digits_from 0 s end.

(** [str::parse::<u64>]: an optional plus sign, digits, and the range check. *)
Definition parse_u64 (s : string) : option Z :=
  n ← match s with
      | String "+"%char s => parse_digits s
      | _ => parse_digits s
      end;
  if in_u64 (Z.of_N n) then Some (Z.of_N n) else None.

(** [str::parse] on a signed type with range check [ok]. *)
Definition parse_signed (ok : Z → bool) (s : string) : option Z :=
  z ← match s with
      | String "-"%char s => n ← parse_digits s; Some (- Z.of_N n)%Z
      | String "+"%char s => n ← parse_digits s; Some (Z.of_N n)
      | _ => n ← parse_digits s; Some (Z.of_N n)
      end;
  if ok z then Some z else None.
Definition parse_i64 : string → option Z := parse_signed in_i64.
Definition parse_i32 : string → option Z := parse_signed in_i32.

(** [str::parse::<u32>] *)
Definition parse_u32 (s : string) : option Z :=
  z ← parse_u64 s; if in_u32 z then Some z else None.

(** [to_string] of an integer. *)
Definition show (z : Z) : string := pretty z.

Lemma digit_of_pretty_char n : (n < 10)%N → digit_of (pretty_N_char n) = Some n.
Proof.
  intros H. destruct n as [|p]; [done|].
  do 4 (try destruct p as [p|p|]; try done; try lia).
Qed.

Lemma digits_from_go x s : digits_from 0 (pretty_N_go x s) = digits_from x s.
Proof.
  revert s. induction (N.lt_wf_0 x) as [x _ IH]. intros s.
  destruct (decide (x = 0)%N) as [->|Hx]; [by rewrite pretty_N_go_0|].
  rewrite pretty_N_go_step by lia.
  rewrite IH by (apply N.div_lt; lia). cbn.
  rewrite digit_of_pretty_char by (apply N.mod_lt; lia). cbn. f_equal.
  pose proof (N.div_mod x 10). lia.
Qed.

(** The first character of a printed number is a digit. *)
Lemma pretty_N_go_head x a s :
  is_Some (digit_of a) → ∃ b t, pretty_N_go x (String a s) = String b t ∧ is_Some (digit_of b).
Proof.
  revert a s. induction (N.lt_wf_0 x) as [x _ IH]. intros a s Ha.
  destruct (decide (x = 0)%N) as [->|Hx]; [rewrite pretty_N_go_0; eauto|].
  rewrite pretty_N_go_step by lia. apply IH; [apply N.div_lt; lia|].
  rewrite digit_of_pretty_char by (apply N.mod_lt; lia). eauto.
Qed.

Lemma pretty_N_shape (n : N) :
  ∃ b t, pretty n = String b t ∧ is_Some (digit_of b) ∧ parse_digits (String b t) = Some n.
Proof.
  unfold pretty, pretty_N. case_decide as Hn.
  { subst. exists "0"%char, "". split_and!; [done|by exists 0%N|done]. }
  pose proof (digits_from_go n "") as Hd.
  rewrite pretty_N_go_step by lia. rewrite pretty_N_go_step in Hd by lia.
  destruct (pretty_N_go_head (n / 10) (pretty_N_char (n mod 10)) "") as (b & t & Heq & Hb).
  { rewrite digit_of_pretty_char by (apply N.mod_lt; lia). eauto. }
  exists b, t. rewrite Heq in Hd |- *. split_and!; [done|done|]. exact Hd.
Qed.

Lemma digit_of_not a : is_Some (digit_of a) → a ≠ "-"%char ∧ a ≠ "+"%char ∧ a ≠ ":"%char ∧ a ≠ "."%char.
Proof. intros [x Hx]. split_and!; intros ->; by vm_compute in Hx. Qed.

Lemma show_nonneg z : (0 ≤ z)%Z → show z = pretty (Z.to_N z).
Proof. intros H. unfold show, pretty, pretty_Z. by destruct z. Qed.

Lemma show_neg z : (z < 0)%Z → show z = String "-" (pretty (Z.to_N (- z))).
Proof. intros H. unfold show, pretty at 1, pretty_Z. by destruct z. Qed.

Lemma parse_u64_show z : in_u64 z = true → parse_u64 (show z) = Some z.
Proof.
  intros H. assert (0 ≤ z)%Z by (unfold in_u64 in H; lia).
  rewrite show_nonneg by done.
  destruct (pretty_N_shape (Z.to_N z)) as (b & t & -> & Hb & Hp).
  apply digit_of_not in Hb as (_ & Hb & _). unfold parse_u64.
  assert (∀ X (u v : X), (match b with "+"%char => u | _ => v end) = v) as Hm.
  { intros X u v. destruct b as [[] [] [] [] [] [] [] []]; done. }
  rewrite Hm, Hp. cbn. rewrite Z2N.id by done. by rewrite H.
Qed.

Lemma parse_u32_show z : in_u32 z = true → parse_u32 (show z) = Some z.
Proof.
  intros Hz. unfold parse_u32. rewrite parse_u64_show; [cbn; by rewrite Hz|].
  unfold in_u32 in Hz. unfold in_u64, u64_max. lia.
Qed.

Lemma parse_signed_show ok z : ok z = true → parse_signed ok (show z) = Some z.
Proof.
  intros H. unfold parse_signed. destruct (decide (0 ≤ z)%Z).
  - rewrite show_nonneg by done.
    destruct (pretty_N_shape (Z.to_N z)) as (b & t & -> & Hb & Hp).
    apply digit_of_not in Hb as (Hb1 & Hb2 & _).
    assert (∀ X (u v w : X), (match b with "-"%char => u | "+"%char => v | _ => w end) = w) as Hm.
    { intros X u v w. destruct b as [[] [] [] [] [] [] [] []]; done. }
    rewrite Hm, Hp. cbn. rewrite Z2N.id by done. by rewrite H.
  - rewrite show_neg by lia.
    destruct (pretty_N_shape (Z.to_N (- z))) as (b & t & -> & Hb & Hp).
    rewrite Hp. cbn. rewrite Z2N.id by lia. by rewrite Z.opp_involutive, H.
Qed.

Lemma string_mem_go c x s :
  c ≠ "-"%char → (∀ n, (n < 10)%N → pretty_N_char n ≠ c) →
  string_mem c s = false → string_mem c (pretty_N_go x s) = false.
Proof.
  intros Hc Hd. revert s. induction (N.lt_wf_0 x) as [x _ IH]. intros s Hs.
  destruct (decide (x = 0)%N) as [->|Hx]; [by rewrite pretty_N_go_0|].
  rewrite pretty_N_go_step by lia. apply IH; [apply N.div_lt; lia|].
  cbn. rewrite decide_False by (apply Hd, N.mod_lt; lia). done.
Qed.

(** A printed number holds no separator. *)
Lemma string_mem_show c z :
  c ≠ "-"%char → digit_of c = None → string_mem c (show z) = false.
Proof.
  intros Hc Hd.
  assert (∀ n, (n < 10)%N → pretty_N_char n ≠ c) as Hd'.
  { intros n Hn <-. by rewrite digit_of_pretty_char in Hd. }
  assert (∀ n : N, string_mem c (pretty n) = false) as HN.
  { intros n. unfold pretty, pretty_N. case_decide; [|by apply string_mem_go].
    cbn. rewrite decide_False; [done|]. intros <-. done. }
  destruct (decide (0 ≤ z)%Z); [by rewrite show_nonneg|].
  rewrite show_neg by lia. cbn. rewrite decide_False by done. apply HN.
Qed.

Lemma show_inj z1 z2 : show z1 = show z2 → z1 = z2.
Proof. apply (inj pretty). Qed.

(** ** Automation *)

Create HintDb denim.
Create Rewrite HintDb denim_rw.
#[export] Hint Resolve len_nonneg in_i32_as_i32 : denim.
#[export] Hint Rewrite @len_nil @len_cons @len_app len_zeroes : denim_rw.

(** Splits the goal and hypotheses of a case analysis on a boolean test. *)
Ltac zbool :=
  repeat match goal with
  | H : (_ && _)%bool = true |- _ => apply andb_prop in H as [? ?]
  | H : (_ <=? _)%Z = true |- _ => apply Z.leb_le in H
  | H : (_ <=? _)%Z = false |- _ => apply Z.leb_gt in H
  | H : (_ <? _)%Z = true |- _ => apply Z.ltb_lt in H
  | H : (_ <? _)%Z = false |- _ => apply Z.ltb_ge in H
  | H : (_ =? _)%Z = true |- _ => apply Z.eqb_eq in H
  | H : (_ =? _)%Z = false |- _ => apply Z.eqb_neq in H
  end.

(** ** Lists *)

Lemma filter_ext_in {A} (P Q : A → Prop) `{∀ x, Decision (P x)} `{∀ x, Decision (Q x)} (l : list A) :
  (∀ x, x ∈ l → (P x ↔ Q x)) → filter P l = filter Q l.
Proof.
  induction l as [|x l IH]; [done|]. intros Hl. rewrite !filter_cons.
  assert (P x ↔ Q x) as Hx by (apply Hl; left). rewrite IH by (intros; apply Hl; by right).
  do 2 case_decide; tauto.
Qed.

Lemma filter_none {A} (P : A → Prop) `{∀ x, Decision (P x)} (l : list A) :
  (∀ x, x ∈ l → ¬ P x) → filter P l = [].
Proof.
  induction l as [|x l IH]; [done|]. intros Hl.
  rewrite filter_cons_False by (apply Hl; left). apply IH. intros y Hy. apply Hl. by right.
Qed.

Lemma filter_all {A} (P : A → Prop) `{∀ x, Decision (P x)} (l : list A) :
  (∀ x, x ∈ l → P x) → filter P l = l.
Proof.
  induction l as [|x l IH]; [done|]. intros Hl.
  rewrite filter_cons_True by (apply Hl; left). f_equal. apply IH. intros y Hy. apply Hl. by right.
Qed.

Lemma filter_fmap' {A B} (f : A → B) (P : B → Prop) `{∀ x, Decision (P x)} (l : list A) :
  filter P (map f l) = map f (filter (λ x, P (f x)) l).
Proof.
  induction l as [|x l IH]; [done|]. cbn [map]. rewrite !filter_cons, IH. by case_decide.
Qed.

(** Elements of a list are told apart by a key without duplicates. *)
Lemma NoDup_map_inj {A B} (f : A → B) (l : list A) x y :
  NoDup (map f l) → x ∈ l → y ∈ l → f x = f y → x = y.
Proof.
  induction l as [|z l IH]; [set_solver|]. cbn. rewrite NoDup_cons, !elem_of_cons.
  intros [Hz Hnd] [->|Hx] [->|Hy] Heq; [done| | |by apply IH];
    exfalso; apply Hz; apply list_elem_of_fmap; eauto.
Qed.

Lemma filter_key {A B} `{EqDecision B} (f : A → B) (l : list A) x :
  NoDup (map f l) → x ∈ l → filter (λ y, f y = f x) l = [x].
Proof.
  induction l as [|z l IH]; [set_solver|]. cbn [map]. rewrite NoDup_cons, elem_of_cons, filter_cons.
  intros [Hz Hnd] [->|Hx].
  - rewrite decide_True by done. f_equal. apply filter_none. intros y Hy Heq.
    apply Hz. rewrite <- Heq. by apply list_elem_of_fmap_2.
  - rewrite decide_False; [by apply IH|]. intros Heq. apply Hz. rewrite Heq.
    by apply list_elem_of_fmap_2.
Qed.

Lemma Forall_filter {A} (Q P : A → Prop) `{∀ x, Decision (P x)} (l : list A) :
  Forall Q l → Forall Q (filter P l).
Proof.
  rewrite !Forall_forall. intros Hl y Hy. apply list_elem_of_filter in Hy as [_ Hy]. by apply Hl.
Qed.

Lemma StronglySorted_filter {A} (R : A → A → Prop) (P : A → Prop) `{∀ x, Decision (P x)} (l : list A) :
  StronglySorted R l → StronglySorted R (filter P l).
Proof.
  induction 1 as [|x l Hs IH Hx]; [constructor|]. rewrite filter_cons. case_decide; [|done].
  constructor; [done|]. by apply Forall_filter.
Qed.
