(* ===== verification/Effects.v ===== *)
(** Programs over an interface of external operations.

    The code calls services it does not implement: a Redis server, a database,
    a source of random identifiers, a clock.  Such an interface is an indexed
    family [F] of commands; a Rust function that uses it is a [prog F E A], a
    tree whose leaves are the function's outcomes and whose nodes are the
    calls, the continuation receiving either the call's error or its reply (so
    both [?] and a [match] on the [Result] are expressible).  A handler gives
    the calls a meaning on some state; [sim] relates a handler of an unknown
    service to the handler of its documented behaviour. *)

From S2P Require Export Prelude.

Section prog.
Context (F : Type → Type) (E : Type).

Inductive prog (A : Type) : Type :=
| Ret (a : A)
| Throw (e : E)
| Crash (why : string)
| Call (X : Type) (c : F X) (k : E + X → prog A).
End prog.
Arguments Ret {F E A} a.
Arguments Throw {F E A} e.
Arguments Crash {F E A} why.
Arguments Call {F E A X} c k.

Fixpoint prog_bind {F E A B} (f : A → prog F E B) (p : prog F E A) : prog F E B :=
  match p with
  | Ret a => f a
  | Throw e => Throw e
  | Crash w => Crash w
  | Call c k => Call c (λ r, prog_bind f (k r))
  end.

Global Instance prog_ret F E : MRet (prog F E) := λ A, Ret.
Global Instance prog_mbind F E : MBind (prog F E) := λ A B, prog_bind.

(** A call followed by [?]. *)
Definition op {F E X} (c : F X) : prog F E X :=
  Call c (λ r, match r with inl e => Throw e | inr x => Ret x end).

(** [match p.await { Ok(x) => .., Err(e) => .. }]: a panic is not caught. *)
Fixpoint try_ {F E A} (p : prog F E A) : prog F E (E + A) :=
  match p with
  | Ret a => Ret (inr a)
  | Throw e => Ret (inl e)
  | Crash w => Crash w
  | Call c k => Call c (λ r, try_ (k r))
  end.

(** The outcome of a pure step, as a program. *)
Definition lift {F E A} (o : outcome E A) : prog F E A :=
  match o with Ok a => Ret a | Err e => Throw e | Panic w => Crash w end.

(** [for x in l { body }] threading an accumulator. *)
Fixpoint for_each {F E A B} (l : list A) (acc : B) (body : A → B → prog F E B) : prog F E B :=
  match l with
  | [] => Ret acc
  | x :: l => acc ← body x acc; for_each l acc body
  end.

(** ** Handlers *)

Definition handler (F : Type → Type) (E S : Type) : Type :=
  ∀ X, F X → S → outcome E X * S.

(** Runs a program.  A call that panics stops it. *)
Fixpoint interp {F E S A} (h : handler F E S) (p : prog F E A) (s : S) : outcome E A * S :=
  match p with
  | Ret a => (Ok a, s)
  | Throw e => (Err e, s)
  | Crash w => (Panic w, s)
  | Call c k =>
      match h _ c s with
      | (Ok x, s') => interp h (k (inr x)) s'
      | (Err e, s') => interp h (k (inl e)) s'
      | (Panic w, s') => (Panic w, s')
      end
  end.

(** Programs over one interface, run inside a larger one. *)
Fixpoint embed {F G E A} (i : ∀ X, F X → G X) (p : prog F E A) : prog G E A :=
  match p with
  | Ret a => Ret a
  | Throw e => Throw e
  | Crash w => Crash w
  | Call c k => Call (i _ c) (λ r, embed i (k r))
  end.

(** Each command run as a program of another interface. *)
Fixpoint expand {F G E A} (i : ∀ X, F X → prog G E X) (p : prog F E A) : prog G E A :=
  match p with
  | Ret a => Ret a
  | Throw e => Throw e
  | Crash w => Crash w
  | Call c k => prog_bind (λ r, expand i (k r)) (try_ (i _ c))
  end.
(** A program inside a larger interface whose commands answer an error as a
    value, as [r.map_err(..)] sees it. *)
Fixpoint as_value {F G E E' A} (i : ∀ X, F X → G (E + X)%type) (p : prog F E A) : prog G E' (E + A) :=
  match p with
  | Ret a => Ret (inr a)
  | Throw e => Ret (inl e)
  | Crash w => Crash w
  | Call c k => Call (i _ c) (λ r, match r with inl e => Throw e | inr r => as_value i (k r) end)
  end.
Definition valued {E E' A} (o : outcome E A) : outcome E' (E + A) :=
  match o with Ok a => Ok (inr a) | Err e => Ok (inl e) | Panic w => Panic w end.

Definition through {F G E S} (i : ∀ X, F X → prog G E X) (h : handler G E S) : handler F E S :=
  λ X c s, interp h (i X c) s.

Section interp_lemmas.
Context {F : Type → Type} {E S : Type} (h : handler F E S).

Lemma interp_bind {A B} (p : prog F E A) (f : A → prog F E B) s :
  interp h (p ≫= f) s =
  match interp h p s with
  | (Ok a, s') => interp h (f a) s'
  | (Err e, s') => (Err e, s')
  | (Panic w, s') => (Panic w, s')
  end.
Proof.
  revert s. induction p as [a|e|w|X c k IH]; intros s; try done.
  cbn. destruct (h X c s) as [[x|e|w] s']; [apply IH..|done].
Qed.

Lemma interp_bind_ok {A B} (p : prog F E A) (f : A → prog F E B) s a s' :
  interp h p s = (Ok a, s') → interp h (p ≫= f) s = interp h (f a) s'.
Proof. intros H. by rewrite interp_bind, H. Qed.

Lemma interp_op {X} (c : F X) s : interp h (op c) s = h _ c s.
Proof. cbn. by destruct (h X c s) as [[x|e|w] s']. Qed.

Lemma interp_op_bind {X A} (c : F X) (f : X → prog F E A) s :
  interp h (op c ≫= f) s =
  match h _ c s with
  | (Ok x, s') => interp h (f x) s'
  | (Err e, s') => (Err e, s')
  | (Panic w, s') => (Panic w, s')
  end.
Proof. by rewrite interp_bind, interp_op. Qed.

Lemma interp_try {A} (p : prog F E A) s :
  interp h (try_ p) s =
  match interp h p s with
  | (Ok a, s') => (Ok (inr a), s')
  | (Err e, s') => (Ok (inl e), s')
  | (Panic w, s') => (Panic w, s')
  end.
Proof.
  revert s. induction p as [a|e|w|X c k IH]; intros s; try done.
  cbn. destruct (h X c s) as [[x|e|w] s']; [apply IH..|done].
Qed.

Lemma interp_lift {A} (o : outcome E A) s : interp h (lift o) s = (o, s).
Proof. by destruct o. Qed.

(** A loop whose body always succeeds is the fold of its steps. *)
Lemma interp_for_each_ok {A B} (l : list A) (body : A → B → prog F E B)
    (step : A → B * S → B * S) :
  (∀ x acc s, x ∈ l → interp h (body x acc) s =
     let '(acc', s') := step x (acc, s) in (Ok acc', s')) →
  ∀ acc s, interp h (for_each l acc body) s =
    let '(acc', s') := fold_left (λ p x, step x p) l (acc, s) in (Ok acc', s').
Proof.
  induction l as [|x l IH]; intros Hb acc s; [done|].
  cbn [for_each fold_left]. rewrite interp_bind, Hb by set_solver.
  destruct (step x (acc, s)) as [acc' s']. apply IH. set_solver.
Qed.
End interp_lemmas.

Lemma interp_embed {F G E S A} (i : ∀ X, F X → G X) (h : handler G E S) (p : prog F E A) s :
  interp h (embed i p) s = interp (λ X c, h X (i X c)) p s.
Proof.
  revert s. induction p as [a|e|w|X c k IH]; intros s; try done.
  cbn. destruct (h X (i X c) s) as [[x|e|w] s']; [apply IH..|done].
Qed.

Lemma interp_expand {F G E S A} (i : ∀ X, F X → prog G E X) (h : handler G E S) (p : prog F E A) s :
  interp h (expand i p) s = interp (through i h) p s.
Proof.
  revert s. induction p as [a|e|w|X c k IH]; intros s; try done.
  cbn. change (prog_bind ?f ?q) with (q ≫= f). rewrite interp_bind, interp_try.
  change (through i h X c s) with (interp h (i X c) s).
  destruct (interp h (i X c) s) as [[x|e|w] s']; [apply IH..|done].
Qed.

(** Over a part of the state that [get] reads and [put] writes. *)
Lemma interp_as_value {F G E E' A S T} (i : ∀ X, F X → G (E + X)%type) (g : handler G E' T) (h : handler F E S)
    (get : T → S) (put : T → S → T) (p : prog F E A) (w : T) :
  (∀ X c w, g _ (i X c) w = (valued (h X c (get w)).1, put w (h X c (get w)).2)) →
  (∀ w s, get (put w s) = s) → (∀ w s s', put (put w s) s' = put w s') → (∀ w, put w (get w) = w) →
  interp g (as_value i p) w = (valued (interp h p (get w)).1, put w (interp h p (get w)).2).
Proof.
  intros Hg Hget Hput Hsame. revert w. induction p as [a|e|x|X c k IH]; intros w; cbn [as_value interp]; [by rewrite Hsame..|].
  rewrite Hg. destruct (h X c (get w)) as [[x|e|x] s]; cbn [valued fst snd]; [| |done]; by rewrite IH, Hget, Hput.
Qed.

(** ** Simulation

    [sim h ref view]: seen through [view], the unknown service [h] answers
    every call the way [ref] does.  Then every program behaves over [h] as it
    does over [ref]. *)
Definition sim {F E S T} (h : handler F E S) (ref : handler F E T) (view : S → T) : Prop :=
  ∀ X (c : F X) s, ref X c (view s) = prod_map id view (h X c s).

Lemma sim_refl {F E S} (h : handler F E S) : sim h h id.
Proof. intros X c s. change (id s) with s. by destruct (h X c s). Qed.

Lemma sim_interp {F E S T A} (h : handler F E S) (ref : handler F E T) (view : S → T)
    (p : prog F E A) s :
  sim h ref view →
  interp ref p (view s) = prod_map id view (interp h p s).
Proof.
  intros Hsim. revert s. induction p as [a|e|w|X c k IH]; intros s; try done.
  cbn. rewrite (Hsim X c s).
  destruct (h X c s) as [[x|e|w] s']; cbn; [apply IH..|done].
Qed.

(** What every call keeps, every program keeps. *)
Lemma interp_invariant {F E S A} (I : S → Prop) (h : handler F E S) (p : prog F E A) s :
  (∀ X (c : F X) s, I s → I (h X c s).2) → I s → I (interp h p s).2.
Proof.
  intros Hh. revert s. induction p as [a|e|w|X c k IH]; intros s Hs; try done.
  cbn. specialize (Hh X c s Hs). destruct (h X c s) as [[x|e|w] s']; [by apply IH..|done].
Qed.

(** *** What a program calls *)

Fixpoint calls {F E A} (Q : ∀ X, F X → Prop) (p : prog F E A) : Prop :=
  match p with
  | Call c k => Q _ c ∧ ∀ r, calls Q (k r)
  | _ => True
  end.

Section calls.
Context {F : Type → Type} {E : Type} (Q : ∀ X, F X → Prop).

Lemma calls_bind {A B} (p : prog F E A) (f : A → prog F E B) :
  calls Q p → (∀ a, calls Q (f a)) → calls Q (p ≫= f).
Proof. induction p as [a|e|w|X c k IH]; cbn; [auto|done|done|]. intros [Hc Hk] Hf. eauto. Qed.

Lemma calls_op {X} (c : F X) : Q _ c → calls Q (@op F E X c).
Proof. intros Hc. split; [done|]. by intros [e|x]. Qed.

Lemma calls_try {A} (p : prog F E A) : calls Q p → calls Q (try_ p).
Proof. induction p as [a|e|w|X c k IH]; cbn; [done..|]. intros [Hc Hk]. eauto. Qed.

Lemma calls_lift {A} (o : outcome E A) : calls Q (@lift F E A o).
Proof. by destruct o. Qed.
End calls.

(** A handler that keeps to a relation with another, call by call, does so in
    every program that makes these calls only. *)
Lemma interp_refines_on {F E S T A} (Q : ∀ X, F X → Prop) (R : S → T → Prop) (h : handler F E S) (ref : handler F E T)
    (p : prog F E A) s t :
  (∀ X (c : F X) s t, Q X c → R s t → ∃ s', h X c s = ((ref X c t).1, s') ∧ R s' (ref X c t).2) →
  calls Q p → R s t → ∃ s', interp h p s = ((interp ref p t).1, s') ∧ R s' (interp ref p t).2.
Proof.
  intros Hstep. revert s t. induction p as [a|e|w|X c k IH]; intros s t Hp HR; cbn; eauto.
  destruct Hp as [Hc Hk]. destruct (Hstep X c s t Hc HR) as (s' & -> & HR').
  destruct (ref X c t) as [[x|e|w] t']; cbn in *; eauto.
Qed.

Lemma interp_invariant_on {F E S A} (Q : ∀ X, F X → Prop) (I : S → Prop) (h : handler F E S) (p : prog F E A) s :
  (∀ X (c : F X) s, Q X c → I s → I (h X c s).2) → calls Q p → I s → I (interp h p s).2.
Proof.
  intros Hh. revert s. induction p as [a|e|w|X c k IH]; intros s Hp Hs; try done.
  cbn. destruct Hp as [Hc Hk]. specialize (Hh X c s Hc Hs).
  destruct (h X c s) as [[x|e|w] s']; [by apply IH..|done].
Qed.

Lemma calls_mono {F E A} (Q Q' : ∀ X, F X → Prop) (p : prog F E A) :
  (∀ X c, Q X c → Q' X c) → calls Q p → calls Q' p.
Proof. intros HQ. induction p as [a|e|w|X c k IH]; cbn; [done..|]. intros [Hc Hk]. auto. Qed.

Lemma calls_expand {F G E A} (Q : ∀ X, G X → Prop) (i : ∀ X, F X → prog G E X) (p : prog F E A) :
  (∀ X c, calls Q (i X c)) → calls Q (expand i p).
Proof.
  intros Hi. induction p as [a|e|w|X c k IH]; cbn; [done..|].
  change (prog_bind ?f ?q) with (q ≫= f). apply calls_bind; [by apply calls_try|done].
Qed.

Lemma calls_for_each {F E A B} (Q : ∀ X, F X → Prop) (l : list A) (acc : B) (body : A → B → prog F E B) :
  (∀ x acc, calls Q (body x acc)) → calls Q (for_each l acc body).
Proof.
  intros Hb. revert acc. induction l as [|x l IH]; intros acc; cbn; [done|].
  change (prog_bind ?f ?q) with (q ≫= f). by apply calls_bind.
Qed.

Lemma calls_any {F E A} (p : prog F E A) : calls (λ _ _, True) p.
Proof. induction p; cbn; auto. Qed.

Lemma interp_refines {F E S T A} (R : S → T → Prop) (h : handler F E S) (ref : handler F E T) (p : prog F E A) s t :
  (∀ X (c : F X) s t, R s t → ∃ s', h X c s = ((ref X c t).1, s') ∧ R s' (ref X c t).2) →
  R s t → ∃ s', interp h p s = ((interp ref p t).1, s') ∧ R s' (interp ref p t).2.
Proof. intros Hstep. apply (interp_refines_on (λ _ _, True)); [auto|apply calls_any]. Qed.

(** The form the components use: a run over the documented service transfers. *)
Lemma sim_run {F E S T A} (h : handler F E S) (ref : handler F E T) (view : S → T)
    (p : prog F E A) s r t :
  sim h ref view → interp ref p (view s) = (r, t) →
  ∃ s', interp h p s = (r, s') ∧ view s' = t.
Proof.
  intros Hsim H. rewrite (sim_interp _ _ _ _ _ Hsim) in H.
  destruct (interp h p s) as [r' s']. cbn in H. simplify_eq. eauto.
Qed.

#[export] Hint Rewrite @interp_op_bind @interp_lift : denim_rw.

(** One step of symbolic execution of a program whose next call is known. *)
Ltac istep := rewrite ?interp_op_bind, ?interp_op, ?interp_lift; cbn [interp op lift].

(** ** What every run returns

    [returns Q p]: whatever the service answers, a normal result of [p]
    satisfies [Q]. *)
Fixpoint returns {F E A} (Q : A → Prop) (p : prog F E A) : Prop :=
  match p with
  | Ret a => Q a
  | Throw _ | Crash _ => True
  | Call c k => ∀ r, returns Q (k r)
  end.

Lemma returns_sound {F E S A} (h : handler F E S) Q (p : prog F E A) s a s' :
  returns Q p → interp h p s = (Ok a, s') → Q a.
Proof.
  revert s. induction p as [b|e|w|X c k IH]; intros s Hr Hrun; cbn in *; simplify_eq; [done|].
  destruct (h X c s) as [[x|e|w] s1]; [by eapply IH..|done].
Qed.

Lemma returns_bind {F E A B} (Q : B → Prop) (p : prog F E A) (f : A → prog F E B) :
  returns (λ a, returns Q (f a)) p → returns Q (p ≫= f).
Proof. induction p as [b|e|w|X c k IH]; cbn; eauto. Qed.

Lemma returns_mono {F E A} (Q Q' : A → Prop) (p : prog F E A) :
  returns Q p → (∀ a, Q a → Q' a) → returns Q' p.
Proof. intros Hr HQ. induction p as [b|e|w|X c k IH]; cbn in *; eauto. Qed.

Lemma returns_any {F E A} (Q : A → Prop) (p : prog F E A) : (∀ a, Q a) → returns Q p.
Proof. intros HQ. induction p; cbn; eauto. Qed.

Lemma returns_try {F E A} (Q : E + A → Prop) (p : prog F E A) :
  (∀ e, Q (inl e)) → returns (λ a, Q (inr a)) p → returns Q (try_ p).
Proof. intros He Hr. induction p as [b|e|w|X c k IH]; cbn in *; eauto. Qed.

Lemma returns_lift {F E A} (Q : A → Prop) (o : outcome E A) :
  (∀ a, o = Ok a → Q a) → returns (F:=F) Q (lift o).
Proof. destruct o; cbn; eauto. Qed.

(** A step whose result does not matter. *)
Lemma returns_skip {F E A B} (Q : B → Prop) (p : prog F E A) (f : A → prog F E B) :
  (∀ a, returns Q (f a)) → returns Q (p ≫= f).
Proof. intros Hf. apply returns_bind, returns_any, Hf. Qed.
