(* ===== verification/WebApi.v ===== *)
(** The data the client and the server exchange ([common/src/web_api]).

    Strings are [string], [Vec<u8>] and [Box<[u8]>] are [bytes], the integer
    types are [Z] (their ranges are stated where the code depends on them). *)
From S2P Require Export Prelude.

(** ** Device capabilities *)

Inductive AccountCapabilityMode := PrimaryDevice | AnyDevice | AllDevices.

Global Instance AccountCapabilityMode_eq_dec : EqDecision AccountCapabilityMode.
Proof. solve_decision. Defined.

Module DeviceCapabilityType.
Inductive t :=
| Storage
| Transfer
| DeleteSync
| VersionedExpirationTimer
| StorageServiceRecordKeyRotation.

#[global] Instance t_eq_dec : EqDecision t.
Proof. solve_decision. Defined.

Definition VALUES : list t :=
  [Storage; Transfer; DeleteSync; VersionedExpirationTimer; StorageServiceRecordKeyRotation].

(** [From<i32>]: [todo!()] panics on every other number. *)
Definition from_i32 {E} (value : Z) : outcome E t :=
  match value with
  | 0 => Ok Storage
  | 1 => Ok Transfer
  | 2 => Ok DeleteSync
  | 3 => Ok VersionedExpirationTimer
  | 4 => Ok StorageServiceRecordKeyRotation
  | _ => Panic "not yet implemented"
  end%Z.

Definition into_i32 (c : t) : Z :=
  match c with
  | Storage => 0
  | Transfer => 1
  | DeleteSync => 2
  | VersionedExpirationTimer => 3
  | StorageServiceRecordKeyRotation => 4
  end.
End DeviceCapabilityType.
Abbreviation DeviceCapabilityType := DeviceCapabilityType.t.

Record DeviceCapability := {
  capability_name : string;
  account_capability_mode : AccountCapabilityMode;
  prevent_downgrade : bool;
  include_in_profile : bool;
}.

(** [DeviceCapabilityType::value] *)
Definition capability_value (c : DeviceCapabilityType) : DeviceCapability :=
  match c with
  | DeviceCapabilityType.Storage =>
      {| capability_name := "storage"; account_capability_mode := AnyDevice;
         prevent_downgrade := false; include_in_profile := false |}
  | DeviceCapabilityType.Transfer =>
      {| capability_name := "transfer"; account_capability_mode := PrimaryDevice;
         prevent_downgrade := false; include_in_profile := false |}
  | DeviceCapabilityType.DeleteSync =>
      {| capability_name := "deleteSync"; account_capability_mode := AllDevices;
         prevent_downgrade := true; include_in_profile := true |}
  | DeviceCapabilityType.VersionedExpirationTimer =>
      {| capability_name := "versionedExpirationTimer"; account_capability_mode := AllDevices;
         prevent_downgrade := true; include_in_profile := true |}
  | DeviceCapabilityType.StorageServiceRecordKeyRotation =>
      {| capability_name := "ssre2"; account_capability_mode := AllDevices;
         prevent_downgrade := true; include_in_profile := true |}
  end.

Record AccountAttributes := {
  aa_name : string;
  fetches_messages : bool;
  aa_registration_id : Z;
  aa_pni_registration_id : Z;
  capabilities : list DeviceCapabilityType;
  unidentified_access_key : bytes;
}.

(** ** Pre-key uploads *)

Record UploadSignedPreKey := {
  signed_key_id : Z;
  signed_public_key : bytes;
  signature : bytes;
}.

Record UploadPreKey := {
  key_id : Z;
  public_key : bytes;
}.

Record ApnToken := { apn_registration_id : string; voip_registration_id : string }.
Record GcmToken := { gcm_registration_id : string }.

Record RegistrationRequest := {
  reg_session_id : string;
  reg_recovery_password : string;
  reg_account_attributes : AccountAttributes;
  reg_require_atomic : bool;
  reg_skip_device_transfer : bool;
  reg_aci_identity_key : bytes;
  reg_pni_identity_key : bytes;
  reg_aci_signed_pre_key : UploadSignedPreKey;
  reg_pni_signed_pre_key : UploadSignedPreKey;
  reg_aci_pq_last_resort_pre_key : UploadSignedPreKey;
  reg_pni_pq_last_resort_pre_key : UploadSignedPreKey;
  reg_apn_token : option ApnToken;
  reg_gcm_token : option GcmToken;
}.

Record AccountIdentityResponse := {
  air_uuid : string;
  air_number : string;
  air_pni : string;
  air_username_hash : option bytes;
  air_storage_capable : bool;
}.

Record DeviceActivationRequest := {
  da_aci_signed_pre_key : UploadSignedPreKey;
  da_pni_signed_pre_key : UploadSignedPreKey;
  da_aci_pq_last_resort_pre_key : UploadSignedPreKey;
  da_pni_pq_last_resort_pre_key : UploadSignedPreKey;
}.

Record LinkDeviceRequest := {
  verification_code : string;
  account_attributes : AccountAttributes;
  device_activation_request : DeviceActivationRequest;
}.

Record PreKeyCount := { pk_count : Z; pk_pq_count : Z }.

Record DevicePreKeyBundle := {
  aci_signed_pre_key : UploadSignedPreKey;
  pni_signed_pre_key : UploadSignedPreKey;
  aci_pq_pre_key : UploadSignedPreKey;
  pni_pq_pre_key : UploadSignedPreKey;
}.

Record SetKeyRequest := {
  set_pre_key : option (list UploadPreKey);
  set_signed_pre_key : option UploadSignedPreKey;
  set_pq_pre_key : option (list UploadSignedPreKey);
  set_pq_last_resort_pre_key : option UploadSignedPreKey;
}.

Record PreKeyRequest := { request_service_id : string }.

Record PreKeyResponseItem := {
  item_device_id : Z;
  item_registration_id : Z;
  item_pre_key : option UploadPreKey;
  item_pq_pre_key : UploadSignedPreKey;
  item_signed_pre_key : UploadSignedPreKey;
}.

Record PreKeyResponse := {
  response_service_id : string;
  response_identity_key : bytes;
  devices : list PreKeyResponseItem;
}.

(** ** Messages *)

Record SignalMessage := {
  type_ : Z;
  destination_device_id : Z;
  destination_service_id : option string;
  destination_registration_id : Z;
  content : string;
}.

(** [signalservice::Envelope], the message generated from the protobuf file. *)
Record Envelope := {
  env_type : option Z;
  env_source_service_id : option string;
  env_source_device : option Z;
  env_destination_service_id : option string;
  env_timestamp : option Z;
  env_content : option bytes;
  env_server_guid : option string;
  env_server_timestamp : option Z;
  env_ephemeral : option bool;
  env_urgent : option bool;
  env_updated_pni : option string;
  env_story : option bool;
  env_reporting_token : option bytes;
}.

Inductive RegularPayload :=
| RegularSignalMessage (m : SignalMessage)
| RegularEnvelope (e : Envelope).

Inductive DeniablePayload :=
| DeniableSignalMessage (m : SignalMessage)
| DeniableEnvelope (e : Envelope)
| KeyRequest (r : PreKeyRequest)
| KeyResponse (r : PreKeyResponse).

(** A piece of a deniable payload, or a dummy of the same shape. *)
Record DenimChunk := { chunk : bytes; flags : Z }.

Definition is_dummy (c : DenimChunk) : bool := (flags c =? 1)%Z.
Definition is_final (c : DenimChunk) : bool := (flags c =? 2)%Z.

(** [Ord for DenimChunk]: [true] when [c] may stay before [d], that is when
    [c.cmp(d)] is not [Greater].  The order is descending in the flags. *)
Definition chunk_le (c d : DenimChunk) : bool := (flags d <=? flags c)%Z.

Abbreviation PayloadData := DenimChunk.

(** [PayloadData::new] *)
Definition payload_data_new (data : bytes) : PayloadData := {| chunk := data; flags := 0 |}.

Record DenimMessage (q_type : Type) := {
  regular_payload : RegularPayload;
  dm_chunks : list DenimChunk;
  dm_counter : option Z;
  dm_q : option q_type;
  dm_ballast : bytes;
}.
Arguments regular_payload {q_type} _.
Arguments dm_chunks {q_type} _.
Arguments dm_counter {q_type} _.
Arguments dm_q {q_type} _.
Arguments dm_ballast {q_type} _.

Record DenimMessages (q_type : Type) := {
  dms_messages : list (DenimMessage q_type);
  dms_online : bool;
  dms_urgent : bool;
  dms_timestamp : Z;
}.
Arguments dms_messages {q_type} _.
Arguments dms_online {q_type} _.
Arguments dms_urgent {q_type} _.
Arguments dms_timestamp {q_type} _.

(** ** Errors the device validators answer with *)

Record MismatchedDevicesError := { missing_devices : list Z; extra_devices : list Z }.
Record StaleDevicesError := { stale_devices : list Z }.

(** ** Decidable equality *)

Global Instance UploadSignedPreKey_eq_dec : EqDecision UploadSignedPreKey.
Proof. solve_decision. Defined.
Global Instance UploadPreKey_eq_dec : EqDecision UploadPreKey.
Proof. solve_decision. Defined.
Global Instance PreKeyRequest_eq_dec : EqDecision PreKeyRequest.
Proof. solve_decision. Defined.
Global Instance PreKeyResponseItem_eq_dec : EqDecision PreKeyResponseItem.
Proof. solve_decision. Defined.
Global Instance PreKeyResponse_eq_dec : EqDecision PreKeyResponse.
Proof. solve_decision. Defined.
Global Instance SignalMessage_eq_dec : EqDecision SignalMessage.
Proof. solve_decision. Defined.
Global Instance Envelope_eq_dec : EqDecision Envelope.
Proof. solve_decision. Defined.
Global Instance DeniablePayload_eq_dec : EqDecision DeniablePayload.
Proof. solve_decision. Defined.
Global Instance DenimChunk_eq_dec : EqDecision DenimChunk.
Proof. solve_decision. Defined.

(** ** Codecs

    [bincode] and [base64] are libraries of the ecosystem; the development
    uses them through these interfaces.  [Bincode] states the two documented
    facts the code relies on: the size of a serialized [Vec<DenimChunk>] with
    the default (fixed-width) configuration, and that deserializing a
    serialized value gives it back. *)

(** The sum of a list of numbers. *)
Definition sumZ (l : list Z) : Z := foldr Z.add 0%Z l.

(** Serialized size of a chunk: a [u64] length, the bytes, an [i32]. *)
Definition chunk_wire (c : DenimChunk) : Z := (12 + len (chunk c))%Z.
Definition chunks_wire (cs : list DenimChunk) : Z := (8 + sumZ (map chunk_wire cs))%Z.

Class Bincode := {
  serialize_chunks : list DenimChunk → bytes;
  serialize_chunk : DenimChunk → bytes;
  deserialize_chunk : bytes → option DenimChunk;
  serialize_payload : DeniablePayload → bytes;
  deserialize_payload : bytes → option DeniablePayload;
  serialize_regular : RegularPayload → bytes;
  serialize_envelope : Envelope → bytes;
  deserialize_envelope : bytes → option Envelope;
  serialize_chunks_length cs : len (serialize_chunks cs) = chunks_wire cs;
  deserialize_serialize_chunk c :
    in_i32 (flags c) = true → deserialize_chunk (serialize_chunk c) = Some c;
  deserialize_serialize_payload p : deserialize_payload (serialize_payload p) = Some p;
  deserialize_serialize_envelope e : deserialize_envelope (serialize_envelope e) = Some e;
  serialize_payload_nonempty p : serialize_payload p ≠ [];
}.

(** Standard base64: decoding inverts encoding, and the alphabet has none of
    the separators the code puts around encoded text. *)
Class Base64 := {
  b64_encode : bytes → string;
  b64_decode : string → option bytes;
  b64_decode_encode bs : b64_decode (b64_encode bs) = Some bs;
  b64_no_colon bs : string_mem ":" (b64_encode bs) = false;
  b64_no_space bs : string_mem " " (b64_encode bs) = false;
}.

Lemma sumZ_app l k : sumZ (l ++ k) = (sumZ l + sumZ k)%Z.
Proof. unfold sumZ. induction l as [|x l IH]; cbn [app foldr]; lia. Qed.

Lemma sumZ_cons x l : sumZ (x :: l) = (x + sumZ l)%Z.
Proof. done. Qed.

Lemma chunks_wire_nil : chunks_wire [] = 8%Z.
Proof. done. Qed.

Lemma chunks_wire_snoc cs c : chunks_wire (cs ++ [c]) = (chunks_wire cs + chunk_wire c)%Z.
Proof. unfold chunks_wire. rewrite map_app, sumZ_app. cbn. lia. Qed.

Lemma sum_chunk_wire_nonneg cs : (0 ≤ sumZ (map chunk_wire cs))%Z.
Proof.
  induction cs as [|c cs IH]; [done|].
  change (sumZ (map chunk_wire (c :: cs))) with (chunk_wire c + sumZ (map chunk_wire cs))%Z.
  pose proof (len_nonneg (chunk c)). unfold chunk_wire at 1. lia.
Qed.

Lemma chunks_wire_ge cs : (8 ≤ chunks_wire cs)%Z.
Proof. pose proof (sum_chunk_wire_nonneg cs). unfold chunks_wire. lia. Qed.

#[export] Hint Resolve chunks_wire_ge : denim.
#[export] Hint Rewrite chunks_wire_nil chunks_wire_snoc : denim_rw.
