(* ===== verification/Codecs.v ===== *)
(** Concrete codecs, one instance of each codec interface.

    [Bincode] and [Base64] (WebApi.v) are interfaces to libraries; the
    theorems hold for every instance.  The instances here show that the
    interfaces can be implemented, and are what the witnesses compute with:
    a self-delimiting binary encoding of the right size for chunk vectors, an
    injective encoding of payloads, and hexadecimal text for base64. *)
From S2P Require Export WebApi.

(** ** Payloads, through stdpp's [Countable] *)

Global Program Instance UploadSignedPreKey_countable : Countable UploadSignedPreKey :=
  inj_countable' (λ k, (signed_key_id k, signed_public_key k, signature k))
    (λ '(a, b, c), {| signed_key_id := a; signed_public_key := b; signature := c |}) _.
Next Obligation. by intros []. Qed.

Global Program Instance UploadPreKey_countable : Countable UploadPreKey :=
  inj_countable' (λ k, (key_id k, public_key k))
    (λ '(a, b), {| key_id := a; public_key := b |}) _.
Next Obligation. by intros []. Qed.

Global Program Instance PreKeyRequest_countable : Countable PreKeyRequest :=
  inj_countable' request_service_id (λ a, {| request_service_id := a |}) _.
Next Obligation. by intros []. Qed.

Global Program Instance PreKeyResponseItem_countable : Countable PreKeyResponseItem :=
  inj_countable' (λ i, (item_device_id i, item_registration_id i, item_pre_key i,
                        item_pq_pre_key i, item_signed_pre_key i))
    (λ '(a, b, c, d, e), {| item_device_id := a; item_registration_id := b; item_pre_key := c;
                            item_pq_pre_key := d; item_signed_pre_key := e |}) _.
Next Obligation. by intros []. Qed.

Global Program Instance PreKeyResponse_countable : Countable PreKeyResponse :=
  inj_countable' (λ r, (response_service_id r, response_identity_key r, devices r))
    (λ '(a, b, c), {| response_service_id := a; response_identity_key := b; devices := c |}) _.
Next Obligation. by intros []. Qed.

Global Program Instance SignalMessage_countable : Countable SignalMessage :=
  inj_countable' (λ m, (type_ m, destination_device_id m, destination_service_id m,
                        destination_registration_id m, content m))
    (λ '(a, b, c, d, e), {| type_ := a; destination_device_id := b; destination_service_id := c;
                            destination_registration_id := d; content := e |}) _.
Next Obligation. by intros []. Qed.

Global Program Instance Envelope_countable : Countable Envelope :=
  inj_countable'
    (λ v, ((env_type v, env_source_service_id v, env_source_device v, env_destination_service_id v),
           (env_timestamp v, env_content v, env_server_guid v, env_server_timestamp v),
           (env_ephemeral v, env_urgent v, env_updated_pni v, env_story v, env_reporting_token v)))
    (λ '((a, b, c, d), (e, f, g, h), (i, j, k, l, m)),
       {| env_type := a; env_source_service_id := b; env_source_device := c;
          env_destination_service_id := d; env_timestamp := e; env_content := f;
          env_server_guid := g; env_server_timestamp := h; env_ephemeral := i; env_urgent := j;
          env_updated_pni := k; env_story := l; env_reporting_token := m |}) _.
Next Obligation. by intros []. Qed.

Global Program Instance DeniablePayload_countable : Countable DeniablePayload :=
  inj_countable'
    (λ p, match p with
          | DeniableSignalMessage m => inl (inl m)
          | DeniableEnvelope e => inl (inr e)
          | KeyRequest r => inr (inl r)
          | KeyResponse r => inr (inr r)
          end)
    (λ s, match s with
          | inl (inl m) => DeniableSignalMessage m
          | inl (inr e) => DeniableEnvelope e
          | inr (inl r) => KeyRequest r
          | inr (inr r) => KeyResponse r
          end) _.
Next Obligation. by intros []. Qed.

Global Program Instance DenimChunk_countable : Countable DenimChunk :=
  inj_countable' (λ c, (chunk c, flags c)) (λ '(a, b), {| chunk := a; flags := b |}) _.
Next Obligation. by intros []. Qed.

(** The bits of a positive number, least significant first, one per byte. *)
Fixpoint bits_of (p : positive) : bytes :=
  match p with
  | xH => [x02]
  | xO p => x00 :: bits_of p
  | xI p => x01 :: bits_of p
  end.

Fixpoint of_bits (bs : bytes) : option positive :=
  match bs with
  | [x02] => Some xH
  | x00 :: bs => xO <$> of_bits bs
  | x01 :: bs => xI <$> of_bits bs
  | _ => None
  end.

Lemma of_bits_of p : of_bits (bits_of p) = Some p.
Proof. induction p as [p IH|p IH|]; cbn; by rewrite ?IH. Qed.

Definition enc `{Countable A} (a : A) : bytes := bits_of (encode a).
Definition dec `{Countable A} (bs : bytes) : option A := of_bits bs ≫= decode.

Lemma dec_enc `{Countable A} (a : A) : dec (enc a) = Some a.
Proof. unfold dec, enc. rewrite of_bits_of. cbn. apply decode_encode. Qed.

Lemma enc_nonempty `{Countable A} (a : A) : enc a ≠ [].
Proof. unfold enc. by destruct (encode a). Qed.

(** ** Chunk vectors: little-endian fixed-width integers, as bincode writes *)

Fixpoint le_bytes (n : nat) (z : Z) : bytes :=
  match n with
  | O => []
  | S n => default x00 (Byte.of_N (Z.to_N (z mod 256))) :: le_bytes n (z / 256)
  end.

Lemma len_le_bytes n z : len (le_bytes n z) = Z.of_nat n.
Proof. revert z. induction n as [|n IH]; intros z; cbn [le_bytes]; [done|]. rewrite len_cons, IH. lia. Qed.

Definition wire_chunk (c : DenimChunk) : bytes :=
  le_bytes 8 (len (chunk c)) ++ chunk c ++ le_bytes 4 (flags c).

Definition wire_chunks (cs : list DenimChunk) : bytes :=
  le_bytes 8 (len cs) ++ concat (map wire_chunk cs).

Lemma len_wire_chunks cs : len (wire_chunks cs) = chunks_wire cs.
Proof.
  unfold wire_chunks, chunks_wire. rewrite len_app, len_le_bytes.
  f_equal. generalize (len cs). intros _.
  induction cs as [|c cs IH]; [done|]. cbn [map concat].
  rewrite len_app, IH. change (sumZ (chunk_wire c :: ?l)) with (chunk_wire c + sumZ l)%Z.
  unfold wire_chunk, chunk_wire at 2. rewrite !len_app, !len_le_bytes. lia.
Qed.

Global Instance demo_bincode : Bincode := {|
  serialize_chunks := wire_chunks;
  serialize_chunk := enc;
  deserialize_chunk := dec;
  serialize_payload := enc;
  deserialize_payload := dec;
  serialize_regular r :=
    match r with RegularSignalMessage m => enc m | RegularEnvelope e => enc e end;
  serialize_envelope := enc;
  deserialize_envelope := dec;
  deserialize_serialize_envelope := dec_enc;
  serialize_chunks_length := len_wire_chunks;
  deserialize_serialize_chunk c _ := dec_enc c;
  deserialize_serialize_payload := dec_enc;
  serialize_payload_nonempty := enc_nonempty;
|}.

(** ** Text: two letters per byte *)

Definition hex_digit (n : N) : ascii := ascii_of_N (n + 97).
Definition of_hex_digit (a : ascii) : N := (N_of_ascii a - 97)%N.

Definition hex_byte (b : byte) : string :=
  String (hex_digit (Byte.to_N b / 16)) (String (hex_digit (Byte.to_N b mod 16)) "").

Definition hex_encode (bs : bytes) : string :=
  foldr (λ b s, hex_byte b +:+ s) "" bs.

Fixpoint hex_decode (s : string) : option bytes :=
  match s with
  | EmptyString => Some []
  | String a (String b s) =>
      x ← Byte.of_N (of_hex_digit a * 16 + of_hex_digit b);
      xs ← hex_decode s; Some (x :: xs)
  | _ => None
  end.

Lemma hex_encode_cons b bs :
  hex_encode (b :: bs) =
  String (hex_digit (Byte.to_N b / 16)) (String (hex_digit (Byte.to_N b mod 16)) (hex_encode bs)).
Proof. done. Qed.

Lemma hex_byte_decode b :
  Byte.of_N (of_hex_digit (hex_digit (Byte.to_N b / 16)) * 16 +
             of_hex_digit (hex_digit (Byte.to_N b mod 16))) = Some b.
Proof. by destruct b. Qed.

Lemma hex_decode_encode bs : hex_decode (hex_encode bs) = Some bs.
Proof.
  induction bs as [|b bs IH]; [done|]. rewrite hex_encode_cons. cbn [hex_decode].
  rewrite hex_byte_decode. cbn [mbind option_bind]. by rewrite IH.
Qed.

Lemma hex_no_sep c bs : (N_of_ascii c < 97)%N → string_mem c (hex_encode bs) = false.
Proof.
  intros Hc. induction bs as [|b bs IH]; [done|]. rewrite hex_encode_cons. cbn [string_mem].
  rewrite !decide_False; [done|..]; intros <-; revert Hc; by destruct b; vm_compute.
Qed.

Global Instance hex_base64 : Base64 := {|
  b64_encode := hex_encode;
  b64_decode := hex_decode;
  b64_decode_encode := hex_decode_encode;
  b64_no_colon bs := hex_no_sep ":" bs eq_refl;
  b64_no_space bs := hex_no_sep " " bs eq_refl;
|}.
