(* ===== verification/Float32.v ===== *)
(** Single-precision arithmetic, as far as the chunker uses it.

    [regular_payload_size: f32] and [q_value: f32] are IEEE 754 binary32
    numbers; the Standard Library's [SpecFloat] gives their exact semantics at
    precision 24 and maximal exponent 128. *)
From Stdlib Require Import Floats.SpecFloat.
From S2P Require Export Prelude.

Definition f32 : Type := spec_float.

Definition prec : Z := 24.
Definition emax : Z := 128.

(** [n as f32], rounding to nearest even. *)
Definition f32_of_usize (n : Z) : f32 := binary_normalize prec emax n 0 false.

(** [a * b] *)
Definition f32_mul (a b : f32) : f32 := SFmul prec emax a b.

(** [a.ceil()] *)
Definition f32_ceil (a : f32) : f32 :=
  match a with
  | S754_finite s m e =>
      if (0 <=? e)%Z then a
      else
        let d := (2 ^ (- e))%Z in
        let z := if s then (- (Zpos m / d))%Z else ((Zpos m + d - 1) / d)%Z in
        binary_normalize prec emax z 0 s
  | _ => a
  end.

(** [a as usize]: truncates and saturates; a NaN becomes 0. *)
Definition f32_as_usize (a : f32) : Z :=
  match a with
  | S754_zero _ | S754_nan | S754_infinity true | S754_finite true _ _ => 0
  | S754_infinity false => u64_max
  | S754_finite false m e =>
      if (0 <=? e)%Z then Z.min (Zpos m * 2 ^ e) u64_max else (Zpos m / 2 ^ (- e))%Z
  end.

(** The literal [0.6f32] is 10066330 / 2^24. *)
Definition f32_0_6 : f32 := S754_finite false 10066330 (-24).
Definition f32_1 : f32 := f32_of_usize 1.

Example ceil_of_100_times_0_6 : f32_as_usize (f32_ceil (f32_mul (f32_of_usize 100) f32_0_6)) = 61%Z.
Proof. vm_compute. reflexivity. Qed.

Lemma f32_as_usize_nonneg a : (0 ≤ f32_as_usize a)%Z.
Proof.
  destruct a as [s|[]| |[] m e]; cbn; try done.
  case_match; zbool; [|apply Z.div_pos; lia].
  apply Z.min_glb; [|done]. pose proof (Z.pow_nonneg 2 e). lia.
Qed.
#[export] Hint Resolve f32_as_usize_nonneg : denim.
