(* ===== verification/Chunk.v ===== *)
(** Cutting deniable payloads into chunks ([common/src/deniable]).

    A regular message of [n] bytes carries [q * n] bytes of chunks.  The
    [Chunker] fills exactly that space: with pending deniable data when there
    is some, with dummy chunks otherwise, and with a ballast of the bytes too
    few for a chunk.  The buffer the data comes from is the trait
    [DeniableSendingBuffer], the command family [bufferE]. *)
From S2P Require Export Prelude Effects WebApi Codecs Float32.

Local Open Scope Z_scope.

Definition EMPTY_VEC_SIZE : Z := 8.
Definition EMPTY_DENIMCHUNK_SIZE : Z := 12.

(** ** Chunk types *)

Module ChunkType.
Inductive t :=
| Data (n : Z)
| Dummy
| Final.

(** [From<i32>] *)
Definition from_i32 {E} (value : Z) : outcome E t :=
  if value =? 1 then Ok Dummy
  else if value =? 2 then Ok Final
  else if value <=? 0 then Ok (Data value)
  else Panic "internal error: entered unreachable code: ChunkType: not supported!".

(** [From<ChunkType> for i32] *)
Definition into_i32 (c : t) : Z :=
  match c with
  | Dummy => 1
  | Final => 2
  | Data value => value
  end.
End ChunkType.

(** ** The chunker *)

Record Chunker := { q_value : f32 }.

Definition Chunker_default : Chunker := {| q_value := f32_0_6 |}.
Definition Chunker_new (q_value : f32) : Chunker := {| q_value := q_value |}.
Definition set_q_value (self : Chunker) (q_value : f32) : Chunker := {| q_value := q_value |}.

(** [(regular_payload_size * self.q_value).ceil() as usize] *)
Definition total_free_space (self : Chunker) (regular_payload_size : f32) : Z :=
  f32_as_usize (f32_ceil (f32_mul regular_payload_size (q_value self))).

Definition get_free_space_in_bytes {E} (self : Chunker) (regular_payload_size : f32) : outcome E Z :=
  usize_sub (total_free_space self regular_payload_size) EMPTY_VEC_SIZE.

(** The trait [DeniableSendingBuffer]. *)
Inductive bufferE : Type → Type :=
| get_outgoing_message : bufferE (Z * bytes * Z)
| set_outgoing_message (message_id : option Z) (chunk_count : Z) (outgoing_message : bytes) : bufferE unit
| remove_outgoing_message (message_id : Z) : bufferE unit.

(** [buffer.get_outgoing_message().await.unwrap_or_default()] *)
Definition get_outgoing_or_default {E} : prog bufferE E (Z * bytes * Z) :=
  r ← try_ (op get_outgoing_message);
  Ret match r with inl _ => (0, [], 0) | inr m => m end.

Section create_chunks.
Context `{Bincode}.

(** The body of the loop in [create_chunks]: the new chunk, after the
    buffer was told what was taken from it. *)
Definition next_chunk {E} (free_space : Z) : prog bufferE E DenimChunk :=
  chunk_size ← lift (usize_sub free_space EMPTY_DENIMCHUNK_SIZE);
  '(id, msg, cnt) ← get_outgoing_or_default;
  if negb (len msg =? 0) && negb (chunk_size =? 0) then
    if len msg <=? chunk_size then
      _ ← op (remove_outgoing_message id);
      Ret {| chunk := msg; flags := ChunkType.into_i32 ChunkType.Final |}
    else
      cnt' ← lift (i32_dec cnt);
      _ ← op (set_outgoing_message (Some id) cnt' (drop (Z.to_nat chunk_size) msg));
      Ret {| chunk := take (Z.to_nat chunk_size) msg;
             flags := ChunkType.into_i32 (ChunkType.Data cnt) |}
  else
    Ret {| chunk := zeroes (Z.to_nat chunk_size);
           flags := ChunkType.into_i32 ChunkType.Dummy |}.

(** [while free_space >= EMPTY_DENIMCHUNK_SIZE { .. }]; running out of fuel
    is a panic of the model only. *)
Fixpoint create_chunks_loop {E} (fuel : nat) (total free_space : Z) (outgoing_chunks : list DenimChunk)
    : prog bufferE E (list DenimChunk * Z) :=
  match fuel with
  | O => Crash "out of fuel"
  | S fuel =>
      if EMPTY_DENIMCHUNK_SIZE <=? free_space then
        new_chunk ← next_chunk free_space;
        let outgoing_chunks := outgoing_chunks ++ [new_chunk] in
        free_space ← lift (usize_sub total (len (serialize_chunks outgoing_chunks)));
        create_chunks_loop fuel total free_space outgoing_chunks
      else Ret (outgoing_chunks, free_space)
  end.

Definition chunks_fuel (total : Z) : nat := S (Z.to_nat total).

Definition create_chunks {E} (self : Chunker) (regular_payload_size : f32)
    : prog bufferE E (list DenimChunk * Z) :=
  let total := total_free_space self regular_payload_size in
  free_space ← lift (usize_sub total EMPTY_VEC_SIZE);
  create_chunks_loop (chunks_fuel total) total free_space [].

(** [create_ordered_chunks]: the same loop over one payload held in local
    variables. *)
Fixpoint create_ordered_chunks_loop {E} (fuel : nat) (total free_space : Z)
    (result_chunks : list DenimChunk) (payload_data : bytes) (payload_data_count : Z)
    : outcome E (list DenimChunk * Z * PayloadData) :=
  match fuel with
  | O => Panic "out of fuel"
  | S fuel =>
      if EMPTY_DENIMCHUNK_SIZE <=? free_space then
        chunk_size ← usize_sub free_space EMPTY_DENIMCHUNK_SIZE;
        '(new_chunk, payload_data, payload_data_count) ←
          (if negb (len payload_data =? 0) && negb (chunk_size =? 0) then
             if len payload_data <=? chunk_size then
               Ok ({| chunk := payload_data; flags := ChunkType.into_i32 ChunkType.Final |},
                   [], payload_data_count)
             else
               count' ← i32_dec payload_data_count;
               Ok ({| chunk := take (Z.to_nat chunk_size) payload_data;
                      flags := ChunkType.into_i32 (ChunkType.Data payload_data_count) |},
                   drop (Z.to_nat chunk_size) payload_data, count')
           else
             Ok ({| chunk := zeroes (Z.to_nat chunk_size);
                    flags := ChunkType.into_i32 ChunkType.Dummy |},
                 payload_data, payload_data_count));
        let result_chunks := result_chunks ++ [new_chunk] in
        free_space ← usize_sub total (len (serialize_chunks result_chunks));
        create_ordered_chunks_loop fuel total free_space result_chunks payload_data payload_data_count
      else Ok (result_chunks, free_space, {| chunk := payload_data; flags := payload_data_count |})
  end.

Definition create_ordered_chunks {E} (self : Chunker) (regular_payload_size : f32)
    (payload : PayloadData) : outcome E (list DenimChunk * Z * PayloadData) :=
  let total := total_free_space self regular_payload_size in
  free_space ← usize_sub total EMPTY_VEC_SIZE;
  create_ordered_chunks_loop (chunks_fuel total) total free_space [] (chunk payload) (flags payload).
End create_chunks.

(** ** The chunks of one message fill its free space exactly

    Whatever buffer the chunks are cut from, and whatever it answers. *)

Section any_buffer.
Context `{Bincode} {E S : Type} (h : handler bufferE E S).

Lemma chunk_wire_eq c : chunk_wire c = 12 + len (chunk c).
Proof. done. Qed.

(** A new chunk fits in the free space and shrinks it. *)
Lemma next_chunk_fits free s c s' :
  interp h (next_chunk free) s = (Ok c, s') → 12 ≤ free → 12 ≤ chunk_wire c ≤ free.
Proof.
  intros Hr Hf. rewrite chunk_wire_eq. pose proof (len_nonneg (chunk c)).
  split; [lia|]. revert Hr. unfold next_chunk, usize_sub, EMPTY_DENIMCHUNK_SIZE.
  rewrite (proj2 (Z.leb_le _ _)) by done.
  rewrite interp_bind, interp_lift. rewrite interp_bind.
  destruct (interp h get_outgoing_or_default s) as [[[[id msg] cnt]|e|w] s1]; [|done..].
  pose proof (len_nonneg msg).
  destruct (negb (len msg =? 0) && negb (free - 12 =? 0)) eqn:Hb; cbn beta iota.
  - apply andb_prop in Hb as [_ Hc]. apply negb_true_iff in Hc. zbool.
    destruct (len msg <=? free - 12) eqn:Hl; zbool.
    + rewrite interp_op_bind. destruct (h _ _ _) as [[[]|e|w] s2]; [|done..].
      cbn. intros. simplify_eq. cbn. lia.
    + rewrite interp_bind, interp_lift. destruct (i32_dec cnt); [|done..].
      rewrite interp_op_bind. destruct (h _ _ _) as [[[]|e'|w] s2]; [|done..].
      cbn. intros. simplify_eq. cbn. rewrite len_take; lia.
  - cbn. intros. simplify_eq. cbn. rewrite len_zeroes. lia.
Qed.

Lemma loop_fills fuel total free out s cs fr s' :
  interp h (create_chunks_loop fuel total free out) s = (Ok (cs, fr), s') →
  free = total - chunks_wire out → 0 ≤ free →
  0 ≤ fr < 12 ∧ chunks_wire cs + fr = total.
Proof.
  revert free out s. induction fuel as [|fuel IH]; intros free out s Hr Hfree H0; [done|].
  cbn [create_chunks_loop] in Hr. unfold EMPTY_DENIMCHUNK_SIZE in Hr.
  destruct (12 <=? free) eqn:Hle; zbool; [|cbn in Hr; simplify_eq; lia].
  rewrite interp_bind in Hr.
  destruct (interp h (next_chunk free) s) as [[c|e|w] s1] eqn:Hc; [|done..].
  apply next_chunk_fits in Hc; [|lia].
  rewrite interp_bind, interp_lift, serialize_chunks_length, chunks_wire_snoc in Hr.
  unfold usize_sub in Hr.
  rewrite (proj2 (Z.leb_le _ _)) in Hr by lia.
  apply IH in Hr; [done| |lia]. rewrite chunks_wire_snoc. lia.
Qed.

Lemma create_chunks_ok self size s cs fr s' :
  interp h (create_chunks self size) s = (Ok (cs, fr), s') →
  0 ≤ fr < 12 ∧ chunks_wire cs + fr = total_free_space self size.
Proof.
  unfold create_chunks, usize_sub, EMPTY_VEC_SIZE. rewrite interp_bind, interp_lift.
  destruct (8 <=? total_free_space self size) eqn:Hle; [zbool|done].
  intros Hr. by apply loop_fills in Hr; [|rewrite chunks_wire_nil; lia|lia].
Qed.

(** The buffers the code is used with do not panic, and hand out counts that
    can still be decremented. *)
Definition buffer_ok : Prop :=
  (∀ X (c : bufferE X) s w, (h X c s).1 ≠ Panic w) ∧
  (∀ s id msg cnt, (h _ get_outgoing_message s).1 = Ok (id, msg, cnt) → i32_min < cnt).

Lemma next_chunk_no_panic free s w s' :
  buffer_ok → 12 ≤ free → interp h (next_chunk free) s ≠ (Panic w, s').
Proof.
  intros [Hnp Hcnt] Hf. unfold next_chunk, usize_sub, EMPTY_DENIMCHUNK_SIZE.
  rewrite (proj2 (Z.leb_le _ _)) by done.
  rewrite interp_bind, interp_lift, interp_bind.
  unfold get_outgoing_or_default. rewrite interp_bind, interp_try, interp_op.
  pose proof (Hcnt s) as Hc. pose proof (Hnp _ get_outgoing_message s) as Hn.
  destruct (h _ get_outgoing_message s) as [[[[id msg] cnt]|e|w'] s1]; cbn in Hc, Hn;
    [|cbn; done|by destruct (Hn w')].
  specialize (Hc _ _ _ eq_refl). cbn [interp].
  destruct (_ && _); [|done].
  destruct (len msg <=? free - 12).
  - rewrite interp_op_bind. pose proof (Hnp _ (remove_outgoing_message id) s1) as Hn'.
    destruct (h _ _ s1) as [[[]|e|w'] s2]; [done..|by destruct (Hn' w')].
  - rewrite interp_bind, interp_lift. unfold i32_dec.
    rewrite (proj2 (Z.eqb_neq _ _)) by lia. rewrite interp_op_bind.
    match goal with |- context [h _ ?c s1] => pose proof (Hnp _ c s1) as Hn' end.
    destruct (h _ _ s1) as [[[]|e|w'] s2]; [done..|by destruct (Hn' w')].
Qed.

Lemma loop_no_panic fuel total free out s w s' :
  buffer_ok → free = total - chunks_wire out → 0 ≤ free → (Z.to_nat free < fuel)%nat →
  interp h (create_chunks_loop fuel total free out) s ≠ (Panic w, s').
Proof.
  intros Hok. revert free out s. induction fuel as [|fuel IH]; intros free out s Hfree H0 Hfuel; [lia|].
  cbn [create_chunks_loop]. unfold EMPTY_DENIMCHUNK_SIZE.
  destruct (12 <=? free) eqn:Hle; zbool; [|done].
  rewrite interp_bind.
  destruct (interp h (next_chunk free) s) as [[c|e|w'] s1] eqn:Hc; [|done|].
  - apply next_chunk_fits in Hc; [|lia].
    rewrite interp_bind, interp_lift, serialize_chunks_length, chunks_wire_snoc.
    unfold usize_sub. rewrite (proj2 (Z.leb_le _ _)) by lia.
    apply IH; rewrite ?chunks_wire_snoc; lia.
  - by apply next_chunk_no_panic in Hc.
Qed.

Lemma create_chunks_no_panic self size s w s' :
  buffer_ok → 8 ≤ total_free_space self size →
  interp h (create_chunks self size) s ≠ (Panic w, s').
Proof.
  intros Hok Ht. unfold create_chunks, usize_sub, EMPTY_VEC_SIZE.
  rewrite interp_bind, interp_lift, (proj2 (Z.leb_le _ _)) by done.
  apply loop_no_panic; [done|rewrite chunks_wire_nil; lia|lia|unfold chunks_fuel; lia].
Qed.
End any_buffer.

(** ** Cutting a queue of messages

    The specification of a sending buffer: a queue of identified messages,
    each with the count its next data chunk carries.  [no_message] is the error
    of an empty one. *)

Abbreviation sending_queue := (list (Z * bytes * Z)).

Section fifo.
Context (no_message : string).

Definition fifo_buffer : handler bufferE string sending_queue := λ X c q,
  match c in bufferE X return outcome string X * sending_queue with
  | get_outgoing_message =>
      (match q with [] => Err no_message | m :: _ => Ok m end, q)
  | set_outgoing_message (Some id) cnt msg =>
      (Ok tt, map (λ x, if x.1.1 =? id then (id, msg, cnt) else x) q)
  | set_outgoing_message None cnt msg => (Ok tt, q ++ [(0, msg, cnt)])
  | remove_outgoing_message id => (Ok tt, filter (λ x, x.1.1 ≠ id) q)
  end.

Definition q_id (x : Z * bytes * Z) : Z := x.1.1.
Definition q_msg (x : Z * bytes * Z) : bytes := x.1.2.

(** Messages are not empty, have distinct ids, and counts far enough from the
    least [i32] to be cut to single bytes. *)
Definition sendable (q : sending_queue) : Prop :=
  NoDup (map q_id q) ∧ Forall (λ '(id, msg, cnt), msg ≠ [] ∧ i32_min + len msg < cnt) q.

(** In-order reassembly, with the bytes of an unfinished message: the
    specification of a receiver. *)
Fixpoint absorb (acc : bytes) (cs : list DenimChunk) : list bytes * bytes :=
  match cs with
  | [] => ([], acc)
  | c :: cs =>
      if is_dummy c then absorb acc cs
      else if is_final c then
        let '(done, acc') := absorb [] cs in ((acc ++ chunk c) :: done, acc')
      else absorb (acc ++ chunk c) cs
  end.

Lemma absorb_app acc cs ds :
  absorb acc (cs ++ ds) =
  let '(done1, acc1) := absorb acc cs in
  let '(done2, acc2) := absorb acc1 ds in (done1 ++ done2, acc2).
Proof.
  revert acc. induction cs as [|c cs IH]; intros acc; cbn.
  - by destruct (absorb acc ds).
  - destruct (is_dummy c); [apply IH|]. destruct (is_final c); [|apply IH].
    rewrite IH. destruct (absorb [] cs) as [d1 a1], (absorb a1 ds). done.
Qed.

(** Two chunk streams are the same to every receiver. *)
Definition same_stream (cs ds : list DenimChunk) : Prop := ∀ acc, absorb acc cs = absorb acc ds.

Global Instance same_stream_equiv : Equivalence same_stream.
Proof.
  split; [by intros cs acc|by intros cs ds Heq acc|].
  intros cs ds es H1 H2 acc. by rewrite H1.
Qed.

Global Instance same_stream_app : Proper (same_stream ==> same_stream ==> same_stream) app.
Proof.
  intros cs cs' Hc ds ds' Hd acc. rewrite !absorb_app, Hc.
  destruct (absorb acc cs') as [d1 a1]. by rewrite Hd.
Qed.

Global Instance same_stream_cons c : Proper (same_stream ==> same_stream) (cons c).
Proof. intros cs ds Heq. change (same_stream ([c] ++ cs) ([c] ++ ds)). by rewrite Heq. Qed.

(** The messages of a queue as if each was sent in one chunk. *)
Definition whole (msgs : list bytes) : list DenimChunk :=
  map (λ m, {| chunk := m; flags := 2 |}) msgs.

Lemma same_stream_nil cs q : same_stream (cs ++ whole (map q_msg q)) (whole []) → q = [].
Proof.
  intros Heq. specialize (Heq []). rewrite absorb_app in Heq.
  destruct (absorb [] cs) as [d a]. destruct q as [|x q]; [done|]. cbn in Heq.
  destruct (absorb [] _) as [d' a']. simplify_eq. by destruct d.
Qed.

Lemma absorb_whole msgs : absorb [] (whole msgs) = (msgs, []).
Proof. unfold whole. induction msgs as [|m ms IH]; [done|]. cbn. by rewrite IH. Qed.

(** The next chunk and the queue it leaves. *)
Definition cut (free : Z) (q : sending_queue) : DenimChunk * sending_queue :=
  let n := Z.to_nat (free - 12) in
  match q with
  | (id, msg, cnt) :: q' =>
      if free =? 12 then ({| chunk := []; flags := 1 |}, q)
      else if len msg <=? free - 12 then ({| chunk := msg; flags := 2 |}, q')
      else ({| chunk := take n msg; flags := cnt |}, (id, drop n msg, cnt - 1) :: q')
  | [] => ({| chunk := zeroes n; flags := 1 |}, [])
  end.

Lemma map_other (id : Z) (y : Z * bytes * Z) q :
  id ∉ map q_id q → map (λ x, if x.1.1 =? id then y else x) q = q.
Proof.
  induction q as [|x q IH]; [done|]. cbn. intros Hn. apply not_elem_of_cons in Hn as [Hx Hq].
  unfold q_id in Hx. rewrite (proj2 (Z.eqb_neq _ _)) by done. by rewrite IH.
Qed.

Lemma filter_other (id : Z) (q : sending_queue) :
  id ∉ map q_id q → filter (λ x, x.1.1 ≠ id) q = q.
Proof.
  induction q as [|x q IH]; [done|]. cbn [map]. intros Hn.
  apply not_elem_of_cons in Hn as [Hx Hq]. unfold q_id in Hx.
  rewrite filter_cons_True by done. by rewrite IH.
Qed.

Lemma next_chunk_fifo `{Bincode} free q :
  sendable q → 12 ≤ free →
  interp fifo_buffer (next_chunk free) q = (Ok (cut free q).1, (cut free q).2).
Proof.
  intros [Hnd Hq] Hf. unfold next_chunk, usize_sub, EMPTY_DENIMCHUNK_SIZE.
  rewrite (proj2 (Z.leb_le _ _)) by done. rewrite interp_bind, interp_lift, interp_bind.
  unfold get_outgoing_or_default. rewrite interp_bind, interp_try, interp_op.
  destruct q as [|[[id msg] cnt] q]; [done|].
  cbn [fifo_buffer interp cut]. apply Forall_cons in Hq as [[Hmsg Hcnt] Hq].
  cbn in Hnd. apply NoDup_cons in Hnd as [Hid Hnd]. cbn in Hid.
  assert (0 < len msg) as Hlen by (destruct msg; [done|rewrite len_cons; pose proof (len_nonneg msg); lia]).
  rewrite (proj2 (Z.eqb_neq _ _)) by lia. cbn [negb andb].
  destruct (free =? 12) eqn:Hf12; zbool.
  { subst. cbn. done. }
  rewrite (proj2 (Z.eqb_neq _ _)) by lia. cbn [negb].
  destruct (len msg <=? free - 12) eqn:Hl; zbool.
  - rewrite interp_op_bind. cbn -[filter]. rewrite filter_cons_False by (cbn; tauto).
    by rewrite filter_other.
  - rewrite interp_bind, interp_lift. unfold i32_dec.
    rewrite (proj2 (Z.eqb_neq _ _)) by lia. rewrite interp_op_bind. cbn.
    by rewrite Z.eqb_refl, map_other.
Qed.

Lemma cut_sendable free q : 12 ≤ free → sendable q → sendable (cut free q).2.
Proof.
  intros Hf Hs. destruct q as [|[[id msg] cnt] q]; [done|]. cbn.
  destruct (free =? 12) eqn:Hf12; [done|]. destruct Hs as [Hnd Hq].
  apply NoDup_cons in Hnd as [Hid Hnd]. apply Forall_cons in Hq as [[Hm Hc] Hq].
  destruct (len msg <=? free - 12) eqn:Hl; zbool; [done|].
  split; [by apply NoDup_cons|]. apply Forall_cons. split; [|done].
  assert (len (drop (Z.to_nat (free - 12)) msg) = len msg - (free - 12)) as Hd.
  { rewrite len_drop; lia. }
  split; [|lia]. intros Hnil. rewrite Hnil, len_nil in Hd. lia.
Qed.

(** No byte is lost, duplicated or reordered by a cut. *)
Lemma cut_same_stream free q :
  (∀ x, x ∈ q → x.2 ≤ 0) →
  same_stream ((cut free q).1 :: whole (map q_msg (cut free q).2)) (whole (map q_msg q)).
Proof.
  intros Hcnt acc. destruct q as [|[[id msg] cnt] q]; cbn; [done|].
  assert (cnt ≤ 0) by (apply (Hcnt (id, msg, cnt)); left).
  destruct (free =? 12) eqn:Hf12; cbn; [done|].
  destruct (len msg <=? free - 12) eqn:Hl; cbn; [done|].
  unfold is_dummy, is_final. cbn. rewrite !(proj2 (Z.eqb_neq cnt _)) by lia. cbn.
  by rewrite <- app_assoc, take_drop.
Qed.

(** The data chunks of a message carry descending flags; [b] bounds the flag
    of the next one. *)
Fixpoint well_flagged (b : Z) (cs : list DenimChunk) : Prop :=
  match cs with
  | [] => True
  | c :: cs =>
      if is_dummy c then well_flagged b cs
      else if is_final c then well_flagged 0 cs
      else i32_min ≤ flags c ≤ b ∧ well_flagged (flags c) cs
  end.

Definition head_count (q : sending_queue) : Z := match q with [] => 0 | x :: _ => x.2 end.

(** A stream a queue in this state may still produce. *)
Definition continues (q : sending_queue) (cs : list DenimChunk) : Prop :=
  ∀ b, head_count q ≤ b → b ≤ 0 → well_flagged b cs.

Lemma cut_continues free q ds :
  sendable q → (∀ x, x ∈ q → x.2 ≤ 0) → continues (cut free q).2 ds → continues q ((cut free q).1 :: ds).
Proof.
  intros [_ Hs] Hc Hds b Hb Hb0. destruct q as [|[[id msg] cnt] q]; cbn in *; [by apply Hds|].
  assert (cnt ≤ 0) by (apply (Hc (id, msg, cnt)); left).
  apply Forall_cons in Hs as [[_ Hcnt] _].
  destruct (free =? 12) eqn:Hf12; cbn in *; [by apply Hds|].
  destruct (len msg <=? free - 12) eqn:Hl; cbn in *.
  - apply Hds; [|done]. destruct q as [|x q]; cbn; [done|]. apply (Hc x). right. left.
  - unfold is_dummy, is_final. cbn. rewrite !(proj2 (Z.eqb_neq cnt _)) by lia.
    pose proof (len_nonneg msg). split; [lia|]. apply Hds; cbn; lia.
Qed.

Lemma cut_counts free q :
  (∀ x, x ∈ q → x.2 ≤ 0) → ∀ x, x ∈ (cut free q).2 → x.2 ≤ 0.
Proof.
  intros Hc. destruct q as [|[[id msg] cnt] q]; cbn; [set_solver|].
  assert (cnt ≤ 0) by (apply (Hc (id, msg, cnt)); left).
  repeat case_match; cbn in *; simplify_eq; intros x Hx.
  - by apply Hc.
  - apply Hc. by right.
  - apply elem_of_cons in Hx as [->|Hx]; [cbn; lia|]. apply Hc. by right.
Qed.

(** What one run of the loop does to a queue. *)
Record filled (free : Z) (q : sending_queue) (cs : list DenimChunk) (q' : sending_queue) : Prop := {
  filled_sendable : sendable q';
  filled_counts : ∀ x, x ∈ q' → x.2 ≤ 0;
  filled_conserved : same_stream (cs ++ whole (map q_msg q')) (whole (map q_msg q));
  filled_flags ds : continues q' ds → continues q (cs ++ ds);
  filled_busy : q' ≠ [] → Forall (λ c, is_dummy c = true → chunk c = []) cs;
}.

Lemma loop_fifo `{Bincode} fuel total free out q :
  sendable q → (∀ x, x ∈ q → x.2 ≤ 0) →
  free = total - chunks_wire out → 0 ≤ free → (Z.to_nat free < fuel)%nat →
  ∃ cs fr q', interp fifo_buffer (create_chunks_loop fuel total free out) q = (Ok (out ++ cs, fr), q')
              ∧ filled free q cs q'.
Proof.
  revert free out q. induction fuel as [|fuel IH]; intros free out q Hs Hc Hfree H0 Hfuel; [lia|].
  cbn [create_chunks_loop]. unfold EMPTY_DENIMCHUNK_SIZE.
  destruct (12 <=? free) eqn:Hle; zbool.
  2: { exists [], free, q. rewrite app_nil_r. split; [done|].
       split; [done..|constructor]. }
  pose proof (next_chunk_fifo free q Hs Hle) as Hnc.
  pose proof (next_chunk_fits _ _ _ _ _ Hnc Hle) as Hfit.
  rewrite (interp_bind_ok _ _ _ _ _ _ Hnc).
  rewrite interp_bind, interp_lift, serialize_chunks_length, chunks_wire_snoc.
  unfold usize_sub. rewrite (proj2 (Z.leb_le _ _)) by lia.
  destruct (IH (total - (chunks_wire out + chunk_wire (cut free q).1)) (out ++ [(cut free q).1])
              (cut free q).2) as (cs & fr & q' & Hrun & Hfill).
  { by apply cut_sendable. } { by apply cut_counts. }
  { rewrite chunks_wire_snoc. lia. } { lia. } { lia. }
  exists ((cut free q).1 :: cs), fr, q'. split; [by rewrite Hrun, <- app_assoc|].
  destruct Hfill as [Hs' Hc' Hcons Hflags Hbusy]. split; [done..| | |].
  - cbn [app]. by rewrite Hcons, cut_same_stream.
  - intros ds Hds. cbn [app]. by apply cut_continues, Hflags.
  - intros Hq'. apply Forall_cons. split; [|by apply Hbusy].
    (* a dummy with content is only cut when the queue is already empty *)
    destruct q as [|[[id msg] cnt] q]; cbn.
    + exfalso. apply Hq'. cbn in Hcons.
      by apply same_stream_nil in Hcons.
    + destruct (free =? 12); [done|].
      assert (cnt ≤ 0) by (apply (Hc (id, msg, cnt)); left).
      destruct (len msg <=? free - 12); [done|]. cbn. intros Hd.
      unfold is_dummy in Hd. cbn in Hd. zbool. lia.
Qed.

(** ** Progress over several messages *)

Definition queue_bytes (q : sending_queue) : Z := sumZ (map (len ∘ q_msg) q).

Lemma queue_bytes_cons x q : queue_bytes (x :: q) = len (q_msg x) + queue_bytes q.
Proof. done. Qed.

Arguments queue_bytes : simpl never.

Lemma queue_bytes_nonneg q : 0 ≤ queue_bytes q.
Proof.
  induction q as [|x q IH]; [done|]. rewrite queue_bytes_cons.
  pose proof (len_nonneg (q_msg x)). lia.
Qed.

Lemma cut_bytes free q :
  12 ≤ free → sendable q → queue_bytes (cut free q).2 ≤ queue_bytes q ∧
  (12 < free → q ≠ [] → queue_bytes (cut free q).2 < queue_bytes q).
Proof.
  intros Hf [_ Hq]. destruct q as [|[[id msg] cnt] q]; cbn; [done|].
  apply Forall_cons in Hq as [[Hm _] _].
  assert (0 < len msg) by (destruct msg; [done|rewrite len_cons; pose proof (len_nonneg msg); lia]).
  destruct (free =? 12) eqn:Hf12; zbool; cbn; [rewrite queue_bytes_cons; split; lia|].
  destruct (len msg <=? free - 12) eqn:Hl; zbool; cbn; rewrite !queue_bytes_cons; cbn;
    [split; intros; lia|].
  rewrite len_drop by lia. split; intros; lia.
Qed.

Lemma loop_fifo_bytes `{Bincode} fuel total free out q r q' :
  sendable q → interp fifo_buffer (create_chunks_loop fuel total free out) q = (Ok r, q') →
  free = total - chunks_wire out → 0 ≤ free →
  queue_bytes q' ≤ queue_bytes q ∧ (12 < free → q ≠ [] → queue_bytes q' < queue_bytes q).
Proof.
  revert free out q. induction fuel as [|fuel IH]; intros free out q Hs Hrun Hfree H0; [done|].
  cbn [create_chunks_loop] in Hrun. unfold EMPTY_DENIMCHUNK_SIZE in Hrun.
  destruct (12 <=? free) eqn:Hle; zbool; [|cbn in Hrun; simplify_eq; split; lia].
  pose proof (next_chunk_fifo free q Hs Hle) as Hnc.
  pose proof (next_chunk_fits _ _ _ _ _ Hnc Hle) as Hfit.
  rewrite (interp_bind_ok _ _ _ _ _ _ Hnc) in Hrun.
  rewrite interp_bind, interp_lift, serialize_chunks_length, chunks_wire_snoc in Hrun.
  unfold usize_sub in Hrun. rewrite (proj2 (Z.leb_le _ _)) in Hrun by lia.
  apply IH in Hrun; [|by apply cut_sendable|rewrite chunks_wire_snoc; lia|lia].
  destruct (cut_bytes free q Hle Hs) as [Hb Hb']. split; [lia|].
  intros Hlt Hne. specialize (Hb' Hlt Hne). lia.
Qed.

Lemma create_chunks_fifo `{Bincode} self size q :
  sendable q → (∀ x, x ∈ q → x.2 ≤ 0) → 8 ≤ total_free_space self size →
  ∃ cs fr q', interp fifo_buffer (create_chunks self size) q = (Ok (cs, fr), q') ∧
    filled (total_free_space self size - 8) q cs q' ∧
    queue_bytes q' ≤ queue_bytes q ∧
    (20 < total_free_space self size → q ≠ [] → queue_bytes q' < queue_bytes q).
Proof.
  intros Hs Hc Ht.
  destruct (loop_fifo (chunks_fuel (total_free_space self size)) (total_free_space self size)
              (total_free_space self size - 8) [] q) as (cs & fr & q' & Hrun & Hf);
    [done|done|done|lia|unfold chunks_fuel; lia|].
  pose proof (loop_fifo_bytes _ _ _ _ _ _ _ Hs Hrun) as Hb.
  exists cs, fr, q'. split_and!; [|done|..].
  - unfold create_chunks, usize_sub, EMPTY_VEC_SIZE.
    rewrite interp_bind, interp_lift, (proj2 (Z.leb_le _ _)) by done. exact Hrun.
  - apply Hb; rewrite ?chunks_wire_nil; lia.
  - intros. apply Hb; rewrite ?chunks_wire_nil; try lia. done.
Qed.

(** A client that sends one regular message of each of the given sizes: the
    chunks of each message, in order. *)
Fixpoint send_all `{Bincode} (self : Chunker) (sizes : list f32) (out : list (list DenimChunk))
    : prog bufferE string (list (list DenimChunk)) :=
  match sizes with
  | [] => Ret out
  | size :: sizes =>
      '(cs, _) ← create_chunks self size;
      send_all self sizes (out ++ [cs])
  end.

Lemma send_all_fifo `{Bincode} self sizes q out :
  sendable q → (∀ x, x ∈ q → x.2 ≤ 0) →
  Forall (λ size, 20 < total_free_space self size) sizes →
  ∃ css q', interp fifo_buffer (send_all self sizes out) q = (Ok (out ++ css), q') ∧
    same_stream (concat css ++ whole (map q_msg q')) (whole (map q_msg q)) ∧
    (∀ ds, continues q' ds → continues q (concat css ++ ds)) ∧
    sendable q' ∧ (q' = [] ∨ queue_bytes q' + len sizes ≤ queue_bytes q).
Proof.
  revert q out. induction sizes as [|size sizes IH]; intros q out Hs Hc Hsz.
  { exists [], q. rewrite app_nil_r. split_and!; [done..|right; rewrite len_nil; lia]. }
  apply Forall_cons in Hsz as [Hsize Hsz]. cbn [send_all].
  destruct (create_chunks_fifo self size q Hs Hc ltac:(lia)) as (cs & fr & q1 & Hrun & Hf & Hb & Hb').
  rewrite (interp_bind_ok _ _ _ _ _ _ Hrun).
  destruct (IH q1 (out ++ [cs])) as (css & q2 & Hrun2 & Hcons & Hflags & Hs2 & Hprog);
    [apply Hf|apply Hf|done|].
  assert (same_stream (concat (cs :: css) ++ whole (map q_msg q2)) (whole (map q_msg q))) as Hstream.
  { cbn [concat]. rewrite <- app_assoc, Hcons. apply Hf. }
  exists (cs :: css), q2. rewrite Hrun2, <- app_assoc. split_and!; [done|done| |done|].
  - intros ds Hds. cbn [concat]. rewrite <- app_assoc. by apply Hf, Hflags.
  - rewrite len_cons. destruct Hprog as [->|Hprog]; [by left|].
    destruct q as [|x q]; [left; by apply same_stream_nil in Hstream|].
    right. specialize (Hb' Hsize ltac:(done)). lia.
Qed.

Lemma sendable_bytes q : sendable q → queue_bytes q ≤ 0 → q = [].
Proof.
  intros [_ Hq] Hb. destruct q as [|[[id msg] cnt] q]; [done|].
  apply Forall_cons in Hq as [[Hm _] _]. rewrite queue_bytes_cons in Hb. cbn in Hb.
  pose proof (queue_bytes_nonneg q).
  destruct msg; [done|]. rewrite len_cons in Hb. pose proof (len_nonneg msg). lia.
Qed.

End fifo.

(** ** A single payload *)

(** The buffer that holds one payload in a variable. *)
Definition slot_buffer {E} : handler bufferE E PayloadData := λ X c p,
  match c in bufferE X return outcome E X * PayloadData with
  | get_outgoing_message => (Ok (0, chunk p, flags p), p)
  | set_outgoing_message _ cnt msg => (Ok tt, {| chunk := msg; flags := cnt |})
  | remove_outgoing_message _ => (Ok tt, {| chunk := []; flags := flags p |})
  end.

Lemma ordered_loop_slot `{Bincode} {E} fuel total free out p :
  match @create_ordered_chunks_loop _ E fuel total free out (chunk p) (flags p) with
  | Ok (cs, fr, p') => interp (slot_buffer (E:=E)) (create_chunks_loop fuel total free out) p = (Ok (cs, fr), p')
  | Err _ => False
  | Panic w => (interp (slot_buffer (E:=E)) (create_chunks_loop fuel total free out) p).1 = Panic w
  end.
Proof.
  revert free out p. induction fuel as [|fuel IH]; intros free out [msg cnt]; [done|].
  cbn [create_chunks_loop create_ordered_chunks_loop chunk flags]. unfold next_chunk.
  destruct (EMPTY_DENIMCHUNK_SIZE <=? free) eqn:He; [|done].
  assert (usize_sub (E:=E) free EMPTY_DENIMCHUNK_SIZE = Ok (free - EMPTY_DENIMCHUNK_SIZE)) as Hsub.
  { unfold usize_sub. by rewrite He. }
  rewrite interp_bind, interp_bind, interp_lift, Hsub.
  cbn [mbind outcome_bind]. rewrite interp_bind. unfold get_outgoing_or_default.
  rewrite interp_bind, interp_try, interp_op. cbn [slot_buffer interp chunk flags].
  destruct (negb (len msg =? 0) && _); [destruct (len msg <=? _)|].
  - rewrite interp_op_bind. cbn [slot_buffer interp chunk flags mbind outcome_bind].
    rewrite interp_bind, interp_lift. destruct (usize_sub total _) eqn:Hu; [|by apply usize_sub_not_err in Hu|done].
    exact (IH _ _ {| chunk := []; flags := cnt |}).
  - rewrite interp_bind, interp_lift. destruct (i32_dec cnt) eqn:Hd; [|by apply i32_dec_not_err in Hd|done].
    rewrite interp_op_bind. cbn [slot_buffer interp chunk flags mbind outcome_bind].
    rewrite interp_bind, interp_lift. destruct (usize_sub total _) eqn:Hu; [|by apply usize_sub_not_err in Hu|done].
    exact (IH _ _ {| chunk := _; flags := _ |}).
  - cbn [slot_buffer interp chunk flags mbind outcome_bind].
    rewrite interp_bind, interp_lift. destruct (usize_sub total _) eqn:Hu; [|by apply usize_sub_not_err in Hu|done].
    exact (IH _ _ {| chunk := _; flags := _ |}).
Qed.

(** ** Properties *)

(** C16: the chunks of a message and the ballast fill exactly the space the
    message allows for them, whatever the sending buffer holds and however it
    answers: an observer of the sizes learns nothing about pending deniable
    messages, because two runs with the same message size over any two
    buffers put the same number of bytes on the wire. *)
Theorem wire_size_independent_of_buffer `{Bincode} {E S S' : Type}
    (h : handler bufferE E S) (h' : handler bufferE E S') self size s s' cs cs' fr fr' t t'
    (Hrun : interp h (create_chunks self size) s = (Ok (cs, fr), t))
    (Hrun' : interp h' (create_chunks self size) s' = (Ok (cs', fr'), t')) :
  len (serialize_chunks cs) + fr = total_free_space self size ∧
  len (serialize_chunks cs) + fr = len (serialize_chunks cs') + fr' ∧
  0 ≤ fr < 12.
Proof.
  apply create_chunks_ok in Hrun as [Hf Heq]. apply create_chunks_ok in Hrun' as [_ Heq'].
  rewrite !serialize_chunks_length. split_and!; lia.
Qed.

Lemma wire_size_independent_of_buffer_witness :
  ∃ cs fr t cs' fr' t',
    interp (fifo_buffer "empty") (create_chunks Chunker_default (f32_of_usize 100)) [(7, [x01; x02; x03], 0)]
      = (Ok (cs, fr), t) ∧
    interp (fifo_buffer "empty") (create_chunks Chunker_default (f32_of_usize 100)) [] = (Ok (cs', fr'), t') ∧
    len (serialize_chunks cs) + fr = len (serialize_chunks cs') + fr'.
Proof.
  do 6 eexists. split; [vm_compute; reflexivity|]. split; [vm_compute; reflexivity|].
  refine (proj1 (proj2 (wire_size_independent_of_buffer (fifo_buffer "empty") (fifo_buffer "empty") Chunker_default
    (f32_of_usize 100) [(7, [x01; x02; x03], 0)] [] _ _ _ _ _ _ _ _))).
  - vm_compute. reflexivity.
  - vm_compute. reflexivity.
Defined.

(** C31: [create_chunks] terminates without a panic: over any buffer that does
    not panic and hands out counts above the least [i32], with at least the
    eight bytes of an empty vector of free space, the loop ends (the fuel is
    enough), no subtraction underflows and no slice is out of range. *)
Theorem create_chunks_never_panics `{Bincode} {E S : Type} (h : handler bufferE E S) self size s
    (Hbuf : buffer_ok h) (Hspace : 8 ≤ total_free_space self size) :
  is_panic (interp h (create_chunks self size) s).1 = false.
Proof.
  destruct (interp h (create_chunks self size) s) as [[r|e|w] s'] eqn:Hr; [done..|].
  by apply create_chunks_no_panic in Hr.
Qed.

Lemma create_chunks_never_panics_witness :
  is_panic (interp (S:=PayloadData) (λ X c p,
     match c in bufferE X return outcome string X * PayloadData with
     | get_outgoing_message => (Ok (0, chunk p, 0), p)
     | set_outgoing_message _ _ msg => (Ok tt, {| chunk := msg; flags := 0 |})
     | remove_outgoing_message _ => (Err "database is locked", p)
     end) (create_chunks Chunker_default (f32_of_usize 100)) {| chunk := [x01]; flags := 0 |}).1 = false.
Proof.
  apply create_chunks_never_panics; [|vm_compute; discriminate].
  split; [intros X [| |] s w; discriminate|]. intros s id msg cnt Heq. cbn in Heq. injection Heq as <- <- <-. vm_compute. done.
Defined.

(** A client that keeps sending regular messages delivers its deniable
    messages: if every message leaves room for a chunk with a byte in it, then
    after as many messages as there are pending bytes, reassembling the chunks
    in order gives exactly the pending messages, in order, complete, and
    nothing is left over. *)
Theorem enough_messages_deliver_all `{Bincode} no_message self sizes q
    (Hq : sendable q) (Hcnt : ∀ x, x ∈ q → x.2 ≤ 0)
    (Hsizes : Forall (λ size, 20 < total_free_space self size) sizes)
    (Henough : queue_bytes q ≤ len sizes) :
  ∃ css, interp (fifo_buffer no_message) (send_all self sizes []) q = (Ok css, []) ∧
         absorb [] (concat css) = (map q_msg q, []).
Proof.
  destruct (send_all_fifo no_message self sizes q [] Hq Hcnt Hsizes) as (css & q' & Hrun & Hcons & _ & Hs & Hprog).
  assert (q' = []) as -> by (destruct Hprog; [done|apply sendable_bytes; [done|lia]]).
  exists css. split; [done|]. specialize (Hcons []).
  by rewrite app_nil_r, absorb_whole in Hcons.
Qed.

Lemma enough_messages_deliver_all_witness :
  ∃ css, interp (fifo_buffer "empty") (send_all Chunker_default (replicate 5 (f32_of_usize 40)) [])
           [(1, [x01; x02; x80], 0); (2, [x04; x05], 0)] = (Ok css, []) ∧
         absorb [] (concat css) = ([[x01; x02; x80]; [x04; x05]], []).
Proof.
  apply (enough_messages_deliver_all "empty" Chunker_default (replicate 5 (f32_of_usize 40))
           [(1, [x01; x02; x80], 0); (2, [x04; x05], 0)]).
  - split; [apply (bool_decide_unpack _); by vm_compute|].
    repeat constructor; try discriminate; vm_compute; done.
  - intros x. rewrite !elem_of_cons, elem_of_nil. intros [->|[->|[]]]; vm_compute; discriminate.
  - apply Forall_replicate. vm_compute. done.
  - vm_compute. discriminate.
Defined.

(** C36: [create_ordered_chunks], which the code runs on a payload it holds in
    its hands, is [create_chunks] over the buffer that holds just that payload:
    same chunks, same ballast, same rest, same panics. *)
Theorem create_ordered_chunks_is_create_chunks `{Bincode} {E} self size (p : PayloadData) :
  match create_ordered_chunks (E:=E) self size p with
  | Ok (cs, fr, p') => interp (slot_buffer (E:=E)) (create_chunks self size) p = (Ok (cs, fr), p')
  | Err _ => False
  | Panic w => (interp (slot_buffer (E:=E)) (create_chunks self size) p).1 = Panic w
  end.
Proof.
  unfold create_ordered_chunks, create_chunks. rewrite interp_bind, interp_lift.
  destruct (usize_sub (total_free_space self size) EMPTY_VEC_SIZE) eqn:Hu;
    [|by apply usize_sub_not_err in Hu|done].
  apply ordered_loop_slot.
Qed.
