(* ===== verification/Account.v ===== *)
(** Accounts, their devices, and the checks a sender's device list must pass
    ([server/src/account.rs], [server/src/validators]). *)
From S2P Require Export Prelude WebApi.

Local Open Scope Z_scope.

(** ** Identifiers

    A [ServiceId] of libsignal is an ACI or a PNI; a UUID is kept as text.
    The service id string of a PNI is prefixed. *)
Inductive ServiceId :=
| Aci (uuid : string)
| Pni (uuid : string).

Global Instance ServiceId_eq_dec : EqDecision ServiceId.
Proof. solve_decision. Defined.
Global Program Instance ServiceId_countable : Countable ServiceId :=
  inj_countable' (λ s, match s with Aci u => inl u | Pni u => inr u end)
    (λ s, match s with inl u => Aci u | inr u => Pni u end) _.
Next Obligation. by intros []. Qed.

Inductive ServiceIdKind := KindAci | KindPni.

Definition service_id_string (s : ServiceId) : string :=
  match s with Aci u => u | Pni u => "PNI:" +:+ u end.

(** How [Uuid] prints itself: groups of 8, 4, 4, 4 and 12 lower-case hexadecimal
    digits, with a hyphen between two of them. *)
Definition uuid_char (c : ascii) : bool :=
  let n := N_of_ascii c in
  ((48 <=? n)%N && (n <=? 57)%N) || ((97 <=? n)%N && (n <=? 102)%N) || (n =? 45)%N.
Fixpoint string_all (f : ascii → bool) (s : string) : bool :=
  match s with EmptyString => true | String c s => f c && string_all f s end.
Definition is_uuid (u : string) : bool :=
  ((String.length u =? 36)%nat && bool_decide (map String.length (split_on "-" u) = [8; 4; 4; 4; 12]%nat)) && string_all uuid_char u.

Definition uuid_of (s : ServiceId) : string := match s with Aci u => u | Pni u => u end.

(** libsignal's parser of service id strings, and the promise that it reads
    what [service_id_string] prints. *)
Class ServiceIdText := {
  parse_from_service_id_string : string → option ServiceId;
  parse_service_id_string s :
    is_uuid (uuid_of s) = true → parse_from_service_id_string (service_id_string s) = Some s;
}.

(** A parser that keeps the promise. *)
Definition strip_pni (s : string) : option string :=
  match s with
  | String "P" (String "N" (String "I" (String ":" u))) => Some u
  | _ => None
  end.
Definition hyphenated (s : string) : option ServiceId :=
  match strip_pni s with
  | Some u => if is_uuid u then Some (Pni u) else None
  | None => if is_uuid s then Some (Aci s) else None
  end.

Lemma strip_pni_uuid u : is_uuid u = true → strip_pni u = None.
Proof.
  unfold is_uuid. intros [_ Hu]%andb_true_iff. destruct u as [|c u]; [done|].
  cbn in Hu. apply andb_true_iff in Hu as [Hc _]. by destruct c as [[] [] [] [] [] [] [] []].
Qed.

Lemma hyphenated_string s :
  is_uuid (uuid_of s) = true → hyphenated (service_id_string s) = Some s.
Proof.
  intros Hu. unfold hyphenated. destruct s as [u|u]; cbn [uuid_of service_id_string] in *.
  - rewrite (strip_pni_uuid u Hu). by rewrite Hu.
  - rewrite !append_cons, append_nil. cbn [strip_pni]. by rewrite Hu.
Qed.

Definition demo_service_ids : ServiceIdText :=
  {| parse_from_service_id_string := hyphenated; parse_service_id_string := hyphenated_string |}.

Lemma string_all_free f c s : string_all f s = true → f c = false → string_mem c s = false.
Proof.
  intros Hs Hc. induction s as [|a s IH]; [done|]. cbn in *. apply andb_true_iff in Hs as [Ha Hs].
  case_decide; [congruence|auto].
Qed.

Lemma uuid_free c u : is_uuid u = true → uuid_char c = false → string_mem c u = false.
Proof. intros [_ Hu]%andb_true_iff. by apply string_all_free. Qed.

(** A printed PNI is no UUID. *)
Lemma pni_not_uuid u n : is_uuid n = true → service_id_string (Pni u) ≠ n.
Proof.
  intros Hn <-. unfold is_uuid, service_id_string in Hn. rewrite append_cons in Hn.
  cbn [string_all] in Hn. by rewrite andb_comm in Hn.
Qed.

(** [libsignal_core::ProtocolAddress] *)
Record ProtocolAddress := { name : string; device_id : Z }.

Global Instance ProtocolAddress_eq_dec : EqDecision ProtocolAddress.
Proof. solve_decision. Defined.
Global Program Instance ProtocolAddress_countable : Countable ProtocolAddress :=
  inj_countable' (λ a, (name a, device_id a)) (λ '(n, d), {| name := n; device_id := d |}) _.
Next Obligation. by intros []. Qed.

(** ** Devices and accounts *)

Record Device := {
  dev_id : Z;
  dev_name : string;
  last_seen : Z;
  created : Z;
  auth_token : string;
  salt : string;
  registration_id : Z;
  pni_registration_id : Z;
  dev_capabilities : list DeviceCapabilityType;
}.

Global Instance Device_eq_dec : EqDecision Device.
Proof. solve_decision. Defined.

(** Identity keys are kept serialized. *)
Record Account := {
  aci : string;
  pni : string;
  aci_identity_key : bytes;
  pni_identity_key : bytes;
  acc_devices : list Device;
  phone_number : string;
}.

Global Instance Account_eq_dec : EqDecision Account.
Proof. solve_decision. Defined.

(** [Account::new]; the ACI is [Uuid::new_v4()]. *)
Definition account_new (new_v4 : string) (pni : string) (aci_identity_key pni_identity_key : bytes)
    (device : Device) (phone_number : string) : Account :=
  {| aci := new_v4; pni := pni; aci_identity_key := aci_identity_key;
     pni_identity_key := pni_identity_key; acc_devices := [device]; phone_number := phone_number |}.

Definition add_device (self : Account) (device : Device) : outcome string Account :=
  if bool_decide (device ∈ acc_devices self) then Err "Device is already registered on the account"
  else Ok {| aci := aci self; pni := pni self; aci_identity_key := aci_identity_key self;
             pni_identity_key := pni_identity_key self;
             acc_devices := acc_devices self ++ [device]; phone_number := phone_number self |}.

Definition device_has_capability (self : Device) (c : DeviceCapabilityType) : bool :=
  bool_decide (c ∈ dev_capabilities self).

(** [Iterator::find] *)
Definition find {A} (f : A → bool) (l : list A) : option A := head (filter f l).

Definition account_has_capability (self : Account) (c : DeviceCapabilityType) : outcome string bool :=
  match account_capability_mode (capability_value c) with
  | PrimaryDevice =>
      d ← expect "User always has a primary device" (find (λ d, dev_id d =? 1) (acc_devices self));
      Ok (device_has_capability d c)
  | AnyDevice => Ok (existsb (λ d, device_has_capability d c) (acc_devices self))
  | AllDevices => Ok (forallb (λ d, device_has_capability d c) (acc_devices self))
  end.

(** [Iterator::max] *)
Definition max_list (l : list Z) : option Z :=
  match l with [] => None | x :: l => Some (foldr Z.max x l) end.

Definition get_next_device_id (self : Account) : outcome string Z :=
  m ← expect "Will always have some device" (max_list (map dev_id (acc_devices self)));
  if in_u32 (m + 1) then Ok (m + 1) else Panic "attempt to add with overflow".

Definition get_protocol_address (self : Account) (kind : ServiceIdKind) (device_id : Z) : ProtocolAddress :=
  {| name := match kind with
             | KindAci => service_id_string (Aci (aci self))
             | KindPni => service_id_string (Pni (pni self))
             end;
     device_id := device_id |}.

Record AuthenticatedDevice := { ad_account : Account; ad_device : Device }.

Definition authenticated_address (self : AuthenticatedDevice) (kind : ServiceIdKind) : ProtocolAddress :=
  {| name := match kind with
             | KindAci => service_id_string (Aci (aci (ad_account self)))
             | KindPni => service_id_string (Pni (pni (ad_account self)))
             end;
     device_id := dev_id (ad_device self) |}.

(** ** A sample account *)

Definition sample_uuid : string := "00000000-0000-4000-8000-000000000001".
Definition sample_device : Device :=
  {| dev_id := 1; dev_name := "phone"; last_seen := 0; created := 0; auth_token := "t"; salt := "s";
     registration_id := 7; pni_registration_id := 8; dev_capabilities := [] |}.
Definition sample_account : Account :=
  {| aci := sample_uuid; pni := "00000000-0000-4000-8000-000000000002"; aci_identity_key := [x05];
     pni_identity_key := [x06]; acc_devices := [sample_device]; phone_number := "+4512345678" |}.
Definition sample_address : ProtocolAddress := get_protocol_address sample_account KindAci 1.

(** ** Validators *)

Section validators.

(** Whether a message for this device and registration is stale. *)
Definition is_stale (account : Account) (use_phone_number_identity : bool) (x : Z * Z) : bool :=
  let '(device_id, registration) := x in
  negb match find (λ d, dev_id d =? device_id) (acc_devices account) with
       | Some d =>
           registration =? (if use_phone_number_identity then pni_registration_id d else registration_id d)
       | None => false
       end.

Definition validate_registration_id_from_id_tuple (account : Account) (ids : list (Z * Z))
    (use_phone_number_identity : bool) : StaleDevicesError + unit :=
  let stale := map fst (filter (is_stale account use_phone_number_identity) (filter (λ x, 0 <? x.2) ids)) in
  if decide (stale = []) then inr tt else inl {| stale_devices := stale |}.

Definition validate_registration_id_from_messages (account : Account) (messages : list SignalMessage)
    (use_phone_number_identity : bool) : StaleDevicesError + unit :=
  validate_registration_id_from_id_tuple account
    (map (λ m, (destination_device_id m, destination_registration_id m)) messages)
    use_phone_number_identity.

Definition validate_complete_device_list (account : Account) (message_device_ids excluded_device_ids : list Z)
    : MismatchedDevicesError + unit :=
  let account_device_ids :=
    filter (λ d, d ∉ excluded_device_ids) (map dev_id (acc_devices account)) in
  let missing := filter (λ d, d ∉ message_device_ids) account_device_ids in
  let extra := filter (λ d, d ∉ account_device_ids) message_device_ids in
  if decide (missing = [] ∧ extra = []) then inr tt
  else inl {| missing_devices := missing; extra_devices := extra |}.

(** [verify key message signature] is [PublicKey::verify_signature], which may fail. *)
Definition validate_pre_key_signatures (verify : bytes → bytes → bytes → option bool)
    (identity_key : bytes) (keys : list UploadSignedPreKey) : bool :=
  forallb (λ k, default false (verify identity_key (signed_public_key k) (signature k))) keys.
End validators.

(** ** Lemmas *)

Lemma find_Some {A} (f : A → bool) l x : find f l = Some x → x ∈ l ∧ f x = true.
Proof.
  unfold find. intros Hf. assert (x ∈ filter f l) as Hx.
  { destruct (filter f l) as [|y k]; [done|]. cbn in Hf. simplify_eq. left. }
  apply list_elem_of_filter in Hx as [Hfx Hx]. split; [done|by apply Is_true_true].
Qed.

Lemma find_None {A} (f : A → bool) l : find f l = None → ∀ x, x ∈ l → f x = false.
Proof.
  unfold find. intros Hf x Hx. destruct (f x) eqn:Hfx; [|done]. exfalso.
  assert (x ∈ filter f l) as Hin by (apply list_elem_of_filter; split; [by rewrite Hfx|done]).
  destruct (filter f l); [by apply not_elem_of_nil in Hin|done].
Qed.

Lemma foldr_max_ge x l y : y ∈ x :: l → y ≤ foldr Z.max x l.
Proof.
  induction l as [|z l IH]; cbn.
  - intros Hy%list_elem_of_singleton. lia.
  - rewrite !elem_of_cons. intros [->|[->|Hy]]; [|lia|].
    + assert (x ≤ foldr Z.max x l) by (apply IH; left). lia.
    + assert (y ≤ foldr Z.max x l) by (apply IH; by right). lia.
Qed.

Lemma foldr_max_in x l : foldr Z.max x l ∈ x :: l.
Proof.
  induction l as [|z l IH]; cbn; [left|].
  destruct (Z.max_spec z (foldr Z.max x l)) as [[_ ->]|[_ ->]]; [|right; left].
  apply elem_of_cons in IH as [->|IH]; [left|by do 2 right].
Qed.

(** An account as the server keeps it: at least one device, ids are distinct [u32]s. *)
Definition account_wf (a : Account) : Prop :=
  acc_devices a ≠ [] ∧ NoDup (map dev_id (acc_devices a)) ∧
  Forall (λ d, in_u32 (dev_id d) = true) (acc_devices a).

(** ** Properties *)

(** The device id an account hands out next is not the id of any of its
    devices, so linking a device under it keeps the ids distinct: for a
    well-formed account with room for another device, [get_next_device_id]
    succeeds, its result is larger than every id in use, and [add_device] of a
    device with this id succeeds and gives a well-formed account again. *)
Theorem next_device_id_keeps_account_wf (a : Account) (d : Device)
    (Hwf : account_wf a) (Hroom : Forall (λ x, dev_id x < 2 ^ 32 - 1) (acc_devices a))
    (Hid : Ok (dev_id d) = get_next_device_id a) :
  Forall (λ x, dev_id x < dev_id d) (acc_devices a) ∧
  ∃ a', add_device a d = Ok a' ∧ account_wf a' ∧ acc_devices a' = acc_devices a ++ [d].
Proof.
  destruct Hwf as (Hne & Hnd & Hu). unfold get_next_device_id in Hid.
  destruct (acc_devices a) as [|x l] eqn:Hl; [done|]. cbn [map max_list expect mbind outcome_bind] in Hid.
  destruct (in_u32 _) eqn:Hr; [|done]. injection Hid as Hid.
  assert (Forall (λ y, dev_id y < dev_id d) (x :: l)) as Hlt.
  { apply Forall_forall. intros y Hy. rewrite Hid.
    assert (dev_id y ≤ foldr Z.max (dev_id x) (map dev_id l)); [|lia].
    apply foldr_max_ge. change (dev_id x :: map dev_id l) with (map dev_id (x :: l)).
    by apply list_elem_of_fmap_2. }
  split; [done|]. unfold add_device. rewrite Hl. rewrite bool_decide_false.
  2: { intros Hin. rewrite Forall_forall in Hlt. specialize (Hlt d Hin). lia. }
  eexists. split; [done|]. split; [|done]. unfold account_wf. cbn [acc_devices]. split_and!; [done| |].
  - rewrite map_app. apply NoDup_app. split_and!; [done| |apply NoDup_singleton].
    intros i (y & -> & Hy)%list_elem_of_fmap Hi%list_elem_of_singleton.
    rewrite Forall_forall in Hlt. specialize (Hlt y Hy). lia.
  - apply Forall_app. split; [done|]. repeat constructor. by rewrite Hid.
Qed.

Definition linked_device (i : Z) : Device :=
  {| dev_id := i; dev_name := "d"; last_seen := 0; created := 0; auth_token := "t"; salt := "s";
     registration_id := 10 + i; pni_registration_id := 20 + i;
     dev_capabilities := [DeviceCapabilityType.Storage] |}.
Definition linked_account : Account :=
  {| aci := "a"; pni := "p"; aci_identity_key := []; pni_identity_key := [];
     acc_devices := [linked_device 1; linked_device 4]; phone_number := "1" |}.

Lemma linked_account_wf : account_wf linked_account.
Proof.
  split_and!; [done|apply (bool_decide_unpack _); by vm_compute|].
  by repeat constructor.
Qed.

Lemma next_device_id_keeps_account_wf_witness :
  Forall (λ x, dev_id x < 5) (acc_devices linked_account) ∧
  ∃ a', add_device linked_account (linked_device 5) = Ok a' ∧ account_wf a' ∧
        acc_devices a' = acc_devices linked_account ++ [linked_device 5].
Proof.
  apply (next_device_id_keeps_account_wf linked_account (linked_device 5)).
  - apply linked_account_wf.
  - repeat constructor; vm_compute; done.
  - vm_compute. reflexivity.
Defined.

(** [validate_complete_device_list] accepts a device list exactly when it
    names the account's devices, less the excluded ones, and nothing else; and
    when it refuses, the error lists exactly the devices that are missing from
    the list and the ones that are extra in it. *)
Theorem complete_device_list_iff (a : Account) (ids excluded : list Z) :
  (validate_complete_device_list a ids excluded = inr tt ↔
   ∀ d, d ∈ ids ↔ d ∈ map dev_id (acc_devices a) ∧ d ∉ excluded) ∧
  (∀ e, validate_complete_device_list a ids excluded = inl e →
    (∀ d, d ∈ missing_devices e ↔ (d ∈ map dev_id (acc_devices a) ∧ d ∉ excluded) ∧ d ∉ ids) ∧
    (∀ d, d ∈ extra_devices e ↔ d ∈ ids ∧ ¬ (d ∈ map dev_id (acc_devices a) ∧ d ∉ excluded))).
Proof.
  unfold validate_complete_device_list.
  set (own := filter (λ d, d ∉ excluded) (map dev_id (acc_devices a))).
  assert (∀ d, d ∈ own ↔ d ∈ map dev_id (acc_devices a) ∧ d ∉ excluded) as Hown.
  { intros d. unfold own. rewrite list_elem_of_filter. tauto. }
  assert (∀ d, d ∈ filter (λ d, d ∉ ids) own ↔ d ∈ own ∧ d ∉ ids) as Hmiss.
  { intros d. rewrite list_elem_of_filter. tauto. }
  assert (∀ d, d ∈ filter (λ d, d ∉ own) ids ↔ d ∈ ids ∧ d ∉ own) as Hextra.
  { intros d. rewrite list_elem_of_filter. tauto. }
  split.
  - case_decide as Hd; split; [| |done|].
    + destruct Hd as [Hm He]. intros _ d. rewrite <- Hown.
      specialize (Hmiss d). specialize (Hextra d). rewrite Hm in Hmiss. rewrite He in Hextra.
      destruct (decide (d ∈ own)), (decide (d ∈ ids)); set_solver.
    + done.
    + intros Hiff. exfalso. apply Hd. split; apply filter_none; intros d; rewrite Hiff, <- Hown; tauto.
  - intros e. case_decide; [done|]. intros [= <-]. cbn [missing_devices extra_devices].
    split; intros d; [rewrite Hmiss|rewrite Hextra]; by rewrite Hown.
Qed.

(** [validate_registration_id_from_messages] accepts messages exactly when
    each one that states a registration id is for a device of the account with
    this registration id (the phone-number one where that identity is used);
    otherwise it names precisely the devices of the other messages. *)
Theorem registration_ids_iff (a : Account) (ms : list SignalMessage) (pni_ids : bool)
    (Hwf : account_wf a) :
  let current m d :=
    dev_id d = destination_device_id m ∧
    destination_registration_id m = (if pni_ids then pni_registration_id d else registration_id d) in
  let fine m := destination_registration_id m ≤ 0 ∨ ∃ d, d ∈ acc_devices a ∧ current m d in
  (validate_registration_id_from_messages a ms pni_ids = inr tt ↔ ∀ m, m ∈ ms → fine m) ∧
  (∀ e, validate_registration_id_from_messages a ms pni_ids = inl e →
     ∀ i, i ∈ stale_devices e ↔ ∃ m, m ∈ ms ∧ destination_device_id m = i ∧ ¬ fine m).
Proof.
  intros current fine. destruct Hwf as (_ & Hnd & _).
  unfold validate_registration_id_from_messages, validate_registration_id_from_id_tuple.
  set (ids := map _ ms). set (stale := map fst _).
  assert (∀ i, i ∈ stale ↔ ∃ m, m ∈ ms ∧ destination_device_id m = i ∧ ¬ fine m) as Hstale.
  { intros i. unfold stale. rewrite list_elem_of_fmap. split.
    - intros ([i' r] & -> & Hx). rewrite !list_elem_of_filter in Hx.
      destruct Hx as (Hst & Hpos & (m & Heq & Hm)%list_elem_of_fmap). cbn in *. simplify_eq.
      exists m. split_and!; [done|done|]. apply Is_true_true in Hpos, Hst. zbool.
      intros [Hle|(d & Hd & Hid & Hreg)]; [lia|].
      apply negb_true_iff in Hst. destruct (find _ _) as [d'|] eqn:Hf.
      + apply find_Some in Hf as [Hd' Hid']. zbool.
        assert (d' = d) as -> by (apply (NoDup_map_inj dev_id (acc_devices a)); [done..|congruence]).
        destruct pni_ids; lia.
      + pose proof (find_None _ _ Hf d Hd) as Hne. cbn in Hne. zbool. done.
    - intros (m & Hm & <- & Hbad). exists (destination_device_id m, destination_registration_id m).
      split; [done|]. rewrite !list_elem_of_filter. split_and!.
      + apply Is_true_true. cbn. apply negb_true_iff. destruct (find _ _) as [d|] eqn:Hf; [|done].
        apply find_Some in Hf as [Hd Hid]. zbool. apply Z.eqb_neq. intros Hreg.
        apply Hbad. right. by exists d.
      + apply Is_true_true. cbn. apply Z.ltb_lt. apply Z.nle_gt. intros Hle. apply Hbad. by left.
      + unfold ids. by apply (list_elem_of_fmap_2 (λ m, (destination_device_id m, destination_registration_id m))). }
  split.
  - case_decide as Hd; split; [| |done|].
    + intros _ m Hm. destruct (decide (destination_registration_id m ≤ 0)); [by left|].
      right. destruct (find (λ d, (dev_id d =? destination_device_id m) &&
        (destination_registration_id m =? (if pni_ids then pni_registration_id d else registration_id d)))
        (acc_devices a)) as [d|] eqn:Hf.
      * apply find_Some in Hf as [Hdin Hf]. apply andb_prop in Hf as [? ?]. zbool. by exists d.
      * exfalso. assert (destination_device_id m ∈ stale) as Hin.
        { apply Hstale. exists m. split_and!; [done|done|]. intros [?|(d & Hdin & Hid & Hreg)]; [done|].
          pose proof (find_None _ _ Hf d Hdin) as Hn. cbn in Hn.
          rewrite Hid, Z.eqb_refl, Hreg, Z.eqb_refl in Hn. done. }
        rewrite Hd in Hin. by apply not_elem_of_nil in Hin.
    + done.
    + intros Hall. exfalso. apply Hd. destruct stale as [|i l]; [done|]. exfalso.
      destruct (proj1 (Hstale i)) as (m & Hm & _ & Hbad); [left|]. by apply Hbad, Hall.
  - intros e. case_decide; [done|]. intros [= <-]. apply Hstale.
Qed.

Lemma registration_ids_iff_witness :
  let m := {| type_ := 1; destination_device_id := 4; destination_service_id := None;
              destination_registration_id := 14; content := "" |} in
  validate_registration_id_from_messages linked_account [m] false = inr tt.
Proof.
  intros m. apply (registration_ids_iff linked_account [m] false linked_account_wf).
  intros x Hx%list_elem_of_singleton. subst x. right. exists (linked_device 4).
  split; [right; left|]. by split.
Defined.
