(* ===== verification/Wire.v ===== *)
(** Text and framing both sides share ([common/src]): the authorization
    header, addresses, request paths, WebSocket messages, and the padding of
    message contents. *)
From S2P Require Export Account Codecs.

Local Open Scope Z_scope.

(** ** Definitions *)

(** [str::find(c)] with the text around it. *)
Fixpoint split_first (c : ascii) (s : string) : option (string * string) :=
  match s with
  | EmptyString => None
  | String a t =>
      if decide (a = c) then Some ("", t)
      else match split_first c t with Some (p, q) => Some (String a p, q) | None => None end
  end.

(** [String::from_utf8] *)
Definition cont (b : byte) : bool := (128 <=? Byte.to_N b)%N && (Byte.to_N b <=? 191)%N.
Definition two_bytes (a : byte) : bool := (194 <=? Byte.to_N a)%N && (Byte.to_N a <=? 223)%N.
Definition three_bytes (a b : byte) : bool :=
  let n := Byte.to_N a in let m := Byte.to_N b in
  cont b && ((n =? 224)%N && (160 <=? m)%N || (n =? 237)%N && (m <=? 159)%N
             || (225 <=? n)%N && (n <=? 239)%N && negb (n =? 237)%N).
Definition four_bytes (a b : byte) : bool :=
  let n := Byte.to_N a in let m := Byte.to_N b in
  cont b && ((n =? 240)%N && (144 <=? m)%N || (n =? 244)%N && (m <=? 143)%N
             || (241 <=? n)%N && (n <=? 243)%N).
Fixpoint utf8_valid (bs : bytes) : bool :=
  match bs with
  | [] => true
  | a :: t =>
      if (Byte.to_N a <? 128)%N then utf8_valid t
      else match t with
           | [] => false
           | b :: t1 =>
               if two_bytes a then cont b && utf8_valid t1
               else match t1 with
                    | [] => false
                    | c :: t2 =>
                        if three_bytes a b then cont c && utf8_valid t2
                        else match t2 with
                             | [] => false
                             | d :: t3 => four_bytes a b && cont c && cont d && utf8_valid t3
                             end
                    end
           end
  end.

Abbreviation as_bytes := String.list_byte_of_string.
Definition from_utf8 (bs : bytes) : outcome string string :=
  if utf8_valid bs then Ok (String.string_of_list_byte bs) else Err "invalid utf-8 sequence".

(** *** [authorization.rs] *)

Record BasicAuthorizationHeader := { username : string; header_device_id : Z; password : string }.

Section authorization.
Context `{Base64}.

Definition header_encode (self : BasicAuthorizationHeader) : string :=
  let encoded := b64_encode (as_bytes (username self +:+ "." +:+ show (header_device_id self) +:+ ":" +:+ password self)) in
  "Basic " +:+ encoded.

(** [address_part.split_at(dot_index)] panics when the first dot of the whole
    text comes after the colon. *)
Definition header_decode (s : string) : outcome string BasicAuthorizationHeader :=
  if negb (String.prefix "Basic" s) then Err "Invalid authorization header type."
  else
    '(_, encoded) ← ok_or "No ' ' character in AuthorizationHeader." (split_first " " s);
    data ← ok_or "base64" (b64_decode encoded);
    s ← from_utf8 data;
    '(address_part, password) ← ok_or "No ':' character in AuthorizationHeader." (split_first ":" s);
    _ ← ok_or "No '.' character in AuthorizationHeader." (split_first "." s);
    '(username, device_part) ← expect "failed to slice string" (split_first "." address_part);
    device_id ← ok_or "invalid digit found in string" (parse_u32 device_part);
    Ok {| username := username; header_device_id := device_id; password := password |}.
End authorization.

(** *** [protocol_address.rs] *)

Inductive ParseProtocolAddressError := InvalidFormat | InvalidDeviceId (e : string).

Definition parse_protocol_address (address : string) : outcome ParseProtocolAddressError ProtocolAddress :=
  '(username, device_part) ← ok_or InvalidFormat (split_first "." address);
  device_id ← ok_or (InvalidDeviceId "invalid digit found in string") (parse_u32 device_part);
  Ok {| name := username; device_id := device_id |}.

(** [ProtocolAddress: Display] *)
Definition address_to_string (a : ProtocolAddress) : string := name a +:+ "." +:+ show (device_id a).

(** *** [net_helper.rs] *)

(** [parts] of a [PathExtractor]. *)
Definition path_extractor (path : string) : outcome string (list string) :=
  let parts := split_on "/" path in
  if decide (parts = []) then Err "PathExtractor: Is empty!"
  else if String.prefix "/" path then Ok (tail parts) else Ok parts.

Definition extract {T} (from_str : string → option T) (parts : list string) (index : nat) : outcome string T :=
  if (length parts <=? index)%nat then Err "PathExtractor: Larger than count"
  else p ← expect "index out of bounds" (parts !! index); ok_or "failed to convert" (from_str p).

Record WebSocketRequestMessage := {
  ws_verb : option string; ws_path : option string; ws_request_body : option bytes;
  ws_request_headers : list string; ws_request_id : option Z }.
Record WebSocketResponseMessage := {
  ws_id : option Z; ws_status : option Z; ws_message : option string;
  ws_headers : list string; ws_body : option bytes }.
Record WebSocketMessage := {
  ws_type : option Z; ws_request : option WebSocketRequestMessage; ws_response : option WebSocketResponseMessage }.

(** [StatusCode::canonical_reason] is the HTTP library's. *)
Definition create_response (canonical_reason : Z → option string) (id status_code : Z) (headers : list string)
    (body : option bytes) : outcome string WebSocketMessage :=
  let headers :=
    if existsb (String.prefix "Content-Length") headers then headers
    else headers ++ ["Content-Length: " +:+ show (match body with Some v => len v | None => 0 end)] in
  message ← ok_or "Invalid canonical reason" (canonical_reason status_code);
  Ok {| ws_type := Some 2; ws_request := None;
        ws_response := Some {| ws_id := Some id; ws_status := Some status_code; ws_message := Some message;
                               ws_headers := headers; ws_body := body |} |}.

Definition create_request (id : Z) (verb path : string) (headers : list string) (body : option bytes) : WebSocketMessage :=
  {| ws_type := Some 1; ws_response := None;
     ws_request := Some {| ws_verb := Some verb; ws_path := Some path; ws_request_body := body;
                           ws_request_headers := headers; ws_request_id := Some id |} |}.

(** [serde_json] reads the messages. *)
Definition unpack_messages {M} (from_json : string → option M) (body : option bytes) : outcome string M :=
  body ← ok_or "Body was none" body;
  json ← match from_utf8 body with
         | Ok s => Ok s
         | _ => Err "Failed to convert req body to string"
         end;
  ok_or "Failed to convert json to DenimMessages" (from_json json).

(** *** Padding ([client/src/encryption.rs], [common/src/envelope.rs]) *)

Definition get_padded_message_length (length : Z) : Z :=
  let message_length_with_terminator := length + 1 in
  let message_part_count := message_length_with_terminator / 160 in
  let message_part_count :=
    if message_length_with_terminator mod 160 =? 0 then message_part_count else message_part_count + 1 in
  message_part_count * 160.

Definition pad_message (message : bytes) : bytes :=
  let l := get_padded_message_length (len message + 1) - 1 in
  message ++ x80 :: zeroes (Z.to_nat (l - len message - 1)).

Inductive unpad_error := UnpadError.

(** The bytes before the first terminator. *)
Fixpoint unpad_message (message : bytes) : outcome unpad_error bytes :=
  match message with
  | [] => Err UnpadError
  | b :: message => if decide (b = x80) then Ok [] else rest ← unpad_message message; Ok (b :: rest)
  end.

(** *** [server/src/envelope.rs] *)

(** [to_envelope]; [now] is the clock in milliseconds. *)
Definition to_envelope `{Base64} (self : SignalMessage) (destination_id : ServiceId) (source_account : Account)
    (source_device_id timestamp : Z) (urgent : bool) (now : Z) : outcome string Envelope :=
  content ← expect "called `Result::unwrap()` on an `Err` value" (b64_decode (content self));
  millis ← expect "Time went backwards" (if now <? 0 then None else Some now);
  Ok {| env_type := Some (type_ self);
        env_source_service_id := Some (service_id_string (Aci (aci source_account)));
        env_source_device := Some source_device_id;
        env_destination_service_id := Some (service_id_string destination_id);
        env_timestamp := Some timestamp; env_content := Some content; env_server_guid := None;
        env_server_timestamp := Some (millis mod 2 ^ 64); env_ephemeral := None; env_urgent := Some urgent;
        env_updated_pni := None; env_story := None; env_reporting_token := None |}.

(** ** Text *)

Lemma split_first_free c s : string_mem c s = false → split_first c s = None.
Proof. induction s as [|a s IH]; [done|]. cbn. case_decide; [done|]. intros Hs. by rewrite IH. Qed.

Lemma split_first_app c s t : string_mem c s = false → split_first c (s +:+ String c t) = Some (s, t).
Proof.
  induction s as [|a s IH]; rewrite ?append_nil, ?append_cons; cbn; [by rewrite decide_True|].
  case_decide; [done|]. intros Hs. by rewrite IH.
Qed.

Lemma split_first_Some c s p q : split_first c s = Some (p, q) → s = p +:+ String c q ∧ string_mem c p = false.
Proof.
  revert p. induction s as [|a s IH]; [done|]. intros p. cbn. case_decide as Ha; [by intros [= <- <-]; subst|].
  destruct (split_first c s) as [[p' q']|]; [|done]. intros [= <- ->].
  destruct (IH p' eq_refl) as [-> Hp]. rewrite append_cons. cbn. by rewrite decide_False.
Qed.

Lemma split_first_None c s : split_first c s = None → string_mem c s = false.
Proof.
  induction s as [|a s IH]; [done|]. cbn. case_decide; [done|].
  destruct (split_first c s) as [[]|]; [done|auto].
Qed.

Lemma append_assoc' (s t u : string) : (s +:+ t) +:+ u = s +:+ (t +:+ u).
Proof. induction s as [|a s IH]; [done|]. rewrite !append_cons. by f_equal. Qed.

Lemma append_empty_r (s : string) : s +:+ "" = s.
Proof. induction s as [|a s IH]; [done|]. rewrite append_cons. by f_equal. Qed.

Lemma as_bytes_app s t : as_bytes (s +:+ t) = as_bytes s ++ as_bytes t.
Proof.
  induction s as [|a s IH]; [done|]. rewrite append_cons. cbn. f_equal. exact IH.
Qed.

(** Valid UTF-8 is a sequence of whole characters. *)
Lemma utf8_valid_app s t : utf8_valid s = true → utf8_valid (s ++ t) = utf8_valid t.
Proof.
  revert s. refine (induction_ltof1 _ (@length byte) _ _). unfold ltof. intros s IH Hs.
  destruct s as [|a s]; [done|]. cbn [utf8_valid app] in *.
  case_match; [apply IH; [cbn; lia|done]|].
  destruct s as [|b s]; [done|]. cbn [app] in *.
  case_match; [apply andb_true_iff in Hs as [-> Hs]; apply IH; [cbn; lia|done]|].
  destruct s as [|c s]; [done|]. cbn [app] in *.
  case_match; [apply andb_true_iff in Hs as [-> Hs]; apply IH; [cbn; lia|done]|].
  destruct s as [|d s]; [done|]. cbn [app] in *.
  rewrite !andb_true_iff in Hs. destruct Hs as [[[-> ->] ->] Hs]. apply IH; [cbn; lia|done].
Qed.

Lemma utf8_ascii s :
  string_all (λ c, (N_of_ascii c <? 128)%N) s = true → utf8_valid (as_bytes s) = true.
Proof.
  induction s as [|c s IH]; [done|]. cbn. intros [Hc Hs]%andb_true_iff.
  assert (Byte.to_N (byte_of_ascii c) = N_of_ascii c) as -> by by destruct c as [[] [] [] [] [] [] [] []].
  rewrite Hc. auto.
Qed.

Lemma from_utf8_as_bytes s : utf8_valid (as_bytes s) = true → from_utf8 (as_bytes s) = Ok s.
Proof. intros Hs. unfold from_utf8. by rewrite Hs, String.string_of_list_byte_of_string. Qed.

Lemma string_all_of_mem f s : (∀ c, f c = false → string_mem c s = false) → string_all f s = true.
Proof.
  induction s as [|a s IH]; [done|]. intros Hs. cbn. apply andb_true_iff. split.
  - destruct (f a) eqn:Ha; [done|]. specialize (Hs a Ha). cbn in Hs. by rewrite decide_True in Hs.
  - apply IH. intros c Hc. specialize (Hs c Hc). cbn in Hs. by case_decide.
Qed.

Lemma show_ascii z : string_all (λ c, (N_of_ascii c <? 128)%N) (show z) = true.
Proof.
  apply string_all_of_mem. intros c Hc. apply N.ltb_ge in Hc.
  apply string_mem_show; [by intros ->|]. unfold digit_of.
  rewrite (proj2 (N.leb_gt (N_of_ascii c) 57)) by lia. by rewrite andb_false_r.
Qed.

Lemma utf8_valid_text s t :
  utf8_valid (as_bytes s) = true → utf8_valid (as_bytes (s +:+ t)) = utf8_valid (as_bytes t).
Proof. intros Hs. rewrite as_bytes_app. by apply utf8_valid_app. Qed.

(** ** The authorization header *)

Section authorization_facts.
Context `{Base64}.

Definition header_text (t : string) : string := "Basic " +:+ b64_encode (as_bytes t).

(** What is left of decoding once the text is out of the header. *)
Definition read_credentials (s : string) : outcome string BasicAuthorizationHeader :=
  '(address_part, password) ← ok_or "No ':' character in AuthorizationHeader." (split_first ":" s);
  _ ← ok_or "No '.' character in AuthorizationHeader." (split_first "." s);
  '(username, device_part) ← expect "failed to slice string" (split_first "." address_part);
  device_id ← ok_or "invalid digit found in string" (parse_u32 device_part);
  Ok {| username := username; header_device_id := device_id; password := password |}.

Lemma header_decode_text t :
  utf8_valid (as_bytes t) = true → header_decode (header_text t) = read_credentials t.
Proof.
  intros Ht. unfold header_decode, header_text. cbn [negb String.prefix].
  change ("Basic " +:+ b64_encode (as_bytes t)) with ("Basic" +:+ String " " (b64_encode (as_bytes t))).
  rewrite split_first_app by done. cbn.
  rewrite b64_decode_encode. cbn. by rewrite from_utf8_as_bytes.
Qed.

(** Decoding an encoded header gives the header back: for a user name
    without dot and colon and a device id that fits 32 bits, whatever the
    password. *)
Theorem header_is_read_back (h : BasicAuthorizationHeader) :
  utf8_valid (as_bytes (username h)) = true → utf8_valid (as_bytes (password h)) = true →
  string_mem "." (username h) = false → string_mem ":" (username h) = false →
  in_u32 (header_device_id h) = true →
  header_decode (header_encode h) = Ok h.
Proof.
  destruct h as [u d p]. cbn [username header_device_id password]. intros Hu Hp Hdot Hcolon Hd.
  change (header_decode (header_text (u +:+ "." +:+ show d +:+ ":" +:+ p)) = Ok (Build_BasicAuthorizationHeader u d p)).
  rewrite header_decode_text.
  2:{ rewrite utf8_valid_text, (utf8_valid_text "."), utf8_valid_text, (utf8_valid_text ":") by
        first [done | apply utf8_ascii, show_ascii]. done. }
  unfold read_credentials.
  replace (u +:+ "." +:+ show d +:+ ":" +:+ p) with ((u +:+ "." +:+ show d) +:+ String ":" p)
    by by rewrite !append_assoc'.
  rewrite split_first_app.
  2:{ rewrite !string_mem_app, Hcolon. cbn. by apply string_mem_show. }
  cbn. rewrite append_assoc', !append_cons, !append_nil, (split_first_app "." u) by done. cbn.
  rewrite (split_first_app "." u) by done. cbn. by rewrite parse_u32_show.
Qed.

(** Decoding text sent by a client panics exactly when its first dot comes
    after its first colon, as in [user:pass.word]. *)
Theorem header_decode_panics_iff (t : string) :
  utf8_valid (as_bytes t) = true →
  is_panic (header_decode (header_text t)) = true ↔
    ∃ a p, t = a +:+ String ":" p ∧ string_mem ":" a = false ∧ string_mem "." a = false ∧ string_mem "." p = true.
Proof.
  intros Ht. rewrite header_decode_text by done. unfold read_credentials.
  destruct (split_first ":" t) as [[a p]|] eqn:Hc; cbn.
  2:{ split; [done|]. intros (a & p & -> & Ha & _). by rewrite split_first_app in Hc. }
  apply split_first_Some in Hc as [-> Ha].
  assert (∀ a' p', a +:+ String ":" p = a' +:+ String ":" p' → string_mem ":" a' = false → a = a' ∧ p = p') as Hinj.
  { intros a' p' Heq Ha'. pose proof (split_first_app ":" a p Ha) as H1.
    rewrite Heq, split_first_app in H1 by done. by simplify_eq. }
  destruct (split_first "." a) as [[u d]|] eqn:Hd.
  - apply split_first_Some in Hd as [-> Hu]. rewrite append_assoc', append_cons, (split_first_app "." u) by done. cbn.
    split; [destruct (parse_u32 d); done|]. intros (a' & p' & Heq & Ha' & Hdot & _).
    rewrite <- append_cons, <- append_assoc' in Heq. apply Hinj in Heq as [<- _]; [|done].
    rewrite string_mem_app in Hdot. cbn in Hdot.
    by rewrite orb_true_r in Hdot.
  - apply split_first_None in Hd. destruct (split_first "." (a +:+ String ":" p)) as [[]|] eqn:Hs; cbn.
    + apply split_first_Some in Hs as [Hs _]. split; [|done]. intros _. exists a, p. split_and!; try done.
      assert (string_mem "." (a +:+ String ":" p) = true) as Hm
        by (rewrite Hs, string_mem_app; cbn; apply orb_true_r).
      rewrite string_mem_app, Hd in Hm. done.
    + apply split_first_None in Hs. split; [done|]. intros (a' & p' & Heq & Ha' & _ & Hp).
      apply Hinj in Heq as [<- <-]; [|done]. rewrite string_mem_app in Hs. cbn in Hs. by rewrite Hp, orb_true_r in Hs.
Qed.
End authorization_facts.

Lemma header_is_read_back_witness :
  let h := {| username := "Darkros1245"; header_device_id := 1; password := "mig.12:3" |} in
  header_decode (header_encode h) = Ok h.
Proof. intros h. apply (header_is_read_back h); by vm_compute. Defined.

Lemma header_decode_panics_iff_witness :
  is_panic (header_decode (header_text "user:pass.word")) = true ∧
  is_panic (header_decode (header_text "user.1:pass.word")) = false.
Proof.
  split.
  - apply (header_decode_panics_iff "user:pass.word"); [by vm_compute|].
    exists "user", "pass.word". by vm_compute.
  - by vm_compute.
Defined.

(** ** Addresses and paths *)

(** C3: an address is read back from how it prints, and a text is refused with
    [InvalidFormat] exactly when it has no dot. *)
Theorem address_is_read_back (a : ProtocolAddress) :
  string_mem "." (name a) = false → in_u32 (device_id a) = true →
  parse_protocol_address (address_to_string a) = Ok a ∧
  (∀ s, parse_protocol_address s = Err InvalidFormat ↔ string_mem "." s = false).
Proof.
  intros Ha Hd. split.
  - destruct a as [n d]. unfold parse_protocol_address, address_to_string. cbn [name device_id] in *.
    rewrite append_cons, append_nil, split_first_app by done. cbn. by rewrite parse_u32_show.
  - intros s. unfold parse_protocol_address. destruct (split_first "." s) as [[u d]|] eqn:Hs; cbn.
    + apply split_first_Some in Hs as [-> _]. rewrite string_mem_app. cbn. rewrite orb_true_r.
      split; [by destruct (parse_u32 d)|done].
    + by apply split_first_None in Hs.
Qed.

Lemma address_is_read_back_witness : parse_protocol_address (address_to_string sample_address) = Ok sample_address.
Proof. apply (address_is_read_back sample_address); by vm_compute. Defined.

(** The path made of these parts. *)
Definition path_of (parts : list string) : string := foldr (λ p s, "/" +:+ p +:+ s) "" parts.

Lemma split_path parts :
  Forall (λ p, string_mem "/" p = false) parts → split_on "/" (path_of parts) = "" :: parts.
Proof.
  induction 1 as [|p ps Hp Hps IH]; [done|]. cbn [path_of foldr]. fold (path_of ps).
  rewrite append_cons, append_nil. cbn [split_on]. rewrite decide_True by done. f_equal.
  destruct ps as [|p' ps'].
  - cbn. rewrite append_empty_r. by apply split_on_free.
  - cbn [path_of foldr] in IH |- *. rewrite append_cons, append_nil in IH |- *.
    rewrite split_on_app by done. f_equal. cbn [split_on] in IH. rewrite decide_True in IH by done.
    by inversion IH.
Qed.

(** C4: the parts of a request path are read back by their index, each with
    the parser of its type; an index beyond them is an error, never a panic. *)
Theorem path_parts_are_read_back {T} (from_str : string → option T) (parts : list string) :
  Forall (λ p, string_mem "/" p = false) parts → parts ≠ [] →
  path_extractor (path_of parts) = Ok parts ∧
  ∀ i, extract from_str parts i =
         match parts !! i with
         | Some p => ok_or "failed to convert" (from_str p)
         | None => Err "PathExtractor: Larger than count"
         end.
Proof.
  intros Hp Hne. split.
  - unfold path_extractor. rewrite split_path by done. cbn.
    destruct parts as [|p ps]; [done|]. cbn [path_of foldr].
    rewrite append_cons, decide_False by done. cbn. by destruct (_ +:+ _).
  - intros i. unfold extract. destruct (parts !! i) as [p|] eqn:Hi.
    + pose proof (lookup_lt_Some _ _ _ Hi) as Hl. by rewrite (proj2 (Nat.leb_gt _ _) Hl).
    + apply lookup_ge_None in Hi as Hl. by rewrite (proj2 (Nat.leb_le _ _) Hl).
Qed.

Lemma path_parts_are_read_back_witness :
  path_extractor "/v1/messages/42" = Ok ["v1"; "messages"; "42"] ∧ extract parse_u32 ["v1"; "messages"; "42"] 2 = Ok 42.
Proof.
  destruct (path_parts_are_read_back parse_u32 ["v1"; "messages"; "42"]) as [Hp He].
  - repeat constructor.
  - done.
  - split; [exact Hp|]. rewrite He. by vm_compute.
Defined.

(** ** Padding *)

Lemma padded_length n : 0 ≤ n → get_padded_message_length n = (n / 160 + 1) * 160.
Proof.
  intros Hn. unfold get_padded_message_length.
  pose proof (Z.div_mod n 160). pose proof (Z.mod_pos_bound n 160).
  pose proof (Z.div_mod (n + 1) 160). pose proof (Z.mod_pos_bound (n + 1) 160).
  case_match; zbool; lia.
Qed.

Lemma unpad_free p q : x80 ∉ p → unpad_message (p ++ x80 :: q) = Ok p.
Proof.
  induction p as [|b p IH]; [done|]. intros Hp. cbn [app unpad_message]. rewrite decide_False by set_solver.
  rewrite IH by set_solver. done.
Qed.

(** C37: the padded message is one byte short of a multiple of 160 that its
    length determines, so messages of the same block are equally long; and
    unpadding gives the message up to its first byte [0x80], so all of it
    when it has none. *)
Theorem padding_is_undone (m : bytes) :
  len (pad_message m) = ((len m + 1) / 160 + 1) * 160 - 1 ∧
  (x80 ∉ m → unpad_message (pad_message m) = Ok m) ∧
  (∀ p q, m = p ++ x80 :: q → x80 ∉ p → unpad_message (pad_message m) = Ok p).
Proof.
  unfold pad_message. rewrite padded_length by (pose proof (len_nonneg m); lia). split_and!.
  - rewrite len_app, len_cons, len_zeroes. pose proof (len_nonneg m).
    pose proof (Z.div_mod (len m + 1) 160). pose proof (Z.mod_pos_bound (len m + 1) 160). lia.
  - apply unpad_free.
  - intros p q -> Hp. rewrite <- app_assoc. by apply unpad_free.
Qed.

(** ** WebSocket messages *)

(** A response carries the status and the body it is given, and a content
    length: the body's, unless the caller gave one. *)
Lemma response_states_its_length canonical_reason id status_code headers body m :
  create_response canonical_reason id status_code headers body = Ok m →
  ∃ r reason, ws_type m = Some 2 ∧ ws_request m = None ∧ ws_response m = Some r ∧
    ws_id r = Some id ∧ ws_status r = Some status_code ∧ ws_body r = body ∧
    canonical_reason status_code = Some reason ∧ ws_message r = Some reason ∧
    existsb (String.prefix "Content-Length") (ws_headers r) = true ∧
    (existsb (String.prefix "Content-Length") headers = false →
     ws_headers r = headers ++ ["Content-Length: " +:+ show (from_option len 0 body)]).
Proof.
  unfold create_response. destruct (canonical_reason status_code) as [reason|] eqn:Hr; [|done]. cbn.
  intros [= <-]. eexists _, _. split_and!; try done; cbn.
  - case_match eqn:Hh; [done|]. rewrite existsb_app. cbn. by rewrite orb_true_r.
  - intros ->. by destruct body.
Qed.
