(* ===== verification/Frames.v ===== *)
(** What goes over a WebSocket between a client and the server: frames, and the
    protobuf messages in them ([common/proto/WebSocketProtocol.proto]). *)
From S2P Require Export Wire Codecs.

Local Open Scope Z_scope.

(** [axum::extract::ws::Message], and tungstenite's [Message]. *)
Inductive ws_frame :=
| Text (t : string)
| Binary (b : bytes)
| Ping (b : bytes)
| Pong (b : bytes)
| Close (frame : option (Z * string)).

(** [r#type()]: an unknown number is the first value. *)
Inductive message_kind := KindUnknown | KindRequest | KindResponse.
Definition kind_of (m : WebSocketMessage) : message_kind :=
  match ws_type m with
  | Some 1 => KindRequest
  | Some 2 => KindResponse
  | _ => KindUnknown
  end.

(** protobuf ([prost]): a message that is encoded is decoded. *)
Class Protobuf := {
  encode_message : WebSocketMessage → bytes;
  decode_message : bytes → string + WebSocketMessage;
  decode_encode_message m : decode_message (encode_message m) = inr m;
}.

(** ** A codec for the witnesses *)

Global Instance WebSocketRequestMessage_eq : EqDecision WebSocketRequestMessage.
Proof. solve_decision. Defined.
Global Program Instance WebSocketRequestMessage_countable : Countable WebSocketRequestMessage :=
  inj_countable' (λ r, (ws_verb r, ws_path r, ws_request_body r, ws_request_headers r, ws_request_id r))
    (λ '(a, b, c, d, e), {| ws_verb := a; ws_path := b; ws_request_body := c; ws_request_headers := d; ws_request_id := e |}) _.
Next Obligation. by intros []. Qed.
Global Instance WebSocketResponseMessage_eq : EqDecision WebSocketResponseMessage.
Proof. solve_decision. Defined.
Global Program Instance WebSocketResponseMessage_countable : Countable WebSocketResponseMessage :=
  inj_countable' (λ r, (ws_id r, ws_status r, ws_message r, ws_headers r, ws_body r))
    (λ '(a, b, c, d, e), {| ws_id := a; ws_status := b; ws_message := c; ws_headers := d; ws_body := e |}) _.
Next Obligation. by intros []. Qed.
Global Instance WebSocketMessage_eq : EqDecision WebSocketMessage.
Proof. solve_decision. Defined.
Global Program Instance WebSocketMessage_countable : Countable WebSocketMessage :=
  inj_countable' (λ m, (ws_type m, ws_request m, ws_response m))
    (λ '(a, b, c), {| ws_type := a; ws_request := b; ws_response := c |}) _.
Next Obligation. by intros []. Qed.

Program Definition demo_protobuf : Protobuf := {|
  encode_message := enc;
  decode_message bs := match dec bs with Some m => inr m | None => inl "failed to decode Protobuf message" end;
|}.
Next Obligation. intros m. cbn. by rewrite dec_enc. Qed.
