(* ===== verification/SocketManager.v ===== *)
(** The client's end of a WebSocket: the socket manager
    ([client/src/socket_manager.rs]) with the task that reads the socket, and
    the queue of incoming messages ([client/src/persistent_receiver.rs],
    [SignalServer::new] of [client/src/server.rs]) with the task that fills it. *)
From S2P Require Export Frames Effects.
From stdpp Require Export relations.

Local Open Scope Z_scope.

(** ** Definitions *)

(** *** tokio's broadcast channel

    Every receiver sees everything that is sent after it subscribed, as long
    as it is at most the capacity behind; a receiver that is further behind is
    told how much it missed and goes on with the oldest value that is kept.
    The channel may keep more values than it was asked for. *)
Record channel (T : Type) := { ch_log : list T; ch_capacity : nat }.
Arguments ch_log {T} _.
Arguments ch_capacity {T} _.

Inductive received (T : Type) := Lagged (missed : nat) | Received (m : T).
Arguments Lagged {T} missed.
Arguments Received {T} m.

Definition broadcast {T} (m : T) (c : channel T) : channel T :=
  {| ch_log := ch_log c ++ [m]; ch_capacity := ch_capacity c |}.
Definition subscribe {T} (c : channel T) : nat := length (ch_log c).
Definition oldest {T} (c : channel T) : nat := length (ch_log c) - ch_capacity c.

(** [channel_recv] is [None] while the receiver waits. *)
Class BroadcastChannel := {
  actual_capacity : nat → nat;
  channel_recv : ∀ {T}, channel T → nat → option (received T * nat);
  capacity_at_least n : (n ≤ actual_capacity n)%nat;
  recv_in_time {T} (c : channel T) pos : (length (ch_log c) - pos ≤ ch_capacity c)%nat →
    channel_recv c pos = (λ m, (Received m, S pos)) <$> ch_log c !! pos;
  recv_too_late {T} (c : channel T) pos : (ch_capacity c < length (ch_log c) - pos)%nat →
    channel_recv c pos = Some (Lagged (oldest c - pos), oldest c);
}.

(** *** [PersistentReceiver] *)

Record PersistentReceiver (T : Type) := { pr_running : bool; pr_pos : nat; pr_queue : list T }.
Arguments pr_running {T} _.
Arguments pr_pos {T} _.
Arguments pr_queue {T} _.

Definition PersistentReceiver_new {T} (r : nat) : PersistentReceiver T := {| pr_running := true; pr_pos := r; pr_queue := [] |}.

(** One round of the spawned task; an error of [recv] ends it. *)
Definition forward `{BroadcastChannel} {T} (filter : option (T → option T)) (c : channel T) (self : PersistentReceiver T)
    : option (PersistentReceiver T) :=
  if pr_running self then
    match channel_recv c (pr_pos self) with
    | None => None
    | Some (Lagged _, pos) => Some {| pr_running := false; pr_pos := pos; pr_queue := pr_queue self |}
    | Some (Received msg, pos) =>
        let sent := match filter with Some f => option_list (f msg) | None => [msg] end in
        Some {| pr_running := true; pr_pos := pos; pr_queue := pr_queue self ++ sent |}
    end
  else None.

Definition is_empty {T} (self : PersistentReceiver T) : bool := bool_decide (pr_queue self = []).
(** [None]: waits; [Some (None, _)]: the task has ended and the queue is empty. *)
Definition queue_recv {T} (self : PersistentReceiver T) : option (option T * PersistentReceiver T) :=
  match pr_queue self with
  | m :: queue => Some (Some m, {| pr_running := pr_running self; pr_pos := pr_pos self; pr_queue := queue |})
  | [] => if pr_running self then None else Some (None, self)
  end.

(** The filter of [SignalServer::new]: the requests that carry messages. *)
Definition message_filter (x : WebSocketMessage) : option WebSocketMessage :=
  match kind_of x, ws_request x with
  | KindRequest, Some request =>
      if bool_decide (default "" (ws_path request) = "/api/v1/message") && bool_decide (default "" (ws_verb request) = "PUT")
      then Some x else None
  | _, _ => None
  end.

(** *** [SocketManager]

    The counter, the channel and the connection are shared by all clones; a
    clone has a receiver of its own. *)
Inductive managerE : Type → Type :=
| IsActive : managerE bool
| SetConnection (active : bool) : managerE unit
| SinkSend (f : ws_frame) : managerE unit
| FetchId : managerE Z
| Broadcast (m : WebSocketMessage) : managerE unit
| ReceiverNext : managerE WebSocketMessage
| SpawnReader : managerE unit.

Abbreviation manager_prog := (prog managerE string).

Module SocketManager.
Section manager.
Context `{Protobuf}.

Definition is_active : manager_prog bool := op IsActive.

Definition close_reason (code : Z) (reason : string) : manager_prog unit :=
  active ← op IsActive;
  _ ← op (SetConnection false);
  if (active : bool) then _ ← try_ (op (SinkSend (Close (Some (code, reason))))); Ret tt else Ret tt.
Definition close : manager_prog unit := close_reason 1000 "Goodbye".

(** One round of the task that [set_stream] spawns; whether it goes on. *)
Definition on_frame (res : string + ws_frame) : manager_prog bool :=
  match res with
  | inl _ | inr (Text _) | inr (Close _) => _ ← close; Ret false
  | inr (Binary x) =>
      match decode_message x with
      | inl _ => _ ← close_reason 1007 "Badly formatted"; Ret false
      | inr msg =>
          r ← try_ (op (Broadcast msg));
          match r with
          | inl _ => _ ← close; Ret false
          | inr _ => Ret true
          end
      end
  | inr _ => Ret true
  end.

Definition set_stream : manager_prog unit :=
  active ← op IsActive;
  if (active : bool) then Throw "A Stream is already present!"
  else _ ← op (SetConnection true); op SpawnReader.

Definition next_id : manager_prog Z := op FetchId.

(** One round of [wait_for_id]. *)
Definition wait_once (id : Z) : manager_prog (option WebSocketMessage) :=
  msg ← op ReceiverNext;
  match kind_of msg with
  | KindResponse =>
      response ← lift (expect "No Response in response" (ws_response msg));
      id' ← lift (expect "No ID" (ws_id response));
      Ret (if id' =? id then Some msg else None)
  | KindRequest =>
      request ← lift (expect "No Request in response" (ws_request msg));
      id' ← lift (expect "No ID" (ws_request_id request));
      Ret (if id' =? id then Some msg else None)
  | KindUnknown => Ret None
  end.

(** [send] up to its wait, and [send_response]. *)
Definition send_response (message : WebSocketMessage) : manager_prog unit :=
  active ← op IsActive;
  if (active : bool) then op (SinkSend (Binary (encode_message message))) else Throw "Closed".
End manager.
End SocketManager.

(** *** A client and its tasks

    A manager with one handle.  Sending the [n]-th frame fails when [mw_fate n]
    is an error. *)
Record manager_world := {
  mw_next_id : Z;
  mw_active : bool;
  mw_channel : channel WebSocketMessage;
  mw_receiver : nat;
  mw_reading : bool;
  mw_sent : list ws_frame;
  mw_attempts : nat;
  mw_fate : nat → option string;
}.

(** [SocketManager::new] *)
Definition SocketManager_new `{BroadcastChannel} (broadcast_capacity : nat) (fate : nat → option string) : manager_world :=
  {| mw_next_id := 0; mw_active := false; mw_channel := {| ch_log := []; ch_capacity := actual_capacity broadcast_capacity |};
     mw_receiver := 0; mw_reading := false; mw_sent := []; mw_attempts := 0; mw_fate := fate |}.

Definition with_connection (w : manager_world) (active : bool) : manager_world :=
  {| mw_next_id := mw_next_id w; mw_active := active; mw_channel := mw_channel w; mw_receiver := mw_receiver w;
     mw_reading := mw_reading w; mw_sent := mw_sent w; mw_attempts := mw_attempts w; mw_fate := mw_fate w |}.
Definition with_reading (w : manager_world) (reading : bool) : manager_world :=
  {| mw_next_id := mw_next_id w; mw_active := mw_active w; mw_channel := mw_channel w; mw_receiver := mw_receiver w;
     mw_reading := reading; mw_sent := mw_sent w; mw_attempts := mw_attempts w; mw_fate := mw_fate w |}.
Definition with_channel (w : manager_world) (c : channel WebSocketMessage) : manager_world :=
  {| mw_next_id := mw_next_id w; mw_active := mw_active w; mw_channel := c; mw_receiver := mw_receiver w;
     mw_reading := mw_reading w; mw_sent := mw_sent w; mw_attempts := mw_attempts w; mw_fate := mw_fate w |}.
Definition with_receiver (w : manager_world) (pos : nat) : manager_world :=
  {| mw_next_id := mw_next_id w; mw_active := mw_active w; mw_channel := mw_channel w; mw_receiver := pos;
     mw_reading := mw_reading w; mw_sent := mw_sent w; mw_attempts := mw_attempts w; mw_fate := mw_fate w |}.
Definition with_attempt (w : manager_world) (taken : list ws_frame) : manager_world :=
  {| mw_next_id := mw_next_id w; mw_active := mw_active w; mw_channel := mw_channel w; mw_receiver := mw_receiver w;
     mw_reading := mw_reading w; mw_sent := mw_sent w ++ taken; mw_attempts := S (mw_attempts w); mw_fate := mw_fate w |}.
(** [fetch_add], which wraps around. *)
Definition with_fetched (w : manager_world) : manager_world :=
  {| mw_next_id := (mw_next_id w + 1) mod 2 ^ 64; mw_active := mw_active w; mw_channel := mw_channel w;
     mw_receiver := mw_receiver w; mw_reading := mw_reading w; mw_sent := mw_sent w; mw_attempts := mw_attempts w;
     mw_fate := mw_fate w |}.

(** How [RecvError::Lagged] prints. *)
Definition lagged (missed : nat) : string := "channel lagged by " +:+ show (Z.of_nat missed).
Definition waits : string := "waits for a message".

Definition manager_step `{BroadcastChannel} : handler managerE string manager_world := λ X c w,
  match c in managerE X return outcome string X * manager_world with
  | IsActive => (Ok (mw_active w), w)
  | SetConnection active => (Ok tt, with_connection w active)
  | SinkSend f =>
      match mw_fate w (mw_attempts w) with
      | None => (Ok tt, with_attempt w [f])
      | Some e => (Err e, with_attempt w [])
      end
  | FetchId => (Ok (mw_next_id w), with_fetched w)
  | Broadcast m => (Ok tt, with_channel w (broadcast m (mw_channel w)))
  | ReceiverNext =>
      match channel_recv (mw_channel w) (mw_receiver w) with
      | None => (Panic waits, w)
      | Some (Lagged missed, pos) => (Err (lagged missed), with_receiver w pos)
      | Some (Received m, pos) => (Ok m, with_receiver w pos)
      end
  | SpawnReader => (Ok tt, with_reading w true)
  end.

(** What the caller of [send] is at. *)
Inductive call := Idle | Waiting (id : Z) | Returned (o : outcome string WebSocketMessage).

(** The caller, the two tasks, what the socket is about to deliver, and what
    the caller took from the queue of messages. *)
Record system := {
  sy_manager : manager_world;
  sy_arriving : list (string + ws_frame);
  sy_call : call;
  sy_queue : PersistentReceiver WebSocketMessage;
  sy_taken : list WebSocketMessage;
}.

Section steps.
Context `{Protobuf, BroadcastChannel}.

(** A locked section, or a step between two waits, happens at once.  The stream
    can end when it has nothing more to deliver; the task that reads it then
    ends too, and closes nothing. *)
Inductive event :=
| Arrives (f : string + ws_frame)
| Connects
| Reads
| Ends
| Sends (message : WebSocketMessage)
| Waits
| Forwards
| Takes.

Definition at_manager (s : system) (w : manager_world) : system :=
  {| sy_manager := w; sy_arriving := sy_arriving s; sy_call := sy_call s; sy_queue := sy_queue s; sy_taken := sy_taken s |}.
Definition at_call (s : system) (w : manager_world) (c : call) : system :=
  {| sy_manager := w; sy_arriving := sy_arriving s; sy_call := c; sy_queue := sy_queue s; sy_taken := sy_taken s |}.

Definition waiting (s : system) : bool := match sy_call s with Waiting _ => true | _ => false end.

Definition system_step (e : event) (s : system) : option system :=
  let w := sy_manager s in
  match e with
  | Arrives f =>
      Some {| sy_manager := w; sy_arriving := sy_arriving s ++ [f]; sy_call := sy_call s; sy_queue := sy_queue s; sy_taken := sy_taken s |}
  | Connects => if waiting s then None else Some (at_manager s (interp manager_step SocketManager.set_stream w).2)
  | Reads =>
      match sy_arriving s with
      | f :: arriving =>
          if mw_reading w then
            let '(o, w') := interp manager_step (SocketManager.on_frame f) w in
            let goes_on := match o with Ok b => b | _ => false end in
            Some {| sy_manager := with_reading w' goes_on; sy_arriving := arriving; sy_call := sy_call s;
                    sy_queue := sy_queue s; sy_taken := sy_taken s |}
          else None
      | [] => None
      end
  | Ends =>
      match sy_arriving s with
      | [] => if mw_reading w then Some (at_manager s (with_reading w false)) else None
      | _ => None
      end
  | Sends message =>
      if waiting s then None
      else
        let id := mw_next_id w in
        match interp manager_step (_ ← SocketManager.next_id; SocketManager.send_response message) w with
        | (Ok _, w') => Some (at_call s w' (Waiting id))
        | (Err e, w') => Some (at_call s w' (Returned (Err e)))
        | (Panic e, w') => Some (at_call s w' (Returned (Panic e)))
        end
  | Waits =>
      match sy_call s, channel_recv (mw_channel w) (mw_receiver w) with
      | Waiting id, Some _ =>
          match interp manager_step (SocketManager.wait_once id) w with
          | (Ok None, w') => Some (at_call s w' (Waiting id))
          | (Ok (Some m), w') => Some (at_call s w' (Returned (Ok m)))
          | (Err e, w') => Some (at_call s w' (Returned (Err e)))
          | (Panic e, w') => Some (at_call s w' (Returned (Panic e)))
          end
      | _, _ => None
      end
  | Forwards =>
      q ← forward (Some message_filter) (mw_channel w) (sy_queue s);
      Some {| sy_manager := w; sy_arriving := sy_arriving s; sy_call := sy_call s; sy_queue := q; sy_taken := sy_taken s |}
  | Takes =>
      if waiting s then None
      else
        '(m, q) ← queue_recv (sy_queue s);
        Some {| sy_manager := w; sy_arriving := sy_arriving s; sy_call := sy_call s; sy_queue := q;
                sy_taken := sy_taken s ++ option_list m |}
  end.

Inductive moves : system → system → Prop :=
| moves_by e s s' : system_step e s = Some s' → moves s s'.

(** [SignalServer::new]: a manager for [capacity] messages, and the queue. *)
Definition new_system (capacity : nat) (fate : nat → option string) : system :=
  let w := SocketManager_new capacity fate in
  {| sy_manager := w; sy_arriving := []; sy_call := Idle; sy_queue := PersistentReceiver_new (subscribe (mw_channel w)); sy_taken := [] |}.
End steps.

(** ** Runs *)

Section runs.
Context `{Protobuf, BroadcastChannel}.

Fixpoint run_events (es : list event) (s : system) : option system :=
  match es with
  | [] => Some s
  | e :: es => s' ← system_step e s; run_events es s'
  end.

Lemma run_events_app es es' s : run_events (es ++ es') s = (s' ← run_events es s; run_events es' s').
Proof. revert s. induction es as [|e es IH]; intros s; [done|]. cbn. destruct (system_step e s); cbn; [apply IH|done]. Qed.

Lemma run_events_invariant (I : system → Prop) (P : event → Prop) es s s' :
  (∀ e s s', P e → I s → system_step e s = Some s' → I s') → Forall P es → I s → run_events es s = Some s' → I s'.
Proof.
  intros HI HP. revert s. induction HP as [|e es He HP IH]; intros s Hs; cbn; [by intros [= <-]|].
  destruct (system_step e s) as [s1|] eqn:Hstep; [|done]. cbn. apply IH. by eapply HI.
Qed.

(** Runs and reachable states are the same. *)
Lemma reachable_iff s s' : rtc moves s s' ↔ ∃ es, run_events es s = Some s'.
Proof.
  split.
  - induction 1 as [s|s s1 s2 [e s0 s0' He] _ (es & Hes)]; [by exists []|]. exists (e :: es). cbn. by rewrite He.
  - intros [es Hes]. revert s Hes. induction es as [|e es IH]; intros s; cbn; [by intros [= ->]|].
    destruct (system_step e s) as [s1|] eqn:He; [|done]. cbn. intros Hes.
    eapply rtc_l; [by eapply moves_by|]. by apply IH.
Qed.

Definition message_arrives (m : WebSocketMessage) : string + ws_frame := inr (Binary (encode_message m)).
Definition arrivals (es : list event) : list (string + ws_frame) :=
  omap (λ e, match e with Arrives f => Some f | _ => None end) es.

Lemma on_message m w :
  interp manager_step (SocketManager.on_frame (message_arrives m)) w = (Ok true, with_channel w (broadcast m (mw_channel w))).
Proof. unfold message_arrives, SocketManager.on_frame. by rewrite decode_encode_message. Qed.

(** What a step of the caller leaves alone. *)
Lemma manager_send_run msg w :
  ∃ o w', interp manager_step (_ ← SocketManager.next_id; SocketManager.send_response msg) w = (o, w') ∧
    mw_channel w' = mw_channel w ∧ mw_receiver w' = mw_receiver w ∧ mw_reading w' = mw_reading w ∧ mw_active w' = mw_active w.
Proof.
  unfold SocketManager.next_id, SocketManager.send_response. istep. cbn [manager_step].
  rewrite interp_op_bind. cbn [manager_step]. change (mw_active (with_fetched w)) with (mw_active w).
  destruct (mw_active w) eqn:Ha; [|by eexists _, _].
  rewrite interp_op. cbn [manager_step]. destruct (mw_fate (with_fetched w) _); by eexists _, _.
Qed.

Definition wait_result (id : Z) (msg : WebSocketMessage) : outcome string (option WebSocketMessage) :=
  match kind_of msg with
  | KindResponse =>
      response ← expect "No Response in response" (ws_response msg);
      id' ← expect "No ID" (ws_id response);
      Ok (if id' =? id then Some msg else None)
  | KindRequest =>
      request ← expect "No Request in response" (ws_request msg);
      id' ← expect "No ID" (ws_request_id request);
      Ok (if id' =? id then Some msg else None)
  | KindUnknown => Ok None
  end.

Lemma wait_run id w m pos : channel_recv (mw_channel w) (mw_receiver w) = Some (Received m, pos) →
  interp manager_step (SocketManager.wait_once id) w = (wait_result id m, with_receiver w pos).
Proof.
  intros Hr. unfold SocketManager.wait_once. istep. cbn [manager_step]. rewrite Hr. unfold wait_result.
  destruct (kind_of m); [done| |].
  - destruct (ws_request m) as [r|]; [|done]. cbn. by destruct (ws_request_id r).
  - destruct (ws_response m) as [r|]; [|done]. cbn. by destruct (ws_id r).
Qed.

Lemma wait_lagged id w missed pos : channel_recv (mw_channel w) (mw_receiver w) = Some (Lagged missed, pos) →
  interp manager_step (SocketManager.wait_once id) w = (Err (lagged missed), with_receiver w pos).
Proof. intros Hr. unfold SocketManager.wait_once. istep. cbn [manager_step]. by rewrite Hr. Qed.

Lemma recv_cases {T} (c : channel T) pos :
  channel_recv c pos = (λ m, (Received m, S pos)) <$> ch_log c !! pos ∨ channel_recv c pos = Some (Lagged (oldest c - pos), oldest c).
Proof. destruct (le_lt_dec (length (ch_log c) - pos) (ch_capacity c)); [left|right]; auto using recv_in_time, recv_too_late. Qed.
End runs.

(** ** The queue of messages *)

Section delivery.
Context `{Protobuf, BroadcastChannel}.

(** Of the messages [ms] that arrived, some were broadcast, the others wait at
    the socket; the queue holds, after what was taken from it, the broadcast
    ones that pass the filter. *)
Record delivering (ms : list WebSocketMessage) (s : system) : Prop := {
  dl_arrived : ms = ch_log (mw_channel (sy_manager s)) ++ drop (length (ch_log (mw_channel (sy_manager s)))) ms ∧
    sy_arriving s = map message_arrives (drop (length (ch_log (mw_channel (sy_manager s)))) ms);
  dl_queue : pr_running (sy_queue s) = true →
    (pr_pos (sy_queue s) ≤ length (ch_log (mw_channel (sy_manager s))))%nat ∧
    sy_taken s ++ pr_queue (sy_queue s) = omap message_filter (take (pr_pos (sy_queue s)) (ch_log (mw_channel (sy_manager s))));
}.

Lemma new_delivering capacity fate : delivering [] (new_system capacity fate).
Proof. by split. Qed.

(** Steps that change neither the channel nor what is at the socket. *)
Lemma delivering_same ms s s' :
  mw_channel (sy_manager s') = mw_channel (sy_manager s) → sy_arriving s' = sy_arriving s → sy_queue s' = sy_queue s →
  sy_taken s' = sy_taken s → delivering ms s → delivering ms s'.
Proof. intros Hc Ha Hq Ht []. by split; rewrite Hc, ?Ha, ?Hq, ?Ht. Qed.

Definition arrived (e : event) (ms : list WebSocketMessage) : Prop :=
  match e with Arrives f => ∃ m, f = message_arrives m ∧ ms = [m] | _ => ms = [] end.

Lemma set_stream_run w : ∃ o w', interp manager_step SocketManager.set_stream w = (o, w') ∧
  mw_channel w' = mw_channel w ∧ mw_receiver w' = mw_receiver w.
Proof. unfold SocketManager.set_stream. istep. cbn [manager_step]. destruct (mw_active w); by eexists _, _. Qed.

Lemma waits_step s s' : system_step Waits s = Some s' →
  mw_channel (sy_manager s') = mw_channel (sy_manager s) ∧ sy_arriving s' = sy_arriving s ∧ sy_queue s' = sy_queue s ∧
  sy_taken s' = sy_taken s ∧ mw_reading (sy_manager s') = mw_reading (sy_manager s).
Proof.
  cbn [system_step]. destruct (sy_call s) as [|id|]; [done| |done].
  destruct (channel_recv _ _) as [[[missed|m] pos]|] eqn:Hr; [| |done].
  - rewrite (wait_lagged id _ missed pos Hr). by intros [= <-].
  - rewrite (wait_run id _ m pos Hr). by destruct (wait_result id m) as [[]|e|e]; intros [= <-].
Qed.

Lemma sends_step msg s s' : system_step (Sends msg) s = Some s' →
  mw_channel (sy_manager s') = mw_channel (sy_manager s) ∧ sy_arriving s' = sy_arriving s ∧ sy_queue s' = sy_queue s ∧
  sy_taken s' = sy_taken s ∧ mw_reading (sy_manager s') = mw_reading (sy_manager s).
Proof.
  cbn [system_step]. destruct (waiting s); [done|].
  destruct (manager_send_run msg (sy_manager s)) as (o & w' & Hrun & Hc & _ & Hr & _). rewrite Hrun.
  destruct o as [x|e|e]; intros [= <-]; by rewrite <- ?Hc, <- ?Hr.
Qed.

Lemma step_delivering e new ms s s' :
  arrived e new → delivering ms s → system_step e s = Some s' → delivering (ms ++ new) s'.
Proof.
  intros Hnew Hs. destruct e as [f| | | |msg| | |]; cbn [arrived] in Hnew; subst; rewrite ?app_nil_r.
  - destruct Hnew as (m & -> & ->). intros [= <-]. destruct Hs as [[Hms Ha] Hq]. split; [|done]. cbn.
    set (n := length _) in *. assert (n ≤ length ms)%nat as Hn by (rewrite Hms, length_app; unfold n; lia).
    rewrite drop_app_le by done. split; [by rewrite app_assoc, <- Hms|]. by rewrite map_app, <- Ha.
  - cbn [system_step]. destruct (waiting s); [done|].
    destruct (set_stream_run (sy_manager s)) as (o & w' & -> & Hc & _). intros [= <-]. by eapply delivering_same.
  - cbn [system_step]. destruct Hs as [[Hms Ha] Hq]. destruct (sy_arriving s) as [|f arriving]; [done|].
    destruct (mw_reading _); [|done]. set (n := length _) in *.
    destruct (drop n ms) as [|m rest] eqn:Hdrop; [done|]. injection Ha as -> ->. rewrite on_message. intros [= <-].
    split; cbn.
    + rewrite length_app. cbn [length]. fold n. rewrite <- drop_drop, Hdrop. cbn [drop]. rewrite <- app_assoc. done.
    + intros Hrun. destruct (Hq Hrun) as [Hp Heq]. rewrite length_app. split; [lia|]. by rewrite take_app_le by done.
  - cbn [system_step]. destruct (sy_arriving s); [|done]. destruct (mw_reading _); [|done]. intros [= <-]. by apply (delivering_same ms s).
  - intros (Hc & Ha & Hq & Ht & _)%sends_step. by eapply delivering_same.
  - intros (Hc & Ha & Hq & Ht & _)%waits_step. by eapply delivering_same.
  - cbn [system_step]. unfold forward. destruct (pr_running (sy_queue s)) eqn:Hrun; [|done].
    destruct Hs as [Harr Hq]. destruct (Hq Hrun) as [Hp Heq].
    destruct (recv_cases (mw_channel (sy_manager s)) (pr_pos (sy_queue s))) as [-> | ->]; [|cbn; intros [= <-]; by split].
    destruct (ch_log _ !! _) as [m|] eqn:Hm; [|done]. cbn. intros [= <-]. split; [done|]. cbn. intros _.
    apply lookup_lt_Some in Hm as Hlt. split; [lia|]. rewrite (take_S_r _ _ m Hm), omap_app, <- Heq, <- app_assoc. cbn.
    by destruct (message_filter m).
  - cbn [system_step]. destruct (waiting s); [done|]. unfold queue_recv. destruct Hs as [Harr Hq].
    destruct (pr_queue (sy_queue s)) as [|m queue] eqn:Hqueue.
    + destruct (pr_running (sy_queue s)) eqn:Hrun; [done|]. cbn. intros [= <-]. split; [done|]. cbn. by rewrite Hrun.
    + cbn. intros [= <-]. split; [done|]. cbn. intros Hrun. destruct (Hq Hrun) as [Hp Heq]. split; [done|]. by rewrite <- app_assoc.
Qed.

Lemma run_delivering es : ∀ ms0 ms s s',
  arrivals es = map message_arrives ms → delivering ms0 s → run_events es s = Some s' → delivering (ms0 ++ ms) s'.
Proof.
  induction es as [|e es IH]; intros ms0 ms s s' Harr Hs; cbn [run_events].
  { destruct ms; [|done]. rewrite app_nil_r. by intros [= <-]. }
  destruct (system_step e s) as [s1|] eqn:He; [|done]. cbn [mbind option_bind].
  assert (∃ new rest, arrived e new ∧ ms = new ++ rest ∧ arrivals es = map message_arrives rest) as (new & rest & Hnew & -> & Hrest).
  { destruct e as [f| | | |?| | |]; try (by exists [], ms). unfold arrivals in Harr. cbn in Harr.
    destruct ms as [|m ms]; [done|]. injection Harr as -> Harr. exists [m], ms. split_and!; [by exists m|done..]. }
  intros Hrun. rewrite app_assoc. eapply IH; [done| |done]. by eapply step_delivering.
Qed.

Definition log (s : system) : list WebSocketMessage := ch_log (mw_channel (sy_manager s)).
Definition position (s : system) : nat := pr_pos (sy_queue s).
Definition capacity (s : system) : nat := ch_capacity (mw_channel (sy_manager s)).

Definition drains (e : event) : Prop := e = Reads ∨ e = Forwards.

(** One message is forwarded. *)
Lemma forward_step s : pr_running (sy_queue s) = true → (position s < length (log s))%nat → (length (log s) - position s ≤ capacity s)%nat →
  ∃ s', system_step Forwards s = Some s' ∧ sy_manager s' = sy_manager s ∧ sy_arriving s' = sy_arriving s ∧ sy_taken s' = sy_taken s ∧
    pr_running (sy_queue s') = true ∧ position s' = S (position s).
Proof.
  intros Hrun Hlt Hcap. cbn [system_step]. unfold forward. rewrite Hrun, recv_in_time by done.
  destruct (lookup_lt_is_Some_2 (log s) (position s) Hlt) as [m Hm]. unfold log, position in Hm. rewrite Hm. cbn.
  by eexists.
Qed.

Lemma forward_all n : ∀ s, n = (length (log s) - position s)%nat →
  pr_running (sy_queue s) = true → (position s ≤ length (log s))%nat → (n ≤ capacity s)%nat →
  ∃ es s', Forall drains es ∧ run_events es s = Some s' ∧ sy_manager s' = sy_manager s ∧ sy_arriving s' = sy_arriving s ∧
    sy_taken s' = sy_taken s ∧ pr_running (sy_queue s') = true ∧ position s' = length (log s).
Proof.
  induction n as [|n IH]; intros s Hn Hrun Hle Hcap.
  { exists [], s. split_and!; try done. lia. }
  destruct (forward_step s Hrun ltac:(lia) ltac:(lia)) as (s1 & Hstep & Hm & Ha & Ht & Hrun1 & Hp).
  destruct (IH s1) as (es & s' & Hes & Hruns & Hm' & Ha' & Ht' & Hr' & Hp'); [unfold log, capacity in *; rewrite ?Hm, ?Hp; try done; lia..|].
  exists (Forwards :: es), s'. split_and!; [constructor; [by right|done]| |by rewrite Hm'|by rewrite Ha'|by rewrite Ht'|done|].
  - cbn [run_events]. by rewrite Hstep.
  - rewrite Hp'. unfold log. by rewrite Hm.
Qed.

Lemma read_step s m arriving : mw_reading (sy_manager s) = true → sy_arriving s = message_arrives m :: arriving →
  ∃ s', system_step Reads s = Some s' ∧ sy_arriving s' = arriving ∧ sy_queue s' = sy_queue s ∧ sy_taken s' = sy_taken s ∧
    log s' = log s ++ [m] ∧ capacity s' = capacity s ∧ mw_reading (sy_manager s') = true.
Proof. intros Hr Ha. cbn [system_step]. rewrite Ha, Hr, on_message. by eexists. Qed.

Lemma drain_all ms : ∀ s, sy_arriving s = map message_arrives ms → mw_reading (sy_manager s) = true →
  pr_running (sy_queue s) = true → (position s ≤ length (log s))%nat → (length (log s) - position s ≤ capacity s)%nat → (1 ≤ capacity s)%nat →
  ∃ es s', Forall drains es ∧ run_events es s = Some s' ∧ sy_arriving s' = [] ∧ sy_taken s' = sy_taken s ∧
    pr_running (sy_queue s') = true ∧ position s' = length (log s').
Proof.
  induction ms as [|m ms IH]; intros s Ha Hr Hrun Hle Hlag Hcap;
    destruct (forward_all _ s eq_refl Hrun Hle Hlag) as (es1 & s1 & Hes1 & Hruns1 & Hm1 & Ha1 & Ht1 & Hrun1 & Hp1).
  { exists es1, s1. split_and!; try done; [by rewrite Ha1|]. unfold log at 1. by rewrite Hm1. }
  destruct (read_step s1 m (map message_arrives ms)) as (s2 & Hstep & Ha2 & Hq2 & Ht2 & Hl2 & Hc2 & Hr2);
    [by rewrite Hm1|by rewrite Ha1|].
  assert (log s1 = log s) as Hl1 by (unfold log; by rewrite Hm1).
  assert (capacity s1 = capacity s) as Hc1 by (unfold capacity; by rewrite Hm1).
  assert (position s2 = length (log s)) as Hp2 by (unfold position; by rewrite Hq2).
  destruct (IH s2) as (es & s' & Hes & Hruns & Ha' & Ht' & Hr' & Hp'); try done.
  { by rewrite Hq2. }
  { rewrite Hl2, Hl1, Hp2, length_app. lia. }
  { rewrite Hl2, Hl1, Hp2, Hc2, Hc1, length_app. cbn. lia. }
  { by rewrite Hc2, Hc1. }
  exists (es1 ++ Reads :: es), s'. split_and!; try done.
  - apply Forall_app. split; [done|]. constructor; [by left|done].
  - rewrite run_events_app, Hruns1. cbn [mbind option_bind run_events]. by rewrite Hstep.
  - by rewrite Ht', Ht2.
Qed.
End delivery.

(** ** Answers *)

Section answers.
Context `{Protobuf, BroadcastChannel}.

Abbreviation receiver s := (mw_receiver (sy_manager s)).

Lemma close_run code reason w : ∃ o w', interp manager_step (SocketManager.close_reason code reason) w = (o, w') ∧
  (∀ e, o ≠ Panic e) ∧ mw_channel w' = mw_channel w ∧ mw_receiver w' = mw_receiver w ∧ mw_active w' = false.
Proof.
  unfold SocketManager.close_reason. istep. cbn [manager_step]. rewrite interp_op_bind. cbn [manager_step].
  destruct (mw_active w); [|by eexists _, _]. rewrite interp_bind, interp_try, interp_op. cbn [manager_step].
  destruct (mw_fate _ _); by eexists _, _.
Qed.

(** A frame at most adds to the log. *)
Lemma on_frame_run f w : ∃ o w' new, interp manager_step (SocketManager.on_frame f) w = (o, w') ∧
  mw_channel w' = {| ch_log := ch_log (mw_channel w) ++ new; ch_capacity := ch_capacity (mw_channel w) |} ∧
  mw_receiver w' = mw_receiver w ∧ (o ≠ Ok true → mw_active w' = false).
Proof.
  assert (∀ c : channel WebSocketMessage, c = {| ch_log := ch_log c ++ []; ch_capacity := ch_capacity c |}) as Hnil
    by (intros []; cbn; by rewrite app_nil_r).
  assert (∀ code reason, ∃ o w' new, interp manager_step (_ ← SocketManager.close_reason code reason; Ret false) w = (o, w') ∧
    mw_channel w' = {| ch_log := ch_log (mw_channel w) ++ new; ch_capacity := ch_capacity (mw_channel w) |} ∧
    mw_receiver w' = mw_receiver w ∧ (o ≠ Ok true → mw_active w' = false)) as Hclose.
  { intros code reason. rewrite interp_bind. destruct (close_run code reason w) as (o & w' & -> & _ & Hc & Hr & Ha).
    destruct o; by eexists _, w', []; rewrite Hc. }
  destruct f as [e|[t|b|b|b|c]]; cbn [SocketManager.on_frame]; try apply Hclose.
  - destruct (decode_message b) as [e|m]; [apply Hclose|]. by eexists _, _, [m].
  - by eexists _, w, [].
  - by eexists _, w, [].
Qed.

Definition is_send (e : event) : bool := match e with Sends _ => true | _ => false end.

Lemma waits_or_not e : e = Waits ∨ e ≠ Waits.
Proof. destruct e; auto. Qed.

Lemma other_step e s s' : e ≠ Waits → is_send e = false → system_step e s = Some s' →
  sy_call s' = sy_call s ∧ receiver s' = receiver s ∧ log s `prefix_of` log s' ∧ capacity s' = capacity s.
Proof.
  unfold log, capacity. intros Hw Hs. destruct e as [f| | | |msg| | |]; try done; cbn [system_step].
  - by intros [= <-].
  - destruct (waiting s); [done|]. destruct (set_stream_run (sy_manager s)) as (o & w' & -> & Hc & Hr).
    intros [= <-]. cbn. by rewrite Hc.
  - destruct (sy_arriving s) as [|f l]; [done|]. destruct (mw_reading _); [|done].
    destruct (on_frame_run f (sy_manager s)) as (o & w' & new & Hrun & Hc & Hr & _). rewrite Hrun. intros [= <-]. cbn.
    rewrite Hc. cbn. split_and!; try done. by exists new.
  - cbn [system_step]. destruct (sy_arriving s); [|done]. destruct (mw_reading _); [|done]. by intros [= <-].
  - destruct (forward _ _ _); cbn; [|done]. by intros [= <-].
  - destruct (waiting s); [done|]. destruct (queue_recv _) as [[]|]; cbn; [|done]. by intros [= <-].
Qed.

(** What a message means to the caller that waits for [id]. *)
Definition answer (id : Z) (m : WebSocketMessage) : option (outcome string WebSocketMessage) :=
  match wait_result id m with
  | Ok None => None
  | Ok (Some x) => Some (Ok x)
  | Err e => Some (Err e)
  | Panic e => Some (Panic e)
  end.

Lemma waits_run s s' id : sy_call s = Waiting id → (length (log s) - receiver s ≤ capacity s)%nat → system_step Waits s = Some s' →
  ∃ m, log s !! receiver s = Some m ∧ receiver s' = S (receiver s) ∧ log s' = log s ∧ capacity s' = capacity s ∧
    sy_call s' = match answer id m with None => Waiting id | Some o => Returned o end.
Proof.
  intros Hc Hle. cbn [system_step]. rewrite Hc, recv_in_time by done. fold (log s).
  destruct (log s !! _) as [m|] eqn:Hm; [|done]. cbn [fmap option_fmap option_map].
  rewrite (wait_run id _ m (S (receiver s))) by by (rewrite recv_in_time by done; fold (log s); rewrite Hm).
  unfold answer. intros Hs. exists m. destruct (wait_result id m) as [[x|]|e|e]; by injection Hs as <-.
Qed.

(** The caller that waits for [id] since the receiver was at [p]. *)
Definition awaiting (p : nat) (id : Z) (s : system) : Prop :=
  let passed i := ∀ j, (p ≤ j < i)%nat → ∃ m, log s !! j = Some m ∧ answer id m = None in
  (sy_call s = Waiting id ∧ (p ≤ receiver s ≤ length (log s))%nat ∧ passed (receiver s)) ∨
  (∃ i m o, (p ≤ i)%nat ∧ log s !! i = Some m ∧ answer id m = Some o ∧ passed i ∧ sy_call s = Returned o).

Lemma step_awaiting p id e s s' : is_send e = false → awaiting p id s → (length (log s) - p ≤ capacity s)%nat →
  system_step e s = Some s' → awaiting p id s'.
Proof.
  intros He Hs Hle Hstep. destruct (waits_or_not e) as [->|Hne].
  - destruct Hs as [(Hc & Hp & Hpass)|(i & m & o & Hp & Hm & Ho & Hpass & Hc)].
    + destruct (waits_run s s' id Hc ltac:(lia) Hstep) as (m & Hm & Hr & Hl & _ & Hc').
      unfold awaiting. rewrite Hl, Hr, Hc'. destruct (answer id m) as [o|] eqn:Ho.
      * right. exists (receiver s), m, o. split_and!; try done. lia.
      * left. apply lookup_lt_Some in Hm as Hlt. split_and!; [done|lia..|]. intros j Hj.
        destruct (decide (j = receiver s)) as [->|]; [by exists m|]. apply Hpass. lia.
    + cbn [system_step] in Hstep. by rewrite Hc in Hstep.
  - destruct (other_step e s s' Hne He Hstep) as (Hc & Hr & Hl & _). unfold awaiting. rewrite Hc, Hr.
    assert (∀ j m, log s !! j = Some m → log s' !! j = Some m) as Hkeep by (intros j m; intros Hm; by eapply prefix_lookup_Some).
    destruct Hs as [(Hw & Hp & Hpass)|(i & m & o & Hp & Hm & Ho & Hpass & Hw)].
    + left. apply prefix_length in Hl. split_and!; [done|lia..|]. intros j (m & Hm & Ha)%Hpass. exists m. auto.
    + right. exists i, m, o. split_and!; auto. intros j (m' & Hm' & Ha)%Hpass. exists m'. auto.
Qed.

Lemma step_log e s s' : system_step e s = Some s' → log s `prefix_of` log s' ∧ capacity s' = capacity s.
Proof.
  intros Hstep. destruct (waits_or_not e) as [->|Hne].
  - unfold log, capacity. by destruct (waits_step s s' Hstep) as (-> & _).
  - destruct (is_send e) eqn:He.
    + destruct e as [| | | |msg| | |]; try done. unfold log, capacity. by destruct (sends_step msg s s' Hstep) as (-> & _).
    + destruct (other_step e s s' Hne He Hstep) as (_ & _ & ? & ?). done.
Qed.

Lemma run_log es : ∀ s s', run_events es s = Some s' → log s `prefix_of` log s' ∧ capacity s' = capacity s.
Proof.
  induction es as [|e es IH]; intros s s'; cbn [run_events]; [by intros [= <-]|].
  destruct (system_step e s) as [s1|] eqn:He; [|done]. cbn [mbind option_bind]. intros Hrun.
  destruct (step_log e s s1 He) as [H1l H1c], (IH s1 s' Hrun) as [H2l H2c]. split; [by etrans|congruence].
Qed.

Lemma run_awaiting p id es : ∀ s s', Forall (λ e, is_send e = false) es → awaiting p id s →
  run_events es s = Some s' → (length (log s') - p ≤ capacity s)%nat → awaiting p id s'.
Proof.
  induction es as [|e es IH]; intros s s' Hes Hs; cbn [run_events]; [by intros [= <-]|].
  apply Forall_cons in Hes as [He Hes]. destruct (system_step e s) as [s1|] eqn:Hstep; [|done]. cbn [mbind option_bind].
  intros Hrun Hle. destruct (run_log es s1 s' Hrun) as [Hl _], (step_log e s s1 Hstep) as [Hl' Hc].
  apply prefix_length in Hl, Hl'. apply (IH s1 s'); [done| |done|lia]. eapply step_awaiting; [done..|lia|done].
Qed.

(** As long as nobody else steps, the caller comes to its answer. *)
Lemma waits_reach id i m o n : ∀ s, sy_call s = Waiting id → log s !! i = Some m → answer id m = Some o →
  (∀ j, (receiver s ≤ j < i)%nat → ∃ m', log s !! j = Some m' ∧ answer id m' = None) → n = (i - receiver s)%nat →
  (receiver s ≤ i)%nat → (length (log s) - receiver s ≤ capacity s)%nat →
  ∃ s', run_events (replicate (S n) Waits) s = Some s' ∧ sy_call s' = Returned o.
Proof.
  induction n as [|n IH]; intros s Hc Hm Ho Hpass Hn Hle Hcap;
    (assert (∃ s1, system_step Waits s = Some s1) as [s1 Hstep];
     [apply lookup_lt_Some in Hm; destruct (lookup_lt_is_Some_2 (log s) (receiver s) ltac:(lia)) as [x Hx];
      cbn [system_step]; rewrite Hc, recv_in_time by done; fold (log s); rewrite Hx; cbn [fmap option_fmap option_map];
      destruct (interp _ _ _) as [[[]|e|e] w']; by eexists|]);
    destruct (waits_run s s1 id Hc Hcap Hstep) as (x & Hx & Hr & Hl & Hcap1 & Hc1).
  - assert (receiver s = i) as Hi by lia. rewrite Hi, Hm in Hx. injection Hx as <-. rewrite Ho in Hc1.
    exists s1. cbn [replicate run_events]. by rewrite Hstep.
  - destruct (Hpass (receiver s) ltac:(lia)) as (x' & Hx' & Hnone). rewrite Hx' in Hx. injection Hx as <-. rewrite Hnone in Hc1.
    destruct (IH s1 Hc1) as (s' & Hrun & Hret); rewrite ?Hl, ?Hr, ?Hcap1; try done; [|lia..|].
    { intros j Hj. apply Hpass. lia. }
    exists s'. split; [|done]. change (replicate (S (S n)) Waits) with (Waits :: replicate (S n) Waits). cbn [run_events].
    by rewrite Hstep.
Qed.
End answers.

(** ** Failures *)

Section failures.
Context `{Protobuf, BroadcastChannel}.

(** A queue whose task has ended gets nothing any more. *)
Definition delivered (s : system) : list WebSocketMessage := sy_taken s ++ pr_queue (sy_queue s).
Definition frozen (l : list WebSocketMessage) (s : system) : Prop := pr_running (sy_queue s) = false ∧ delivered s = l.

Lemma step_frozen l e s s' : frozen l s → system_step e s = Some s' → frozen l s'.
Proof.
  unfold frozen, delivered. intros [Hrun Hl]. destruct e as [f| | | |msg| | |].
  - by intros [= <-].
  - cbn [system_step]. destruct (waiting s); [done|]. by intros [= <-].
  - cbn [system_step]. destruct (sy_arriving s); [done|]. destruct (mw_reading _); [|done].
    destruct (interp _ _ _) as [o w']. by intros [= <-].
  - cbn [system_step]. destruct (sy_arriving s); [|done]. destruct (mw_reading _); [|done]. by intros [= <-].
  - intros (_ & _ & Hq & Ht & _)%sends_step. by rewrite Hq, Ht.
  - intros (_ & _ & Hq & Ht & _)%waits_step. by rewrite Hq, Ht.
  - cbn [system_step]. unfold forward. by rewrite Hrun.
  - cbn [system_step]. destruct (waiting s); [done|]. unfold queue_recv.
    destruct (pr_queue (sy_queue s)) as [|m q] eqn:Hq; [rewrite Hrun|]; cbn; intros [= <-]; cbn; [|by rewrite <- app_assoc].
    by rewrite Hq, app_nil_r.
Qed.

(** A caller that waits when nothing is to come. *)
Definition stuck (id : Z) (s : system) : Prop :=
  sy_call s = Waiting id ∧ mw_reading (sy_manager s) = false ∧ mw_receiver (sy_manager s) = length (log s).

Lemma step_stuck id e s s' : stuck id s → system_step e s = Some s' → stuck id s'.
Proof.
  intros (Hc & Hread & Hr). unfold stuck, log in *. assert (waiting s = true) as Hw by (unfold waiting; by rewrite Hc).
  destruct e as [f| | | |msg| | |]; cbn [system_step]; rewrite ?Hw; try done.
  - by intros [= <-].
  - destruct (sy_arriving s); [done|]. by rewrite Hread.
  - destruct (sy_arriving s); [|done]. by rewrite Hread.
  - rewrite Hc. rewrite recv_in_time by lia. by rewrite (proj2 (lookup_ge_None _ _)) by lia.
  - destruct (forward _ _ _); cbn; [|done]. by intros [= <-].
Qed.

Lemma any_event (es : list event) : Forall (λ _, True) es.
Proof. by apply Forall_true. Qed.
End failures.

(** ** Properties *)

(** C13: the messages that arrive at a connected client come out of its queue
    in order and once, whatever else happens in between: as long as the task
    that fills the queue runs and is not too far behind, what was taken and
    what is queued are the messages of a prefix of what arrived, and while the
    connection is read, reading and forwarding bring out the rest. *)
Theorem received_messages_are_delivered `{Protobuf, BroadcastChannel} (size : nat) (fate : nat → option string) (es : list event) (s : system)
    (ms : list WebSocketMessage)
    (Hrun : run_events es (new_system size fate) = Some s) (Harrivals : arrivals es = map message_arrives ms)
    (Hsize : (1 ≤ size)%nat) (Hforwards : pr_running (sy_queue s) = true) (Hreads : mw_reading (sy_manager s) = true)
    (Hintime : (length (log s) - position s ≤ size)%nat) :
  delivered s = omap message_filter (take (position s) ms) ∧
  ∃ es' s', Forall drains es' ∧ run_events es' s = Some s' ∧ sy_taken s' = sy_taken s ∧ delivered s' = omap message_filter ms.
Proof.
  pose proof (run_delivering es [] ms _ s Harrivals (new_delivering size fate) Hrun) as Hs. cbn [app] in Hs.
  pose proof Hs as [[Hms Ha] Hq]. destruct (Hq Hforwards) as [Hp Heq].
  assert (size ≤ capacity s)%nat as Hcap by (rewrite (proj2 (run_log es _ s Hrun)); apply capacity_at_least).
  split. { rewrite Hms, take_app_le by done. exact Heq. }
  destruct (drain_all _ s Ha Hreads Hforwards Hp) as (es' & s' & Hes' & Hrun' & Ha' & Ht & Hf & Hpos); [lia..|].
  exists es', s'. split_and!; try done.
  assert (delivering ms s') as [[Hms' Harr'] Hq'].
  { rewrite <- (app_nil_r ms). eapply run_delivering; [|done|done]. clear - Hes'.
    induction Hes' as [|e es He _ IH]; [done|]. destruct He as [->| ->]; exact IH. }
  destruct (Hq' Hf) as [_ Heq']. unfold delivered. rewrite Heq'. fold (log s') in *. fold (position s'). rewrite Hpos, firstn_all.
  rewrite Ha' in Harr'. destruct (drop _ ms) in Hms', Harr'; [|done]. f_equal. by rewrite Hms', app_nil_r.
Qed.

(** C27: [send] returns the response with the id of its request, whatever
    arrives after it and whatever else arrives before it, as long as no other
    message before it answers to the id or is badly formed, and the caller does
    not fall behind the channel: in every run in which the response has
    reached the channel, the caller has returned that response, or still waits
    and comes to it within as many of its own steps as messages are before it. *)
Theorem requests_get_their_responses `{Protobuf, BroadcastChannel} (es : list event) (s s' : system) (id : Z)
    (before after : list WebSocketMessage) (m : WebSocketMessage) (r : WebSocketResponseMessage)
    (Hwait : sy_call s = Waiting id) (Hreceiver : (mw_receiver (sy_manager s) ≤ length (log s))%nat)
    (Hes : Forall (λ e, is_send e = false) es) (Hrun : run_events es s = Some s')
    (Hintime : (length (log s') - mw_receiver (sy_manager s) ≤ capacity s)%nat)
    (Hseen : drop (mw_receiver (sy_manager s)) (log s') = before ++ m :: after)
    (Hbefore : Forall (λ x, wait_result id x = Ok None) before)
    (Hkind : kind_of m = KindResponse) (Hresponse : ws_response m = Some r) (Hid : ws_id r = Some id) :
  (sy_call s' = Returned (Ok m) ∨
   sy_call s' = Waiting id ∧ ∃ n s'', (n ≤ S (length before))%nat ∧ run_events (replicate n Waits) s' = Some s'' ∧
     sy_call s'' = Returned (Ok m)).
Proof.
  set (p := mw_receiver (sy_manager s)) in *.
  assert (answer id m = Some (Ok m)) as Hm.
  { unfold answer, wait_result. rewrite Hkind, Hresponse. cbn. rewrite Hid. cbn. by rewrite Z.eqb_refl. }
  assert (log s' !! (p + length before)%nat = Some m) as Hat.
  { rewrite <- lookup_drop, Hseen. by apply list_lookup_middle. }
  assert (∀ j, (p ≤ j < p + length before)%nat → ∃ x, log s' !! j = Some x ∧ answer id x = None) as Hpass.
  { intros j Hj. destruct (lookup_lt_is_Some_2 before (j - p)) as [x Hx]; [lia|]. exists x. split.
    - replace j with (p + (j - p))%nat by lia. rewrite <- lookup_drop, Hseen. by apply lookup_app_l_Some.
    - unfold answer. rewrite Forall_lookup in Hbefore. by rewrite (Hbefore _ x Hx). }
  assert (awaiting p id s) as Hs.
  { left. split_and!; [done|unfold p; lia|done|]. intros j Hj. unfold p in Hj. lia. }
  destruct (run_log es s s' Hrun) as [_ Hcap].
  destruct (run_awaiting p id es s s' Hes Hs Hrun Hintime) as [(Hc & Hp & Hpassed)|(i & x & o & Hi & Hx & Ho & Hpassed & Hc)].
  - right. split; [done|].
    assert (mw_receiver (sy_manager s') ≤ p + length before)%nat as Hle.
    { destruct (decide (mw_receiver (sy_manager s') ≤ p + length before)%nat) as [|Hgt]; [done|].
      destruct (Hpassed (p + length before)%nat) as (x & Hx & Hnone); [lia|]. congruence. }
    destruct (waits_reach id (p + length before) m (Ok m) (p + length before - mw_receiver (sy_manager s')) s' Hc Hat Hm)
      as (s'' & Hrun' & Hret); [|done|done|lia|].
    { intros j Hj. apply Hpass. lia. }
    eexists _, s''. split; [|done]. lia.
  - left. destruct (Nat.lt_trichotomy i (p + length before)) as [Hlt|[->|Hgt]].
    + destruct (Hpass i) as (y & Hy & Hnone); [lia|]. congruence.
    + congruence.
    + destruct (Hpassed (p + length before)%nat) as (y & Hy & Hnone); [lia|]. congruence.
Qed.

(** C40: a client that is more messages behind than the channel holds receives
    nothing any more: the task that fills its queue ends with the next step
    and no later event brings a message; and a [send] that waits returns an
    error although its request was sent. *)
Theorem slow_clients_stop_receiving `{Protobuf, BroadcastChannel} (s : system) (Hruns : pr_running (sy_queue s) = true)
    (Hbehind : (capacity s < length (log s) - position s)%nat) :
  (∃ s1, system_step Forwards s = Some s1 ∧ sy_manager s1 = sy_manager s ∧
     ∀ es s', run_events es s1 = Some s' → delivered s' = delivered s) ∧
  (∀ id, sy_call s = Waiting id → (capacity s < length (log s) - mw_receiver (sy_manager s))%nat →
     ∃ s1 missed, system_step Waits s = Some s1 ∧ sy_call s1 = Returned (Err (lagged missed)) ∧
       mw_sent (sy_manager s1) = mw_sent (sy_manager s)).
Proof.
  split.
  - eexists. split_and!.
    + cbn [system_step]. unfold forward. by rewrite Hruns, recv_too_late by done.
    + done.
    + intros es s' Hrun. refine (proj2 (run_events_invariant (frozen (delivered s)) (λ _, True) es _ s' _ (any_event es) _ Hrun)).
      * intros e s1 s2 _. apply step_frozen.
      * by split.
  - intros id Hc Hlate. cbn [system_step]. rewrite Hc, recv_too_late by done.
    rewrite (wait_lagged id _ _ _ (recv_too_late _ _ Hlate)). by eexists _, _.
Qed.

(** When the server closes the connection before it answers, [send] never
    returns: no event brings the caller an answer or an error. *)
Theorem closed_connections_leave_callers_waiting `{Protobuf, BroadcastChannel} (s : system) (id : Z) (frame : option (Z * string))
    (later : list (string + ws_frame))
    (Hwait : sy_call s = Waiting id) (Hread : mw_reading (sy_manager s) = true)
    (Hseen : mw_receiver (sy_manager s) = length (log s)) (Harriving : sy_arriving s = inr (Close frame) :: later) :
  ∃ s1, system_step Reads s = Some s1 ∧ mw_active (sy_manager s1) = false ∧
    ∀ es s', run_events es s1 = Some s' → sy_call s' = Waiting id.
Proof.
  destruct (on_frame_run (inr (Close frame)) (sy_manager s)) as (o & w' & new & Hrun & _).
  destruct (close_run 1000 "Goodbye" (sy_manager s)) as (o' & w1 & Hclose & Hok & Hchannel & Hr & Ha).
  assert (o' = Ok tt) as ->.
  { clear Hok. revert Hclose. unfold SocketManager.close_reason. istep. cbn [manager_step]. rewrite interp_op_bind. cbn [manager_step].
    destruct (mw_active (sy_manager s)); [|by intros [= <- _]]. rewrite interp_bind, interp_try, interp_op. cbn [manager_step].
    destruct (mw_fate _ _); by intros [= <- _]. }
  assert (interp manager_step (SocketManager.on_frame (inr (Close frame))) (sy_manager s) = (Ok false, w1)) as Hframe.
  { cbn [SocketManager.on_frame]. unfold SocketManager.close. by rewrite interp_bind, Hclose. }
  eexists. split_and!; [cbn [system_step]; by rewrite Harriving, Hread, Hframe|done|].
  intros es s' Hes. refine (proj1 (run_events_invariant (stuck id) (λ _, True) es _ s' _ (any_event es) _ Hes)).
  - intros e s1 s2 _. apply step_stuck.
  - split_and!; [done|done|]. cbn. unfold log in *. cbn. by rewrite Hr, Hchannel.
Qed.

(** ** Witnesses *)

Section witnesses.

(** A channel that keeps as many values as it was asked for. *)
Program Definition demo_channel : BroadcastChannel := {|
  actual_capacity n := n;
  channel_recv T c pos :=
    if (pos <? oldest c)%nat then Some (Lagged (oldest c - pos), oldest c) else (λ m, (Received m, S pos)) <$> ch_log c !! pos;
|}.
Next Obligation. done. Qed.
Next Obligation. intros T c pos Hle. unfold oldest. by destruct (Nat.ltb_spec pos (length (ch_log c) - ch_capacity c)); [lia|]. Qed.
Next Obligation. intros T c pos Hle. unfold oldest. by destruct (Nat.ltb_spec pos (length (ch_log c) - ch_capacity c)); [|lia]. Qed.
#[local] Existing Instances demo_channel demo_protobuf.

Definition demo_incoming (id : Z) : WebSocketMessage :=
  {| ws_type := Some 1; ws_response := None;
     ws_request := Some {| ws_verb := Some "PUT"; ws_path := Some "/api/v1/message"; ws_request_body := None;
                           ws_request_headers := []; ws_request_id := Some id |} |}.
Definition demo_answer_body (id : Z) : WebSocketResponseMessage :=
  {| ws_id := Some id; ws_status := Some 200; ws_message := None; ws_headers := []; ws_body := None |}.
Definition demo_answer (id : Z) : WebSocketMessage :=
  {| ws_type := Some 2; ws_request := None; ws_response := Some (demo_answer_body id) |}.

(** A client that is connected to a channel for two messages. *)
Definition demo_system (es : list event) : system :=
  default (new_system 0 (λ _, None)) (run_events es (new_system 2 (λ _, None))).

(** Two messages and an answer arrive; one message is forwarded and taken. *)
Definition demo_events : list event :=
  [Connects; Arrives (message_arrives (demo_incoming 7)); Arrives (message_arrives (demo_answer 0)); Reads; Forwards; Reads; Takes;
   Arrives (message_arrives (demo_incoming 8))].

Lemma received_messages_are_delivered_witness :
  run_events demo_events (new_system 2 (λ _, None)) = Some (demo_system demo_events) ∧
  delivered (demo_system demo_events) = [demo_incoming 7] ∧
  ∃ es' s', run_events es' (demo_system demo_events) = Some s' ∧ delivered s' = [demo_incoming 7; demo_incoming 8].
Proof.
  assert (run_events demo_events (new_system 2 (λ _, None)) = Some (demo_system demo_events)) as Hrun by (vm_compute; reflexivity).
  split; [exact Hrun|].
  destruct (received_messages_are_delivered 2 (λ _, None) demo_events (demo_system demo_events)
    [demo_incoming 7; demo_answer 0; demo_incoming 8] Hrun) as (Hd & es' & s' & _ & Hrun' & _ & Hd').
  - reflexivity.
  - lia.
  - vm_compute. reflexivity.
  - vm_compute. reflexivity.
  - vm_compute. lia.
  - split.
    + rewrite Hd. vm_compute. reflexivity.
    + exists es', s'. split; [exact Hrun'|]. rewrite Hd'. vm_compute. reflexivity.
Defined.

(** The client sends request 0; a message arrives, then its answer. *)
Definition demo_request_events : list event := [Connects; Sends (demo_incoming 0)].
Definition demo_answer_events : list event :=
  [Arrives (message_arrives (demo_incoming 7)); Reads; Arrives (message_arrives (demo_answer 0)); Waits; Reads].

Lemma requests_get_their_responses_witness :
  let s := demo_system demo_request_events in
  let s' := demo_system (demo_request_events ++ demo_answer_events) in
  run_events demo_answer_events s = Some s' ∧
  (sy_call s' = Returned (Ok (demo_answer 0)) ∨
   sy_call s' = Waiting 0 ∧ ∃ n s'', (n ≤ 2)%nat ∧ run_events (replicate n Waits) s' = Some s'' ∧
     sy_call s'' = Returned (Ok (demo_answer 0))).
Proof.
  cbv zeta.
  assert (run_events demo_answer_events (demo_system demo_request_events) =
    Some (demo_system (demo_request_events ++ demo_answer_events))) as Hrun by (vm_compute; reflexivity).
  split; [exact Hrun|].
  apply (requests_get_their_responses demo_answer_events (demo_system demo_request_events) _ 0 [demo_incoming 7] []
    (demo_answer 0) (demo_answer_body 0)).
  - vm_compute. reflexivity.
  - vm_compute. lia.
  - repeat constructor.
  - exact Hrun.
  - vm_compute. lia.
  - vm_compute. reflexivity.
  - repeat constructor.
  - reflexivity.
  - reflexivity.
  - reflexivity.
Defined.

(** Three messages are read before the first is forwarded. *)
Definition demo_burst : list event :=
  demo_request_events ++ concat (replicate 3 [Arrives (message_arrives (demo_incoming 7)); Reads]).

Lemma slow_clients_stop_receiving_witness :
  let s := demo_system demo_burst in
  (∃ s1, system_step Forwards s = Some s1 ∧ sy_manager s1 = sy_manager s ∧
     ∀ es s', run_events es s1 = Some s' → delivered s' = delivered s) ∧
  (∃ s1 missed, system_step Waits s = Some s1 ∧ sy_call s1 = Returned (Err (lagged missed)) ∧
     mw_sent (sy_manager s1) = mw_sent (sy_manager s)).
Proof.
  cbv zeta. destruct (slow_clients_stop_receiving (demo_system demo_burst)) as [Hf Hw].
  - vm_compute. reflexivity.
  - vm_compute. lia.
  - split; [exact Hf|]. apply (Hw 0); [vm_compute; reflexivity|vm_compute; lia].
Defined.

(** The server closes the connection while the client waits. *)
Definition demo_hang_up : list event := demo_request_events ++ [Arrives (inr (Close None))].

Lemma closed_connections_leave_callers_waiting_witness :
  ∃ s1, system_step Reads (demo_system demo_hang_up) = Some s1 ∧ mw_active (sy_manager s1) = false ∧
    ∀ es s', run_events es s1 = Some s' → sy_call s' = Waiting 0.
Proof.
  apply (closed_connections_leave_callers_waiting (demo_system demo_hang_up) 0 None []); vm_compute; reflexivity.
Defined.
End witnesses.
