(* ===== verification/Sql.v ===== *)
(** Relational databases with identity columns, unique constraints and
    cascading foreign keys.

    A schema is a type of relations with their rows, the pairs of rows a
    unique constraint refuses, and the rows a row refers to.  The statements
    the code sends are built from [insert], [update], [delete] and scans; each
    is shown to keep the constraints of the schema. *)
From S2P Require Export Prelude.

Local Open Scope Z_scope.

(** Rows under the ids of [GENERATED ALWAYS AS IDENTITY]. *)
Record table (A : Type) := { next_id : Z; rows : list (Z * A) }.
Arguments next_id {A} _.
Arguments rows {A} _.

Definition empty_table {A} : table A := {| next_id := 1; rows := [] |}.

(** [fetch_one] *)
Definition fetch_one {A} (l : list A) : outcome string A :=
  ok_or "no rows returned by a query that expected to return at least one row" (head l).

(** A sub-query used as a value: [NULL] when it is empty. *)
Definition scalar_subquery {A} (l : list A) : outcome string (option A) :=
  match l with
  | [] => Ok None
  | [x] => Ok (Some x)
  | _ => Err "more than one row returned by a subquery used as an expression"
  end.

(** ** Statements

    A method runs statements one after the other on a database [D]. *)

Definition statement (D A : Type) : Type := D → outcome string A * D.

Section statements.
Context {D : Type}.

Global Instance stm_ret : MRet (statement D) := λ A x d, (Ok x, d).
Global Instance stm_bind : MBind (statement D) := λ A B f m d,
  match m d with
  | (Ok a, d') => f a d'
  | (Err e, d') => (Err e, d')
  | (Panic w, d') => (Panic w, d')
  end.

Lemma stm_bind_ok {A B} (m : statement D A) (f : A → statement D B) d x d' :
  m d = (Ok x, d') → (m ≫= f) d = f x d'.
Proof. intros Hm. unfold mbind, stm_bind. by rewrite Hm. Qed.

(** A query, a statement that returns nothing, and one that returns rows.  A
    statement that fails changes nothing. *)
Definition query {A} (f : D → outcome string A) : statement D A := λ d, (f d, d).
Definition run {A} (f : D → outcome string (A * D)) : statement D A := λ d,
  match f d with Ok (a, d') => (Ok a, d') | Err e => (Err e, d) | Panic w => (Panic w, d) end.
Definition execute (f : D → outcome string D) : statement D unit := run (λ d, pair tt <$> f d).
Definition pure_ {A} (o : outcome string A) : statement D A := query (λ _, o).

(** [begin] .. [commit]: an error in between rolls back. *)
Definition transaction {A} (m : statement D A) : statement D A := λ d,
  match m d with (Ok a, d') => (Ok a, d') | (o, _) => (o, d) end.

Fixpoint stm_each {A} (l : list A) (body : A → statement D unit) : statement D unit :=
  match l with [] => mret tt | x :: l => _ ← body x; stm_each l body end.

Lemma execute_Ok f d d' : f d = Ok d' → execute f d = (Ok tt, d').
Proof. intros Hf. unfold execute, run. by rewrite Hf. Qed.

Lemma run_Ok {A} (f : D → outcome string (A * D)) d x d' : f d = Ok (x, d') → run f d = (Ok x, d').
Proof. intros Hf. unfold run. by rewrite Hf. Qed.
End statements.
Arguments query {D A} & f d.
Arguments run {D A} & f d.
Arguments execute {D} & f d.

(** *** Invariants *)

Definition keeps {D} (P : D → Prop) {A} (m : statement D A) : Prop := ∀ d, P d → P (m d).2.

Section keeps.
Context {D : Type} (P : D → Prop).

Lemma keeps_ret {A} (x : A) : keeps P (mret x).
Proof. by intros d Hd. Qed.

Lemma keeps_query {A} (f : D → outcome string A) : keeps P (query f).
Proof. by intros d Hd. Qed.

Lemma keeps_bind {A B} (m : statement D A) (f : A → statement D B) : keeps P m → (∀ a, keeps P (f a)) → keeps P (m ≫= f).
Proof.
  intros Hm Hf d Hd. unfold mbind, stm_bind. specialize (Hm d Hd).
  destruct (m d) as [[a|e|w] d']; cbn in *; [by apply Hf|done|done].
Qed.

Lemma keeps_run {A} (f : D → outcome string (A * D)) :
  (∀ d a d', P d → f d = Ok (a, d') → P d') → keeps P (run f).
Proof. intros Hf d Hd. unfold run. destruct (f d) as [[a d']|e|w] eqn:Hfd; cbn; eauto. Qed.

Lemma keeps_execute (f : D → outcome string D) :
  (∀ d d', P d → f d = Ok d' → P d') → keeps P (execute f).
Proof.
  intros Hf. apply keeps_run. intros d [] d' Hd. destruct (f d) as [d1|e|w] eqn:Hfd; cbn; [|done..].
  intros [=<-]. eauto.
Qed.

Lemma keeps_transaction {A} (m : statement D A) : keeps P m → keeps P (transaction m).
Proof.
  intros Hm d Hd. specialize (Hm d Hd). unfold transaction. by destruct (m d) as [[a|e|w] d'].
Qed.

Lemma keeps_each {A} (l : list A) (body : A → statement D unit) :
  (∀ x, keeps P (body x)) → keeps P (stm_each l body).
Proof.
  intros Hb. induction l as [|x l IH]; [apply keeps_ret|]. cbn. apply keeps_bind; [apply Hb|done].
Qed.
End keeps.
#[export] Hint Resolve keeps_ret keeps_query keeps_bind keeps_run keeps_execute keeps_transaction keeps_each : denim.

(** Splits [x ← o; f x = Ok y]. *)
Lemma bind_Ok {E A B} (o : outcome E A) (f : A → outcome E B) y :
  (o ≫= f) = Ok y → ∃ x, o = Ok x ∧ f x = Ok y.
Proof. destruct o; [eauto|done..]. Qed.
Ltac split_binds :=
  repeat match goal with
  | H : (_ ≫= _) = Ok _ |- _ => let x := fresh "x" in let Hx := fresh "Hx" in
      apply bind_Ok in H as (x & Hx & H)
  end.

Section schema.
Context {R : Type} {R_dec : EqDecision R} (row : R → Type).
Context (clash : ∀ r, row r → row r → bool) (refs : ∀ r, row r → list (R * Z)).

Definition database : Type := ∀ r, table (row r).

Definition set_table (r : R) (t : table (row r)) (d : database) : database := λ r',
  match decide (r = r') with
  | left e => eq_rect r (λ r, table (row r)) t r' e
  | right _ => d r'
  end.

Definition ids (d : database) (r : R) : list Z := map fst (rows (d r)).
Definition ref_ok (d : database) (x : R * Z) : bool := bool_decide (x.2 ∈ ids d x.1).
Definition refs_ok (d : database) (r : R) (x : row r) : bool := forallb (ref_ok d) (refs r x).

Definition insert (r : R) (x : row r) (d : database) : outcome string database :=
  if existsb (λ y, clash r y.2 x) (rows (d r)) then
    Err "duplicate key value violates unique constraint"
  else if negb (refs_ok d r x) then Err "insert or update violates foreign key constraint"
  else if i32_max <? next_id (d r) then Err "nextval: reached maximum value of sequence"
  else Ok (set_table r {| next_id := next_id (d r) + 1; rows := rows (d r) ++ [(next_id (d r), x)] |} d).

(** [INSERT INTO r SELECT ..]: one statement, all rows or none. *)
Fixpoint insert_select (r : R) (xs : list (row r)) (d : database) : outcome string database :=
  match xs with [] => Ok d | x :: xs => d ← insert r x d; insert_select r xs d end.

(** Some pair of distinct rows clashes. *)
Fixpoint clashes {A} (f : A → A → bool) (l : list A) : bool :=
  match l with [] => false | x :: l => existsb (f x) l || clashes f l end.

Definition update (r : R) (p : Z * row r → bool) (f : row r → row r) (d : database) : outcome string database :=
  let rows' := map (λ x, if p x then (x.1, f x.2) else x) (rows (d r)) in
  if clashes (clash r) (map snd rows') then Err "duplicate key value violates unique constraint"
  else if forallb (refs_ok d r) (map snd rows')
  then Ok (set_table r {| next_id := next_id (d r); rows := rows' |} d)
  else Err "insert or update violates foreign key constraint".

(** [ON DELETE CASCADE]: rows whose reference is gone go too. *)
Definition prune (d : database) : database := λ r,
  {| next_id := next_id (d r); rows := filter (λ x, refs_ok d r x.2) (rows (d r)) |}.
Fixpoint prunes (n : nat) (d : database) : database :=
  match n with O => d | S n => prune (prunes n d) end.

Context (depth : nat).

Definition delete (r : R) (p : Z * row r → bool) (d : database) : database :=
  prunes depth (set_table r {| next_id := next_id (d r);
                               rows := filter (λ x, ¬ p x) (rows (d r)) |} d).

(** [INSERT .. ON CONFLICT .. DO UPDATE] *)
Definition upsert (r : R) (conflict : row r → bool) (x : row r) (f : row r → row r) (d : database)
    : outcome string database :=
  if existsb (λ y, conflict y.2) (rows (d r)) then update r (λ y, conflict y.2) f d else insert r x d.

(** ** Constraints *)

Record table_ok (d : database) (r : R) : Prop := {
  ids_nodup : NoDup (ids d r);
  ids_range : Forall (λ i, 1 ≤ i < next_id (d r)) (ids d r);
  ids_next : 1 ≤ next_id (d r) ≤ i32_max + 1;
  no_clash : clashes (clash r) (map snd (rows (d r))) = false;
}.
Definition keys_ok (d : database) (r : R) : Prop := forallb (refs_ok d r) (map snd (rows (d r))) = true.
Definition wf (d : database) : Prop := ∀ r, table_ok d r ∧ keys_ok d r.

Lemma set_table_eq r t d : set_table r t d r = t.
Proof.
  unfold set_table. destruct (decide (r = r)) as [e|]; [|done].
  by rewrite (Eqdep_dec.UIP_dec R_dec e eq_refl).
Qed.

Lemma set_table_ne r t d r' : r ≠ r' → set_table r t d r' = d r'.
Proof. intros Hne. unfold set_table. by destruct (decide (r = r')). Qed.

Lemma clashes_app {A} (f : A → A → bool) l k :
  clashes f (l ++ k) = clashes f l || clashes f k || existsb (λ x, existsb (f x) k) l.
Proof.
  induction l as [|x l IH]; cbn; [by rewrite orb_false_r|]. rewrite IH, existsb_app.
  destruct (existsb (f x) l), (existsb (f x) k), (clashes f l), (clashes f k),
    (existsb (λ x, existsb (f x) k) l); done.
Qed.

Lemma clashes_snoc {A} (f : A → A → bool) l x :
  clashes f (l ++ [x]) = clashes f l || existsb (λ y, f y x) l.
Proof.
  rewrite clashes_app. cbn. rewrite orb_false_r. f_equal. induction l as [|y l IH]; [done|]. cbn.
  by rewrite IH, orb_false_r.
Qed.

Lemma clashes_sublist {A} (f : A → A → bool) l k :
  sublist l k → clashes f k = false → clashes f l = false.
Proof.
  induction 1 as [|x l k Hs IH|x l k Hs IH]; cbn; [done| |]; intros [Hx Hk]%orb_false_iff;
    [|by apply IH]. rewrite IH by done. rewrite orb_false_r.
  apply not_true_iff_false. intros (y & Hy & Hfy)%existsb_exists.
  apply not_true_iff_false in Hx. apply Hx, existsb_exists. exists y. split; [|done].
  apply list_elem_of_In in Hy. apply list_elem_of_In. by eapply elem_of_sublist.
Qed.

Lemma clashes_false {A} (f : A → A → bool) l i j x y :
  clashes f l = false → (i < j)%nat → l !! i = Some x → l !! j = Some y → f x y = false.
Proof.
  revert i j. induction l as [|z l IH]; intros i j Hc Hij Hi Hj; [done|]. cbn in Hc.
  apply orb_false_iff in Hc as [Hz Hc]. destruct j as [|j]; [lia|]. destruct i as [|i]; cbn in *.
  - simplify_eq. apply not_true_iff_false. intros Hf. apply not_true_iff_false in Hz.
    apply Hz, existsb_exists. exists y. split; [|done]. by eapply list_elem_of_In, list_elem_of_lookup_2.
  - by apply (IH i j); [|lia|..].
Qed.

(** *** Keeping references *)

Lemma refs_ok_mono d d' r x :
  (∀ q i, (q, i) ∈ refs r x → i ∈ ids d q → i ∈ ids d' q) → refs_ok d r x = true → refs_ok d' r x = true.
Proof.
  unfold refs_ok. rewrite !forallb_forall. intros Hm Ha [q i] Hin. specialize (Ha _ Hin).
  apply bool_decide_eq_true in Ha. apply bool_decide_eq_true. apply (Hm q i); [|done].
  by apply list_elem_of_In.
Qed.

Lemma keys_ok_mono d d' r :
  keys_ok d r → rows (d' r) = rows (d r) → (∀ q i, i ∈ ids d q → i ∈ ids d' q) → keys_ok d' r.
Proof.
  unfold keys_ok. intros Hk Hr Hm. rewrite Hr, forallb_forall in *. intros x Hx.
  eapply refs_ok_mono; [|by apply Hk]. auto.
Qed.

(** *** Statements keep the constraints *)

Lemma existsb_ext_in {A} (f g : A → bool) l :
  (∀ x, x ∈ l → f x = g x) → existsb f l = existsb g l.
Proof.
  induction l as [|x l IH]; intros Hfg; [done|]. cbn. rewrite (Hfg x) by set_solver.
  rewrite IH; [done|]. intros y Hy. apply Hfg. set_solver.
Qed.

Lemma insert_Ok r x d d' :
  insert r x d = Ok d' →
  d' = set_table r {| next_id := next_id (d r) + 1; rows := rows (d r) ++ [(next_id (d r), x)] |} d ∧
  existsb (λ y, clash r y.2 x) (rows (d r)) = false ∧ refs_ok d r x = true ∧ next_id (d r) ≤ i32_max.
Proof.
  unfold insert. destruct (existsb _ _) eqn:He; [done|]. destruct (refs_ok d r x); [|done]. cbn.
  destruct (i32_max <? next_id (d r)) eqn:Hn; [done|]. zbool. intros [=<-]. done.
Qed.

Lemma insert_wf r x d d' : insert r x d = Ok d' → wf d → wf d'.
Proof.
  intros (-> & Hc & Hr & Hn)%insert_Ok Hwf.
  set (t := {| next_id := _; rows := _ |}).
  assert (∀ q i, i ∈ ids d q → i ∈ ids (set_table r t d) q) as Hmono.
  { intros q i Hi. unfold ids in *. destruct (decide (r = q)) as [<-|Hq].
    - rewrite set_table_eq. cbn. rewrite map_app. set_solver.
    - by rewrite set_table_ne. }
  intros q. destruct (Hwf q) as [Ht Hk]. destruct (decide (r = q)) as [<-|Hq].
  - destruct Ht as [Hnd Hrange Hnext Hnc]. split.
    + split; unfold ids; rewrite set_table_eq; cbn; [..|lia|].
      * rewrite map_app. apply NoDup_app. split_and!; [done| |apply NoDup_singleton].
        intros i Hi ->%list_elem_of_singleton. rewrite Forall_forall in Hrange. specialize (Hrange _ Hi). cbn in Hrange. lia.
      * rewrite map_app. apply Forall_app. split; [|apply Forall_singleton; cbn; lia].
        eapply Forall_impl; [done|]. cbn. lia.
      * rewrite map_app. cbn [map snd]. rewrite clashes_snoc, Hnc. cbn. rewrite <- Hc. clear.
        induction (rows (d r)) as [|y l IH]; [done|]. cbn. by rewrite IH.
    + unfold keys_ok in *. rewrite set_table_eq. cbn [rows t]. rewrite map_app, forallb_app. cbn.
      rewrite andb_true_r. apply andb_true_iff. split.
      * rewrite forallb_forall in *. intros y Hy. eapply refs_ok_mono; [|by apply Hk]. auto.
      * eapply refs_ok_mono; [|done]. auto.
  - split; [|apply (keys_ok_mono d); [done|by rewrite set_table_ne|done]].
    destruct Ht. split; unfold ids in *; by rewrite set_table_ne.
Qed.

Lemma insert_select_wf r xs : ∀ d d', insert_select r xs d = Ok d' → wf d → wf d'.
Proof.
  induction xs as [|x xs IH]; intros d d' Hrun Hwf; cbn in Hrun; [by simplify_eq|].
  destruct (insert r x d) as [d1|e|m] eqn:Hi; cbn in Hrun; try done.
  eapply IH; [done|]. by eapply insert_wf.
Qed.

Definition updated {A} (p : Z * A → bool) (f : A → A) (l : list (Z * A)) : list (Z * A) :=
  map (λ x, if p x then (x.1, f x.2) else x) l.

Lemma updated_ids {A} (p : Z * A → bool) f l : map fst (updated p f l) = map fst l.
Proof. unfold updated. rewrite map_map. apply map_ext. intros x. by destruct (p x). Qed.

Lemma update_Ok r p f d d' :
  update r p f d = Ok d' →
  d' = set_table r {| next_id := next_id (d r); rows := updated p f (rows (d r)) |} d ∧
  clashes (clash r) (map snd (updated p f (rows (d r)))) = false ∧
  forallb (refs_ok d r) (map snd (updated p f (rows (d r)))) = true.
Proof.
  unfold update. fold (updated p f (rows (d r))). destruct (clashes _ _); [done|].
  destruct (forallb _ _); [|done]. by intros [=<-].
Qed.

Lemma update_wf r p f d d' : update r p f d = Ok d' → wf d → wf d'.
Proof.
  intros (-> & Hc & Hr)%update_Ok Hwf. set (t := {| next_id := _; rows := _ |}).
  assert (∀ q, ids (set_table r t d) q = ids d q) as Hids.
  { intros q. unfold ids. destruct (decide (r = q)) as [<-|Hq]; [|by rewrite set_table_ne].
    rewrite set_table_eq. apply updated_ids. }
  intros q. destruct (Hwf q) as [Ht Hk]. destruct (decide (r = q)) as [<-|Hq].
  - destruct Ht as [Hnd Hrange Hnext Hnc]. split.
    + split; rewrite ?Hids, ?set_table_eq; done.
    + unfold keys_ok. rewrite set_table_eq. cbn [rows t]. rewrite forallb_forall in *. intros y Hy.
      eapply refs_ok_mono; [|by apply Hr]. intros q' i _. by rewrite Hids.
  - split; [|apply (keys_ok_mono d); [done|by rewrite set_table_ne|intros ??; by rewrite Hids]].
    destruct Ht. split; rewrite ?Hids, ?set_table_ne by done; done.
Qed.

Lemma upsert_wf r c x f d d' : upsert r c x f d = Ok d' → wf d → wf d'.
Proof. unfold upsert. destruct (existsb _ _); [apply update_wf|apply insert_wf]. Qed.

(** *** Cascades *)

(** Fewer rows, same counters. *)
Definition shrinks (d d' : database) : Prop :=
  ∀ r, next_id (d' r) = next_id (d r) ∧ sublist (rows (d' r)) (rows (d r)).

Global Instance shrinks_preorder : PreOrder shrinks.
Proof.
  split; [done|]. intros d1 d2 d3 H1 H2 r. destruct (H1 r), (H2 r). split; [congruence|by etrans].
Qed.

Lemma prune_shrinks d : shrinks d (prune d).
Proof. intros r. split; [done|]. apply sublist_filter. Qed.

Lemma prunes_shrinks n d : shrinks d (prunes n d).
Proof. induction n; cbn; [done|]. etrans; [done|apply prune_shrinks]. Qed.

Lemma delete_shrinks r p d : shrinks d (delete r p d).
Proof.
  etrans; [|apply prunes_shrinks]. intros q'. destruct (decide (r = q')) as [<-|Hq].
  - rewrite set_table_eq. split; [done|]. apply sublist_filter.
  - by rewrite set_table_ne.
Qed.

Lemma shrinks_ids d d' r i : shrinks d d' → i ∈ ids d' r → i ∈ ids d r.
Proof. intros Hs Hi. eapply elem_of_sublist; [exact Hi|]. apply (fmap_sublist fst), Hs. Qed.

Lemma shrinks_table_ok d d' r : shrinks d d' → table_ok d r → table_ok d' r.
Proof.
  intros Hs [Hnd Hrange Hnext Hnc]. destruct (Hs r) as [Hn Hsub].
  assert (sublist (ids d' r) (ids d r)) as Hids by by apply fmap_sublist.
  split; rewrite ?Hn; [by eapply sublist_NoDup| |done|].
  - rewrite Forall_forall in *. intros i Hi. apply Hrange. by eapply elem_of_sublist.
  - eapply clashes_sublist; [|done]. by apply fmap_sublist.
Qed.

Lemma refs_ok_shrinks d d' r x : shrinks d d' → refs_ok d' r x = true → refs_ok d r x = true.
Proof. intros Hs. apply refs_ok_mono. intros q i _. by apply shrinks_ids. Qed.

Lemma prunes_rows n e q :
  rows (prunes (S n) e q) = filter (λ x, refs_ok (prunes n e) q x.2) (rows (e q)).
Proof.
  induction n as [|n IH]; [done|].
  change (rows (prunes (S (S n)) e q)) with (filter (λ x, refs_ok (prunes (S n) e) q x.2) (rows (prunes (S n) e q))).
  rewrite IH, list_filter_filter. apply filter_ext_in. intros x _. split; [tauto|].
  intros Hx. split; [done|]. apply Is_true_true in Hx. apply Is_true_true.
  eapply refs_ok_shrinks; [|exact Hx]. apply prune_shrinks.
Qed.

Context (rank : R → nat).
Hypothesis refs_rank : ∀ r x q i, (q, i) ∈ refs r x → (rank q < rank r)%nat.
Hypothesis rank_depth : ∀ r, (rank r < depth)%nat.

Lemma keys_ok_prune e r : keys_ok e r → rows (prune e r) = rows (e r).
Proof.
  intros Hk. cbn. apply filter_all. intros x Hx. apply Is_true_true.
  unfold keys_ok in Hk. rewrite forallb_forall in Hk. apply Hk, list_elem_of_In. by apply list_elem_of_fmap_2.
Qed.

Lemma prunes_keys_ok n e r : (rank r < n)%nat → keys_ok (prunes n e) r.
Proof.
  revert r. induction n as [|n IH]; intros r Hr; [lia|]. cbn. unfold keys_ok.
  apply forallb_forall. intros y (x & -> & Hx)%list_elem_of_In%list_elem_of_fmap.
  apply list_elem_of_filter in Hx as [Hx%Is_true_true _].
  eapply refs_ok_mono; [|exact Hx]. intros q j Hq Hj. pose proof (refs_rank _ _ _ _ Hq).
  unfold ids. rewrite keys_ok_prune; [done|]. apply IH. lia.
Qed.

Lemma delete_wf r p d : wf d → wf (delete r p d).
Proof.
  intros Hwf q. split; [|by apply prunes_keys_ok, rank_depth].
  apply (shrinks_table_ok d); [apply delete_shrinks|apply Hwf].
Qed.

(** What a cascade keeps: the rows that were not selected and whose references
    are kept. *)
Lemma delete_rows r p d q :
  rows (delete r p d q) =
  filter (λ x, refs_ok (delete r p d) q x.2)
    (rows (set_table r {| next_id := next_id (d r); rows := filter (λ x, ¬ p x) (rows (d r)) |} d q)).
Proof.
  unfold delete. set (e := set_table r _ d). pose proof (rank_depth q) as Hq.
  pose proof (prunes_rows (depth - 1) e q) as Hrows.
  replace (S (depth - 1)) with depth in Hrows by lia. rewrite Hrows. apply filter_ext_in. intros x _.
  rewrite !Is_true_true. split.
  - apply refs_ok_mono. intros q' i Hq' Hi. pose proof (refs_rank _ _ _ _ Hq').
    replace depth with (S (depth - 1)) by lia. unfold ids. cbn [prunes].
    rewrite keys_ok_prune; [done|]. apply prunes_keys_ok. pose proof (rank_depth q). lia.
  - apply refs_ok_shrinks. replace depth with (S (depth - 1)) at 2 by lia. apply prune_shrinks.
Qed.

(** A relation nothing refers to loses the selected rows only. *)
Lemma delete_leaf r p d :
  (∀ q x i, (r, i) ∉ refs q x) → wf d →
  ∀ q, rows (delete r p d q) =
       rows (set_table r {| next_id := next_id (d r); rows := filter (λ x, ¬ p x) (rows (d r)) |} d q).
Proof.
  intros Hleaf Hwf q. set (e := set_table r _ d).
  assert (∀ n q, rows (prunes n e q) = rows (e q)) as Hall; [|apply Hall].
  induction n as [|n IH]; intros q'; [done|]. rewrite prunes_rows. apply filter_all. intros x Hx.
  apply Is_true_true. destruct (Hwf q') as [_ Hk]. unfold keys_ok in Hk. rewrite forallb_forall in Hk.
  eapply (refs_ok_mono d); [|apply Hk].
  - intros q2 i Hq2 Hi. unfold ids in *. rewrite IH. unfold e.
    rewrite set_table_ne; [done|]. intros <-. by apply (Hleaf q' x.2 i).
  - apply list_elem_of_In, list_elem_of_fmap_2. unfold e in Hx.
    destruct (decide (r = q')) as [<-|Hq']; [|by rewrite set_table_ne in Hx].
    rewrite set_table_eq in Hx. cbn in Hx. by apply list_elem_of_filter in Hx as [_ ?].
Qed.
End schema.
