(* ===== verification/Sqlite.v ===== *)
(** SQLite tables, as the client's database uses them: rows under rowids,
    [UNIQUE] constraints, and the statements built from them.

    A table without [AUTOINCREMENT] gives a new row one more than the largest
    rowid in use, so an id can come back once its row is gone. *)
From S2P Require Export Sql.

Local Open Scope Z_scope.

Definition max_rowid : Z := 2 ^ 63 - 1.
Definition largest (ids : list Z) : Z := foldr Z.max 0 ids.

(** What SQLite's documentation promises.  Without [ORDER BY] the rows come in
    some order. *)
Class Sqlite := {
  new_rowid : list Z → option Z;
  rowids_scan : ∀ {A}, list (Z * A) → list (Z * A);
  new_rowid_next ids : largest ids < max_rowid → new_rowid ids = Some (1 + largest ids);
  new_rowid_fresh ids i : new_rowid ids = Some i → 0 < i ∧ i ∉ ids;
  rowids_scan_perm {A} (l : list (Z * A)) : rowids_scan l ≡ₚ l;
}.

Definition by_rowid {A} (l : list (Z * A)) : Prop := StronglySorted Z.lt (map fst l).

(** A full table scan visits the rows by rowid. *)
Definition scans_by_rowid `{Sqlite} : Prop :=
  ∀ A (l : list (Z * A)), by_rowid l → rowids_scan l = l.

(** [query_row] and [query_row(..).optional()] *)
Definition query_row {A} (l : list A) : outcome string A := ok_or "Query returned no rows" (head l).
Definition query_optional {A} (l : list A) : outcome string (option A) := Ok (head l).

(** [row.get::<u32>(i)] *)
Definition get_u32 (z : Z) : outcome string Z :=
  if in_u32 z then Ok z else Err ("Integer " +:+ show z +:+ " out of range").

Section tables.
Context {R : Type} {R_dec : EqDecision R} (row : R → Type) (clash : ∀ r, row r → row r → bool).
Context `{Sqlite}.

Definition sqlite : Type := ∀ r, list (Z * row r).

Definition set_rows (r : R) (t : list (Z * row r)) (d : sqlite) : sqlite := λ r',
  match decide (r = r') with
  | left e => eq_rect r (λ r, list (Z * row r)) t r' e
  | right _ => d r'
  end.

Definition insert_row (r : R) (x : row r) (d : sqlite) : outcome string sqlite :=
  if existsb (λ y, clash r y.2 x) (d r) then Err "UNIQUE constraint failed"
  else i ← ok_or "database or disk is full" (new_rowid (map fst (d r)));
       Ok (set_rows r (d r ++ [(i, x)]) d).

Definition update_rows (r : R) (p : Z * row r → bool) (f : row r → row r) (d : sqlite) : outcome string sqlite :=
  let rows' := map (λ x, if p x then (x.1, f x.2) else x) (d r) in
  if clashes (clash r) (map snd rows') then Err "UNIQUE constraint failed"
  else Ok (set_rows r rows' d).

Definition delete_rows (r : R) (p : Z * row r → bool) (d : sqlite) : sqlite :=
  set_rows r (filter (λ x, ¬ p x) (d r)) d.

(** [INSERT .. ON CONFLICT .. DO UPDATE SET ..] *)
Definition upsert_row (r : R) (conflict : row r → bool) (x : row r) (f : row r → row r) (d : sqlite)
    : outcome string sqlite :=
  if existsb (λ y, conflict y.2) (d r) then update_rows r (λ y, conflict y.2) f d else insert_row r x d.

(** ** Facts *)

Record rows_ok (r : R) (l : list (Z * row r)) : Prop := {
  rows_nodup : NoDup (map fst l);
  rows_positive : Forall (λ i, 0 < i) (map fst l);
  rows_no_clash : clashes (clash r) (map snd l) = false;
}.
Definition sqlite_ok (d : sqlite) : Prop := ∀ r, rows_ok r (d r).

Lemma set_rows_eq r t d : set_rows r t d r = t.
Proof.
  unfold set_rows. destruct (decide (r = r)) as [e|]; [|done].
  by rewrite (Eqdep_dec.UIP_dec R_dec e eq_refl).
Qed.

Lemma set_rows_ne r t d r' : r ≠ r' → set_rows r t d r' = d r'.
Proof. intros Hne. unfold set_rows. by destruct (decide (r = r')). Qed.

Lemma set_rows_ok r t d : sqlite_ok d → rows_ok r t → sqlite_ok (set_rows r t d).
Proof.
  intros Hd Ht r'. destruct (decide (r = r')) as [<-|Hne]; [by rewrite set_rows_eq|].
  rewrite set_rows_ne by done. apply Hd.
Qed.

Lemma insert_row_ok r x d d' : sqlite_ok d → insert_row r x d = Ok d' → sqlite_ok d'.
Proof.
  intros Hd. unfold insert_row. destruct (existsb _ _) eqn:Hc; [done|].
  destruct (new_rowid _) as [i|] eqn:Hi; [|done]. cbn. intros [= <-].
  apply new_rowid_fresh in Hi as [Hpos Hi]. apply set_rows_ok; [done|]. destruct (Hd r) as [Hn Hp Hk]. split.
  - rewrite map_app. apply NoDup_app. split_and!; [done| |apply NoDup_singleton].
    intros j Hj Hj'%list_elem_of_singleton. by subst.
  - rewrite map_app. apply Forall_app. split; [done|by repeat constructor].
  - rewrite map_app. cbn [map snd]. rewrite clashes_snoc, Hk. cbn. rewrite <- Hc. clear.
    induction (d r) as [|y l IH]; [done|]. cbn. by rewrite IH.
Qed.

Lemma map_ids {A} (p : Z * A → bool) (f : A → A) (l : list (Z * A)) :
  map fst (map (λ x, if p x then (x.1, f x.2) else x) l) = map fst l.
Proof. induction l as [|x l IH]; [done|]. cbn. rewrite IH. by destruct (p x). Qed.

Lemma update_rows_ok r p f d d' : sqlite_ok d → update_rows r p f d = Ok d' → sqlite_ok d'.
Proof.
  intros Hd. unfold update_rows. destruct (clashes _ _) eqn:Hc; [done|]. intros [= <-].
  apply set_rows_ok; [done|]. destruct (Hd r) as [Hn Hp Hk]. split; [by rewrite map_ids..|done].
Qed.

Lemma delete_rows_ok r p d : sqlite_ok d → sqlite_ok (delete_rows r p d).
Proof.
  intros Hd. apply set_rows_ok; [done|]. destruct (Hd r) as [Hn Hp Hk].
  assert (sublist (filter (λ x, ¬ p x) (d r)) (d r)) as Hs by apply sublist_filter.
  split.
  - eapply sublist_NoDup; [exact Hn|]. by apply fmap_sublist.
  - rewrite Forall_forall in *. intros i Hi. apply Hp. eapply sublist_subseteq; [|exact Hi]. by apply fmap_sublist.
  - eapply clashes_sublist; [|done]. by apply fmap_sublist.
Qed.

Lemma upsert_row_ok r conflict x f d d' : sqlite_ok d → upsert_row r conflict x f d = Ok d' → sqlite_ok d'.
Proof. intros Hd. unfold upsert_row. case_match; [by apply update_rows_ok|by apply insert_row_ok]. Qed.

(** *** What a statement reads and writes

    A statement confined to some relations answers alike on databases that
    agree on them, leaves databases that agree on them, and does not touch the
    others. *)
Definition agree (P : R → Prop) (d d' : sqlite) : Prop := ∀ r, P r → d r = d' r.
Definition confined (P : R → Prop) {A} (m : statement sqlite A) : Prop := ∀ d d', agree P d d' →
  (m d).1 = (m d').1 ∧ agree P (m d).2 (m d').2 ∧ ∀ r, ¬ P r → (m d).2 r = d r.

Section confined.
Context (P : R → Prop).

Lemma confined_ret {A} (x : A) : confined P (mret x).
Proof. by intros d d' Hd. Qed.

Lemma confined_query {A} (f : sqlite → outcome string A) :
  (∀ d d', agree P d d' → f d = f d') → confined P (query f).
Proof. intros Hf d d' Hd. split_and!; [by apply Hf|done|done]. Qed.

Lemma confined_bind {A B} (m : statement sqlite A) (f : A → statement sqlite B) :
  confined P m → (∀ a, confined P (f a)) → confined P (m ≫= f).
Proof.
  intros Hm Hf d d' Hd. unfold mbind, stm_bind. destruct (Hm d d' Hd) as (Ha & Hd2 & Hr).
  destruct (m d) as [o d1], (m d') as [o' d1']. cbn in *. subst o'.
  destruct o as [a|e|w]; [|done..]. destruct (Hf a d1 d1' Hd2) as (Hb & Hd3 & Hr').
  split_and!; [done..|]. intros r Hnr. by rewrite Hr', Hr.
Qed.

Definition changes (f : sqlite → outcome string sqlite) : Prop := ∀ d d', agree P d d' →
  match f d, f d' with
  | Ok d1, Ok d1' => agree P d1 d1' ∧ ∀ r, ¬ P r → d1 r = d r
  | Err e, Err e' => e = e'
  | Panic w, Panic w' => w = w'
  | _, _ => False
  end.

Lemma confined_execute f : changes f → confined P (execute f).
Proof.
  intros Hf d d' Hd. specialize (Hf d d' Hd). unfold execute, run.
  destruct (f d), (f d'); cbn; try done; [by destruct Hf|by subst..].
Qed.

Lemma changes_set r (t : sqlite → list (Z * row r)) :
  P r → (∀ d d', d r = d' r → t d = t d') → changes (λ d, Ok (set_rows r (t d) d)).
Proof.
  intros Hr Ht d d' Hd. rewrite (Ht d d') by by apply Hd. split.
  - intros r' Hr'. destruct (decide (r = r')) as [<-|Hne]; [by rewrite !set_rows_eq|].
    rewrite !set_rows_ne by done. by apply Hd.
  - intros r' Hr'. apply set_rows_ne. congruence.
Qed.

Lemma changes_insert r x : P r → changes (insert_row r x).
Proof.
  intros Hr d d' Hd. unfold insert_row. rewrite (Hd r Hr). destruct (existsb _ _); [done|].
  destruct (new_rowid _) as [i|]; [|done]. cbn.
  pose proof (changes_set r (λ d, d r ++ [(i, x)]) Hr ltac:(intros ?? He; cbn; by rewrite He) d d' Hd) as Hset. cbn in Hset.
  by rewrite (Hd r Hr) in Hset.
Qed.

Lemma changes_update r p f : P r → changes (update_rows r p f).
Proof.
  intros Hr d d' Hd. unfold update_rows. rewrite (Hd r Hr). destruct (clashes _ _); [done|].
  pose proof (changes_set r (λ d, map (λ x, if p x then (x.1, f x.2) else x) (d r)) Hr ltac:(intros ?? He; cbn; by rewrite He) d d' Hd) as Hset.
  cbn in Hset. by rewrite (Hd r Hr) in Hset.
Qed.

Lemma changes_delete r p : P r → changes (λ d, Ok (delete_rows r p d)).
Proof. intros Hr. apply (changes_set r (λ d, filter (λ x, ¬ p x) (d r))); [done|]. intros ?? He. cbn. by rewrite He. Qed.

Lemma changes_upsert r conflict x f : P r → changes (upsert_row r conflict x f).
Proof.
  intros Hr d d' Hd. unfold upsert_row. rewrite (Hd r Hr).
  destruct (existsb _ _); [by apply changes_update|by apply changes_insert].
Qed.

Lemma confined_transaction {A} (m : statement sqlite A) : confined P m → confined P (transaction m).
Proof.
  intros Hm d d' Hd. unfold transaction. destruct (Hm d d' Hd) as (Ha & Hd2 & Hr).
  destruct (m d) as [o d1], (m d') as [o' d1']. cbn in *. subst o'. by destruct o.
Qed.

Lemma confined_each {A} (l : list A) (body : A → statement sqlite unit) :
  (∀ x, confined P (body x)) → confined P (stm_each l body).
Proof.
  intros Hb. induction l as [|x l IH]; [apply confined_ret|]. cbn. apply confined_bind; [apply Hb|done].
Qed.

End confined.
End tables.

Lemma existsb_never {A} (f : A → bool) l : (∀ x, f x = false) → existsb f l = false.
Proof. intros Hf. induction l as [|x l IH]; [done|]. cbn. by rewrite Hf, IH. Qed.

Lemma clashes_never {A} (f : A → A → bool) l : (∀ x y, f x y = false) → clashes f l = false.
Proof.
  intros Hf. induction l as [|x l IH]; [done|]. cbn [clashes]. by rewrite IH, existsb_never.
Qed.

Lemma largest_ge ids i : i ∈ ids → i ≤ largest ids.
Proof. unfold largest. induction 1 as [|j ids Hi IH]; cbn; lia. Qed.

Lemma largest_nonneg ids : 0 ≤ largest ids.
Proof. unfold largest. induction ids; cbn; lia. Qed.

Lemma largest_cons i ids : largest (i :: ids) = Z.max i (largest ids).
Proof. done. Qed.

Lemma largest_app ids ids' : largest (ids ++ ids') = Z.max (largest ids) (largest ids').
Proof. unfold largest. induction ids as [|i ids IH]; cbn; [pose proof (largest_nonneg ids'); unfold largest in *; lia|]. lia. Qed.

Lemma largest_snoc {A} (l : list (Z * A)) x :
  largest (map fst (l ++ [(1 + largest (map fst l), x)])) = 1 + largest (map fst l).
Proof.
  rewrite map_app, largest_app. cbn [map fst]. rewrite largest_cons. cbn [largest foldr].
  pose proof (largest_nonneg (map fst l)). lia.
Qed.

Lemma by_rowid_snoc {A} (l : list (Z * A)) i x :
  by_rowid l → largest (map fst l) < i → by_rowid (l ++ [(i, x)]).
Proof.
  intros Hl Hi. unfold by_rowid. rewrite map_app. apply StronglySorted_app. split_and!; [|done|by repeat constructor].
  intros j k Hj Hk. apply list_elem_of_singleton in Hk as ->. apply largest_ge in Hj. cbn. lia.
Qed.

Lemma by_rowid_filter {A} (p : Z * A → Prop) `{∀ x, Decision (p x)} l : by_rowid l → by_rowid (filter p l).
Proof.
  unfold by_rowid. induction l as [|x l IH]; [done|]. cbn [map]. intros Hl. inversion_clear Hl as [|?? Hs Hf].
  rewrite filter_cons. case_decide; [|auto]. cbn [map]. constructor; [auto|].
  apply Forall_forall. rewrite Forall_forall in Hf. intros j Hj. apply Hf.
  apply list_elem_of_fmap in Hj as (y & -> & Hy). apply list_elem_of_filter in Hy as [_ Hy].
  by apply list_elem_of_fmap_2.
Qed.

Lemma by_rowid_nodup {A} (l : list (Z * A)) : by_rowid l → NoDup (map fst l).
Proof.
  unfold by_rowid. induction (map fst l) as [|i ids IH]; [constructor|]. intros Hs. inversion_clear Hs as [|?? Hs' Hf].
  constructor; [|auto]. intros Hi. rewrite Forall_forall in Hf. specialize (Hf i Hi). lia.
Qed.

(** A SQLite that scans by rowid. *)
Definition next_rowid (ids : list Z) : option Z :=
  if largest ids <? max_rowid then Some (1 + largest ids) else None.

Lemma next_rowid_fresh ids i : next_rowid ids = Some i → 0 < i ∧ i ∉ ids.
Proof.
  unfold next_rowid. case_match; [|done]. intros [= <-]. pose proof (largest_nonneg ids).
  split; [lia|]. intros Hi%largest_ge. lia.
Qed.

Definition plain_sqlite : Sqlite := {|
  new_rowid := next_rowid;
  rowids_scan A l := l;
  new_rowid_next ids Hi := ltac:(unfold next_rowid; by rewrite (proj2 (Z.ltb_lt _ _) Hi));
  new_rowid_fresh := next_rowid_fresh;
  rowids_scan_perm A l := reflexivity l;
|}.
