(* ===== verification/ClientDb.v ===== *)
(** The client's storage: the schema of [client/client_db/migrations], every
    method of [Device] ([client/src/storage/device.rs]), the interface
    [ClientDB] and the stores libsignal and the chunker are given
    ([client/src/storage/database.rs]).

    A record of libsignal (a key, a session) is known by its serialization. *)
From S2P Require Export Sqlite Chunk Wire.

Local Open Scope Z_scope.

(** ** Schema *)

(** Tables that map a text that is [UNIQUE] to a text. *)
Inductive text_table :=
| DeviceIdentityKeyStore
| DeviceSessionStore
| DeviceSenderKeyStore
| Contacts
| DeniableDeviceIdentityKeyStore
| DeniableDeviceSessionStore
| DeniableKeyRequestsSent.

(** Tables that map an id that is [UNIQUE] to a record. *)
Inductive id_table := DevicePreKeyStore | DeviceSignedPreKeyStore | DeviceKyberPreKeyStore.

Inductive relation :=
| Identity
| IdentityKeys
| Text (t : text_table)
| Numbered (t : id_table)
| Nicknames
| DeniablePayload
| DeniableMessageAwaitingEncryption
| IncomingDeniableChunk.

Global Instance text_table_eq_dec : EqDecision text_table.
Proof. solve_decision. Defined.
Global Instance id_table_eq_dec : EqDecision id_table.
Proof. solve_decision. Defined.
Global Instance relation_eq_dec : EqDecision relation.
Proof. solve_decision. Defined.

Record identity_row := { i_aci : string; i_pni : string; i_password : string }.
Record identity_keys_row := { ik_public : string; ik_private : string; ik_registration_id : Z }.
Record text_row := { t_key : string; t_text : string }.
Record id_row := { n_id : Z; n_record : string }.
Record nickname_row := { nick_name : string; nick_service_id : string }.
Record payload_row := { p_content : bytes; p_chunk_count : Z }.
Record awaiting_row := { w_message : string; w_alias : string }.

Definition row (r : relation) : Type :=
  match r with
  | Identity => identity_row
  | IdentityKeys => identity_keys_row
  | Text _ => text_row
  | Numbered _ => id_row
  | Nicknames => nickname_row
  | DeniablePayload => payload_row
  | DeniableMessageAwaitingEncryption => awaiting_row
  | IncomingDeniableChunk => DenimChunk
  end.

(** [UNIQUE] *)
Definition clash (r : relation) : row r → row r → bool :=
  match r return row r → row r → bool with
  | Text _ => λ x y, bool_decide (t_key x = t_key y)
  | Numbered _ => λ x y, n_id x =? n_id y
  | Nicknames => λ x y, bool_decide (nick_service_id x = nick_service_id y)
  | _ => λ _ _, false
  end.

Definition client_db : Type := sqlite row.
Definition empty_client_db : client_db := λ _, [].

Abbreviation cstm := (statement client_db).
Abbreviation query := (Sql.query (D := client_db)).
Abbreviation execute := (Sql.execute (D := client_db)).
Abbreviation c_insert := (insert_row row clash).
Abbreviation c_update := (update_rows row clash).
Abbreviation c_upsert := (upsert_row row clash).
Abbreviation c_delete := (delete_rows row).
Abbreviation client_ok := (sqlite_ok row clash).

(** ** Values *)

Inductive record_kind :=
  IdentityKey | PrivateKey | PublicKey | KemPublicKey | PreKey | SignedPreKey | KyberPreKey | Session | SenderKey.

(** libsignal: how an [InvalidArgument] prints, and the error of
    deserializing a record, if there is one. *)
Class Libsignal := {
  invalid_argument : string → string;
  record_error : record_kind → bytes → option string;
}.

(** The order in which a [HashSet] and a [HashMap] are iterated. *)
Class HashOrder := {
  hash_iter : gset Z → list Z;
  hash_map_iter : ∀ {A}, gmap Z A → list (Z * A);
  hash_iter_perm s : hash_iter s ≡ₚ elements s;
  hash_map_iter_perm {A} (m : gmap Z A) : hash_map_iter m ≡ₚ map_to_list m;
}.

Record Contact := { contact_service_id : ServiceId; device_ids : gset Z }.
Record ContactName := { contact_name : string; name_service_id : ServiceId }.

Inductive Direction := Sending | Receiving.

(** [ids.iter().map(to_string).collect().join(",")] *)
Fixpoint join (sep : string) (l : list string) : string :=
  match l with [] => "" | [x] => x | x :: l => x +:+ sep +:+ join sep l end.

(** ** Methods *)

Section device.
Context `{Sqlite, Base64, ServiceIdText, Libsignal, HashOrder}.

(** [map_err(|err| InvalidArgument(format!("{err}")))] *)
Definition arg {A} (o : outcome string A) : outcome string A :=
  match o with Err e => Err (invalid_argument e) | o => o end.
Definition on_error {A} (f : string → outcome string A) (m : cstm A) : cstm A := λ d,
  match m d with (Err e, d') => (f e, d') | r => r end.
Definition args {A} (m : cstm A) : cstm A := on_error (λ e, Err (invalid_argument e)) m.

Definition deserialize (k : record_kind) (bs : bytes) : outcome string bytes :=
  match record_error k bs with None => Ok bs | Some e => Err e end.
Definition decode (text : string) : outcome string bytes := arg (ok_or "base64" (b64_decode text)).

(** *** Statements on a table of texts and of records *)

Definition texts (t : text_table) (key : string) (d : client_db) : list string :=
  map (λ x, t_text x.2) (rowids_scan (filter (λ x, t_key x.2 = key) (d (Text t)))).
Definition select_optional (t : text_table) (key : string) : cstm (option string) :=
  query (λ d, arg (query_optional (texts t key d))).
Definition upsert_text (t : text_table) (key text : string) : cstm unit :=
  execute (λ d, arg (c_upsert (Text t) (λ y, bool_decide (t_key y = key)) {| t_key := key; t_text := text |}
                       (λ y, {| t_key := t_key y; t_text := text |}) d)).
Definition delete_text (t : text_table) (key : string) : cstm unit :=
  execute (λ d, arg (Ok (c_delete (Text t) (λ x, bool_decide (t_key x.2 = key)) d))).

Definition select_record (t : id_table) (id : Z) : cstm string :=
  query (λ d, arg (query_row (map (λ x, n_record x.2) (rowids_scan (filter (λ x, n_id x.2 = id) (d (Numbered t))))))).
Definition upsert_record (t : id_table) (id : Z) (record : string) : cstm unit :=
  execute (λ d, arg (c_upsert (Numbered t) (λ y, n_id y =? id) {| n_id := id; n_record := record |}
                       (λ y, {| n_id := n_id y; n_record := record |}) d)).

(** *** The account *)

Definition insert_account_information (aci pni password : string) : cstm unit :=
  execute (λ d, arg (c_insert Identity
    {| i_aci := service_id_string (Aci aci); i_pni := service_id_string (Pni pni); i_password := password |} d)).

Definition insert_account_key_information (key_pair : bytes * bytes) (registration_id : Z) : cstm unit :=
  execute (λ d, arg (c_insert IdentityKeys
    {| ik_public := b64_encode key_pair.1; ik_private := b64_encode key_pair.2;
       ik_registration_id := registration_id |} d)).

(** [CASE WHEN MAX(..) IS NOT NULL THEN MAX(..) ELSE 0 END] *)
Definition max_or_zero (ids : list Z) : Z :=
  match ids with [] => 0 | i :: ids => foldr Z.max i ids end.
Definition max_id (t : id_table) (d : client_db) : outcome string Z :=
  get_u32 (max_or_zero (map (λ x, n_id x.2) (d (Numbered t)))).

Definition get_key_ids : cstm (Z * Z * Z) :=
  query (λ d, arg (
    one_time ← max_id DevicePreKeyStore d;
    signed ← max_id DeviceSignedPreKeyStore d;
    kyber ← max_id DeviceKyberPreKeyStore d;
    Ok (one_time, signed, kyber))).

Definition identity_column {A} (f : identity_row → A) : cstm A :=
  query (λ d, arg (x ← query_row (rowids_scan (d Identity)); Ok (f x.2))).
Definition set_identity (f : identity_row → identity_row) : cstm unit :=
  execute (λ d, arg (c_update Identity (λ _, true) f d)).

Definition set_password (new_password : string) : cstm unit :=
  set_identity (λ x, {| i_aci := i_aci x; i_pni := i_pni x; i_password := new_password |}).
Definition get_password : cstm string := identity_column i_password.

Definition set_aci (new_aci : string) : cstm unit :=
  set_identity (λ x, {| i_aci := service_id_string (Aci new_aci); i_pni := i_pni x; i_password := i_password x |}).
Definition get_aci : cstm string :=
  row ← identity_column i_aci;
  match parse_from_service_id_string row with
  | Some (Aci aci) => mret aci
  | _ => pure_ (Err (invalid_argument ("Could not convert " +:+ row +:+ " to aci")))
  end.

Definition set_pni (new_pni : string) : cstm unit :=
  set_identity (λ x, {| i_aci := i_aci x; i_pni := service_id_string (Pni new_pni); i_password := i_password x |}).
Definition get_pni : cstm string :=
  row ← identity_column i_pni;
  match parse_from_service_id_string row with
  | Some (Pni pni) => mret pni
  | _ => pure_ (Err (invalid_argument ("Could not convert " +:+ row +:+ " to pni")))
  end.

Definition get_identity_key_pair : cstm (bytes * bytes) :=
  query (λ d,
    x ← arg (query_row (rowids_scan (d IdentityKeys)));
    public ← decode (ik_public x.2);
    public ← arg (deserialize IdentityKey public);
    private ← decode (ik_private x.2);
    private ← arg (deserialize PrivateKey private);
    Ok (public, private)).

Definition get_local_registration_id : cstm Z :=
  query (λ d, arg (x ← query_row (rowids_scan (d IdentityKeys)); get_u32 (ik_registration_id x.2))).

(** *** Contacts *)

Definition store_contact (contact : Contact) : cstm unit :=
  let service_id := service_id_string (contact_service_id contact) in
  let ids := join "," (map show (hash_iter (device_ids contact))) in
  upsert_text Contacts service_id ids.

Definition parse_device_ids (text : string) : outcome string (gset Z) :=
  if decide (text = "") then Ok ∅
  else ids ← collect (λ id, ok_or (invalid_argument "Could not parse device id: invalid digit found in string") (parse_u32 id))
               (split_on "," text);
       Ok (list_to_set ids).
Definition contact_of_row (x : Z * text_row) : outcome string Contact :=
  ids ← parse_device_ids (t_text x.2);
  service_id ← ok_or (invalid_argument ("Could not parse service_id: " +:+ t_key x.2))
                 (parse_from_service_id_string (t_key x.2));
  Ok {| contact_service_id := service_id; device_ids := ids |}.
Definition load_contacts : cstm (list Contact) :=
  query (λ d, collect contact_of_row (rowids_scan (d (Text Contacts)))).

Definition remove_contact (service_id : ServiceId) : cstm unit :=
  delete_text Contacts (service_id_string service_id).

Definition nickname_of_row (x : Z * nickname_row) : outcome string ContactName :=
  s ← expect "Should service id" (parse_from_service_id_string (nick_service_id x.2));
  Ok {| contact_name := nick_name x.2; name_service_id := s |}.
Definition get_all_nicknames : cstm (list ContactName) :=
  query (λ d, arg (collect nickname_of_row (rowids_scan (d Nicknames)))).

Definition insert_service_id_for_nickname (nickname : string) (service_id : ServiceId) : cstm unit :=
  execute (λ d, arg (c_insert Nicknames
    {| nick_name := nickname; nick_service_id := service_id_string service_id |} d)).

Definition get_service_id_by_nickname (nickname : string) : cstm ServiceId :=
  query (λ d,
    x ← arg (query_row (rowids_scan (filter (λ x, nick_name x.2 = nickname) (d Nicknames))));
    ok_or (invalid_argument "Could not parse service_id") (parse_from_service_id_string (nick_service_id x.2))).

(** *** Identities *)

Definition identity_in (t : text_table) (address : ProtocolAddress) : cstm (option bytes) :=
  text ← select_optional t (address_to_string address);
  match text with
  | Some text => pure_ (bs ← decode text; bs ← deserialize IdentityKey bs; Ok (Some bs))
  | None => mret None
  end.
Definition insert_identity_in (t : text_table) (address : ProtocolAddress) (identity : bytes) : cstm unit :=
  upsert_text t (address_to_string address) (b64_encode identity).

Definition insert_identity : ProtocolAddress → bytes → cstm unit := insert_identity_in DeviceIdentityKeyStore.
Definition insert_deniable_identity : ProtocolAddress → bytes → cstm unit :=
  insert_identity_in DeniableDeviceIdentityKeyStore.
Definition get_identity : ProtocolAddress → cstm (option bytes) := identity_in DeviceIdentityKeyStore.
Definition get_deniable_identity : ProtocolAddress → cstm (option bytes) := identity_in DeniableDeviceIdentityKeyStore.

Definition save_identity (address : ProtocolAddress) (identity : bytes) : cstm bool :=
  known ← args (get_identity address);
  match known with
  | Some key =>
      if decide (key = identity) then mret false
      else _ ← insert_identity address identity; mret false
  | None => _ ← insert_identity address identity; mret true
  end.
Definition save_deniable_identity (address : ProtocolAddress) (identity : bytes) : cstm bool :=
  known ← args (get_deniable_identity address);
  match known with
  | Some key =>
      if decide (key = identity) then mret false
      else _ ← insert_deniable_identity address identity; mret false
  | None => _ ← insert_deniable_identity address identity; mret true
  end.

Definition cannot_err {A} (m : cstm A) : cstm A := on_error (λ _, Panic "This function cannot return err") m.
Definition is_trusted_identity (address : ProtocolAddress) (identity : bytes) (_direction : Direction) : cstm bool :=
  known ← cannot_err (get_identity address);
  mret (match known with Some i => bool_decide (i = identity) | None => true end).
Definition is_trusted_deniable_identity (address : ProtocolAddress) (identity : bytes) (_direction : Direction) : cstm bool :=
  known ← cannot_err (get_deniable_identity address);
  mret (match known with Some i => bool_decide (i = identity) | None => true end).

(** *** Pre-keys *)

Definition get_pre_key (prekey_id : Z) : cstm bytes :=
  record ← select_record DevicePreKeyStore prekey_id;
  pure_ (bs ← decode record; arg (deserialize PreKey bs)).
Definition save_pre_key (prekey_id : Z) (record : bytes) : cstm unit :=
  upsert_record DevicePreKeyStore prekey_id (b64_encode record).
Definition remove_pre_key (prekey_id : Z) : cstm unit :=
  execute (λ d, arg (Ok (c_delete (Numbered DevicePreKeyStore) (λ x, n_id x.2 =? prekey_id) d))).

Definition get_signed_pre_key (id : Z) : cstm bytes :=
  record ← select_record DeviceSignedPreKeyStore id;
  pure_ (bs ← decode record; arg (deserialize SignedPreKey bs)).
Definition save_signed_pre_key (id : Z) (record : bytes) : cstm unit :=
  upsert_record DeviceSignedPreKeyStore id (b64_encode record).

Definition get_kyber_pre_key (kyber_prekey_id : Z) : cstm bytes :=
  record ← select_record DeviceKyberPreKeyStore kyber_prekey_id;
  pure_ (bs ← decode record; deserialize KyberPreKey bs).
Definition save_kyber_pre_key (kyber_prekey_id : Z) (record : bytes) : cstm unit :=
  upsert_record DeviceKyberPreKeyStore kyber_prekey_id (b64_encode record).

(** *** Sessions and sender keys *)

Definition load_text (t : text_table) (k : record_kind) (key : string) : cstm (option bytes) :=
  text ← select_optional t key;
  match text with
  | Some text => pure_ (bs ← decode text; bs ← deserialize k bs; Ok (Some bs))
  | None => mret None
  end.

Definition load_session (address : ProtocolAddress) : cstm (option bytes) :=
  load_text DeviceSessionStore Session (address_to_string address).
Definition load_deniable_session (address : ProtocolAddress) : cstm (option bytes) :=
  load_text DeniableDeviceSessionStore Session (address_to_string address).
Definition store_session (address : ProtocolAddress) (record : bytes) : cstm unit :=
  upsert_text DeviceSessionStore (address_to_string address) (b64_encode record).
Definition store_deniable_session (address : ProtocolAddress) (record : bytes) : cstm unit :=
  upsert_text DeniableDeviceSessionStore (address_to_string address) (b64_encode record).

Definition sender_key_address (sender : ProtocolAddress) (distribution_id : string) : string :=
  address_to_string sender +:+ ":" +:+ distribution_id.
Definition store_sender_key (sender : ProtocolAddress) (distribution_id : string) (record : bytes) : cstm unit :=
  upsert_text DeviceSenderKeyStore (sender_key_address sender distribution_id) (b64_encode record).
Definition load_sender_key (sender : ProtocolAddress) (distribution_id : string) : cstm (option bytes) :=
  load_text DeviceSenderKeyStore SenderKey (sender_key_address sender distribution_id).

(** *** Deniable payloads to send *)

Definition get_deniable_payload : cstm (Z * bytes * Z) :=
  query (λ d, arg (
    x ← query_row (rowids_scan (d DeniablePayload));
    id ← get_u32 x.1; Ok (id, p_content x.2, p_chunk_count x.2))).

Definition get_deniable_payload_by_id (payload_id : Z) : cstm (bytes * Z) :=
  query (λ d, arg (
    x ← query_row (rowids_scan (filter (λ x, x.1 = payload_id) (d DeniablePayload)));
    Ok (p_content x.2, p_chunk_count x.2))).

(** A new payload starts with a count of zero, whatever count is given. *)
Definition store_deniable_payload (payload_id : option Z) (chunk_count : Z) (payload : bytes) : cstm unit :=
  match payload_id with
  | Some id =>
      execute (λ d, arg (c_update DeniablePayload (λ x, x.1 =? id)
        (λ _, {| p_content := payload; p_chunk_count := chunk_count |}) d))
  | None =>
      execute (λ d, arg (c_insert DeniablePayload {| p_content := payload; p_chunk_count := 0 |} d))
  end.

Definition remove_deniable_payload (payload_id : Z) : cstm unit :=
  execute (λ d, arg (Ok (c_delete DeniablePayload (λ x, x.1 =? payload_id) d))).

(** *** Key requests and the messages that wait for them *)

Definition try_get_key_request_sent (service_id : string) : cstm (option string) :=
  select_optional DeniableKeyRequestsSent service_id.
Definition store_key_request_sent (service_id alias : string) : cstm unit :=
  upsert_text DeniableKeyRequestsSent service_id alias.
Definition remove_key_request_sent (service_id : string) : cstm unit :=
  delete_text DeniableKeyRequestsSent service_id.

Definition get_messages_awaiting_encryption (alias : string) : cstm (list string) :=
  query (λ d, Ok (map (λ x, w_message x.2)
    (rowids_scan (filter (λ x, w_alias x.2 = alias) (d DeniableMessageAwaitingEncryption))))).
Definition store_message_awaiting_encryption (message alias : string) : cstm unit :=
  execute (λ d, arg (c_insert DeniableMessageAwaitingEncryption {| w_message := message; w_alias := alias |} d)).
Definition remove_message_awaiting_encryption (message_id : Z) : cstm unit :=
  execute (λ d, arg (Ok (c_delete DeniableMessageAwaitingEncryption (λ x, x.1 =? message_id) d))).

(** *** Chunks that came in *)

(** Each row is deleted when it was read; an error rolls back. *)
Fixpoint take_chunks (l : list (Z * DenimChunk)) : cstm (list DenimChunk) :=
  match l with
  | [] => mret []
  | x :: l =>
      id ← pure_ (arg (get_u32 x.1));
      _ ← execute (λ d, arg (Ok (c_delete IncomingDeniableChunk (λ y, y.1 =? id) d)));
      chunks ← take_chunks l;
      mret (x.2 :: chunks)
  end.
Definition get_and_remove_incoming_deniable_chunks : cstm (list DenimChunk) :=
  transaction (
    l ← query (λ d, Ok (rowids_scan (d IncomingDeniableChunk)));
    take_chunks l).

Definition store_incoming_deniable_chunks (chunks : list DenimChunk) : cstm unit :=
  transaction (stm_each chunks (λ c, execute (λ d, arg (c_insert IncomingDeniableChunk c d)))).
End device.
