(* ===== verification/ClientStore.v ===== *)
(** The trait [ClientDB] and the stores over it
    ([client/src/storage/database.rs]): what libsignal and the chunker see of
    the client's database. *)
From S2P Require Export ClientDb.

Local Open Scope Z_scope.

(** ** Definitions *)

(** [trait ClientDB] *)
Inductive clientE : Type → Type :=
| Insert_account_information (aci pni password : string) : clientE unit
| Insert_account_key_information (key_pair : bytes * bytes) (registration_id : Z) : clientE unit
| Get_key_ids : clientE (Z * Z * Z)
| Store_contact (contact : Contact) : clientE unit
| Load_contacts : clientE (list Contact)
| Remove_contact (service_id : ServiceId) : clientE unit
| Get_all_nicknames : clientE (list ContactName)
| Insert_service_id_for_nickname (nickname : string) (service_id : ServiceId) : clientE unit
| Get_service_id_by_nickname (nickname : string) : clientE ServiceId
| Get_identity_key_pair : clientE (bytes * bytes)
| Get_local_registration_id : clientE Z
| Save_identity (address : ProtocolAddress) (identity : bytes) : clientE bool
| Save_deniable_identity (address : ProtocolAddress) (identity : bytes) : clientE bool
| Is_trusted_identity (address : ProtocolAddress) (identity : bytes) (direction : Direction) : clientE bool
| Is_trusted_deniable_identity (address : ProtocolAddress) (identity : bytes) (direction : Direction) : clientE bool
| Get_identity (address : ProtocolAddress) : clientE (option bytes)
| Get_deniable_identity (address : ProtocolAddress) : clientE (option bytes)
| Get_pre_key (id : Z) : clientE bytes
| Save_pre_key (id : Z) (record : bytes) : clientE unit
| Remove_pre_key (id : Z) : clientE unit
| Get_signed_pre_key (id : Z) : clientE bytes
| Save_signed_pre_key (id : Z) (record : bytes) : clientE unit
| Get_kyber_pre_key (id : Z) : clientE bytes
| Save_kyber_pre_key (id : Z) (record : bytes) : clientE unit
| Load_session (address : ProtocolAddress) : clientE (option bytes)
| Load_deniable_session (address : ProtocolAddress) : clientE (option bytes)
| Store_session (address : ProtocolAddress) (record : bytes) : clientE unit
| Store_deniable_session (address : ProtocolAddress) (record : bytes) : clientE unit
| Store_sender_key (sender : ProtocolAddress) (distribution_id : string) (record : bytes) : clientE unit
| Load_sender_key (sender : ProtocolAddress) (distribution_id : string) : clientE (option bytes)
| Set_password (new_password : string) : clientE unit
| Get_password : clientE string
| Set_aci (new_aci : string) : clientE unit
| Get_aci : clientE string
| Set_pni (new_pni : string) : clientE unit
| Get_pni : clientE string
| Get_deniable_payload : clientE (Z * bytes * Z)
| Get_deniable_payload_by_id (payload_id : Z) : clientE (bytes * Z)
| Store_deniable_payload (payload_id : option Z) (chunk_count : Z) (payload : bytes) : clientE unit
| Remove_deniable_payload (payload_id : Z) : clientE unit
| Try_get_key_request_sent (service_id : string) : clientE (option string)
| Store_key_request_sent (service_id alias : string) : clientE unit
| Remove_key_request_sent (service_id : string) : clientE unit
| Get_messages_awaiting_encryption (alias : string) : clientE (list string)
| Store_message_awaiting_encryption (message alias : string) : clientE unit
| Remove_message_awaiting_encryption (message_id : Z) : clientE unit
| Get_and_remove_incoming_deniable_chunks : clientE (list DenimChunk)
| Store_incoming_deniable_chunks (chunks : list DenimChunk) : clientE unit.

(** The interfaces of libsignal's stores. *)
Inductive IdentityKeyStoreE : Type → Type :=
| IK_get_identity_key_pair : IdentityKeyStoreE (bytes * bytes)
| IK_get_local_registration_id : IdentityKeyStoreE Z
| IK_save_identity (address : ProtocolAddress) (identity : bytes) : IdentityKeyStoreE bool
| IK_is_trusted_identity (address : ProtocolAddress) (identity : bytes) (direction : Direction) : IdentityKeyStoreE bool
| IK_get_identity (address : ProtocolAddress) : IdentityKeyStoreE (option bytes).
Inductive PreKeyStoreE : Type → Type :=
| PK_get_pre_key (id : Z) : PreKeyStoreE bytes
| PK_save_pre_key (id : Z) (record : bytes) : PreKeyStoreE unit
| PK_remove_pre_key (id : Z) : PreKeyStoreE unit.
Inductive SignedPreKeyStoreE : Type → Type :=
| SPK_get_signed_pre_key (id : Z) : SignedPreKeyStoreE bytes
| SPK_save_signed_pre_key (id : Z) (record : bytes) : SignedPreKeyStoreE unit.
Inductive KyberPreKeyStoreE : Type → Type :=
| KPK_get_kyber_pre_key (id : Z) : KyberPreKeyStoreE bytes
| KPK_save_kyber_pre_key (id : Z) (record : bytes) : KyberPreKeyStoreE unit
| KPK_mark_kyber_pre_key_used (id : Z) : KyberPreKeyStoreE unit.
Inductive SessionStoreE : Type → Type :=
| S_load_session (address : ProtocolAddress) : SessionStoreE (option bytes)
| S_store_session (address : ProtocolAddress) (record : bytes) : SessionStoreE unit.
Inductive SenderKeyStoreE : Type → Type :=
| SK_store_sender_key (sender : ProtocolAddress) (distribution_id : string) (record : bytes) : SenderKeyStoreE unit
| SK_load_sender_key (sender : ProtocolAddress) (distribution_id : string) : SenderKeyStoreE (option bytes).

Section stores.
Context `{Libsignal}.

Abbreviation client_prog := (prog clientE string).

(** [self.db.lock().await.c().await.map_err(..)] *)
Definition on_db {X} (c : clientE X) : client_prog X :=
  Call c (λ r, match r with inl e => Throw (invalid_argument e) | inr x => Ret x end).

Definition device_identity_key_store X (c : IdentityKeyStoreE X) : client_prog X :=
  match c with
  | IK_get_identity_key_pair => on_db Get_identity_key_pair
  | IK_get_local_registration_id => on_db Get_local_registration_id
  | IK_save_identity a i => on_db (Save_identity a i)
  | IK_is_trusted_identity a i d => on_db (Is_trusted_identity a i d)
  | IK_get_identity a => on_db (Get_identity a)
  end.
Definition device_pre_key_store X (c : PreKeyStoreE X) : client_prog X :=
  match c with
  | PK_get_pre_key i => on_db (Get_pre_key i)
  | PK_save_pre_key i r => on_db (Save_pre_key i r)
  | PK_remove_pre_key i => on_db (Remove_pre_key i)
  end.
Definition device_signed_pre_key_store X (c : SignedPreKeyStoreE X) : client_prog X :=
  match c with
  | SPK_get_signed_pre_key i => on_db (Get_signed_pre_key i)
  | SPK_save_signed_pre_key i r => on_db (Save_signed_pre_key i r)
  end.
Definition device_kyber_pre_key_store X (c : KyberPreKeyStoreE X) : client_prog X :=
  match c with
  | KPK_get_kyber_pre_key i => on_db (Get_kyber_pre_key i)
  | KPK_save_kyber_pre_key i r => on_db (Save_kyber_pre_key i r)
  | KPK_mark_kyber_pre_key_used _ => Ret tt
  end.
Definition device_session_store X (c : SessionStoreE X) : client_prog X :=
  match c with
  | S_load_session a => on_db (Load_session a)
  | S_store_session a r => on_db (Store_session a r)
  end.
Definition device_sender_key_store X (c : SenderKeyStoreE X) : client_prog X :=
  match c with
  | SK_store_sender_key s i r => on_db (Store_sender_key s i r)
  | SK_load_sender_key s i => on_db (Load_sender_key s i)
  end.

(** [DeniableStore], as a session store and as the chunker's buffer. *)
Definition deniable_session_store X (c : SessionStoreE X) : client_prog X :=
  match c with
  | S_load_session a => on_db (Load_deniable_session a)
  | S_store_session a r => on_db (Store_deniable_session a r)
  end.
Definition deniable_sending_buffer X (c : bufferE X) : client_prog X :=
  match c with
  | get_outgoing_message => on_db Get_deniable_payload
  | set_outgoing_message i n m => on_db (Store_deniable_payload i n m)
  | remove_outgoing_message i => on_db (Remove_deniable_payload i)
  end.
Definition deniable_identity_key_store X (c : IdentityKeyStoreE X) : client_prog X :=
  match c with
  | IK_get_identity_key_pair => on_db Get_identity_key_pair
  | IK_get_local_registration_id => on_db Get_local_registration_id
  | IK_save_identity a i => on_db (Save_deniable_identity a i)
  | IK_is_trusted_identity a i d => on_db (Is_trusted_deniable_identity a i d)
  | IK_get_identity a => on_db (Get_deniable_identity a)
  end.
End stores.

(** *** The two planes

    What libsignal is given to encrypt or decrypt a message: the stores of the
    regular plane or those of the deniable one.  Both share the key pair of
    the client and its pre-keys. *)

Inductive plane := Regular | Deniable.

Inductive storesE : Type → Type :=
| On_identity {X} (c : IdentityKeyStoreE X) : storesE X
| On_session {X} (c : SessionStoreE X) : storesE X
| On_pre_key {X} (c : PreKeyStoreE X) : storesE X
| On_signed_pre_key {X} (c : SignedPreKeyStoreE X) : storesE X
| On_kyber_pre_key {X} (c : KyberPreKeyStoreE X) : storesE X.

Definition stores `{Libsignal} (p : plane) X (c : storesE X) : prog clientE string X :=
  match c with
  | On_identity c =>
      match p with Regular => device_identity_key_store _ c | Deniable => deniable_identity_key_store _ c end
  | On_session c =>
      match p with Regular => device_session_store _ c | Deniable => deniable_session_store _ c end
  | On_pre_key c => device_pre_key_store _ c
  | On_signed_pre_key c => device_signed_pre_key_store _ c
  | On_kyber_pre_key c => device_kyber_pre_key_store _ c
  end.

(** [impl ClientDB for Device] *)
Definition device `{Sqlite, Base64, ServiceIdText, Libsignal, HashOrder} : handler clientE string client_db := λ X c,
  match c in clientE X return cstm X with
  | Insert_account_information aci pni password => insert_account_information aci pni password
  | Insert_account_key_information k i => insert_account_key_information k i
  | Get_key_ids => get_key_ids
  | Store_contact c => store_contact c
  | Load_contacts => load_contacts
  | Remove_contact s => remove_contact s
  | Get_all_nicknames => get_all_nicknames
  | Insert_service_id_for_nickname n s => insert_service_id_for_nickname n s
  | Get_service_id_by_nickname n => get_service_id_by_nickname n
  | Get_identity_key_pair => get_identity_key_pair
  | Get_local_registration_id => get_local_registration_id
  | Save_identity a i => save_identity a i
  | Save_deniable_identity a i => save_deniable_identity a i
  | Is_trusted_identity a i d => is_trusted_identity a i d
  | Is_trusted_deniable_identity a i d => is_trusted_deniable_identity a i d
  | Get_identity a => get_identity a
  | Get_deniable_identity a => get_deniable_identity a
  | Get_pre_key i => get_pre_key i
  | Save_pre_key i r => save_pre_key i r
  | Remove_pre_key i => remove_pre_key i
  | Get_signed_pre_key i => get_signed_pre_key i
  | Save_signed_pre_key i r => save_signed_pre_key i r
  | Get_kyber_pre_key i => get_kyber_pre_key i
  | Save_kyber_pre_key i r => save_kyber_pre_key i r
  | Load_session a => load_session a
  | Load_deniable_session a => load_deniable_session a
  | Store_session a r => store_session a r
  | Store_deniable_session a r => store_deniable_session a r
  | Store_sender_key s i r => store_sender_key s i r
  | Load_sender_key s i => load_sender_key s i
  | Set_password p => set_password p
  | Get_password => get_password
  | Set_aci a => set_aci a
  | Get_aci => get_aci
  | Set_pni p => set_pni p
  | Get_pni => get_pni
  | Get_deniable_payload => get_deniable_payload
  | Get_deniable_payload_by_id i => get_deniable_payload_by_id i
  | Store_deniable_payload i n m => store_deniable_payload i n m
  | Remove_deniable_payload i => remove_deniable_payload i
  | Try_get_key_request_sent s => try_get_key_request_sent s
  | Store_key_request_sent s a => store_key_request_sent s a
  | Remove_key_request_sent s => remove_key_request_sent s
  | Get_messages_awaiting_encryption a => get_messages_awaiting_encryption a
  | Store_message_awaiting_encryption m a => store_message_awaiting_encryption m a
  | Remove_message_awaiting_encryption i => remove_message_awaiting_encryption i
  | Get_and_remove_incoming_deniable_chunks => get_and_remove_incoming_deniable_chunks
  | Store_incoming_deniable_chunks cs => store_incoming_deniable_chunks cs
  end.
