(* ===== verification/ClientSpec.v ===== *)
(** What the client's storage promises: it keeps its schema, its tables of
    texts are maps, the deniable tables and the regular ones do not influence
    each other, and the table of outgoing payloads is the queue the chunker
    wants. *)
From S2P Require Export ClientStore.

Local Open Scope Z_scope.

(** ** The schema is respected *)

Lemma empty_client_ok : client_ok empty_client_db.
Proof. intros r. split; [constructor|constructor|done]. Qed.

Lemma keeps_on_error {A} (P : client_db → Prop) f (m : cstm A) : keeps P m → keeps P (on_error f m).
Proof. intros Hm d Hd. specialize (Hm d Hd). unfold on_error. by destruct (m d) as [[a|e|w] d']. Qed.

Section schema.
Context `{Sqlite, Base64, ServiceIdText, Libsignal, HashOrder}.

Lemma arg_Ok {A} (o : outcome string A) a : arg o = Ok a → o = Ok a.
Proof. by destruct o. Qed.

(** A statement that changes rows. *)
Lemma keeps_change (f : client_db → outcome string client_db) :
  (∀ d d', client_ok d → f d = Ok d' → client_ok d') → keeps client_ok (execute (λ d, arg (f d))).
Proof. intros Hf. apply keeps_execute. intros d d' Hd Hrun%arg_Ok. eauto. Qed.

Lemma keeps_change_delete r p : keeps client_ok (execute (λ d, arg (Ok (c_delete r p d)))).
Proof. apply keeps_change. intros d d' Hd [= <-]. by apply delete_rows_ok. Qed.
End schema.

(** Splits a method of [Device] into its statements. *)
Ltac device_method :=
  unfold insert_account_information, insert_account_key_information, get_key_ids, store_contact,
    load_contacts, remove_contact, get_all_nicknames, insert_service_id_for_nickname,
    get_service_id_by_nickname, get_identity_key_pair, get_local_registration_id, save_identity,
    save_deniable_identity, is_trusted_identity, is_trusted_deniable_identity, get_identity,
    get_deniable_identity, insert_identity, insert_deniable_identity, insert_identity_in, identity_in,
    get_pre_key, save_pre_key, remove_pre_key, get_signed_pre_key, save_signed_pre_key, get_kyber_pre_key,
    save_kyber_pre_key, load_session, load_deniable_session, store_session, store_deniable_session,
    store_sender_key, load_sender_key, load_text, set_password, get_password, set_aci, get_aci, set_pni,
    get_pni, get_deniable_payload, get_deniable_payload_by_id, store_deniable_payload,
    remove_deniable_payload, try_get_key_request_sent, store_key_request_sent, remove_key_request_sent,
    get_messages_awaiting_encryption, store_message_awaiting_encryption, remove_message_awaiting_encryption,
    get_and_remove_incoming_deniable_chunks, store_incoming_deniable_chunks, identity_column, set_identity,
    select_optional, select_record, upsert_text, upsert_record, delete_text, args, cannot_err, pure_.
Ltac split_device tac :=
  device_method;
  repeat first
    [ apply keeps_ret | apply keeps_query | apply keeps_transaction
    | apply keeps_bind; [|intros ?] | apply keeps_each; intros ? | apply keeps_on_error
    | apply keeps_change_delete | apply keeps_change; intros ????
    | match goal with |- keeps _ (match ?x with _ => _ end) => destruct x end ];
  tac.

Section methods.
Context `{Sqlite, Base64, ServiceIdText, Libsignal, HashOrder}.

Lemma keeps_take_chunks l : keeps client_ok (take_chunks l).
Proof.
  induction l as [|x l IH]; cbn [take_chunks]; split_device ltac:(apply IH).
Qed.

Lemma device_keeps_ok X (c : clientE X) : keeps client_ok (device X c).
Proof.
  destruct c; cbn [device];
    split_device ltac:(eauto using insert_row_ok, update_rows_ok, upsert_row_ok, keeps_take_chunks).
Qed.
End methods.

(** ** The tables of the two planes *)

Definition shared_tables : list relation :=
  [IdentityKeys; Numbered DevicePreKeyStore; Numbered DeviceSignedPreKeyStore; Numbered DeviceKyberPreKeyStore].
Definition tables_of (p : plane) : list relation :=
  match p with
  | Regular => [Text DeviceIdentityKeyStore; Text DeviceSessionStore]
  | Deniable => [Text DeniableDeviceIdentityKeyStore; Text DeniableDeviceSessionStore]
  end.
Definition seen_by (p : plane) (r : relation) : Prop := r ∈ tables_of p ++ shared_tables.

Section confined.
Context `{Sqlite, Base64, ServiceIdText, Libsignal, HashOrder} (P : relation → Prop).

Lemma confined_on_error {A} f (m : cstm A) : confined row P m → confined row P (on_error f m).
Proof.
  intros Hm d d' Hd. unfold on_error. destruct (Hm d d' Hd) as (Ha & Hd2 & Hr).
  destruct (m d) as [o d1], (m d') as [o' d1']. cbn in *. subst o'. by destruct o.
Qed.

Lemma changes_arg f : changes row P f → changes row P (λ d, arg (f d)).
Proof.
  intros Hf d d' Hd. specialize (Hf d d' Hd). destruct (f d), (f d'); try done; cbn; by subst.
Qed.

(** A program over a store whose calls are confined is confined. *)
Lemma confined_prog {F A} (h : handler F string client_db) (p : prog F string A) :
  (∀ X c, confined row P (h X c)) → confined row P (interp h p).
Proof.
  intros Hh. induction p as [a|e|w|X c k IH]; intros d d' Hd; cbn; [by split_and!..|].
  destruct (Hh X c d d' Hd) as (Ha & Hd2 & Hr).
  destruct (h X c d) as [o d1], (h X c d') as [o' d1']. cbn in *. subst o'.
  destruct o as [x|e|w]; [| |done].
  - destruct (IH (inr x) d1 d1' Hd2) as (Hb & Hd3 & Hr'). split_and!; [done..|]. intros r Hnr. by rewrite Hr', Hr.
  - destruct (IH (inl e) d1 d1' Hd2) as (Hb & Hd3 & Hr'). split_and!; [done..|]. intros r Hnr. by rewrite Hr', Hr.
Qed.
End confined.

Ltac split_confined tac :=
  device_method;
  repeat first
    [ apply confined_ret | apply confined_transaction
    | apply confined_bind; [|intros ?] | apply confined_each; intros ? | apply confined_on_error
    | apply confined_query; let Hd := fresh "Hd" in intros ?? Hd; unfold texts; rewrite ?Hd by tac; reflexivity
    | apply confined_execute, changes_arg; first [apply changes_insert | apply changes_update | apply changes_delete | apply changes_upsert]
    | match goal with |- confined _ _ (match ?x with _ => _ end) => destruct x end ];
  tac.

Section planes.
Context `{Sqlite, Base64, ServiceIdText, Libsignal, HashOrder}.

Lemma confined_on_db P X (c : clientE X) :
  confined row P (device X c) → confined row P (interp device (on_db c)).
Proof.
  intros Hc d d' Hd. unfold on_db. cbn. destruct (Hc d d' Hd) as (Ha & Hd2 & Hr).
  destruct (device X c d) as [o d1], (device X c d') as [o' d1']. cbn in *. subst o'.
  by destruct o.
Qed.

Lemma store_confined p X (c : storesE X) : confined row (seen_by p) (interp device (stores p X c)).
Proof.
  destruct c as [X c|X c|X c|X c|X c], c; cbn [stores]; destruct p;
    try (apply confined_on_db; cbn [device]; split_confined ltac:(unfold seen_by; cbn; set_solver)).
  all: by intros d d' Hd.
Qed.
End planes.

(** ** Tables of texts are maps *)

Definition text_at (t : text_table) (key : string) (d : client_db) : option string :=
  (λ x, t_text x.2) <$> head (filter (λ x, t_key x.2 = key) (d (Text t))).
Definition room (r : relation) (n : Z) (d : client_db) : Prop := largest (map fst (d r)) + n ≤ max_rowid.

Lemma head_scan `{Sqlite} {A} (l : list (Z * A)) : (length l ≤ 1)%nat → rowids_scan l = l.
Proof.
  intros Hl. pose proof (rowids_scan_perm l) as Hp. pose proof (Permutation_length Hp).
  destruct l as [|x [|]]; cbn in *; [|by apply Permutation_singleton_r in Hp|lia].
  by apply Permutation_nil_r in Hp.
Qed.

(** At most one row has a key that is [UNIQUE]. *)
Lemma unique_filter {A} (f : A → A → bool) (p : Z * A → Prop) `{∀ x, Decision (p x)} (l : list (Z * A)) :
  (∀ x y, p x → p y → f x.2 y.2 = true) → clashes f (map snd l) = false → (length (filter p l) ≤ 1)%nat.
Proof.
  intros Hp. induction l as [|x l IH]; cbn [map clashes]; [intros _; rewrite filter_nil; cbn; lia|].
  intros [Hx Hl]%orb_false_iff.
  rewrite filter_cons. case_decide as Hpx; [|auto]. cbn [length].
  destruct (filter p l) as [|y l'] eqn:Hf; [cbn; lia|].
  assert (y ∈ l ∧ p y) as [Hy Hpy].
  { assert (y ∈ filter p l) as Hy by (rewrite Hf; left). apply list_elem_of_filter in Hy. tauto. }
  assert (existsb (f x.2) (map snd l) = true); [|congruence].
  apply existsb_exists. exists y.2. split; [by apply list_elem_of_In, list_elem_of_fmap_2|by apply Hp].
Qed.

Section text_tables.
Context `{Sqlite, Libsignal}.

Lemma texts_found t key d : client_ok d → texts t key d = option_list (text_at t key d).
Proof.
  intros Hd. unfold texts, text_at.
  assert (length (filter (λ x, t_key x.2 = key) (d (Text t))) ≤ 1)%nat as Hl.
  { apply (unique_filter (clash (Text t))); [|apply (Hd (Text t))].
    intros x y Hx Hy. cbn. apply bool_decide_eq_true. congruence. }
  rewrite head_scan by done. destruct (filter _ _) as [|x [|y l]]; [done|done|cbn in Hl; lia].
Qed.

Lemma select_optional_run t key d :
  client_ok d → select_optional t key d = (Ok (text_at t key d), d).
Proof. intros Hd. unfold select_optional, query. rewrite texts_found by done. by destruct (text_at t key d). Qed.

Lemma existsb_key t key (d : client_db) :
  existsb (λ y, bool_decide (t_key y.2 = key)) (d (Text t)) = bool_decide (is_Some (text_at t key d)).
Proof.
  unfold text_at. induction (d (Text t)) as [|x l IH]; [done|]. rewrite filter_cons. cbn [existsb].
  case_decide as Hx; [by rewrite bool_decide_true|]. by rewrite bool_decide_false, IH.
Qed.

Lemma option_eta {A} (o : option A) : match o with Some y => Some y | None => None end = o.
Proof. by destruct o. Qed.

Lemma head_filter_snoc {A} (p : A → Prop) `{∀ x, Decision (p x)} l x :
  head (filter p (l ++ [x])) = match head (filter p l) with Some y => Some y | None => if decide (p x) then Some x else None end.
Proof.
  rewrite filter_app, filter_cons. destruct (filter p l) as [|y l']; cbn; [|done]. by case_decide.
Qed.

Lemma clashes_map {A} (f : A → A → bool) (g : A → A) l :
  (∀ x y, f (g x) (g y) = f x y) → clashes f (map g l) = clashes f l.
Proof.
  intros Hg. assert (∀ x l, existsb (f (g x)) (map g l) = existsb (f x) l) as Hex.
  { intros x k. induction k as [|y k IH]; [done|]. cbn. by rewrite IH, Hg. }
  induction l as [|x l IH]; [done|]. cbn. by rewrite IH, Hex.
Qed.

(** Rewriting the text of the row of a key. *)
Definition with_text (key text : string) (x : text_row) : text_row :=
  if decide (t_key x = key) then {| t_key := t_key x; t_text := text |} else x.

Lemma update_text_rows key text (l : list (Z * text_row)) :
  map (λ x, if bool_decide (t_key x.2 = key) then (x.1, {| t_key := t_key x.2; t_text := text |}) else x) l =
  map (λ x, (x.1, with_text key text x.2)) l.
Proof.
  apply map_ext. intros [i x]. unfold with_text. cbn. case_decide; [by rewrite bool_decide_true|by rewrite bool_decide_false].
Qed.

Lemma with_text_key key text x : t_key (with_text key text x) = t_key x.
Proof. unfold with_text. by destruct (decide (t_key x = key)). Qed.

Lemma head_with_text key text key' (l : list (Z * text_row)) :
  (λ x, t_text x.2) <$> head (filter (λ x, t_key x.2 = key') (map (λ x, (x.1, with_text key text x.2)) l)) =
  if decide (key' = key) then (λ _, text) <$> head (filter (λ x, t_key x.2 = key') l)
  else (λ x, t_text x.2) <$> head (filter (λ x, t_key x.2 = key') l).
Proof.
  induction l as [|x l IH]; [by case_decide|]. cbn [map]. rewrite !filter_cons. cbn [snd].
  rewrite !with_text_key. destruct (decide (t_key x.2 = key')) as [Hx|]; [|done]. cbn. unfold with_text.
  destruct (decide (key' = key)) as [->|Hne]; [by rewrite decide_True|]. by rewrite decide_False by congruence.
Qed.

Lemma upsert_text_run t key text d :
  client_ok d → (text_at t key d = None → room (Text t) 1 d) → ∃ d', upsert_text t key text d = (Ok tt, d') ∧ client_ok d' ∧
    (∀ key', text_at t key' d' = if decide (key' = key) then Some text else text_at t key' d) ∧
    (∀ r, r ≠ Text t → d' r = d r) ∧ (∀ n, room (Text t) (n + 1) d → room (Text t) n d').
Proof.
  intros Hd Hroom.
  assert (∃ d', c_upsert (Text t) (λ y, bool_decide (t_key y = key)) {| t_key := key; t_text := text |}
      (λ y, {| t_key := t_key y; t_text := text |}) d = Ok d' ∧
    (∀ key', text_at t key' d' = if decide (key' = key) then Some text else text_at t key' d) ∧
    (∀ r, r ≠ Text t → d' r = d r) ∧ (∀ n, room (Text t) (n + 1) d → room (Text t) n d')) as (d' & Hrun & Hd').
  { unfold upsert_row. rewrite existsb_key. case_bool_decide as Hkey.
    - unfold update_rows. rewrite update_text_rows.
      replace (clashes _ _) with false.
      2:{ rewrite map_map. symmetry. change (λ x : Z * text_row, _) with (λ x : Z * text_row, with_text key text x.2).
          rewrite <- (map_map snd (with_text key text)), clashes_map; [apply (Hd (Text t))|].
          intros x y. cbn. by rewrite !with_text_key. }
      eexists. split; [done|]. split_and!.
      + intros key'. unfold text_at. rewrite set_rows_eq, head_with_text. case_decide as Hk; [|done].
        subst. unfold text_at in Hkey. destruct (head _); [done|by destruct Hkey].
      + intros r Hr. by rewrite set_rows_ne.
      + intros n. unfold room. rewrite set_rows_eq, map_map. change (map _ (d (Text t))) with (map fst (d (Text t))). lia.
    - unfold insert_row. cbn [clash]. rewrite existsb_key, bool_decide_false by done.
      assert (room (Text t) 1 d) as Hroom' by (apply Hroom; by destruct (text_at t key d); [destruct Hkey|]).
      unfold room in Hroom'. rewrite new_rowid_next by lia. eexists. split; [done|]. split_and!.
      + intros key'. unfold text_at. rewrite set_rows_eq, head_filter_snoc. cbn.
        unfold text_at in Hkey. case_decide as Hk.
        * subst. destruct (head _); [by destruct Hkey|]. by rewrite decide_True.
        * rewrite decide_False by done. by rewrite option_eta.
      + intros r Hr. by rewrite set_rows_ne.
      + intros n Hn. unfold room in *. rewrite set_rows_eq.
        etrans; [apply Z.add_le_mono_r, Z.eq_le_incl, largest_snoc|lia]. }
  exists d'. split; [|split; [by eapply upsert_row_ok|done]].
  unfold upsert_text. apply execute_Ok. by rewrite Hrun.
Qed.

Lemma head_without key key' (l : list (Z * text_row)) :
  (λ x, t_text x.2) <$> head (filter (λ x, t_key x.2 = key') (filter (λ x, ¬ bool_decide (t_key x.2 = key)) l)) =
  if decide (key' = key) then None else (λ x, t_text x.2) <$> head (filter (λ x, t_key x.2 = key') l).
Proof.
  rewrite list_filter_filter. induction l as [|x l IH]; [by case_decide|]. rewrite !filter_cons.
  destruct (decide (t_key x.2 = key)) as [Hk|Hk].
  - rewrite (decide_False (P := _ ∧ _)) by (rewrite bool_decide_true by done; cbn; tauto).
    rewrite IH. destruct (decide (key' = key)); [done|]. by rewrite decide_False by congruence.
  - destruct (decide (t_key x.2 = key')) as [Hx|Hx].
    + rewrite (decide_True (P := _ ∧ _)) by (rewrite bool_decide_false by done; cbn; tauto).
      by rewrite decide_False by congruence.
    + by rewrite (decide_False (P := _ ∧ _)) by tauto.
Qed.

Lemma delete_text_run t key d :
  client_ok d → ∃ d', delete_text t key d = (Ok tt, d') ∧ client_ok d' ∧
    (∀ key', text_at t key' d' = if decide (key' = key) then None else text_at t key' d) ∧
    (∀ r, r ≠ Text t → d' r = d r).
Proof.
  intros Hd. eexists. split; [by apply execute_Ok|]. split_and!.
  - by apply delete_rows_ok.
  - intros key'. unfold text_at, delete_rows. rewrite set_rows_eq.
    apply head_without.
  - intros r Hr. unfold delete_rows. by rewrite set_rows_ne.
Qed.
End text_tables.

(** *** Identities and sessions *)

Section identities.
Context `{Sqlite, Base64, Libsignal}.

Lemma decode_encode bs : decode (b64_encode bs) = Ok bs.
Proof. unfold decode. by rewrite b64_decode_encode. Qed.

Lemma identity_in_run t a d :
  client_ok d →
  identity_in t a d =
  match text_at t (address_to_string a) d with
  | Some text => (bs ← decode text; bs ← deserialize IdentityKey bs; Ok (Some bs), d)
  | None => (Ok None, d)
  end.
Proof.
  intros Hd. unfold identity_in. rewrite (stm_bind_ok _ _ _ _ _ (select_optional_run t _ d Hd)).
  by destruct (text_at _ _ _).
Qed.

(** The identity an address is known under. *)
Definition known (t : text_table) (a : ProtocolAddress) (d : client_db) : option string :=
  text_at t (address_to_string a) d.

Lemma get_known t a d bs :
  client_ok d → known t a d = Some (b64_encode bs) → record_error IdentityKey bs = None →
  identity_in t a d = (Ok (Some bs), d).
Proof.
  intros Hd Hk Hbs. rewrite identity_in_run by done. unfold known in Hk. rewrite Hk, decode_encode. cbn.
  unfold deserialize. by rewrite Hbs.
Qed.

Lemma get_unknown t a d : client_ok d → known t a d = None → identity_in t a d = (Ok None, d).
Proof. intros Hd Hk. rewrite identity_in_run by done. unfold known in Hk. by rewrite Hk. Qed.

Lemma on_error_ok {A} f (m : cstm A) d a d' : m d = (Ok a, d') → on_error f m d = (Ok a, d').
Proof. intros Hm. unfold on_error. by rewrite Hm. Qed.

Lemma b64_encode_inj bs bs' : b64_encode bs = b64_encode bs' → bs = bs'.
Proof. intros Heq. apply (f_equal b64_decode) in Heq. rewrite !b64_decode_encode in Heq. by injection Heq. Qed.
End identities.

(** ** Properties *)

(** C23: the regular and the deniable plane are separate: a program over the
    stores of one plane reads and writes the identities and sessions of that
    plane, the key pair and the pre-keys only.  On databases that differ
    elsewhere it answers alike, and what is elsewhere stays as it is. *)
Theorem planes_are_separate `{Sqlite, Base64, ServiceIdText, Libsignal, HashOrder} {A}
    (p : plane) (program : prog storesE string A) (d d' : client_db)
    (Hagree : agree row (seen_by p) d d') :
  let run := interp (through (stores p) device) program in
  (run d).1 = (run d').1 ∧ agree row (seen_by p) (run d).2 (run d').2 ∧
  ∀ r, ¬ seen_by p r → (run d).2 r = d r.
Proof. apply (confined_prog (seen_by p)); [|done]. intros X c. apply store_confined. Qed.

(** C38: identities are trusted on first use: an unknown address is trusted with
    any key; saving a key for it makes exactly this key trusted and is answered
    with [true]; saving the same key again changes nothing, and another one
    replaces it, both answered with [false]; nothing else changes. *)
Theorem identities_are_remembered `{Sqlite, Base64, ServiceIdText, Libsignal, HashOrder}
    (d : client_db) (a : ProtocolAddress) (k k' : bytes) (dir : Direction)
    (Hok : client_ok d) (Hroom : room (Text DeviceIdentityKeyStore) 1 d)
    (Hnew : known DeviceIdentityKeyStore a d = None)
    (Hk : record_error IdentityKey k = None) (Hk' : record_error IdentityKey k' = None) :
  is_trusted_identity a k dir d = (Ok true, d) ∧
  ∃ d1 d2, save_identity a k d = (Ok true, d1) ∧
    is_trusted_identity a k' dir d1 = (Ok (bool_decide (k = k')), d1) ∧
    save_identity a k' d1 = (Ok false, d2) ∧ get_identity a d2 = (Ok (Some k'), d2) ∧
    (k = k' → d2 = d1) ∧
    (∀ b, address_to_string b ≠ address_to_string a →
       known DeviceIdentityKeyStore b d2 = known DeviceIdentityKeyStore b d) ∧
    (∀ r, r ≠ Text DeviceIdentityKeyStore → d2 r = d r).
Proof.
  pose proof (get_unknown _ a d Hok Hnew) as Hget.
  split.
  { unfold is_trusted_identity, cannot_err, get_identity. by rewrite (stm_bind_ok _ _ _ _ _ (on_error_ok _ _ _ _ _ Hget)). }
  destruct (upsert_text_run DeviceIdentityKeyStore (address_to_string a) (b64_encode k) d Hok (λ _, Hroom))
    as (d1 & Hrun1 & Hok1 & Hat1 & Hr1 & _).
  assert (known DeviceIdentityKeyStore a d1 = Some (b64_encode k)) as Hknown by (unfold known; by rewrite Hat1, decide_True).
  pose proof (get_known _ a d1 k Hok1 Hknown Hk) as Hget1.
  assert (save_identity a k d = (Ok true, d1)) as Hsave1.
  { unfold save_identity, args, get_identity. rewrite (stm_bind_ok _ _ _ _ _ (on_error_ok _ _ _ _ _ Hget)).
    unfold insert_identity, insert_identity_in. by rewrite (stm_bind_ok _ _ _ _ _ Hrun1). }
  assert (is_trusted_identity a k' dir d1 = (Ok (bool_decide (k = k')), d1)) as Htrust.
  { unfold is_trusted_identity, cannot_err, get_identity. by rewrite (stm_bind_ok _ _ _ _ _ (on_error_ok _ _ _ _ _ Hget1)). }
  destruct (decide (k = k')) as [->|Hne].
  - exists d1, d1. split_and!; try done.
    + unfold save_identity, args, get_identity. rewrite (stm_bind_ok _ _ _ _ _ (on_error_ok _ _ _ _ _ Hget1)).
      by rewrite decide_True.
    + intros b Hb. unfold known. rewrite Hat1. by rewrite decide_False.
  - destruct (upsert_text_run DeviceIdentityKeyStore (address_to_string a) (b64_encode k') d1 Hok1)
      as (d2 & Hrun2 & Hok2 & Hat2 & Hr2 & _); [unfold known in Hknown; congruence|].
    exists d1, d2. split_and!; try done.
    + unfold save_identity, args, get_identity. rewrite (stm_bind_ok _ _ _ _ _ (on_error_ok _ _ _ _ _ Hget1)).
      rewrite decide_False by done. unfold insert_identity, insert_identity_in. by rewrite (stm_bind_ok _ _ _ _ _ Hrun2).
    + apply (get_known _ a d2 k'); [done| |done]. unfold known. by rewrite Hat2, decide_True.
    + intros b Hb. unfold known. rewrite Hat2, decide_False by done. by rewrite Hat1, decide_False by done.
    + intros r Hr. by rewrite Hr2, Hr1.
Qed.

(** *** A client to compute with *)

Definition demo_libsignal : Libsignal :=
  {| invalid_argument e := "invalid argument: " +:+ e; record_error _ _ := None |}.
Definition demo_hash_order : HashOrder := {|
  hash_iter := elements; hash_map_iter A := map_to_list;
  hash_iter_perm s := reflexivity _; hash_map_iter_perm A m := reflexivity _ |}.

Definition demo_device : handler clientE string client_db :=
  device (H := plain_sqlite) (H1 := demo_service_ids) (H2 := demo_libsignal) (H3 := demo_hash_order).
Definition alice : ProtocolAddress := {| name := "alice"; device_id := 1 |}.

(** A client with a deniable identity, session and payload. *)
Definition deniable_db : client_db :=
  set_rows row (Text DeniableDeviceIdentityKeyStore) [(1, {| t_key := "alice.1"; t_text := "05" |})]
    (set_rows row (Text DeniableDeviceSessionStore) [(1, {| t_key := "alice.1"; t_text := "aa" |})]
      (set_rows row DeniablePayload [(1, {| p_content := [x01]; p_chunk_count := 0 |})] empty_client_db)).

Lemma planes_are_separate_witness :
  let program := (_ ← op (On_identity (IK_save_identity alice [x05]));
                  _ ← op (On_session (S_store_session alice [xbb]));
                  op (On_session (S_load_session alice))) in
  let run := interp (through (stores (H := demo_libsignal) Regular) demo_device) program in
  (run deniable_db).1 = Ok (Some [xbb]) ∧ (run empty_client_db).1 = Ok (Some [xbb]) ∧
  (run deniable_db).2 DeniablePayload = deniable_db DeniablePayload.
Proof.
  intros program run.
  destruct (planes_are_separate (H := plain_sqlite) (H1 := demo_service_ids) (H2 := demo_libsignal)
    (H3 := demo_hash_order) Regular program deniable_db empty_client_db) as (Heq & _ & Hrest).
  - intros r Hr. unfold seen_by in Hr. cbn in Hr. repeat (apply elem_of_cons in Hr as [->|Hr]; [done|]). by apply elem_of_nil in Hr.
  - split_and!; [|by vm_compute|].
    + etransitivity; [exact Heq|]. by vm_compute.
    + apply Hrest. unfold seen_by. apply (bool_decide_unpack _). by vm_compute.
Defined.

Lemma identities_are_remembered_witness :
  ∃ d1 d2, save_identity (H := plain_sqlite) (H2 := demo_libsignal) alice [x05] empty_client_db = (Ok true, d1) ∧
    is_trusted_identity (H := plain_sqlite) (H2 := demo_libsignal) alice [x06] Sending d1 = (Ok false, d1) ∧
    save_identity (H := plain_sqlite) (H2 := demo_libsignal) alice [x06] d1 = (Ok false, d2).
Proof.
  destruct (identities_are_remembered (H := plain_sqlite) (H1 := demo_service_ids) (H2 := demo_libsignal)
    (H3 := demo_hash_order) empty_client_db alice [x05] [x06] Sending) as (_ & d1 & d2 & Hs & Ht & Hs2 & _).
  - apply empty_client_ok.
  - vm_compute. discriminate.
  - done.
  - done.
  - done.
  - exists d1, d2. split_and!; [exact Hs|exact Ht|exact Hs2].
Defined.
