(* ===== verification/InMemory.v ===== *)
(** The database in memory ([client/src/storage/in_memory.rs]): a second
    implementation of the client's database interface, over libsignal's stores
    in memory.

    These stores are libsignal's; here they are any states with handlers of the
    interfaces that ClientStore.v gives to libsignal's traits. *)
From S2P Require Export ClientSpec.

(** [InMemIdentityKeyStore], [InMemPreKeyStore], [InMemSignedPreKeyStore],
    [InMemKyberPreKeyStore], [InMemSessionStore], [InMemSenderKeyStore] *)
Class InMemStores := {
  InMemIdentityKeyStore : Type;
  InMemPreKeyStore : Type;
  InMemSignedPreKeyStore : Type;
  InMemKyberPreKeyStore : Type;
  InMemSessionStore : Type;
  InMemSenderKeyStore : Type;
  new_identity_key_store (key_pair : bytes * bytes) (registration_id : Z) : InMemIdentityKeyStore;
  new_pre_key_store : InMemPreKeyStore;
  new_signed_pre_key_store : InMemSignedPreKeyStore;
  new_kyber_pre_key_store : InMemKyberPreKeyStore;
  new_session_store : InMemSessionStore;
  new_sender_key_store : InMemSenderKeyStore;
  identity_key_step : handler IdentityKeyStoreE string InMemIdentityKeyStore;
  pre_key_step : handler PreKeyStoreE string InMemPreKeyStore;
  signed_pre_key_step : handler SignedPreKeyStoreE string InMemSignedPreKeyStore;
  kyber_pre_key_step : handler KyberPreKeyStoreE string InMemKyberPreKeyStore;
  session_step : handler SessionStoreE string InMemSessionStore;
  sender_key_step : handler SenderKeyStoreE string InMemSenderKeyStore;
}.

Record InMemory `{InMemStores} := {
  im_password : string;
  im_aci : string;
  im_pni : string;
  identity_key_store : InMemIdentityKeyStore;
  pre_key_store : InMemPreKeyStore;
  signed_pre_key_store : InMemSignedPreKeyStore;
  kyber_pre_key_store : InMemKyberPreKeyStore;
  session_store : InMemSessionStore;
  sender_key_store : InMemSenderKeyStore;
}.

Section in_memory.
Context `{InMemStores}.

(** [InMemory::new] *)
Definition InMemory_new (password aci pni : string) (key_pair : bytes * bytes) (registration_id : Z) : InMemory :=
  {| im_password := password; im_aci := aci; im_pni := pni;
     identity_key_store := new_identity_key_store key_pair registration_id;
     pre_key_store := new_pre_key_store; signed_pre_key_store := new_signed_pre_key_store;
     kyber_pre_key_store := new_kyber_pre_key_store; session_store := new_session_store;
     sender_key_store := new_sender_key_store |}.

(** Its fields, one by one. *)
Definition with_im_account (password aci pni : string) (m : InMemory) : InMemory :=
  {| im_password := password; im_aci := aci; im_pni := pni; identity_key_store := identity_key_store m;
     pre_key_store := pre_key_store m; signed_pre_key_store := signed_pre_key_store m;
     kyber_pre_key_store := kyber_pre_key_store m; session_store := session_store m;
     sender_key_store := sender_key_store m |}.
Definition with_identities (s : InMemIdentityKeyStore) (m : InMemory) : InMemory :=
  {| im_password := im_password m; im_aci := im_aci m; im_pni := im_pni m; identity_key_store := s;
     pre_key_store := pre_key_store m; signed_pre_key_store := signed_pre_key_store m;
     kyber_pre_key_store := kyber_pre_key_store m; session_store := session_store m;
     sender_key_store := sender_key_store m |}.
Definition with_pre_keys (s : InMemPreKeyStore) (m : InMemory) : InMemory :=
  {| im_password := im_password m; im_aci := im_aci m; im_pni := im_pni m; identity_key_store := identity_key_store m;
     pre_key_store := s; signed_pre_key_store := signed_pre_key_store m;
     kyber_pre_key_store := kyber_pre_key_store m; session_store := session_store m;
     sender_key_store := sender_key_store m |}.
Definition with_signed_pre_keys (s : InMemSignedPreKeyStore) (m : InMemory) : InMemory :=
  {| im_password := im_password m; im_aci := im_aci m; im_pni := im_pni m; identity_key_store := identity_key_store m;
     pre_key_store := pre_key_store m; signed_pre_key_store := s;
     kyber_pre_key_store := kyber_pre_key_store m; session_store := session_store m;
     sender_key_store := sender_key_store m |}.
Definition with_kyber_pre_keys (s : InMemKyberPreKeyStore) (m : InMemory) : InMemory :=
  {| im_password := im_password m; im_aci := im_aci m; im_pni := im_pni m; identity_key_store := identity_key_store m;
     pre_key_store := pre_key_store m; signed_pre_key_store := signed_pre_key_store m;
     kyber_pre_key_store := s; session_store := session_store m;
     sender_key_store := sender_key_store m |}.
Definition with_sessions (s : InMemSessionStore) (m : InMemory) : InMemory :=
  {| im_password := im_password m; im_aci := im_aci m; im_pni := im_pni m; identity_key_store := identity_key_store m;
     pre_key_store := pre_key_store m; signed_pre_key_store := signed_pre_key_store m;
     kyber_pre_key_store := kyber_pre_key_store m; session_store := s;
     sender_key_store := sender_key_store m |}.
Definition with_sender_keys (s : InMemSenderKeyStore) (m : InMemory) : InMemory :=
  {| im_password := im_password m; im_aci := im_aci m; im_pni := im_pni m; identity_key_store := identity_key_store m;
     pre_key_store := pre_key_store m; signed_pre_key_store := signed_pre_key_store m;
     kyber_pre_key_store := kyber_pre_key_store m; session_store := session_store m;
     sender_key_store := s |}.

(** A method that calls one of the stores. *)
Definition on_identities {X} (c : IdentityKeyStoreE X) (m : InMemory) : outcome string X * InMemory :=
  let '(o, s) := identity_key_step _ c (identity_key_store m) in (o, with_identities s m).
Definition on_pre_keys {X} (c : PreKeyStoreE X) (m : InMemory) : outcome string X * InMemory :=
  let '(o, s) := pre_key_step _ c (pre_key_store m) in (o, with_pre_keys s m).
Definition on_signed_pre_keys {X} (c : SignedPreKeyStoreE X) (m : InMemory) : outcome string X * InMemory :=
  let '(o, s) := signed_pre_key_step _ c (signed_pre_key_store m) in (o, with_signed_pre_keys s m).
Definition on_kyber_pre_keys {X} (c : KyberPreKeyStoreE X) (m : InMemory) : outcome string X * InMemory :=
  let '(o, s) := kyber_pre_key_step _ c (kyber_pre_key_store m) in (o, with_kyber_pre_keys s m).
Definition on_sessions {X} (c : SessionStoreE X) (m : InMemory) : outcome string X * InMemory :=
  let '(o, s) := session_step _ c (session_store m) in (o, with_sessions s m).
Definition on_sender_keys {X} (c : SenderKeyStoreE X) (m : InMemory) : outcome string X * InMemory :=
  let '(o, s) := sender_key_step _ c (sender_key_store m) in (o, with_sender_keys s m).

(** [todo!()] *)
Definition todo {X} (m : InMemory) : outcome string X * InMemory := (Panic "not yet implemented", m).

(** [impl ClientDB for InMemory]: the deniable identities and sessions are
    those of the regular stores; contacts, payloads, chunks and the messages
    that wait for a session are not implemented. *)
Definition in_memory : handler clientE string InMemory := λ X c m,
  match c in clientE X return outcome string X * InMemory with
  | Insert_account_information _ _ _ => todo m
  | Insert_account_key_information _ _ => todo m
  | Get_key_ids => todo m
  | Store_contact _ => todo m
  | Load_contacts => todo m
  | Remove_contact _ => todo m
  | Get_all_nicknames => todo m
  | Insert_service_id_for_nickname _ _ => todo m
  | Get_service_id_by_nickname _ => todo m
  | Get_identity_key_pair => on_identities IK_get_identity_key_pair m
  | Get_local_registration_id => on_identities IK_get_local_registration_id m
  | Save_identity a i => on_identities (IK_save_identity a i) m
  | Save_deniable_identity a i => on_identities (IK_save_identity a i) m
  | Is_trusted_identity a i d => on_identities (IK_is_trusted_identity a i d) m
  | Is_trusted_deniable_identity a i d => on_identities (IK_is_trusted_identity a i d) m
  | Get_identity a => on_identities (IK_get_identity a) m
  | Get_deniable_identity a => on_identities (IK_get_identity a) m
  | Get_pre_key i => on_pre_keys (PK_get_pre_key i) m
  | Save_pre_key i r => on_pre_keys (PK_save_pre_key i r) m
  | Remove_pre_key i => on_pre_keys (PK_remove_pre_key i) m
  | Get_signed_pre_key i => on_signed_pre_keys (SPK_get_signed_pre_key i) m
  | Save_signed_pre_key i r => on_signed_pre_keys (SPK_save_signed_pre_key i r) m
  | Get_kyber_pre_key i => on_kyber_pre_keys (KPK_get_kyber_pre_key i) m
  | Save_kyber_pre_key i r => on_kyber_pre_keys (KPK_save_kyber_pre_key i r) m
  | Load_session a => on_sessions (S_load_session a) m
  | Load_deniable_session a => on_sessions (S_load_session a) m
  | Store_session a r => on_sessions (S_store_session a r) m
  | Store_deniable_session a r => on_sessions (S_store_session a r) m
  | Store_sender_key s i r => on_sender_keys (SK_store_sender_key s i r) m
  | Load_sender_key s i => on_sender_keys (SK_load_sender_key s i) m
  | Set_password p => (Ok tt, with_im_account p (im_aci m) (im_pni m) m)
  | Get_password => (Ok (im_password m), m)
  | Set_aci a => (Ok tt, with_im_account (im_password m) a (im_pni m) m)
  | Get_aci => (Ok (im_aci m), m)
  | Set_pni p => (Ok tt, with_im_account (im_password m) (im_aci m) p m)
  | Get_pni => (Ok (im_pni m), m)
  | Get_deniable_payload => todo m
  | Get_deniable_payload_by_id _ => todo m
  | Store_deniable_payload _ _ _ => todo m
  | Remove_deniable_payload _ => todo m
  | Try_get_key_request_sent _ => todo m
  | Store_key_request_sent _ _ => todo m
  | Remove_key_request_sent _ => todo m
  | Get_messages_awaiting_encryption _ => todo m
  | Store_message_awaiting_encryption _ _ => todo m
  | Remove_message_awaiting_encryption _ => todo m
  | Get_and_remove_incoming_deniable_chunks => todo m
  | Store_incoming_deniable_chunks _ => todo m
  end.
End in_memory.

(** ** One plane *)

(** The stores of libsignal on their own, without a database around them. *)
Record signal_stores `{InMemStores} := {
  ss_identity : InMemIdentityKeyStore;
  ss_pre_key : InMemPreKeyStore;
  ss_signed_pre_key : InMemSignedPreKeyStore;
  ss_kyber_pre_key : InMemKyberPreKeyStore;
  ss_session : InMemSessionStore;
}.

Section planes.
Context `{Libsignal, InMemStores}.

(** An error as the stores of the client pass it on. *)
Definition passed_on {X} (o : outcome string X) : outcome string X :=
  match o with Err e => Err (invalid_argument e) | o => o end.

(** libsignal's stores, called directly; using up a Kyber pre-key does nothing. *)
Definition libsignal_stores : handler storesE string signal_stores := λ X c s,
  let '{| ss_identity := i; ss_pre_key := p; ss_signed_pre_key := sp; ss_kyber_pre_key := k; ss_session := se |} := s in
  match c in storesE X return outcome string X * signal_stores with
  | On_identity c => let '(o, i) := identity_key_step _ c i in (passed_on o, Build_signal_stores _ i p sp k se)
  | On_session c => let '(o, se) := session_step _ c se in (passed_on o, Build_signal_stores _ i p sp k se)
  | On_pre_key c => let '(o, p) := pre_key_step _ c p in (passed_on o, Build_signal_stores _ i p sp k se)
  | On_signed_pre_key c => let '(o, sp) := signed_pre_key_step _ c sp in (passed_on o, Build_signal_stores _ i p sp k se)
  | On_kyber_pre_key c =>
      match c in KyberPreKeyStoreE X return outcome string X * signal_stores with
      | KPK_mark_kyber_pre_key_used _ => (Ok tt, s)
      | c => let '(o, k) := kyber_pre_key_step _ c k in (passed_on o, Build_signal_stores _ i p sp k se)
      end
  end.

Definition stores_of (m : InMemory) : signal_stores :=
  {| ss_identity := identity_key_store m; ss_pre_key := pre_key_store m; ss_signed_pre_key := signed_pre_key_store m;
     ss_kyber_pre_key := kyber_pre_key_store m; ss_session := session_store m |}.
(** What no store of either plane has. *)
Definition account_of (m : InMemory) : string * string * string * InMemSenderKeyStore :=
  (im_password m, im_aci m, im_pni m, sender_key_store m).

(** A run over the database in memory against one over the stores. *)
Definition same_run {A} (r : outcome string A * InMemory) (q : outcome string A * signal_stores) (m : InMemory) : Prop :=
  (r.1, stores_of r.2) = q ∧ account_of r.2 = account_of m.

Lemma on_db_run {X} (c : clientE X) m :
  interp in_memory (on_db c) m = (passed_on (in_memory X c m).1, (in_memory X c m).2).
Proof. cbn. by destruct (in_memory X c m) as [[x|e|w] m']. Qed.

(** Every method of the database in memory that has a store is one call of it. *)
Lemma stores_in_memory p X (c : storesE X) m :
  same_run (through (stores p) in_memory X c m) (libsignal_stores X c (stores_of m)) m.
Proof.
  unfold through. destruct c as [X c|X c|X c|X c|X c], p; destruct c; cbn [stores libsignal_stores stores_of device_identity_key_store
    deniable_identity_key_store device_session_store deniable_session_store device_pre_key_store device_signed_pre_key_store
    device_kyber_pre_key_store]; rewrite ?on_db_run; cbn [in_memory]; try by split;
    unfold on_identities, on_pre_keys, on_signed_pre_keys, on_kyber_pre_keys, on_sessions;
    (repeat match goal with |- context [let '(_, _) := ?x in _] => destruct x end); by split.
Qed.
End planes.

(** ** Properties *)

(** C24: over the database in memory the planes are not separate: a program
    over the stores of either plane does to the database exactly what it does
    to libsignal's own stores, which know of no plane, and nothing to the
    account or the sender keys; so a deniable session or identity is a regular
    one. *)
Theorem in_memory_planes_are_one `{Libsignal, InMemStores} {A} (p : plane) (program : prog storesE string A) (m : InMemory) :
  same_run (interp (through (stores p) in_memory) program m) (interp libsignal_stores program (stores_of m)) m.
Proof.
  revert m. induction program as [a|e|w|X c k IH]; intros m; [by split..|]. cbn [interp].
  destruct (stores_in_memory p X c m) as [<- Haccount].
  destruct (through (stores p) in_memory X c m) as [[x|e|w] m']; cbn [fst snd] in *; [..|by split];
    match goal with |- context [k ?x] => destruct (IH x m') as [Hrun Hsame] end; (split; [done|congruence]).
Qed.
