(* ===== verification/Outbox.v ===== *)
(** The table of outgoing deniable payloads as the chunker's sending buffer:
    [DeniableStore] refines a first-in first-out queue. *)
From S2P Require Export ClientSpec.

Local Open Scope Z_scope.

(** ** What a sender calls

    The chunker reads, replaces and removes messages; it never adds one. *)
Definition sends X (c : bufferE X) : Prop := match c with set_outgoing_message None _ _ => False | _ => True end.

Lemma next_chunk_sends `{Bincode} free : calls sends (next_chunk (E:=string) free).
Proof.
  unfold next_chunk, get_outgoing_or_default.
  apply calls_bind; [apply calls_lift|intros size].
  apply calls_bind; [apply calls_bind; [by apply calls_try, calls_op|done]|intros [[id msg] cnt]].
  case_match; [case_match|done].
  - apply calls_bind; [by apply calls_op|done].
  - apply calls_bind; [apply calls_lift|intros cnt']. apply calls_bind; [by apply calls_op|done].
Qed.

Lemma create_chunks_sends `{Bincode} self size : calls sends (create_chunks (E:=string) self size).
Proof.
  unfold create_chunks. apply calls_bind; [apply calls_lift|intros free].
  generalize (chunks_fuel (total_free_space self size)) as fuel, (@nil DenimChunk) as out. intros fuel.
  revert free. induction fuel as [|fuel IH]; intros free out; cbn [create_chunks_loop]; [done|].
  case_match; [|done]. apply calls_bind; [apply next_chunk_sends|intros c].
  apply calls_bind; [apply calls_lift|intros]. apply IH.
Qed.

Lemma send_all_sends `{Bincode} self sizes out : calls sends (send_all self sizes out).
Proof.
  revert out. induction sizes as [|size sizes IH]; intros out; cbn [send_all]; [done|].
  apply calls_bind; [apply create_chunks_sends|intros [cs fr]]. apply IH.
Qed.

(** ** The table as a queue *)

Definition queue_of (l : list (Z * payload_row)) : sending_queue :=
  map (λ x, (x.1, p_content x.2, p_chunk_count x.2)) l.

Lemma queue_of_remove id l :
  queue_of (filter (λ x, ¬ x.1 =? id) l) = filter (λ x, x.1.1 ≠ id) (queue_of l).
Proof.
  unfold queue_of. induction l as [|x l IH]; [done|]. cbn [map]. rewrite !filter_cons. cbn [fst].
  destruct (x.1 =? id) eqn:Hx; zbool.
  - rewrite decide_False by (cbn; tauto). by rewrite (decide_False (P := x.1 ≠ id)) by tauto.
  - rewrite decide_True by (cbn; tauto). rewrite (decide_True (P := x.1 ≠ id)) by done. cbn [map]. by f_equal.
Qed.

(** The database holds the queue; the other tables are those of [d0]. *)
Record outbox (d0 : client_db) (d : client_db) (q : sending_queue) : Prop := {
  ob_sorted : by_rowid (d DeniablePayload);
  ob_ids : Forall (λ i, in_u32 i = true) (map fst (d DeniablePayload));
  ob_rows : q = queue_of (d DeniablePayload);
  ob_others r : r ≠ DeniablePayload → d r = d0 r;
}.

Section outbox.
Context `{Sqlite, Base64, ServiceIdText, Libsignal, HashOrder} (Hscan : scans_by_rowid).

(** What an empty outbox answers. *)
Definition no_payload : string := invalid_argument (invalid_argument "Query returned no rows").

Lemma outbox_set d0 d q l :
  outbox d0 d q → by_rowid l → Forall (λ i, in_u32 i = true) (map fst l) →
  outbox d0 (set_rows row DeniablePayload l d) (queue_of l).
Proof.
  intros Hd Hl Hi. split; [by rewrite set_rows_eq..|by rewrite set_rows_eq|].
  intros r Hr. rewrite set_rows_ne by done. by apply (ob_others d0 d q).
Qed.

Lemma sending_buffer_refines X (c : bufferE X) d0 d q :
  sends X c → outbox d0 d q →
  ∃ d', through deniable_sending_buffer device X c d = ((fifo_buffer no_payload X c q).1, d') ∧
        outbox d0 d' (fifo_buffer no_payload X c q).2.
Proof.
  intros Hc Hd. pose proof Hd as [Hs Hi -> Ho]. unfold through.
  destruct c as [|[id|] cnt msg|id]; [|..|done|]; cbn [deniable_sending_buffer on_db interp device fifo_buffer].
  - exists d. split; [|done]. unfold get_deniable_payload, query. rewrite Hscan by done.
    destruct (d DeniablePayload) as [|x l]; [done|]. cbn. inversion_clear Hi as [|?? Hx _].
    unfold get_u32. by rewrite Hx.
  - eexists. split.
    + unfold store_deniable_payload. rewrite (execute_Ok _ d (set_rows row DeniablePayload
        (map (λ x, if x.1 =? id then (x.1, {| p_content := msg; p_chunk_count := cnt |}) else x) (d DeniablePayload)) d)); [done|].
      unfold update_rows. by rewrite clashes_never.
    + cbn [snd]. replace (map _ (queue_of _)) with (queue_of (map (λ x, if x.1 =? id
        then (x.1, {| p_content := msg; p_chunk_count := cnt |}) else x) (d DeniablePayload))).
      * apply (outbox_set _ _ (queue_of (d DeniablePayload))); unfold by_rowid;
          rewrite ?(map_ids (λ x, x.1 =? id) (λ _, {| p_content := msg; p_chunk_count := cnt |})); done.
      * unfold queue_of. rewrite !map_map. apply map_ext. intros x. cbn.
        destruct (x.1 =? id) eqn:Hx; [|done]. zbool. by subst.
  - eexists. split.
    + unfold remove_deniable_payload. by rewrite (execute_Ok _ d (c_delete DeniablePayload (λ x, x.1 =? id) d)).
    + cbn [snd]. replace (filter _ (queue_of _)) with (queue_of (filter (λ x, ¬ x.1 =? id) (d DeniablePayload))).
      * apply (outbox_set _ _ (queue_of (d DeniablePayload))); [done|by apply by_rowid_filter|].
        rewrite Forall_forall in Hi |- *. intros i (x & -> & Hx)%list_elem_of_fmap. apply list_elem_of_filter in Hx as [_ Hx].
        apply Hi. by apply list_elem_of_fmap_2.
      * apply queue_of_remove.
Qed.

(** A sender gets the same answers from the database as from the queue. *)
Lemma sender_run {A} (p : prog bufferE string A) d0 d q :
  calls sends p → outbox d0 d q →
  ∃ d', interp (through deniable_sending_buffer device) p d = ((interp (fifo_buffer no_payload) p q).1, d') ∧
        outbox d0 d' (interp (fifo_buffer no_payload) p q).2.
Proof.
  intros Hp Hd. eapply (interp_refines_on sends (outbox d0)); [|done..].
  intros X c d1 q1. apply sending_buffer_refines.
Qed.

(** ** Queueing *)

(** The queue after payloads were stored, from the id [i]. *)
Fixpoint numbered (i : Z) (msgs : list bytes) : sending_queue :=
  match msgs with [] => [] | m :: msgs => (i, m, 0) :: numbered (i + 1) msgs end.

Lemma store_payload_run d0 d q cnt msg :
  outbox d0 d q → largest (map fst (d DeniablePayload)) + 1 ≤ 2 ^ 32 - 1 →
  ∃ d', store_deniable_payload None cnt msg d = (Ok tt, d') ∧
        outbox d0 d' (q ++ [(1 + largest (map fst (d DeniablePayload)), msg, 0)]) ∧
        largest (map fst (d' DeniablePayload)) = 1 + largest (map fst (d DeniablePayload)).
Proof.
  intros Hd Hroom. pose proof Hd as [Hs Hi -> Ho]. set (i := 1 + largest (map fst (d DeniablePayload))).
  set (l := d DeniablePayload ++ [(i, {| p_content := msg; p_chunk_count := 0 |})]).
  assert (1 ≤ i ≤ 2 ^ 32 - 1) as Hi'.
  { unfold i. pose proof (largest_nonneg (map fst (d DeniablePayload))). lia. }
  exists (set_rows row DeniablePayload l d). split_and!.
  - apply execute_Ok. unfold insert_row. rewrite new_rowid_next by (unfold max_rowid; lia).
    by rewrite existsb_never.
  - replace (queue_of (d DeniablePayload) ++ _) with (queue_of l) by (unfold queue_of, l; by rewrite map_app).
    apply (outbox_set _ _ (queue_of (d DeniablePayload))); [done| |].
    + apply by_rowid_snoc; [done|]. unfold i. lia.
    + unfold l. rewrite map_app. apply Forall_app. split; [done|]. repeat constructor. unfold in_u32. cbn [fst].
      apply andb_true_iff. split; apply Z.leb_le; lia.
  - rewrite set_rows_eq. apply largest_snoc.
Qed.

Fixpoint store_all (msgs : list bytes) : prog clientE string unit :=
  match msgs with [] => Ret tt | m :: msgs => _ ← op (Store_deniable_payload None 0 m); store_all msgs end.

Lemma store_all_run msgs : ∀ d0 d q,
  outbox d0 d q → largest (map fst (d DeniablePayload)) + len msgs ≤ 2 ^ 32 - 1 →
  ∃ d', interp device (store_all msgs) d = (Ok tt, d') ∧
        outbox d0 d' (q ++ numbered (1 + largest (map fst (d DeniablePayload))) msgs).
Proof.
  induction msgs as [|m msgs IH]; intros d0 d q Hd Hroom.
  { exists d. cbn [numbered]. by rewrite app_nil_r. }
  rewrite len_cons in Hroom. pose proof (len_nonneg msgs). cbn [store_all numbered].
  destruct (store_payload_run d0 d q 0 m Hd ltac:(lia)) as (d1 & Hrun & Hd1 & Hl).
  rewrite interp_op_bind. cbn [device]. rewrite Hrun.
  destruct (IH d0 d1 _ Hd1 ltac:(lia)) as (d2 & Hrun2 & Hd2). exists d2. split; [done|].
  rewrite Hl in Hd2. rewrite <- app_assoc in Hd2. cbn [app] in Hd2.
  by replace (1 + (1 + largest (map fst (d DeniablePayload)))) with (1 + largest (map fst (d DeniablePayload)) + 1) in Hd2 by lia.
Qed.
End outbox.

Lemma numbered_msgs i msgs : map q_msg (numbered i msgs) = msgs.
Proof. revert i. induction msgs as [|m msgs IH]; intros i; [done|]. cbn. by rewrite IH. Qed.

Lemma numbered_ids i msgs j : j ∈ map q_id (numbered i msgs) → i ≤ j.
Proof.
  revert i. induction msgs as [|m msgs IH]; intros i; cbn; rewrite ?elem_of_nil, ?elem_of_cons; [done|].
  intros [->|Hj%IH]; cbn; lia.
Qed.

Lemma numbered_bytes i msgs : queue_bytes (numbered i msgs) = sumZ (map len msgs).
Proof. revert i. induction msgs as [|m msgs IH]; intros i; [done|]. cbn [numbered]. rewrite queue_bytes_cons, IH. done. Qed.

Lemma numbered_counts i msgs x : x ∈ numbered i msgs → x.2 = 0.
Proof.
  revert i. induction msgs as [|m msgs IH]; intros i; cbn; rewrite ?elem_of_nil, ?elem_of_cons; [done|].
  intros [->|Hx]; [done|by eapply IH].
Qed.

Lemma numbered_sendable i msgs :
  Forall (λ m, m ≠ [] ∧ len m < 2 ^ 31) msgs → sendable (numbered i msgs).
Proof.
  intros Hm. split.
  - clear Hm. revert i. induction msgs as [|m msgs IH]; intros i; cbn; constructor; [|apply IH].
    intros Hi%numbered_ids. cbn in Hi. lia.
  - revert i. induction Hm as [|m msgs [Hne Hl] _ IH]; intros i; cbn; constructor; [|apply IH].
    split; [done|]. unfold i32_min. lia.
Qed.

(** What is stored in an empty table is sent, well flagged. *)
Lemma stored_payloads_run `{Sqlite, Base64, ServiceIdText, Libsignal, HashOrder, Bincode}
    (self : Chunker) (sizes : list f32) (msgs : list bytes) (d : client_db) :
  scans_by_rowid → d DeniablePayload = [] → Forall (λ m, m ≠ [] ∧ len m < 2 ^ 31) msgs → len msgs ≤ 2 ^ 32 - 1 →
  Forall (λ size, 20 < total_free_space self size) sizes → sumZ (map len msgs) ≤ len sizes →
  ∃ css d1 d2, interp device (store_all msgs) d = (Ok tt, d1) ∧
    interp (through deniable_sending_buffer device) (send_all self sizes []) d1 = (Ok css, d2) ∧
    absorb [] (concat css) = (msgs, []) ∧ well_flagged 0 (concat css) ∧
    d2 DeniablePayload = [] ∧ ∀ r, r ≠ DeniablePayload → d2 r = d r.
Proof.
  intros Hscan Hempty Hmsgs Hcount Hsizes Henough.
  assert (outbox d d []) as Hd by (split; rewrite ?Hempty; [constructor|constructor|done|done]).
  destruct (store_all_run msgs d d [] Hd) as (d1 & Hrun1 & Hd1); [rewrite Hempty; cbn; lia|].
  rewrite Hempty in Hd1. cbn [map largest foldr app] in Hd1.
  destruct (sender_run Hscan _ d d1 _ (send_all_sends self sizes []) Hd1) as (d2 & Hrun2 & Hd2).
  destruct (send_all_fifo no_payload self sizes (numbered (1 + 0) msgs) []) as (css & q' & Hrun & Hs & Hf & Hq' & Hprog);
    [by apply numbered_sendable|by intros x ->%numbered_counts|done|].
  rewrite numbered_bytes in Hprog.
  assert (q' = []) as -> by (destruct Hprog; [done|apply sendable_bytes; [done|lia]]).
  rewrite Hrun in Hrun2, Hd2. exists css, d1, d2. destruct Hd2 as [_ _ Hrows Hothers]. split_and!; [done|done| | | |done].
  - specialize (Hs []). by rewrite app_nil_r, numbered_msgs, absorb_whole in Hs.
  - rewrite <- (app_nil_r (concat css)). apply (Hf []); [by intros b _ _| |lia]. by destruct msgs.
  - cbn in Hrows. by destruct (d2 DeniablePayload).
Qed.

(** ** Properties *)

(** C7: what a client stores for deniable sending is sent: from an empty table,
    after storing some payloads and sending as many regular messages as the
    payloads have bytes, the chunks taken out of the database are, to an
    in-order receiver, exactly the payloads, in the order they were stored;
    the table is empty again and no other table has changed.  The database is
    taken to return the rows of this table in the order of their ids, which the
    statement does not ask for. *)
Theorem stored_payloads_are_sent `{Sqlite, Base64, ServiceIdText, Libsignal, HashOrder, Bincode}
    (self : Chunker) (sizes : list f32) (msgs : list bytes) (d : client_db)
    (Hscan : scans_by_rowid) (Hempty : d DeniablePayload = [])
    (Hmsgs : Forall (λ m, m ≠ [] ∧ len m < 2 ^ 31) msgs) (Hcount : len msgs ≤ 2 ^ 32 - 1)
    (Hsizes : Forall (λ size, 20 < total_free_space self size) sizes)
    (Henough : sumZ (map len msgs) ≤ len sizes) :
  ∃ css d1 d2, interp device (store_all msgs) d = (Ok tt, d1) ∧
    interp (through deniable_sending_buffer device) (send_all self sizes []) d1 = (Ok css, d2) ∧
    absorb [] (concat css) = (msgs, []) ∧
    d2 DeniablePayload = [] ∧ ∀ r, r ≠ DeniablePayload → d2 r = d r.
Proof.
  destruct (stored_payloads_run self sizes msgs d Hscan Hempty Hmsgs Hcount Hsizes Henough)
    as (css & d1 & d2 & Hstore & Hsend & Ha & _ & Hd). by exists css, d1, d2.
Qed.

Lemma stored_payloads_are_sent_witness :
  ∃ css d1 d2,
    interp demo_device
      (store_all [[x01; x02; x80]; [x04; x05]]) empty_client_db = (Ok tt, d1) ∧
    interp (through (deniable_sending_buffer (H := demo_libsignal))
              demo_device)
      (send_all Chunker_default (replicate 5 (f32_of_usize 40)) []) d1 = (Ok css, d2) ∧
    absorb [] (concat css) = ([[x01; x02; x80]; [x04; x05]], []) ∧ d2 DeniablePayload = [].
Proof.
  destruct (stored_payloads_are_sent (H := plain_sqlite) (H1 := demo_service_ids) (H2 := demo_libsignal) (H3 := demo_hash_order)
    Chunker_default (replicate 5 (f32_of_usize 40)) [[x01; x02; x80]; [x04; x05]] empty_client_db)
    as (css & d1 & d2 & Hrun1 & Hrun2 & Ha & He & _).
  - by intros A l _.
  - done.
  - repeat constructor; discriminate.
  - vm_compute. discriminate.
  - apply Forall_replicate. vm_compute. done.
  - vm_compute. discriminate.
  - by exists css, d1, d2.
Defined.
