(* ===== verification/Client.v ===== *)
(** The client ([client/src/client.rs], [client/src/contact_manager.rs],
    [client/src/encryption.rs]): contacts, sending and receiving, over its
    storage, the server's API and libsignal. *)
From S2P Require Export ClientStore.

Local Open Scope Z_scope.

(** ** Definitions *)

(** *** Contacts *)

Inductive ContactManagerError :=
| DeviceNotFound (device_id : Z)
| ServiceIDNotFound (service_id : ServiceId)
| ServiceIDAlreadyExists (service_id : ServiceId).

Module ContactManager.
Abbreviation t := (gmap ServiceId Contact).

Definition new_contact (service_id : ServiceId) : Contact :=
  {| contact_service_id := service_id; device_ids := ∅ |}.

Definition get_address (self : Contact) (device_id : Z) : outcome ContactManagerError ProtocolAddress :=
  if decide (device_id ∈ device_ids self)
  then Ok {| name := service_id_string (contact_service_id self); device_id := device_id |}
  else Err (DeviceNotFound device_id).

Definition add_contact (service_id : ServiceId) (self : t) : outcome ContactManagerError t :=
  match self !! service_id with
  | Some _ => Err (ServiceIDAlreadyExists service_id)
  | None => Ok (<[service_id := new_contact service_id]> self)
  end.

Definition get_contact (service_id : ServiceId) (self : t) : outcome ContactManagerError Contact :=
  ok_or (ServiceIDNotFound service_id) (self !! service_id).

Definition remove_contact (service_id : ServiceId) (self : t) : outcome ContactManagerError t :=
  match self !! service_id with
  | None => Err (ServiceIDNotFound service_id)
  | Some _ => Ok (delete service_id self)
  end.

Definition update_contact (service_id : ServiceId) (ids : list Z) (self : t) : outcome ContactManagerError t :=
  contact ← get_contact service_id self;
  Ok (<[service_id := {| contact_service_id := contact_service_id contact;
                         device_ids := device_ids contact ∪ list_to_set ids |}]> self).
End ContactManager.

(** *** Errors *)

Inductive SignalError :=
| DecodeEnvelope (e : string)
| DecodeContent (e : string)
| DecodeDataMessage (e : string)
| ProstDecode (e : string)
| UnpadFailed
| ProtocolFailed (e : string).

(** The key manager's kinds of keys and of failures ([client/src/key_manager.rs]). *)
Inductive PreKeyType := SignedType | KyberType | OneTimeType.
Inductive KeyType := PreKeyOf (t : PreKeyType) | IdentityKeyType.
Inductive KeyManagerErrorType := GenerateFailed | StoreFailed | SignatureFailed | GetFailed.
Record KeyManagerError := { err_type : KeyManagerErrorType; key_type : KeyType; key_error : string }.

Inductive RegistrationError := NoRegistrationResponse | BadRegistration (e : string).
Inductive IdentifierError := NoIdentifierResponse | BadIdentifier (e : string).
Inductive SendMessageError := EncryptionError (e : string) | SocketError (e : string).

Inductive SignalClientError :=
| ContactError (e : ContactManagerError)
| KeyError (e : string)
| KeyManagerFailed (e : KeyManagerError)
| RegistrationFailed (e : RegistrationError)
| IdentifierFailed (e : IdentifierError)
| SendMessageFailed (e : SendMessageError)
| WebSocketError (e : string)
| DatabaseError (e : string)
| ProcessPreKeyBundle (e : string)
| NoSession
| Protocol (e : string)
| NoMessageReceived
| EnvelopeDecodeError
| Signal (e : SignalError).

(** *** libsignal, protobuf and the server *)

Record PreKeyBundle := {
  bundle_registration_id : Z; bundle_device_id : Z; bundle_pre_key : option (Z * bytes);
  bundle_signed_pre_key : UploadSignedPreKey; bundle_identity_key : bytes;
  bundle_kyber_pre_key : UploadSignedPreKey }.

Inductive CiphertextKind := SignalCiphertext | SenderKeyCiphertext | PreKeySignalCiphertext | PlaintextCiphertext.
Record CiphertextMessage := { ct_kind : CiphertextKind; ct_bytes : bytes }.

(** [signalservice::Content], as far as the code reads it. *)
Record DataMessage := { dm_body : option string; dm_contact : list (option (option string)) }.
Record Content := { data_message : option DataMessage }.

(** The protocol runs over the stores it is given; [seed] is its randomness. *)
Class SignalProtocol := {
  process_prekey_bundle (seed : Z) (address : ProtocolAddress) (bundle : PreKeyBundle) (now : Z) : prog storesE string unit;
  message_encrypt (msg : bytes) (address : ProtocolAddress) (now : Z) : prog storesE string CiphertextMessage;
  message_decrypt (seed : Z) (ciphertext : CiphertextMessage) (address : ProtocolAddress) : prog storesE string bytes;
  remote_registration_id (session : bytes) : outcome string Z;
  ciphertext_error : CiphertextKind → bytes → option string;
  content_encode : Content → bytes;
  content_decode : bytes → outcome string Content;
}.

(** [trait SignalServerAPI] *)
Inductive serverApiE : Type → Type :=
| Publish_pre_key_bundle (pre_key_bundle : SetKeyRequest) : serverApiE unit
| Register_client (phone_number password : string) (request : RegistrationRequest) : serverApiE AccountIdentityResponse
| Send_msg (messages : DenimMessages f32) (service_id : ServiceId) : serverApiE unit
| Fetch_pre_key_bundles (service_id : ServiceId) : serverApiE (list PreKeyBundle)
| Get_message : serverApiE (option WebSocketRequestMessage)
| Send_response (request : WebSocketRequestMessage) (status_code : Z) : serverApiE unit
| Has_message : serverApiE bool
| Connect (username password : string) : serverApiE (option f32)
| Create_auth_header (aci password : string) (device_id : Z) : serverApiE unit
| Get_service_id_from_server (phone_number : string) : serverApiE ServiceId
| Disconnect : serverApiE unit.

(** *** The client *)

Record KeyManager := { km_signed : Z; km_kyber : Z; km_one_time : Z }.

Record Client := {
  alias : string;
  client_aci : string;
  client_pni : string;
  contact_manager : ContactManager.t;
  key_manager : KeyManager;
  chunker : Chunker;
}.

Inductive appE : Type → Type :=
| OnDb {X} (c : clientE X) : appE (string + X)
| OnApi {X} (c : serverApiE X) : appE X
| Self : appE Client
| SetSelf (self : Client) : appE unit
| Seed : appE Z
| Time : appE Z.

Abbreviation capp := (prog appE SignalClientError).

Definition with_contacts (self : Client) (m : ContactManager.t) : Client :=
  {| alias := alias self; client_aci := client_aci self; client_pni := client_pni self; contact_manager := m;
     key_manager := key_manager self; chunker := chunker self |}.
Definition with_chunker (self : Client) (c : Chunker) : Client :=
  {| alias := alias self; client_aci := client_aci self; client_pni := client_pni self;
     contact_manager := contact_manager self; key_manager := key_manager self; chunker := c |}.

Definition api {X} (c : serverApiE X) : capp X := op (OnApi c).

(** [.map_err(f)?] *)
Definition or_throw {E A B} (f : E → SignalClientError) (o : outcome E A) (k : A → capp B) : capp B :=
  match o with Ok a => k a | Err e => Throw (f e) | Panic w => Crash w end.
Definition sum_throw {E A} (f : E → SignalClientError) (r : E + A) : capp A :=
  match r with inl e => Throw (f e) | inr a => Ret a end.

(** [self.storage.device.lock().await.c().await.map_err(DatabaseError::from)?] *)
Definition db {X} (c : clientE X) : capp X := r ← op (OnDb c); sum_throw DatabaseError r.

(** A program over the database or over stores, its error as a value. *)
Definition on_db_prog {A} (p : prog clientE string A) : capp (string + A) := as_value (λ X c, OnDb c) p.

Section client.
Context `{Libsignal, Base64, ServiceIdText, Bincode, HashOrder, SignalProtocol}.
Context (deserialize_denim_message : bytes → option (DenimMessage f32)).

Definition on_stores {A} (p : plane) (q : prog storesE string A) : capp (string + A) :=
  on_db_prog (expand (stores p) q).

(** *** Contacts of the client *)

(** The manager is changed and the change is kept. *)
Definition change_contacts (f : ContactManager.t → outcome ContactManagerError ContactManager.t) : capp unit :=
  self ← op Self;
  or_throw ContactError (f (contact_manager self)) (λ m, op (SetSelf (with_contacts self m))).
Definition contact_of (service_id : ServiceId) : capp Contact :=
  self ← op Self;
  or_throw ContactError (ContactManager.get_contact service_id (contact_manager self)) Ret.

Definition initialize_sessions_from_bundle (service_id : ServiceId) (bundles : list PreKeyBundle) (deniable : bool)
    : capp (list Z) :=
  time ← op Time;
  for_each bundles [] (λ bundle ids,
    let device_id := bundle_device_id bundle in
    let ids := ids ++ [device_id] in
    seed ← op Seed;
    r ← on_stores (if deniable then Deniable else Regular)
          (process_prekey_bundle seed {| name := service_id_string service_id; device_id := device_id |} bundle time);
    _ ← sum_throw ProcessPreKeyBundle r;
    Ret ids).

Definition get_new_device_ids (service_id : ServiceId) : capp (list Z) :=
  bundles ← api (Fetch_pre_key_bundles service_id);
  initialize_sessions_from_bundle service_id bundles false.

Definition update_contact (alias : string) (device_ids : list Z) : capp unit :=
  service_id ← db (Get_service_id_by_nickname alias);
  _ ← change_contacts (ContactManager.update_contact service_id device_ids);
  contact ← contact_of service_id;
  db (Store_contact contact).

Definition add_contact (alias : string) (service_id : ServiceId) (device_ids : option (list Z)) : capp unit :=
  self ← op Self;
  if is_ok (ContactManager.get_contact service_id (contact_manager self)) then Ret tt
  else
    _ ← change_contacts (ContactManager.add_contact service_id);
    contact ← contact_of service_id;
    _ ← db (Store_contact contact);
    _ ← db (Insert_service_id_for_nickname alias service_id);
    new_device_ids ← match device_ids with Some ids => Ret ids | None => get_new_device_ids service_id end;
    update_contact alias new_device_ids.

Definition remove_contact (alias : string) : capp unit :=
  service_id ← db (Get_service_id_by_nickname alias);
  _ ← change_contacts (ContactManager.remove_contact service_id);
  db (Remove_contact service_id).

Definition add_deniable_contact_and_queue_message (service_id : ServiceId) (text alias : string) : capp unit :=
  sent ← db (Try_get_key_request_sent (service_id_string service_id));
  _ ← match sent with
      | None =>
          let payload := serialize_payload (KeyRequest {| request_service_id := service_id_string service_id |}) in
          _ ← db (Store_deniable_payload None 0 payload);
          db (Store_key_request_sent (service_id_string service_id) alias)
      | Some _ => Ret tt
      end;
  db (Store_message_awaiting_encryption text alias).

(** *** Sending *)

Definition encrypt (p : plane) (target : Contact) (msg : bytes) (timestamp : Z) : capp (gmap Z (Z * CiphertextMessage)) :=
  for_each (hash_iter (device_ids target)) ∅ (λ id msgs,
    address ← lift (expect "called `Result::unwrap()` on an `Err` value"
                      (match ContactManager.get_address target id with Ok a => Some a | _ => None end));
    r ← on_db_prog (stores p _ (On_session (S_load_session address)));
    session ← sum_throw Protocol r;
    session ← lift (ok_or NoSession session);
    reg_id ← or_throw Protocol (remote_registration_id session) Ret;
    address ← or_throw ContactError (ContactManager.get_address target id) Ret;
    r ← on_stores p (message_encrypt msg address timestamp);
    res ← sum_throw (λ e, SendMessageFailed (EncryptionError e)) r;
    Ret (<[id := (reg_id, res)]> msgs)).

(** [envelope::Type] *)
Definition envelope_type (k : CiphertextKind) : Z :=
  match k with
  | SignalCiphertext => 1
  | SenderKeyCiphertext => 2
  | PreKeySignalCiphertext => 3
  | PlaintextCiphertext => 8
  end.

Definition text_content (alias message : string) : Content :=
  {| data_message := Some {| dm_body := Some message; dm_contact := [Some (Some alias)] |} |}.

Definition signal_message (service_id : option ServiceId) (id : Z) (msg : Z * CiphertextMessage) : SignalMessage :=
  {| type_ := envelope_type (ct_kind msg.2); destination_device_id := id;
     destination_service_id := service_id_string <$> service_id;
     destination_registration_id := msg.1; content := b64_encode (ct_bytes msg.2) |}.

(** The chunker over the client's deniable store; an error is not expected. *)
Definition create_client_chunks (size : f32) : capp (list DenimChunk * Z) :=
  self ← op Self;
  r ← on_db_prog (expand deniable_sending_buffer (create_chunks (chunker self) size));
  match r with inl _ => Crash "Should create chunks" | inr x => Ret x end.

Definition denim_message (id : Z) (msg : Z * CiphertextMessage) : capp (DenimMessage f32) :=
  let payload := RegularSignalMessage (signal_message None id msg) in
  '(chunks, free) ← create_client_chunks (f32_of_usize (len (serialize_regular payload)));
  Ret {| regular_payload := payload; dm_chunks := chunks; dm_counter := None; dm_q := None;
         dm_ballast := zeroes (Z.to_nat free) |}.

Definition send_message (message alias_ : string) : capp unit :=
  service_id ← db (Get_service_id_by_nickname alias_);
  self ← op Self;
  let content := text_content (alias self) message in
  timestamp ← op Time;
  contact ← contact_of service_id;
  msgs ← encrypt Regular contact (pad_message (content_encode content)) timestamp;
  denim_messages ← for_each (hash_map_iter msgs) [] (λ '(id, msg) denim_messages,
    m ← denim_message id msg; Ret (denim_messages ++ [m]));
  secs ← lift (expect "can get the time since epoch" (if timestamp <? 0 then None else Some timestamp));
  let msgs := {| dms_messages := denim_messages; dms_online := true; dms_urgent := false; dms_timestamp := secs |} in
  r ← try_ (api (Send_msg msgs service_id));
  match r with
  | inr _ => Ret tt
  | inl _ =>
      device_ids ← get_new_device_ids service_id;
      _ ← update_contact alias_ device_ids;
      api (Send_msg msgs service_id)
  end.

Definition send_deniable_message (message alias_ : string) : capp unit :=
  service_id ← db (Get_service_id_by_nickname alias_);
  self ← op Self;
  let content := text_content (alias self) message in
  timestamp ← op Time;
  contact ← contact_of service_id;
  msgs ← encrypt Deniable contact (pad_message (content_encode content)) timestamp;
  for_each (hash_map_iter msgs) tt (λ '(id, msg) _,
    let payload := DeniableSignalMessage (signal_message (Some service_id) id msg) in
    db (Store_deniable_payload None 0 (serialize_payload payload))).
End client.
