(* ===== verification/Redis.v ===== *)
(** The Redis commands the server sends, and their documented behaviour.

    The Redis server is not part of the repository.  [redisE] lists the
    commands the code uses, with the arguments and replies the code gives and
    expects; [redis_step] is their documented behaviour on a keyspace, for the
    replies that do not depend on the network.  The functions of the program
    are programs over [redisE]; theorems about them hold for every server that
    [sim]ulates [redis_step].

    Scores are integers here: the program uses message ids, which the theorems
    bound, and seconds, and Redis's floating-point scores are exact below
    [2 ^ 53].  [EXPIRE] and [SETEX] record a time to live.  A command does not
    make it run out; [expired] is what happens to a key when it has, and is an
    event of its own where it matters (Presence.v).  The other keys with a time
    to live are those of a queue, 31 days after the last insertion, and the
    lock of its persister: theorems about queues are about the time before. *)
From S2P Require Export Prelude Effects.

Local Open Scope Z_scope.

(** ** Commands *)

Inductive redisE : Type → Type :=
| HEXISTS (key field : string) : redisE Z
| HGET (key field : string) : redisE (option string)
| HINCRBY (key field : string) (increment : Z) : redisE Z
| HSET (key field value : string) : redisE Z
| HDEL (key field : string) : redisE Z
| ZADD (key : string) (nx : bool) (score : Z) (member : string) : redisE Z
| ZREM (key : string) (members : list string) : redisE Z
| ZCARD (key : string) : redisE Z
| ZRANGE (key : string) (start stop : Z) : redisE (list string)
| ZRANGEBYSCORE (key min max : string) (limit : option (Z * Z)) : redisE (list string)
| ZREMRANGEBYSCORE (key min max : string) : redisE Z
| GET (key : string) : redisE (option string)
| SET (key value : string) : redisE unit
| SETEX (key : string) (seconds : Z) (value : string) : redisE unit
| SADD (key member : string) : redisE Z
| SMEMBERS (key : string) : redisE (list string)
| DEL (key : string) : redisE Z
| EXISTS (key : string) : redisE Z
| EXPIRE (key : string) (seconds : Z) : redisE Z.

(** ** Keyspace *)

(** A sorted set, ordered by score and then by the bytes of the member. *)
Abbreviation zset := (list (Z * string)).

Inductive rvalue :=
| VStr (s : string)
| VHash (h : gmap string string)
| VZset (z : zset)
| VSet (s : gset string).

Record keyspace := {
  keys : gmap string rvalue;
  ttl : gmap string Z;
}.

Definition wrongtype : string := "WRONGTYPE Operation against a key holding the wrong kind of value".

Definition hash_of (d : keyspace) (k : string) : outcome string (gmap string string) :=
  match keys d !! k with None => Ok ∅ | Some (VHash h) => Ok h | Some _ => Err wrongtype end.
Definition zset_of (d : keyspace) (k : string) : outcome string zset :=
  match keys d !! k with None => Ok [] | Some (VZset z) => Ok z | Some _ => Err wrongtype end.
Definition set_of (d : keyspace) (k : string) : outcome string (gset string) :=
  match keys d !! k with None => Ok ∅ | Some (VSet s) => Ok s | Some _ => Err wrongtype end.
Definition str_of (d : keyspace) (k : string) : outcome string (option string) :=
  match keys d !! k with None => Ok None | Some (VStr s) => Ok (Some s) | Some _ => Err wrongtype end.

Definition put (k : string) (v : rvalue) (d : keyspace) : keyspace :=
  {| keys := <[k := v]> (keys d); ttl := ttl d |}.
Definition del (k : string) (d : keyspace) : keyspace :=
  {| keys := delete k (keys d); ttl := delete k (ttl d) |}.

Definition expire (k : string) (seconds : Z) (d : keyspace) : keyspace :=
  if keys d !! k is Some _ then {| keys := keys d; ttl := <[k := seconds]> (ttl d) |} else d.

(** The time to live of a key has run out. *)
Definition expired (k : string) (d : keyspace) : keyspace :=
  if ttl d !! k is Some _ then del k d else d.

(** A collection that becomes empty is deleted. *)
Definition put_hash (k : string) (h : gmap string string) (d : keyspace) : keyspace :=
  if decide (h = ∅) then del k d else put k (VHash h) d.
Definition put_zset (k : string) (z : zset) (d : keyspace) : keyspace :=
  if decide (z = []) then del k d else put k (VZset z) d.

(** *** Sorted sets *)

Definition z_before (x y : Z * string) : bool :=
  (x.1 <? y.1) || ((x.1 =? y.1) && match String.compare x.2 y.2 with Gt => false | _ => true end).

Fixpoint z_insert (x : Z * string) (z : zset) : zset :=
  match z with
  | [] => [x]
  | y :: z => if z_before x y then x :: y :: z else y :: z_insert x z
  end.

Definition z_member (m : string) (z : zset) : bool := existsb (λ y, bool_decide (y.2 = m)) z.
Definition z_delete (m : string) (z : zset) : zset := filter (λ y, y.2 ≠ m) z.

(** The score bounds of a range query. *)
Inductive bound := NegInf | PosInf | Incl (z : Z) | Excl (z : Z).

Definition parse_bound (s : string) : option bound :=
  if decide (s = "+inf") then Some PosInf
  else if decide (s = "-inf") then Some NegInf
  else match s with
       | String "("%char s => Excl <$> parse_signed (λ _, true) s
       | _ => Incl <$> parse_signed (λ _, true) s
       end.

Definition above (b : bound) (z : Z) : bool :=
  match b with NegInf => true | PosInf => false | Incl x => x <=? z | Excl x => x <? z end.
Definition below (b : bound) (z : Z) : bool :=
  match b with NegInf => false | PosInf => true | Incl x => z <=? x | Excl x => z <? x end.

Definition in_range (lo hi : bound) (x : Z * string) : bool := above lo x.1 && below hi x.1.

Definition parse_range (min max : string) : outcome string (bound * bound) :=
  lo ← ok_or "ERR min or max is not a float" (parse_bound min);
  hi ← ok_or "ERR min or max is not a float" (parse_bound max);
  Ok (lo, hi).

(** [LIMIT offset count]; a negative count is no limit. *)
Definition apply_limit {A} (limit : option (Z * Z)) (l : list A) : list A :=
  match limit with
  | None => l
  | Some (offset, n) =>
      if offset <? 0 then [] else
      let l := drop (Z.to_nat offset) l in
      if n <? 0 then l else take (Z.to_nat n) l
  end.

(** Inclusive index range; a negative index counts from the end. *)
Definition index_range {A} (start stop : Z) (l : list A) : list A :=
  let n := len l in
  let start := if start <? 0 then Z.max 0 (start + n) else start in
  let stop := if stop <? 0 then stop + n else stop in
  take (Z.to_nat (stop + 1 - start)) (drop (Z.to_nat start) l).

(** ** Behaviour *)

Definition answer {S X} (o : outcome string (X * S)) (d : S) : outcome string X * S :=
  match o with Ok (x, d') => (Ok x, d') | Err e => (Err e, d) | Panic w => (Panic w, d) end.

Definition redis_step : handler redisE string keyspace := λ X c d,
  answer
    (match c in redisE X return outcome string (X * keyspace) with
     | HEXISTS k f => h ← hash_of d k; Ok (if h !! f is Some _ then 1 else 0, d)
     | HGET k f => h ← hash_of d k; Ok (h !! f, d)
     | HINCRBY k f n =>
         h ← hash_of d k;
         v ← match h !! f with
             | None => Ok 0
             | Some s => ok_or "ERR hash value is not an integer" (parse_i64 s)
             end;
         if in_i64 (v + n) then Ok (v + n, put_hash k (<[f := show (v + n)]> h) d)
         else Err "ERR increment or decrement would overflow"
     | HSET k f v => h ← hash_of d k; Ok (if h !! f is Some _ then 0 else 1, put_hash k (<[f := v]> h) d)
     | HDEL k f => h ← hash_of d k; Ok (if h !! f is Some _ then 1 else 0, put_hash k (delete f h) d)
     | ZADD k nx score m =>
         z ← zset_of d k;
         if z_member m z then
           if nx then Ok (0, d) else Ok (0, put_zset k (z_insert (score, m) (z_delete m z)) d)
         else Ok (1, put_zset k (z_insert (score, m) z) d)
     | ZREM k ms =>
         z ← zset_of d k;
         let z' := foldr z_delete z ms in
         Ok (len z - len z', put_zset k z' d)
     | ZCARD k => z ← zset_of d k; Ok (len z, d)
     | ZRANGE k start stop => z ← zset_of d k; Ok (map snd (index_range start stop z), d)
     | ZRANGEBYSCORE k min max limit =>
         '(lo, hi) ← parse_range min max;
         z ← zset_of d k;
         Ok (map snd (apply_limit limit (filter (in_range lo hi) z)), d)
     | ZREMRANGEBYSCORE k min max =>
         '(lo, hi) ← parse_range min max;
         z ← zset_of d k;
         let z' := filter (λ x, ¬ in_range lo hi x) z in
         Ok (len z - len z', put_zset k z' d)
     | GET k => s ← str_of d k; Ok (s, d)
     | SET k v => Ok (tt, put k (VStr v) (del k d))
     | SETEX k n v =>
         Ok (tt, expire k n (put k (VStr v) (del k d)))
     | SADD k m =>
         s ← set_of d k; Ok (if decide (m ∈ s) then 0 else 1, put k (VSet ({[m]} ∪ s)) d)
     | SMEMBERS k => s ← set_of d k; Ok (elements s, d)
     | DEL k => Ok (if keys d !! k is Some _ then 1 else 0, del k d)
     | EXISTS k => Ok (if keys d !! k is Some _ then 1 else 0, d)
     | EXPIRE k n => Ok (if keys d !! k is Some _ then 1 else 0, expire k n d)
     end) d.

(** ** Reading a keyspace after a write *)

Lemma keys_put_ne k v d k' : k ≠ k' → keys (put k v d) !! k' = keys d !! k'.
Proof. intros. cbn. by rewrite lookup_insert_ne. Qed.

Lemma keys_del_ne k d k' : k ≠ k' → keys (del k d) !! k' = keys d !! k'.
Proof. intros. cbn. by rewrite lookup_delete_ne. Qed.

Lemma keys_put_hash_ne k h d k' : k ≠ k' → keys (put_hash k h d) !! k' = keys d !! k'.
Proof. intros. unfold put_hash. case_decide; [by apply keys_del_ne|by apply keys_put_ne]. Qed.

Lemma keys_put_zset_ne k z d k' : k ≠ k' → keys (put_zset k z d) !! k' = keys d !! k'.
Proof. intros. unfold put_zset. case_decide; [by apply keys_del_ne|by apply keys_put_ne]. Qed.

Lemma keys_expire k n d : keys (expire k n d) = keys d.
Proof. unfold expire. by destruct (keys d !! k). Qed.

Lemma hash_of_put_hash k h d : hash_of (put_hash k h d) k = Ok h.
Proof.
  unfold put_hash, hash_of. case_decide; cbn.
  - subst. by rewrite lookup_delete_eq.
  - by rewrite lookup_insert_eq.
Qed.

Lemma zset_of_put_zset k z d : zset_of (put_zset k z d) k = Ok z.
Proof.
  unfold put_zset, zset_of. case_decide; cbn.
  - subst. by rewrite lookup_delete_eq.
  - by rewrite lookup_insert_eq.
Qed.

Lemma hash_of_del k d : hash_of (del k d) k = Ok ∅.
Proof. unfold hash_of. cbn. by rewrite lookup_delete_eq. Qed.

Lemma zset_of_del k d : zset_of (del k d) k = Ok [].
Proof. unfold zset_of. cbn. by rewrite lookup_delete_eq. Qed.

Section other_keys.
Context (k k' : string) (Hne : k ≠ k').

Lemma hash_of_put_hash_ne h d : hash_of (put_hash k h d) k' = hash_of d k'.
Proof. unfold hash_of. by rewrite keys_put_hash_ne. Qed.
Lemma hash_of_put_zset_ne z d : hash_of (put_zset k z d) k' = hash_of d k'.
Proof. unfold hash_of. by rewrite keys_put_zset_ne. Qed.
Lemma hash_of_del_ne d : hash_of (del k d) k' = hash_of d k'.
Proof. unfold hash_of. by rewrite keys_del_ne. Qed.
Lemma zset_of_put_hash_ne h d : zset_of (put_hash k h d) k' = zset_of d k'.
Proof. unfold zset_of. by rewrite keys_put_hash_ne. Qed.
Lemma zset_of_put_zset_ne z d : zset_of (put_zset k z d) k' = zset_of d k'.
Proof. unfold zset_of. by rewrite keys_put_zset_ne. Qed.
Lemma zset_of_del_ne d : zset_of (del k d) k' = zset_of d k'.
Proof. unfold zset_of. by rewrite keys_del_ne. Qed.
Lemma str_of_put_hash_ne h d : str_of (put_hash k h d) k' = str_of d k'.
Proof. unfold str_of. by rewrite keys_put_hash_ne. Qed.
Lemma str_of_put_zset_ne z d : str_of (put_zset k z d) k' = str_of d k'.
Proof. unfold str_of. by rewrite keys_put_zset_ne. Qed.
Lemma str_of_del_ne d : str_of (del k d) k' = str_of d k'.
Proof. unfold str_of. by rewrite keys_del_ne. Qed.
End other_keys.

Lemma hash_of_expire k n d k' : hash_of (expire k n d) k' = hash_of d k'.
Proof. unfold hash_of. by rewrite keys_expire. Qed.
Lemma zset_of_expire k n d k' : zset_of (expire k n d) k' = zset_of d k'.
Proof. unfold zset_of. by rewrite keys_expire. Qed.
Lemma str_of_expire k n d k' : str_of (expire k n d) k' = str_of d k'.
Proof. unfold str_of. by rewrite keys_expire. Qed.

(** Solves [k ≠ k'] from the hypotheses. *)
Ltac key_ne := first [assumption | apply not_eq_sym; assumption | congruence].

(** Evaluates a read of a written keyspace. *)
Ltac read_store :=
  repeat first
    [ rewrite hash_of_put_hash | rewrite zset_of_put_zset | rewrite hash_of_del | rewrite zset_of_del
    | rewrite hash_of_expire | rewrite zset_of_expire | rewrite str_of_expire | rewrite keys_expire
    | rewrite hash_of_put_hash_ne by key_ne | rewrite hash_of_put_zset_ne by key_ne
    | rewrite hash_of_del_ne by key_ne | rewrite zset_of_put_hash_ne by key_ne
    | rewrite zset_of_put_zset_ne by key_ne | rewrite zset_of_del_ne by key_ne
    | rewrite str_of_put_hash_ne by key_ne | rewrite str_of_put_zset_ne by key_ne
    | rewrite str_of_del_ne by key_ne | rewrite keys_put_hash_ne by key_ne
    | rewrite keys_put_zset_ne by key_ne | rewrite keys_del_ne by key_ne ].

(** ** Bounds and ranges *)

Lemma index_range_0 {A} stop (l : list A) :
  0 ≤ stop → index_range 0 stop l = take (Z.to_nat (stop + 1)) l.
Proof.
  intros Hs. unfold index_range. rewrite (proj2 (Z.ltb_ge stop 0)), (proj2 (Z.ltb_ge 0 0)) by lia.
  by rewrite Z.sub_0_r.
Qed.

Lemma parse_bound_show z : parse_bound (show z) = Some (Incl z).
Proof.
  pose proof (parse_signed_show (λ _, true) z eq_refl) as Hp. unfold parse_bound.
  rewrite !decide_False by (intros Heq; rewrite Heq in Hp; by vm_compute in Hp).
  revert Hp. generalize (show z). intros [|a s] Hp; [done|].
  destruct (decide (a = "("%char)) as [->|Ha]; [done|].
  assert (∀ X (u v : X), (match a with "("%char => u | _ => v end) = v) as ->; [|by rewrite Hp].
  intros X u v. destruct a as [[] [] [] [] [] [] [] []]; done.
Qed.

Lemma parse_bound_excl z : parse_bound ("(" +:+ show z) = Some (Excl z).
Proof.
  pose proof (parse_signed_show (λ _, true) z eq_refl) as Hp. unfold parse_bound.
  rewrite append_cons, append_nil. rewrite !decide_False by done. by rewrite Hp.
Qed.

Lemma z_insert_last x z : Forall (λ y, y.1 < x.1) z → z_insert x z = z ++ [x].
Proof.
  induction 1 as [|y z Hy Hz IH]; [done|]. cbn. rewrite IH.
  unfold z_before. rewrite (proj2 (Z.ltb_ge _ _)), (proj2 (Z.eqb_neq _ _)) by lia. done.
Qed.

Lemma z_insert_first x z : Forall (λ y, x.1 < y.1) z → z_insert x z = x :: z.
Proof.
  destruct 1 as [|y z Hy Hz]; [done|]. cbn. unfold z_before.
  by rewrite (proj2 (Z.ltb_lt _ _)) by lia.
Qed.

Lemma z_member_false m z : Forall (λ y, y.2 ≠ m) z → z_member m z = false.
Proof.
  unfold z_member. induction 1 as [|y z Hy Hz IH]; [done|]. cbn. rewrite IH.
  by rewrite bool_decide_false.
Qed.
