(* ===== verification/Server.v ===== *)
(** What the server components call: Redis, the database, the clock, the
    random source, and the tasks they spawn.

    [serverE] is the command family of every server component.  [world] and
    [server_step] give the documented behaviour of the services it stands for:
    Redis as in Redis.v, the message part of the trait [SignalDatabase] with its
    rows in any order, a clock and a source of version-4 UUIDs that run through
    given streams, and a list of the spawned tasks, which run at some later
    point ([AvailabilityListener.v]). *)
From S2P Require Export Prelude Effects WebApi Account Redis.

Local Open Scope Z_scope.

(** ["{}::{}"] of an address, the key of its listener. *)
Definition queue_name (a : ProtocolAddress) : string := name a +:+ "::" +:+ show (device_id a).

(** Tasks given to [tokio::spawn]; a listener is known by a number. *)
Inductive task :=
| NotifyCached (queue : string)
| NotifyPersisted (queue : string)
| AddListener (queue : string) (listener : nat)
| RemoveListener (queue : string).

(** The message operations of [SignalDatabase]. *)
Inductive messageDbE : Type → Type :=
| count_messages (address : ProtocolAddress) : messageDbE Z
| get_messages (address : ProtocolAddress) : messageDbE (list Envelope)
| delete_messages (address : ProtocolAddress) : messageDbE (list Envelope)
| push_message_queue (address : ProtocolAddress) (messages : list Envelope) : messageDbE unit.

(** The account operation of [SignalDatabase] the modelled components use. *)
Inductive accountDbE : Type → Type :=
| get_account (service_id : ServiceId) : accountDbE Account.

Inductive serverE : Type → Type :=
| PoolGet : serverE unit                 (* [self.pool.get()] *)
| Redis {X} (c : redisE X) : serverE X
| Now : serverE Z                        (* milliseconds since the epoch *)
| NewV4 : serverE string                 (* [Uuid::new_v4().to_string()] *)
| Spawn (t : task) : serverE unit
| MessageDb {X} (c : messageDbE X) : serverE X
| AccountDb {X} (c : accountDbE X) : serverE X.

Definition redis {X} (c : redisE X) : prog serverE string X := op (Redis c).
Definition message_db {X} (c : messageDbE X) : prog serverE string X := op (MessageDb c).

Definition account_db {X} (c : accountDbE X) : prog serverE string X := op (AccountDb c).

(** ** Documented behaviour *)

(** The device an address reaches, by the ACI or the PNI of its account, the
    messages stored for every device in the order they were pushed, and the
    order in which the database returns rows: neither the statements nor the
    trait fix one. *)
Record message_table := {
  receiver : ProtocolAddress → option Z;
  queues : gmap Z (list Envelope);
  row_order : ScanOrder;
}.
Definition stored (t : message_table) (a : ProtocolAddress) : list Envelope :=
  match receiver t a with Some r => default [] (queues t !! r) | None => [] end.
Definition store (t : message_table) (a : ProtocolAddress) (ms : list Envelope) : message_table :=
  match receiver t a with
  | Some r => {| receiver := receiver t; queues := <[r := ms]> (queues t); row_order := row_order t |}
  | None => t
  end.

(** The stored messages as a statement returns them. *)
Definition selected (t : message_table) (a : ProtocolAddress) : list Envelope := @scan (row_order t) _ (stored t a).

Definition message_db_step : handler messageDbE string message_table := λ X c t,
  match c in messageDbE X return outcome string X * message_table with
  | count_messages a => (Ok (len (stored t a)), t)
  | get_messages a => (Ok (selected t a), t)
  | delete_messages a => (Ok (selected t a), store t a [])
  | push_message_queue a ms => (Ok tt, store t a (stored t a ++ ms))
  end.

Lemma selected_perm t a : selected t a ≡ₚ stored t a.
Proof. apply scan_perm. Qed.

Lemma selected_nil t a : stored t a = [] → selected t a = [].
Proof. intros Hs. apply Permutation_nil_r. by rewrite selected_perm, Hs. Qed.

Lemma elem_of_selected t a e : e ∈ selected t a ↔ e ∈ stored t a.
Proof. by rewrite selected_perm. Qed.

Lemma order_store t a ms : row_order (store t a ms) = row_order t.
Proof. unfold store. by destruct (receiver t a). Qed.

Lemma receiver_store t a ms : receiver (store t a ms) = receiver t.
Proof. unfold store. by destruct (receiver t a). Qed.

Lemma stored_store t a ms r : receiver t a = Some r → stored (store t a ms) a = ms.
Proof. intros Hr. unfold stored, store. rewrite Hr. cbn. by rewrite Hr, lookup_insert_eq. Qed.

Lemma store_store t a ms ms' : store (store t a ms) a ms' = store t a ms'.
Proof.
  unfold store. destruct (receiver t a) as [r|] eqn:Hr; [|by rewrite Hr]. cbn. rewrite Hr.
  by rewrite insert_insert_eq.
Qed.

Definition account_table : Type := gmap ServiceId Account.

Definition account_db_step : handler accountDbE string account_table := λ X c t,
  match c in accountDbE X return outcome string X * account_table with
  | get_account i => (ok_or "no rows returned" (t !! i), t)
  end.

Record world := {
  redis_db : keyspace;
  messages_db : message_table;
  accounts_db : account_table;
  clock : nat → Z;
  ticks : nat;
  uuids : nat → string;
  drawn : nat;
  spawned : list task;
}.

Definition with_redis (w : world) (d : keyspace) : world :=
  {| redis_db := d; messages_db := messages_db w; accounts_db := accounts_db w; clock := clock w; ticks := ticks w;
     uuids := uuids w; drawn := drawn w; spawned := spawned w |}.
Definition with_messages (w : world) (t : message_table) : world :=
  {| redis_db := redis_db w; messages_db := t; accounts_db := accounts_db w; clock := clock w; ticks := ticks w;
     uuids := uuids w; drawn := drawn w; spawned := spawned w |}.
Definition tick (w : world) : world :=
  {| redis_db := redis_db w; messages_db := messages_db w; accounts_db := accounts_db w; clock := clock w; ticks := S (ticks w);
     uuids := uuids w; drawn := drawn w; spawned := spawned w |}.
Definition draw (w : world) : world :=
  {| redis_db := redis_db w; messages_db := messages_db w; accounts_db := accounts_db w; clock := clock w; ticks := ticks w;
     uuids := uuids w; drawn := S (drawn w); spawned := spawned w |}.
Definition spawn (w : world) (t : task) : world :=
  {| redis_db := redis_db w; messages_db := messages_db w; accounts_db := accounts_db w; clock := clock w; ticks := ticks w;
     uuids := uuids w; drawn := drawn w; spawned := spawned w ++ [t] |}.

Definition server_step : handler serverE string world := λ X c w,
  match c in serverE X return outcome string X * world with
  | PoolGet => (Ok tt, w)
  | Redis c => prod_map id (with_redis w) (redis_step _ c (redis_db w))
  | Now => (Ok (clock w (ticks w)), tick w)
  | NewV4 => (Ok (uuids w (drawn w)), draw w)
  | Spawn t => (Ok tt, spawn w t)
  | MessageDb c => prod_map id (with_messages w) (message_db_step _ c (messages_db w))
  | AccountDb c => ((account_db_step _ c (accounts_db w)).1, w)
  end.

(** A server whose services behave as documented, seen through [view]. *)
Definition documented {S} (h : handler serverE string S) (view : S → world) : Prop :=
  sim h server_step view.

(** Version-4 UUIDs do not repeat and are not one of the literals in use. *)
Definition uuids_fresh (w : world) : Prop :=
  (∀ i j, uuids w i = uuids w j → i = j) ∧
  (∀ i, uuids w i ≠ "counter" ∧ uuids w i ≠ "").

(** The clock reads a time after the epoch. *)
Definition clock_ok (w : world) : Prop := ∀ i, 0 ≤ clock w i.

(** ** Running server programs *)

Lemma interp_redis {X A} (c : redisE X) (f : X → prog serverE string A) w :
  interp server_step (redis c ≫= f) w =
  match redis_step _ c (redis_db w) with
  | (Ok x, d) => interp server_step (f x) (with_redis w d)
  | (Err e, d) => (Err e, with_redis w d)
  | (Panic m, d) => (Panic m, with_redis w d)
  end.
Proof.
  unfold redis. rewrite interp_op_bind. cbn. by destruct (redis_step X c (redis_db w)) as [[x|e|m] d].
Qed.

Lemma interp_pool_get {A} (f : unit → prog serverE string A) w :
  interp server_step (op PoolGet ≫= f) w = interp server_step (f tt) w.
Proof. by rewrite interp_op_bind. Qed.

Lemma interp_spawn {A} t (f : unit → prog serverE string A) w :
  interp server_step (op (Spawn t) ≫= f) w = interp server_step (f tt) (spawn w t).
Proof. by rewrite interp_op_bind. Qed.

Lemma interp_message_db {X A} (c : messageDbE X) (f : X → prog serverE string A) w :
  interp server_step (message_db c ≫= f) w =
  match message_db_step _ c (messages_db w) with
  | (Ok x, t) => interp server_step (f x) (with_messages w t)
  | (Err e, t) => (Err e, with_messages w t)
  | (Panic m, t) => (Panic m, with_messages w t)
  end.
Proof.
  unfold message_db. rewrite interp_op_bind. cbn.
  by destruct (message_db_step X c (messages_db w)) as [[x|e|m] d].
Qed.

Lemma with_redis_twice w d d' : with_redis (with_redis w d) d' = with_redis w d'.
Proof. done. Qed.

Lemma with_redis_id w : with_redis w (redis_db w) = w.
Proof. by destruct w. Qed.

(** Two worlds that differ in Redis, the ticks of the clock and nothing else. *)
Record same_but_redis (w w' : world) : Prop := {
  same_messages : messages_db w' = messages_db w;
  same_accounts : accounts_db w' = accounts_db w;
  same_clock : clock w' = clock w;
  same_uuids : uuids w' = uuids w;
  same_drawn : drawn w' = drawn w;
  same_spawned : spawned w' = spawned w;
}.

Global Instance same_but_redis_preorder : PreOrder same_but_redis.
Proof. split; [done|]. intros w1 w2 w3 [] []. split; congruence. Qed.

Lemma same_with_redis w d : same_but_redis w (with_redis w d).
Proof. done. Qed.

Lemma same_tick w : same_but_redis w (tick w).
Proof. done. Qed.
#[export] Hint Resolve same_with_redis same_tick : denim.

(** Only the listed keys of Redis are written. *)
Definition writes (ks : list string) (d d' : keyspace) : Prop :=
  ∀ k, k ∉ ks → keys d' !! k = keys d !! k.

Global Instance writes_preorder ks : PreOrder (writes ks).
Proof. split; [done|]. intros d1 d2 d3 H1 H2 k Hk. by rewrite H2, H1. Qed.

(** One Redis command: run it, and simplify the state it leaves. *)
Ltac rstep := rewrite ?with_redis_twice, interp_redis; unfold redis_step at 1; cbn [redis_db with_redis tick spawn]; cbn beta iota.

(** Carries on after the reply of a command is known. *)
Ltac rgo :=
  cbn [mbind outcome_bind answer Z.eqb Pos.eqb negb]; cbn beta iota;
  cbn [redis_db with_redis].
