(* ===== verification/Presence.v ===== *)
(** Who is connected where ([server/src/managers/client_presence_manager.rs]):
    presence keys in Redis, and the listeners of a handle of the manager.

    [#[derive(Clone)]]-like, [ClientPresenceManager::clone] copies the map of
    listeners; the server gives every request a clone of its state.  So the
    state has several handles that share Redis but not the map. *)
From S2P Require Export Server Redis.

Local Open Scope Z_scope.

(** ** Definitions *)

Definition PRESENCE_EXPIRATION_SECONDS : Z := 660.

(** A listener, shared through an [Arc], is known by a number. *)
Record ClientPresenceManager := {
  displacement_listeners : gmap string nat;
  manager_id : string;
}.

(** What the manager's methods do besides computing: read and write its own
    map, call Redis, and call a listener. *)
Inductive presenceE : Type → Type :=
| Self : presenceE ClientPresenceManager
| SetListeners (m : gmap string nat) : presenceE unit
| PresencePool : presenceE unit
| PresenceRedis {X} (c : redisE X) : presenceE X
| HandleDisplacement (listener : nat) (connected_elsewhere : bool) : presenceE unit.

Abbreviation presence_prog := (prog presenceE string).
Definition presence_redis {X} (c : redisE X) : presence_prog X := op (PresenceRedis c).

(** [get_presence_key] and [get_set_key]; the braces are literal. *)
Definition get_presence_key (address : ProtocolAddress) : string :=
  "presence::{" +:+ name address +:+ "::" +:+ show (device_id address) +:+ "}".
Definition get_set_key (self : ClientPresenceManager) : string := "presence::clients::" +:+ manager_id self.

(** A reply read as a [String]: nil is not one. *)
Definition as_string (o : option string) : outcome string string :=
  ok_or "Response was of incompatible type - TypeError" o.

Definition clear_presence (presence_key : string) : presence_prog bool :=
  self ← op Self;
  _ ← op (SetListeners (delete presence_key (displacement_listeners self)));
  _ ← op PresencePool;
  present ← presence_redis (GET presence_key);
  match present with
  | Some _ => _ ← presence_redis (DEL presence_key); Ret true
  | None => Ret false
  end.

Definition displace_presence (presence_key : string) (connected_elsewhere : bool) : presence_prog bool :=
  self ← op Self;
  _ ← match displacement_listeners self !! presence_key with
      | Some l => op (HandleDisplacement l connected_elsewhere)
      | None => Ret tt
      end;
  clear_presence presence_key.

(** [SET .. EX ..] is [SETEX]. *)
Definition set_present (address : ProtocolAddress) (displacement_listener : nat) : presence_prog unit :=
  let presence_key := get_presence_key address in
  self ← op Self;
  _ ← match displacement_listeners self !! presence_key with
      | Some _ => _ ← displace_presence presence_key true; Ret tt
      | None => Ret tt
      end;
  self ← op Self;
  _ ← op (SetListeners (<[presence_key := displacement_listener]> (displacement_listeners self)));
  _ ← op PresencePool;
  let set_key := get_set_key self in
  _ ← presence_redis (SADD set_key presence_key);
  presence_redis (SETEX presence_key PRESENCE_EXPIRATION_SECONDS (manager_id self)).

Definition renew_presence (address : ProtocolAddress) : presence_prog unit :=
  let presence_key := get_presence_key address in
  _ ← op PresencePool;
  reply ← presence_redis (GET presence_key);
  holder ← lift (as_string reply);
  self ← op Self;
  if decide (holder = manager_id self) then
    _ ← presence_redis (EXPIRE presence_key PRESENCE_EXPIRATION_SECONDS); Ret tt
  else Ret tt.

Definition is_locally_present (address : ProtocolAddress) : presence_prog bool :=
  self ← op Self;
  Ret (bool_decide (is_Some (displacement_listeners self !! get_presence_key address))).

(** [presence_keys.len() as u8] *)
Definition disconnect_all_presence (account_uuid : string) (device_ids : list Z) : presence_prog Z :=
  presence_keys ← for_each device_ids ([] : list string) (λ device_id presence_keys,
    let addr := {| name := account_uuid; device_id := device_id |} in
    let presence_key := get_presence_key addr in
    locally ← is_locally_present addr;
    displaced ← (if (locally : bool) then displace_presence presence_key false else Ret false);
    Ret (if (displaced : bool) then presence_keys ++ [presence_key] else presence_keys));
  Ret (len presence_keys mod 2 ^ 8).

Definition disconnect_presence (address : ProtocolAddress) : presence_prog Z :=
  disconnect_all_presence (name address) [device_id address].

Definition is_present (address : ProtocolAddress) : presence_prog bool :=
  _ ← op PresencePool;
  n ← presence_redis (EXISTS (get_presence_key address));
  Ret (negb (n =? 0)).

(** *** Handles that share a Redis *)

Record presence_world := {
  handles : nat → ClientPresenceManager;
  shared : keyspace;
  notified : list (nat * bool);
}.

Definition with_handle (w : presence_world) (i : nat) (c : ClientPresenceManager) : presence_world :=
  {| handles := λ j, if decide (j = i) then c else handles w j; shared := shared w; notified := notified w |}.
Definition with_listeners (w : presence_world) (i : nat) (m : gmap string nat) : presence_world :=
  with_handle w i {| displacement_listeners := m; manager_id := manager_id (handles w i) |}.
Definition with_shared (w : presence_world) (d : keyspace) : presence_world :=
  {| handles := handles w; shared := d; notified := notified w |}.
Definition notify (w : presence_world) (l : nat) (b : bool) : presence_world :=
  {| handles := handles w; shared := shared w; notified := notified w ++ [(l, b)] |}.

(** The calls of handle [i]. *)
Definition presence_step (i : nat) : handler presenceE string presence_world := λ X c w,
  match c in presenceE X return outcome string X * presence_world with
  | Self => (Ok (handles w i), w)
  | SetListeners m => (Ok tt, with_listeners w i m)
  | PresencePool => (Ok tt, w)
  | PresenceRedis c => prod_map id (with_shared w) (redis_step _ c (shared w))
  | HandleDisplacement l b => (Ok tt, notify w l b)
  end.

(** [ClientPresenceManager::clone]: handle [j] becomes a clone of handle [i]. *)
Definition clone_handle (w : presence_world) (i j : nat) : presence_world := with_handle w j (handles w i).

(** *** The manager as an interface *)

Inductive presence_op : Type → Type :=
| SetPresent (a : ProtocolAddress) (l : nat) : presence_op unit
| Renew (a : ProtocolAddress) : presence_op unit
| DisconnectAll (account_uuid : string) (device_ids : list Z) : presence_op Z
| Disconnect (a : ProtocolAddress) : presence_op Z
| IsPresent (a : ProtocolAddress) : presence_op bool
| IsLocallyPresent (a : ProtocolAddress) : presence_op bool.

Definition presence_method : ∀ X, presence_op X → presence_prog X := λ X c,
  match c in presence_op X return presence_prog X with
  | SetPresent a l => set_present a l
  | Renew a => renew_presence a
  | DisconnectAll u ids => disconnect_all_presence u ids
  | Disconnect a => disconnect_presence a
  | IsPresent a => is_present a
  | IsLocallyPresent a => is_locally_present a
  end.
Definition presence_handle (i : nat) : handler presence_op string presence_world := λ X c w,
  interp (presence_step i) (presence_method X c) w.

(** *** What it promises: a map from addresses to listeners *)

(** The addresses that have a listener at this handle, and those whose key is
    in Redis: the key of a listener may have expired. *)
Record roster := { listening : gmap ProtocolAddress nat; online : gset ProtocolAddress; told : list (nat * bool) }.

Definition leave (a : ProtocolAddress) (elsewhere : bool) (r : roster) : roster :=
  match listening r !! a with
  | Some l => {| listening := delete a (listening r); online := online r ∖ {[a]}; told := told r ++ [(l, elsewhere)] |}
  | None => r
  end.
Definition enter (a : ProtocolAddress) (l : nat) (r : roster) : roster :=
  {| listening := <[a := l]> (listening r); online := {[a]} ∪ online r; told := told r |}.
Definition lapse (a : ProtocolAddress) (r : roster) : roster :=
  {| listening := listening r; online := online r ∖ {[a]}; told := told r |}.
Definition here (a : ProtocolAddress) (r : roster) : bool := bool_decide (is_Some (listening r !! a)).
Fixpoint leave_all (u : string) (ids : list Z) (r : roster) : Z * roster :=
  match ids with
  | [] => (0, r)
  | i :: ids =>
      let a := {| name := u; device_id := i |} in
      let '(n, r') := leave_all u ids (leave a false r) in
      ((if here a r && bool_decide (a ∈ online r) then 1 else 0) + n, r')
  end.

Definition roster_step : handler presence_op string roster := λ X c r,
  match c in presence_op X return outcome string X * roster with
  | SetPresent a l => (Ok tt, enter a l (leave a true r))
  | Renew a => (if decide (a ∈ online r) then Ok tt else Err "Response was of incompatible type - TypeError", r)
  | DisconnectAll u ids => let '(n, r') := leave_all u ids r in (Ok (n mod 2 ^ 8), r')
  | Disconnect a => let '(n, r') := leave_all (name a) [device_id a] r in (Ok (n mod 2 ^ 8), r')
  | IsPresent a => (Ok (bool_decide (a ∈ online r)), r)
  | IsLocallyPresent a => (Ok (here a r), r)
  end.

(** *** Keys that expire *)

(** What happens to the manager: a call of a method, or the end of the time to
    live of a key, which no call brings about. *)
Inductive presence_event : Type → Type :=
| Calls {X} (c : presence_op X) : presence_event X
| Expires (a : ProtocolAddress) : presence_event unit.

(** [lapsed] is what the end of a key's time to live does to the state. *)
Definition presence_events {S} (h : handler presenceE string S) (lapsed : string → S → S) : handler presence_event string S := λ X e s,
  match e in presence_event X return outcome string X * S with
  | Calls c => interp h (presence_method _ c) s
  | Expires a => (Ok tt, lapsed (get_presence_key a) s)
  end.
Definition key_expired (k : string) (w : presence_world) : presence_world := with_shared w (expired k (shared w)).
Definition roster_events : handler presence_event string roster := λ X e r,
  match e in presence_event X return outcome string X * roster with
  | Calls c => roster_step _ c r
  | Expires a => (Ok tt, lapse a r)
  end.

(** ** Keys *)

Lemma colons_in s t : string_mem ":" (s +:+ String ":" t) = true.
Proof. rewrite string_mem_app. cbn. apply orb_true_r. Qed.

(** The last pair of colons splits a text in one way. *)
Lemma append_inj_colons s1 s2 t1 t2 :
  string_mem ":" t1 = false → string_mem ":" t2 = false →
  s1 +:+ "::" +:+ t1 = s2 +:+ "::" +:+ t2 → s1 = s2 ∧ t1 = t2.
Proof.
  intros H1 H2.
  assert (∀ u v s c, string_mem ":" u = false → "::" +:+ u = String c s +:+ "::" +:+ v → False) as Hone.
  { intros u v s c Hu Heq. rewrite !append_cons, !append_nil in Heq. injection Heq as <- Heq.
    destruct s as [|c s]; rewrite ?append_nil, ?append_cons in Heq; injection Heq; [intros ->; by cbn in Hu|].
    intros -> _. by rewrite colons_in in Hu. }
  revert s2. induction s1 as [|c s1 IH]; intros [|c' s2] Heq.
  - rewrite !append_nil, !append_cons, !append_nil in Heq. by simplify_eq.
  - by apply Hone in Heq.
  - by apply symmetry, Hone in Heq.
  - rewrite !(append_cons c), !(append_cons c') in Heq. injection Heq as -> Heq.
    destruct (IH s2 Heq) as [-> ->]. done.
Qed.

Global Instance get_presence_key_inj : Inj eq eq get_presence_key.
Proof.
  intros [n1 i1] [n2 i2]. unfold get_presence_key. cbn [name device_id]. intros Heq.
  apply (inj (String.append "presence::{")) in Heq.
  apply append_inj_colons in Heq as [-> Heq];
    [|by rewrite string_mem_app, string_mem_show..].
  apply (f_equal (split_on "}")) in Heq. rewrite !split_on_app in Heq by by apply string_mem_show.
  injection Heq as Heq. apply show_inj in Heq. by subst.
Qed.

Lemma set_key_not_presence c a : get_set_key c ≠ get_presence_key a.
Proof. unfold get_set_key, get_presence_key. by rewrite !append_cons. Qed.

(** ** One handle *)

Lemma interp_presence_redis {X A} i (c : redisE X) (f : X → presence_prog A) w :
  interp (presence_step i) (presence_redis c ≫= f) w =
  match redis_step _ c (shared w) with
  | (Ok x, d) => interp (presence_step i) (f x) (with_shared w d)
  | (Err e, d) => (Err e, with_shared w d)
  | (Panic m, d) => (Panic m, with_shared w d)
  end.
Proof.
  unfold presence_redis. rewrite interp_op_bind. cbn.
  by destruct (redis_step X c (shared w)) as [[x|e|m] d].
Qed.

(** One call that is no Redis command. *)
Ltac pstep := rewrite interp_op_bind; cbn [presence_step]; cbn beta iota.

(** One Redis command. *)
Ltac prstep :=
  rewrite interp_presence_redis; unfold redis_step at 1;
  cbn [shared with_shared with_listeners with_handle answer]; cbn beta iota.

(** The value of a handle's presence keys, and of its set. *)
Definition set_or_nothing (v : option rvalue) : bool :=
  match v with None | Some (VSet _) => true | _ => false end.

(** The presence keys of the addresses [on], all with a time to live. *)
Record keys_of (id : string) (d : keyspace) (on : gset ProtocolAddress) : Prop := {
  ko_key a : keys d !! get_presence_key a = if decide (a ∈ on) then Some (VStr id) else None;
  ko_ttl a : a ∈ on → is_Some (ttl d !! get_presence_key a);
}.

Record agrees (i : nat) (w : presence_world) (r : roster) : Prop := {
  ag_listeners a : displacement_listeners (handles w i) !! get_presence_key a = listening r !! a;
  ag_keys : keys_of (manager_id (handles w i)) (shared w) (online r);
  ag_set : set_or_nothing (keys (shared w) !! get_set_key (handles w i)) = true;
  ag_told : notified w = told r;
}.

Lemma key_ne a b : a ≠ b → get_presence_key a ≠ get_presence_key b.
Proof. intros Hne Heq. by apply (inj get_presence_key) in Heq. Qed.

Lemma keys_of_del id d on a : keys_of id d on → keys_of id (del (get_presence_key a) d) (on ∖ {[a]}).
Proof.
  intros [Hk Ht]. split; intros b; cbn; destruct (decide (a = b)) as [->|Hne].
  - rewrite lookup_delete_eq, decide_False by set_solver. done.
  - rewrite lookup_delete_ne, Hk by by apply key_ne. apply decide_ext. set_solver.
  - set_solver.
  - intros Hb. rewrite lookup_delete_ne by by apply key_ne. apply Ht. set_solver.
Qed.

Lemma keys_of_absent id d on a : keys_of id d on → a ∉ on → keys_of id d (on ∖ {[a]}).
Proof. intros Hk Ha. by replace (on ∖ {[a]}) with on by set_solver. Qed.

Lemma keys_of_expired id d on a : keys_of id d on → keys_of id (expired (get_presence_key a) d) (on ∖ {[a]}).
Proof.
  intros Hk. unfold expired. destruct (ttl d !! get_presence_key a) eqn:Ht; [by apply keys_of_del|].
  apply keys_of_absent; [done|]. intros Ha. destruct (ko_ttl _ _ _ Hk a Ha) as [n Hn]. congruence.
Qed.

Lemma keys_of_set id d on a :
  (∀ b, b ≠ a → keys d !! get_presence_key b = if decide (b ∈ on) then Some (VStr id) else None) →
  (∀ b, b ≠ a → b ∈ on → is_Some (ttl d !! get_presence_key b)) →
  keys_of id (expire (get_presence_key a) PRESENCE_EXPIRATION_SECONDS (put (get_presence_key a) (VStr id) (del (get_presence_key a) d)))
    ({[a]} ∪ on).
Proof.
  intros Hk Ht. unfold expire. cbn. rewrite lookup_insert_eq. split; intros b; cbn; rewrite ?insert_delete_eq;
    (destruct (decide (b = a)) as [->|Hne]; [rewrite lookup_insert_eq|rewrite lookup_insert_ne by by apply key_ne]).
  - by rewrite decide_True by set_solver.
  - rewrite Hk by done. apply decide_ext. set_solver.
  - by eexists.
  - intros Hb. apply Ht; [done|set_solver].
Qed.

Definition forget (a : ProtocolAddress) (r : roster) : roster :=
  {| listening := delete a (listening r); online := online r ∖ {[a]}; told := told r |}.

Lemma handle_same w i c : handles (with_handle w i c) i = c.
Proof. cbn. by rewrite decide_True. Qed.

Lemma str_of_presence i w r a :
  agrees i w r →
  str_of (shared w) (get_presence_key a) = Ok (if decide (a ∈ online r) then Some (manager_id (handles w i)) else None).
Proof. intros Hr. unfold str_of. rewrite (ko_key _ _ _ (ag_keys i w r Hr) a). by case_decide. Qed.

Lemma lookup_delete_key {A} (m : gmap string A) (f : gmap ProtocolAddress A) a b :
  (∀ c, m !! get_presence_key c = f !! c) →
  delete (get_presence_key a) m !! get_presence_key b = delete a f !! b.
Proof.
  intros Hf. destruct (decide (a = b)) as [->|Hne]; [by rewrite !lookup_delete_eq|].
  rewrite !lookup_delete_ne; [apply Hf|done|by apply key_ne].
Qed.

Lemma lookup_insert_key {A} (m : gmap string A) (f : gmap ProtocolAddress A) a b (x : A) :
  (∀ c, m !! get_presence_key c = f !! c) →
  <[get_presence_key a := x]> m !! get_presence_key b = <[a := x]> f !! b.
Proof.
  intros Hf. destruct (decide (a = b)) as [->|Hne]; [by rewrite !lookup_insert_eq|].
  rewrite !lookup_insert_ne; [apply Hf|done|by apply key_ne].
Qed.

Lemma agrees_delete i w r a :
  agrees i w r →
  agrees i (with_shared (with_listeners w i (delete (get_presence_key a) (displacement_listeners (handles w i))))
              (del (get_presence_key a) (shared w))) (forget a r).
Proof.
  intros Hr. split.
  - intros b. cbn. rewrite decide_True by done. cbn. apply lookup_delete_key, Hr.
  - cbn. rewrite decide_True by done. apply keys_of_del, Hr.
  - cbn. rewrite decide_True by done. cbn. rewrite lookup_delete_ne; [apply Hr|].
    apply not_eq_sym, (set_key_not_presence (handles w i)).
  - apply Hr.
Qed.

Lemma agrees_drop i w r a :
  agrees i w r → a ∉ online r →
  agrees i (with_listeners w i (delete (get_presence_key a) (displacement_listeners (handles w i)))) (forget a r).
Proof.
  intros Hr Ha. split.
  - apply (ag_listeners _ _ _ (agrees_delete i w r a Hr)).
  - cbn. rewrite decide_True by done. apply keys_of_absent; [apply Hr|done].
  - cbn. rewrite decide_True by done. apply Hr.
  - apply Hr.
Qed.

Lemma clear_run i w r a :
  agrees i w r →
  ∃ w', interp (presence_step i) (clear_presence (get_presence_key a)) w = (Ok (bool_decide (a ∈ online r)), w') ∧
        agrees i w' (forget a r).
Proof.
  intros Hr. unfold clear_presence. do 3 pstep. prstep.
  rewrite (str_of_presence i w r a Hr). destruct (decide (a ∈ online r)) as [Ha|Ha]; cbn [mbind outcome_bind answer].
  - prstep. rewrite bool_decide_true by done. eexists. split; [reflexivity|].
    by apply (agrees_delete i w r a).
  - rewrite bool_decide_false by done. eexists. split; [reflexivity|]. by apply (agrees_drop i w r a).
Qed.

Lemma displace_run i w r a l elsewhere :
  agrees i w r → listening r !! a = Some l →
  ∃ w', interp (presence_step i) (displace_presence (get_presence_key a) elsewhere) w = (Ok (bool_decide (a ∈ online r)), w') ∧
        agrees i w' (leave a elsewhere r).
Proof.
  intros Hr Ha. unfold displace_presence. pstep. rewrite (ag_listeners i w r Hr a).
  unfold leave. rewrite Ha. pstep.
  assert (agrees i (notify w l elsewhere) {| listening := listening r; online := online r; told := told r ++ [(l, elsewhere)] |}) as Hr'.
  { destruct Hr as [H1 H2 H3 H4]. split; [exact H1|exact H2|exact H3|]. cbn. by rewrite H4. }
  apply (clear_run i _ _ a Hr').
Qed.

Lemma agrees_enter i w r a l d :
  (∀ b, displacement_listeners (handles w i) !! get_presence_key b = listening r !! b) →
  (∀ b, b ≠ a → keys d !! get_presence_key b = if decide (b ∈ online r) then Some (VStr (manager_id (handles w i))) else None) →
  (∀ b, b ≠ a → b ∈ online r → is_Some (ttl d !! get_presence_key b)) →
  set_or_nothing (keys d !! get_set_key (handles w i)) = true → notified w = told r →
  agrees i (with_shared (with_listeners w i (<[get_presence_key a := l]> (displacement_listeners (handles w i))))
              (expire (get_presence_key a) PRESENCE_EXPIRATION_SECONDS
                 (put (get_presence_key a) (VStr (manager_id (handles w i))) (del (get_presence_key a) d))))
    (enter a l r).
Proof.
  intros Hl Hd Ht Hset Htold. split.
  - intros b. cbn. rewrite decide_True by done. cbn. by apply lookup_insert_key.
  - cbn [handles with_shared with_listeners with_handle shared]. rewrite decide_True by done. by apply keys_of_set.
  - cbn. rewrite keys_expire, decide_True by done. cbn. rewrite insert_delete_eq, lookup_insert_ne; [done|].
    apply not_eq_sym, (set_key_not_presence (handles w i)).
  - done.
Qed.

(** What [set_present] does once nobody listens any more. *)
Lemma register_run i w r a l :
  (∀ b, displacement_listeners (handles w i) !! get_presence_key b = listening r !! b) →
  (∀ b, b ≠ a → keys (shared w) !! get_presence_key b = if decide (b ∈ online r) then Some (VStr (manager_id (handles w i))) else None) →
  (∀ b, b ≠ a → b ∈ online r → is_Some (ttl (shared w) !! get_presence_key b)) →
  set_or_nothing (keys (shared w) !! get_set_key (handles w i)) = true → notified w = told r →
  ∃ w', interp (presence_step i)
    (self ← op Self;
     _ ← op (SetListeners (<[get_presence_key a := l]> (displacement_listeners self)));
     _ ← op PresencePool;
     let set_key := get_set_key self in
     _ ← presence_redis (SADD set_key (get_presence_key a));
     presence_redis (SETEX (get_presence_key a) PRESENCE_EXPIRATION_SECONDS (manager_id self))) w = (Ok tt, w') ∧
    agrees i w' (enter a l r).
Proof.
  intros Hl Hd Ht Hset Htold. do 3 pstep. prstep. unfold set_of.
  destruct (keys (shared w) !! get_set_key (handles w i)) as [[]|] eqn:Hk; try done;
    cbn [mbind outcome_bind answer]; unfold presence_redis at 1; rewrite interp_op; cbn;
    (eexists; split; [reflexivity|]); apply (agrees_enter i w r a l (put _ _ (shared w))); try done;
    try (by intros b Hb; rewrite keys_put_ne by apply set_key_not_presence; apply Hd);
    cbn; by rewrite lookup_insert_eq.
Qed.

Lemma set_present_run i w r a l :
  agrees i w r →
  ∃ w', interp (presence_step i) (set_present a l) w = (Ok tt, w') ∧
        agrees i w' (enter a l (leave a true r)).
Proof.
  intros Hr. unfold set_present. pstep. rewrite (ag_listeners i w r Hr a).
  rewrite interp_bind.
  assert (∃ w', interp (presence_step i)
     match listening r !! a with
     | Some _ => _ ← displace_presence (get_presence_key a) true; Ret tt
     | None => Ret tt
     end w = (Ok tt, w') ∧ agrees i w' (leave a true r)) as (w' & -> & Hr').
  { destruct (listening r !! a) eqn:Ha.
    - destruct (displace_run i w r a _ true Hr Ha) as (w' & Hrun & Hr'). exists w'. split; [|exact Hr'].
      by rewrite interp_bind, Hrun.
    - exists w. split; [done|]. unfold leave. by rewrite Ha. }
  apply register_run; try apply Hr'; intros b _; apply Hr'.
Qed.

Lemma disconnect_loop i u ids w r (acc : list string) :
  agrees i w r →
  ∃ w' acc', interp (presence_step i) (for_each ids acc (λ device_id presence_keys,
    let addr := {| name := u; device_id := device_id |} in
    let presence_key := get_presence_key addr in
    locally ← is_locally_present addr;
    displaced ← (if (locally : bool) then displace_presence presence_key false else Ret false);
    Ret (if (displaced : bool) then presence_keys ++ [presence_key] else presence_keys))) w = (Ok acc', w') ∧
    len acc' = len acc + (leave_all u ids r).1 ∧ agrees i w' (leave_all u ids r).2.
Proof.
  revert w r acc. induction ids as [|d ids IH]; intros w r acc Hr; cbn [for_each leave_all].
  { exists w, acc. cbn. split_and!; [done|lia|done]. }
  set (a := {| name := u; device_id := d |}). rewrite !interp_bind. unfold is_locally_present.
  rewrite interp_op_bind. cbn [presence_step interp]. rewrite (ag_listeners i w r Hr a). fold (here a r).
  rewrite interp_bind. destruct (here a r) eqn:Ha; cbn [andb].
  - pose proof Ha as [l Hl]%bool_decide_eq_true.
    destruct (displace_run i w r a l false Hr Hl) as (w1 & Hrun & Hr1). rewrite Hrun. cbn [interp].
    set (b := bool_decide (a ∈ online r)).
    destruct (IH w1 _ (if b then acc ++ [get_presence_key a] else acc) Hr1) as (w' & acc' & Hrun' & Hlen & Hr').
    exists w', acc'. split; [exact Hrun'|]. destruct (leave_all u ids (leave a false r)) as [n r'].
    split; [|done]. cbn [fst] in *. rewrite Hlen. destruct b; rewrite ?len_app; [change (len [get_presence_key a]) with 1|]; lia.
  - cbn [interp]. assert (leave a false r = r) as ->.
    { unfold leave, here in *. apply bool_decide_eq_false, eq_None_not_Some in Ha. by rewrite Ha. }
    destruct (IH w r acc Hr) as (w' & acc' & Hrun' & Hlen & Hr'). exists w', acc'. split; [exact Hrun'|].
    destruct (leave_all u ids r) as [n r']. split; [|done]. cbn [fst] in *. lia.
Qed.

Lemma disconnect_all_run i u ids w r :
  agrees i w r →
  ∃ w', interp (presence_step i) (disconnect_all_presence u ids) w = (Ok ((leave_all u ids r).1 mod 2 ^ 8), w') ∧
        agrees i w' (leave_all u ids r).2.
Proof.
  intros Hr. unfold disconnect_all_presence.
  destruct (disconnect_loop i u ids w r [] Hr) as (w' & acc & Hrun & Hlen & Hr').
  rewrite (interp_bind_ok _ _ _ _ _ _ Hrun). cbn [interp]. exists w'. by rewrite Hlen.
Qed.

Lemma is_present_run i w a :
  interp (presence_step i) (is_present a) w =
  (Ok (bool_decide (is_Some (keys (shared w) !! get_presence_key a))), w).
Proof.
  unfold is_present. pstep. prstep. cbn. destruct w as [hs d n]. cbn.
  by destruct (keys d !! get_presence_key a).
Qed.

Lemma is_locally_present_run i w a :
  interp (presence_step i) (is_locally_present a) w =
  (Ok (bool_decide (is_Some (displacement_listeners (handles w i) !! get_presence_key a))), w).
Proof. done. Qed.

Lemma renew_run i w r a :
  agrees i w r →
  ∃ w', interp (presence_step i) (renew_presence a) w = ((roster_step _ (Renew a) r).1, w') ∧ agrees i w' r.
Proof.
  intros Hr. unfold renew_presence. pstep. prstep.
  rewrite (str_of_presence i w r a Hr). cbn.
  destruct (decide (a ∈ online r)) as [Ha|Ha]; cbn [outcome_bind answer].
  - cbn. rewrite decide_True by done. cbn. eexists. split; [reflexivity|].
    destruct Hr as [H1 [H2 H2'] H3 H4]. split; cbn; [done| |by rewrite keys_expire|done]. split; [intros b; by rewrite keys_expire|].
    intros b Hb. unfold expire. destruct (keys (shared w) !! get_presence_key a); [|by apply H2']. cbn.
    destruct (decide (b = a)) as [->|Hne]; [by rewrite lookup_insert_eq; eexists|].
    rewrite lookup_insert_ne by by apply key_ne. by apply H2'.
  - cbn. eexists. split; [reflexivity|]. destruct Hr as [H1 H2 H3 H4]. by split.
Qed.

(** Every method, through one handle. *)
Lemma method_refines_roster i X (c : presence_op X) w r :
  agrees i w r →
  ∃ w', presence_handle i X c w = ((roster_step X c r).1, w') ∧ agrees i w' (roster_step X c r).2.
Proof.
  intros Hr. destruct c as [a l|a|u ids|a|a|a]; unfold presence_handle; cbn [presence_method roster_step].
  - by apply set_present_run.
  - destruct (renew_run i w r a Hr) as (w' & Hrun & Hr'). by exists w'.
  - destruct (disconnect_all_run i u ids w r Hr) as (w' & Hrun & Hr').
    exists w'. rewrite Hrun. by destruct (leave_all u ids r).
  - destruct (disconnect_all_run i (name a) [device_id a] w r Hr) as (w' & Hrun & Hr').
    exists w'. unfold disconnect_presence. rewrite Hrun. by destruct (leave_all (name a) [device_id a] r).
  - exists w. split; [|done]. rewrite is_present_run. cbn. do 2 f_equal. apply bool_decide_ext.
    rewrite (ko_key _ _ _ (ag_keys i w r Hr) a). case_decide; [by split; [|eexists]|split; [by intros ?%is_Some_None|done]].
  - exists w. split; [|done]. rewrite is_locally_present_run. cbn. unfold here. by rewrite (ag_listeners i w r Hr a).
Qed.

Lemma expiry_refines i a w r : agrees i w r → agrees i (key_expired (get_presence_key a) w) (lapse a r).
Proof.
  intros [H1 H2 H3 H4]. split; [exact H1|by apply keys_of_expired| |exact H4]. cbn. unfold expired.
  destruct (ttl _ !! _); [|done]. cbn. rewrite lookup_delete_ne; [done|]. apply not_eq_sym, (set_key_not_presence (handles w i)).
Qed.

(** ** Several handles *)

(** A handle leaves the maps of the others alone. *)
Lemma other_handles {A} i j (p : presence_prog A) w :
  i ≠ j → handles (interp (presence_step i) p w).2 j = handles w j.
Proof.
  intros Hij. apply (interp_invariant (λ w', handles w' j = handles w j)); [|done].
  intros X c w' Hw'. destruct c; cbn; [done| |done| |done].
  - by rewrite decide_False.
  - by destruct (redis_step X c (shared w')) as [[] ].
Qed.

Lemma agrees_clone i j w r : agrees i w r → agrees j (clone_handle w i j) r.
Proof.
  intros [H1 H2 H3 H4]. split; unfold clone_handle; cbn; rewrite ?decide_True by done; done.
Qed.

(** What a clone of handle [i] does to the world handle [i] sees. *)
Lemma clone_sets_present i j w r a l :
  i ≠ j → agrees i w r → here a r = false →
  ∃ w', interp (presence_step j) (set_present a l) (clone_handle w i j) = (Ok tt, w') ∧
    agrees j w' (enter a l r) ∧ handles w' i = handles w i ∧ manager_id (handles w' j) = manager_id (handles w i).
Proof.
  intros Hij Hr Ha. destruct (set_present_run j _ _ a l (agrees_clone i j w r Hr)) as (w' & Hrun & Hr').
  assert (leave a true r = r) as Hleave.
  { unfold leave, here in *. apply bool_decide_eq_false, eq_None_not_Some in Ha. by rewrite Ha. }
  rewrite Hleave in Hr'. exists w'. split_and!; [done|done| |].
  - pose proof (other_handles j i (set_present a l) (clone_handle w i j) (not_eq_sym Hij)) as Ho.
    rewrite Hrun in Ho. cbn [snd] in Ho. rewrite Ho. unfold clone_handle. cbn. by rewrite decide_False.
  - assert (manager_id (handles (interp (presence_step j) (set_present a l) (clone_handle w i j)).2 j)
            = manager_id (handles w i)) as Hm; [|by rewrite Hrun in Hm].
    apply (interp_invariant (λ w', manager_id (handles w' j) = manager_id (handles w i))).
    + intros X c w1 Hw1. destruct c; cbn; [done|by rewrite decide_True|done| |done].
      by destruct (redis_step X c (shared w1)) as [[] ].
    + unfold clone_handle. cbn. by rewrite decide_True.
Qed.

(** ** Properties *)

(** C35: through one handle, and while nobody else writes its keys, the manager
    keeps a map from addresses to listeners and the set of those whose key has
    not expired: any program of registrations, renewals, disconnections and
    queries, with keys that expire in between at any time, replies what the
    map and the set reply, and the listeners it tells are those the map
    displaces, in that order.  A client whose key has expired keeps its
    listener, is not present, is not counted when it disconnects, and cannot be
    renewed: renewing fails. *)
Theorem presence_is_a_roster {S} (h : handler presenceE string S) (lapsed : string → S → S) (view : S → presence_world) (i : nat)
    (Hh : sim h (presence_step i) view) (Hlapsed : ∀ k s, view (lapsed k s) = key_expired k (view s))
    {A} (p : prog presence_event string A) (s : S) (r : roster) (Hr : agrees i (view s) r) :
  ∃ s', interp (presence_events h lapsed) p s = ((interp roster_events p r).1, s') ∧
        agrees i (view s') (interp roster_events p r).2.
Proof.
  apply (interp_refines (λ s r, agrees i (view s) r)); [|done].
  intros X e s1 r1 Hr1. destruct e as [X c|a]; cbn [presence_events roster_events].
  - destruct (method_refines_roster i X c (view s1) r1 Hr1) as (w' & Hrun & Hr').
    apply (sim_run _ _ _ _ _ _ _ Hh) in Hrun as (s' & Hrun & <-). by exists s'.
  - eexists. split; [reflexivity|]. rewrite Hlapsed. by apply expiry_refines.
Qed.

Definition lone_manager : presence_world :=
  {| handles := λ _, {| displacement_listeners := ∅; manager_id := "m" |};
     shared := {| keys := ∅; ttl := ∅ |}; notified := [] |}.
Definition nobody : roster := {| listening := ∅; online := ∅; told := [] |}.

Lemma lone_manager_agrees : agrees 0 lone_manager nobody.
Proof. split; [by intros; cbn; rewrite !lookup_empty| |done|done]. split; intros a; cbn; [|set_solver]. by rewrite lookup_empty, decide_False by set_solver. Qed.

Definition demo_presence : prog presence_event string (Z * bool * bool * bool) :=
  _ ← op (Calls (SetPresent sample_address 4)); _ ← op (Calls (SetPresent sample_address 5));
  n ← op (Calls (Disconnect sample_address));
  _ ← op (Calls (SetPresent sample_address 6)); _ ← op (Expires sample_address);
  b ← op (Calls (IsPresent sample_address)); l ← op (Calls (IsLocallyPresent sample_address));
  m ← op (Calls (Disconnect sample_address)); Ret (n, b, l, m =? 0).

Lemma presence_is_a_roster_witness :
  ∃ w, interp (presence_events (presence_step 0) key_expired) demo_presence lone_manager = (Ok (1, false, true, true), w) ∧
    notified w = [(4%nat, true); (5%nat, false); (6%nat, false)].
Proof.
  destruct (presence_is_a_roster (presence_step 0) key_expired id 0%nat (sim_refl _) (λ _ _, eq_refl) demo_presence
    lone_manager nobody lone_manager_agrees) as (w & Hrun & Hw).
  change (id w) with w in Hw. exists w. rewrite Hrun. split; [by vm_compute|]. rewrite (ag_told _ _ _ Hw). by vm_compute.
Defined.

(** A clone of the manager does not share its listeners.  When a client
    registers through a clone, the original finds it present but not locally
    present; when the client then registers again through the original, the
    listener of the first connection is not told; and when it disconnects there,
    the key of both is gone while the clone still lists its listener. *)
Theorem clones_do_not_share_listeners (i j : nat) (w : presence_world) (r : roster) (a : ProtocolAddress) (l l' : nat)
    (Hij : i ≠ j) (Hr : agrees i w r) (Ha : here a r = false) :
  ∃ w1 w2 w3,
    interp (presence_step j) (set_present a l) (clone_handle w i j) = (Ok tt, w1) ∧
    interp (presence_step i) (is_present a) w1 = (Ok true, w1) ∧
    interp (presence_step i) (is_locally_present a) w1 = (Ok false, w1) ∧
    interp (presence_step i) (set_present a l') w1 = (Ok tt, w2) ∧ notified w2 = notified w ∧
    interp (presence_step i) (disconnect_presence a) w2 = (Ok 1, w3) ∧ notified w3 = notified w ++ [(l', false)] ∧
    interp (presence_step j) (is_present a) w3 = (Ok false, w3) ∧
    interp (presence_step j) (is_locally_present a) w3 = (Ok true, w3).
Proof.
  destruct (clone_sets_present i j w r a l Hij Hr Ha) as (w1 & Hrun1 & Hr1 & Hi1 & Hm1).
  unfold here in Ha. apply bool_decide_eq_false, eq_None_not_Some in Ha.
  assert (displacement_listeners (handles w1 i) !! get_presence_key a = None) as Hnone.
  { rewrite Hi1, (ag_listeners i w r Hr a). done. }
  assert (∃ w2, interp (presence_step i) (set_present a l') w1 = (Ok tt, w2) ∧ agrees i w2 (enter a l' r))
    as (w2 & Hrun2 & Hr2).
  { unfold set_present. pstep. rewrite Hnone. cbn [interp]. apply register_run.
    - intros b. rewrite Hi1. apply Hr.
    - intros b Hb. rewrite (ko_key _ _ _ (ag_keys j w1 _ Hr1) b), Hm1, Hi1. cbn. apply decide_ext. set_solver.
    - intros b Hb Hon. apply (ko_ttl _ _ _ (ag_keys j w1 _ Hr1)). cbn. set_solver.
    - unfold get_set_key. rewrite Hi1, <- Hm1. apply (ag_set j w1 _ Hr1).
    - rewrite (ag_told j w1 _ Hr1). done. }
  destruct (disconnect_all_run i (name a) [device_id a] w2 _ Hr2) as (w3 & Hrun3 & Hr3).
  assert ({| name := name a; device_id := device_id a |} = a) as Ea by by destruct a.
  assert (leave_all (name a) [device_id a] (enter a l' r) =
          (1, {| listening := delete a (<[a := l']> (listening r)); online := ({[a]} ∪ online r) ∖ {[a]}; told := told r ++ [(l', false)] |})) as Hl.
  { cbn [leave_all]. rewrite Ea. unfold leave, here, enter. cbn. rewrite lookup_insert_eq, (bool_decide_true (_ ∈ _)) by set_solver. done. }
  rewrite Hl in Hrun3, Hr3. exists w1, w2, w3. split_and!; try done.
  - rewrite is_present_run. rewrite (ko_key _ _ _ (ag_keys j w1 _ Hr1) a). cbn. by rewrite decide_True by set_solver.
  - rewrite is_locally_present_run. by rewrite Hnone.
  - rewrite (ag_told _ _ _ Hr2), (ag_told _ _ _ Hr). done.
  - rewrite (ag_told _ _ _ Hr3), (ag_told _ _ _ Hr). done.
  - rewrite is_present_run, (ko_key _ _ _ (ag_keys _ _ _ Hr3) a). cbn. by rewrite decide_False by set_solver.
  - rewrite is_locally_present_run.
    pose proof (other_handles i j (disconnect_presence a) w2 Hij) as Ho.
    change (disconnect_presence a) with (disconnect_all_presence (name a) [device_id a]) in Ho. rewrite Hrun3 in Ho.
    pose proof (other_handles i j (set_present a l') w1 Hij) as Ho'. rewrite Hrun2 in Ho'. cbn [snd] in *.
    rewrite Ho, Ho', (ag_listeners j w1 _ Hr1 a). cbn. by rewrite lookup_insert_eq.
Qed.

Lemma clones_do_not_share_listeners_witness :
  let '(_, w1) := interp (presence_step 1) (set_present sample_address 7) (clone_handle lone_manager 0 1) in
  (interp (presence_step 0) (is_locally_present sample_address) w1).1 = Ok false.
Proof.
  destruct (clones_do_not_share_listeners 0 1 lone_manager nobody sample_address 7 8) as (w1 & w2 & w3 & H1 & _ & H2 & _).
  - done.
  - apply lone_manager_agrees.
  - done.
  - rewrite H1. cbv beta iota. rewrite H2. done.
Defined.
