(* ===== verification/RedisQueue.v ===== *)
(** Queues in Redis ([server/src/storage/redis.rs]).

    A queue is a sorted set of entries ["id:base64:order"] scored by id, a
    metadata hash from guids to ids that also holds the id counter, and a
    reverse hash from ids to guids.  The first part translates the operations;
    the second gives a queue its meaning, a list of items, and the third shows
    that every operation does to the items what its name says. *)
From S2P Require Export Server Chunk.

Local Open Scope Z_scope.

Definition PAGE_SIZE : Z := 100.

(** ** Decoding *)

(** The text between the first and the second colon, decoded. *)
Section decoder.
Context `{Base64}.

(** [Decoder::decode], the default implementation. *)
Definition decode_default {T} (deserialize : bytes → option T) (values : list string)
    : outcome string (list T) :=
  collect (λ v,
    base64 ← expect "Redis value in wrong delimiter format!" (split_on ":" v !! 1%nat);
    data ← expect "Redis value not base64! " (b64_decode base64);
    ok_or "bincode" (deserialize data)) values.

(** [Decoder<Vec<u8>> for Bytes] *)
Definition decode_bytes (values : list string) : outcome string (list bytes) :=
  collect (λ v,
    base64 ← expect "Redis value in wrong delimiter format!" (split_on ":" v !! 1%nat);
    ok_or "Redis value not base64!" (b64_decode base64)) values.

(** [create_payload_entry] *)
Definition create_payload_entry (id : Z) (value : bytes) (order : Z) : string :=
  show id +:+ ":" +:+ b64_encode value +:+ ":" +:+ show order.
End decoder.

Class Decoder (T : Type) := decode : list string → outcome string (list T).
Global Instance Decoder_bytes `{Base64} : Decoder bytes := decode_bytes.
Global Instance Decoder_DenimChunk `{Base64, Bincode} : Decoder DenimChunk :=
  decode_default deserialize_chunk.
Global Instance Decoder_DeniablePayload `{Base64, Bincode} : Decoder DeniablePayload :=
  decode_default deserialize_payload.
Global Instance Decoder_Envelope `{Base64, Bincode} : Decoder Envelope :=
  decode_default deserialize_envelope.

(** [to_string]: a bulk string read as a vector is a vector of one string. *)
Definition to_string (value : string) : outcome string string := ok_or "Failed" (head [value]).

Definition get_field_metadata (value : string) : outcome string Z :=
  s ← to_string value;
  f ← ok_or "Failed" (split_on ":" s !! 0%nat);
  ok_or "invalid digit found in string" (parse_u64 f).

Definition get_order_metadata (value : string) : outcome string Z :=
  s ← to_string value;
  f ← ok_or "Failed" (split_on ":" s !! 2%nat);
  ok_or "invalid digit found in string" (parse_i64 f).

(** [format!("{}:rev", queue_metadata_key)] *)
Definition rev_key (queue_metadata_key : string) : string := queue_metadata_key +:+ ":rev".

(** [time.duration_since(UNIX_EPOCH)?.as_secs()] *)
Definition as_secs (millis : Z) : outcome string Z :=
  if millis <? 0 then Err "second time provided was later than self" else Ok (millis / 1000).

(** A reply read as a type it may not have. *)
Definition reply {A} (r : option A) : outcome string A :=
  ok_or "Response was of incompatible type" r.

(** ** Operations *)

Section operations.
Context `{Base64}.

Definition insert (queue_key queue_metadata_key queue_total_index_key field_guid : string)
    (value : bytes) : prog serverE string Z :=
  message_guid_exists ← redis (HEXISTS queue_metadata_key field_guid);
  if message_guid_exists =? 1 then
    num ← redis (HGET queue_metadata_key field_guid);
    num ← lift (reply num);
    lift (expect "Could not parse redis id" (parse_u64 num))
  else
    value_id ← redis (HINCRBY queue_metadata_key "counter" 1);
    value_id ← lift (reply (if in_u64 value_id then Some value_id else None));
    let value_unique := show value_id +:+ ":" +:+ b64_encode value +:+ ":" +:+ show 0 in
    _ ← redis (ZADD queue_key true value_id value_unique);
    _ ← redis (HSET queue_metadata_key field_guid (show value_id));
    _ ← redis (HSET (rev_key queue_metadata_key) (show value_id) field_guid);
    _ ← redis (EXPIRE queue_key 2678400);
    _ ← redis (EXPIRE queue_metadata_key 2678400);
    time ← op Now;
    secs ← lift (as_secs time);
    _ ← redis (ZADD queue_total_index_key true secs queue_key);
    Ret value_id.

(** The body of the loop over the guids in [remove]. *)
Definition remove_one `{Decoder T} (queue_key queue_metadata_key : string) (guid : string)
    (removed_values : list T) : prog serverE string (list T) :=
  value_id ← redis (HGET queue_metadata_key guid);
  match value_id with
  | Some value_id =>
      values ← redis (ZRANGEBYSCORE queue_key value_id value_id (Some (0, 1)));
      _ ← redis (ZREMRANGEBYSCORE queue_key value_id value_id);
      _ ← redis (HDEL queue_metadata_key guid);
      _ ← redis (HDEL (rev_key queue_metadata_key) value_id);
      data ← lift (decode values);
      Ret (removed_values ++ data)
  | None => Ret removed_values
  end.

Definition remove `{Decoder T} (queue_key queue_metadata_key queue_total_index_key : string)
    (field_guids : list string) : prog serverE string (list T) :=
  removed_values ← for_each field_guids [] (remove_one queue_key queue_metadata_key);
  card ← redis (ZCARD queue_key);
  if card =? 0 then
    _ ← redis (DEL queue_key);
    _ ← redis (DEL queue_metadata_key);
    _ ← redis (ZREM queue_total_index_key [queue_key]);
    Ret removed_values
  else Ret removed_values.

Definition get_values (queue_key queue_lock_key queue_metadata_key : string) (stop_index : Z)
    : prog serverE string (list string * list string) :=
  let values_sort := "(" +:+ show stop_index in
  locked ← redis (GET queue_lock_key);
  match locked with
  | Some _ => Ret ([], [])
  | None =>
      values ← redis (ZRANGEBYSCORE queue_key values_sort "+inf" (Some (0, PAGE_SIZE)));
      field_ids ← lift (collect (λ v, show <$> get_field_metadata v) values);
      field_guids ← for_each field_ids [] (λ field_id field_guids,
        field_guid ← redis (HGET (rev_key queue_metadata_key) field_id);
        Ret (field_guids ++ [default "" field_guid]));
      Ret (values, field_guids)
  end.

Definition get_first (queue_key queue_lock_key : string) : prog serverE string string :=
  locked ← redis (GET queue_lock_key);
  match locked with
  | Some _ => Throw "Failed to get first value: queue is locked."
  | None =>
      value ← redis (ZRANGE queue_key 0 0);
      lift (ok_or "Failed to get first value: empty value." (head value))
  end.

Definition update_value (queue_key : string) (field_id : Z) (new_value : bytes)
    : prog serverE string (bool * Z) :=
  value_guid_exists ← redis (ZRANGEBYSCORE queue_key (show field_id) (show field_id) None);
  if decide (value_guid_exists = []) then Throw "Failed to update non-existent value."
  else
    value ← lift (ok_or "failed" (head value_guid_exists));
    old_entry ← lift (to_string value);
    removed ← redis (ZREM queue_key [old_entry]);
    if negb (removed =? 1) then Throw "Failed to remove value!"
    else
      order ← lift (get_order_metadata value);
      prev ← lift (if order =? - 2 ^ 63 then Panic "attempt to subtract with overflow" else Ok (order - 1));
      let new_entry := create_payload_entry field_id new_value (as_i32 prev) in
      added ← redis (ZADD queue_key false field_id new_entry);
      if negb (added =? 1) then Throw "Failed to add value!"
      else
        updated ← lift (ok_or "Update failed!" (if added =? removed then Some true else None));
        Ret (updated, as_i32 order).

(** Take part of the first value out, or all of it. *)
Definition dequeue_bytes
    (queue_key queue_metadata_key queue_total_index_key queue_lock_key : string)
    (bytes_amount : Z) : prog serverE string (bytes * Z * Z) :=
  first ← try_ (get_first queue_key queue_lock_key);
  match first with
  | inl _ => Ret ([], 0, ChunkType.into_i32 ChunkType.Dummy)
  | inr first =>
      field_id ← lift (get_field_metadata first);
      values ← lift (decode_bytes [first]);
      value ← lift (ok_or "Failed to decode value." (head values));
      if bytes_amount <? len value then
        let rest := drop (Z.to_nat bytes_amount) value in
        let value := take (Z.to_nat bytes_amount) value in
        '(updated, order) ← update_value queue_key field_id rest;
        if negb updated then Throw "Failed to update value."
        else Ret (value, len value, ChunkType.into_i32 (ChunkType.Data order))
      else
        field_guid ← redis (HGET (rev_key queue_metadata_key) (show field_id));
        match field_guid with
        | Some guid =>
            removed ← remove (T:=bytes) queue_key queue_metadata_key queue_total_index_key [guid];
            let value := concat removed in
            Ret (value, len value, ChunkType.into_i32 ChunkType.Final)
        | None => Throw "Failed to take values: field guid not found."
        end
  end.
End operations.

(** ** The meaning of a queue *)

Record item := { it_id : Z; it_guid : string; it_data : bytes; it_order : Z }.

(** The counter of the last id given out, and the items by increasing id. *)
Record rqueue := { q_next : Z; q_items : list item }.

Definition empty_queue : rqueue := {| q_next := 0; q_items := [] |}.

Record queue_keys := { k_queue : string; k_meta : string; k_index : string; k_lock : string }.

Definition queue_key_list (K : queue_keys) : list string :=
  [k_queue K; k_meta K; rev_key (k_meta K); k_index K].

Definition keys_distinct (K : queue_keys) : Prop :=
  NoDup [k_queue K; k_meta K; rev_key (k_meta K); k_index K; k_lock K].

Section rep.
Context `{Base64}.

Definition entry (it : item) : string := create_payload_entry (it_id it) (it_data it) (it_order it).

Definition find_guid (g : string) (l : list item) : option item := head (filter (λ it, it_guid it = g) l).
Definition find_id (f : string) (l : list item) : option item := head (filter (λ it, show (it_id it) = f) l).

(** What the metadata hash and the reverse hash hold. *)
Definition meta_field (q : rqueue) (g : string) : option string :=
  if decide (g = "counter") then (if q_next q =? 0 then None else Some (show (q_next q)))
  else show ∘ it_id <$> find_guid g (q_items q).
Definition rev_field (q : rqueue) (f : string) : option string :=
  it_guid <$> find_id f (q_items q).

Record queue_wf (q : rqueue) : Prop := {
  wf_sorted : StronglySorted Z.lt (map it_id (q_items q));
  wf_ids : Forall (λ it, 1 ≤ it_id it ≤ q_next q) (q_items q);
  wf_next : 0 ≤ q_next q < 2 ^ 63;
  wf_guids : NoDup (map it_guid (q_items q));
  wf_names : Forall (λ it, it_guid it ≠ "counter" ∧ it_guid it ≠ "") (q_items q);
  wf_orders : Forall (λ it, in_i32 (it_order it) = true) (q_items q);
}.

(** The keyspace [d] holds the queue [q] under the keys [K]; [l] is the value
    of the lock, if it is taken. *)
Record held (l : option string) (K : queue_keys) (d : keyspace) (q : rqueue) : Prop := {
  holds_wf : queue_wf q;
  holds_zset : zset_of d (k_queue K) = Ok (map (λ it, (it_id it, entry it)) (q_items q));
  holds_meta : ∃ h, hash_of d (k_meta K) = Ok h ∧ ∀ g, h !! g = meta_field q g;
  holds_rev : ∃ h, hash_of d (rev_key (k_meta K)) = Ok h ∧ ∀ f, h !! f = rev_field q f;
  holds_index : ∃ z, zset_of d (k_index K) = Ok z;
  holds_lock : str_of d (k_lock K) = Ok l;
}.

(** *** Operations on the meaning *)

Definition q_insert (guid : string) (value : bytes) (q : rqueue) : Z * rqueue :=
  match find_guid guid (q_items q) with
  | Some it => (it_id it, q)
  | None =>
      let n := q_next q + 1 in
      (n, {| q_next := n;
             q_items := q_items q ++ [{| it_id := n; it_guid := guid; it_data := value; it_order := 0 |}] |})
  end.

Definition q_drop (guid : string) (q : rqueue) : rqueue :=
  {| q_next := q_next q; q_items := filter (λ it, it_guid it ≠ guid) (q_items q) |}.

(** An empty queue forgets its counter. *)
Definition q_reset (q : rqueue) : rqueue := if decide (q_items q = []) then empty_queue else q.

(** The items of the given guids, in that order, each at most once. *)
Fixpoint q_take (guids : list string) (q : rqueue) : list item * rqueue :=
  match guids with
  | [] => ([], q)
  | g :: guids =>
      let '(its, q') := q_take guids (q_drop g q) in
      (option_list (find_guid g (q_items q)) ++ its, q')
  end.

Definition q_remove (guids : list string) (q : rqueue) : list item * rqueue :=
  let '(its, q') := q_take guids q in (its, q_reset q').

Definition q_page (q : rqueue) : list item := take (Z.to_nat PAGE_SIZE) (q_items q).

Definition q_dequeue (amount : Z) (q : rqueue) : (bytes * Z * Z) * rqueue :=
  match q_items q with
  | [] => (([], 0, 1), q)
  | it :: its =>
      if amount <? len (it_data it) then
        let n := Z.to_nat amount in
        ((take n (it_data it), amount, it_order it),
         {| q_next := q_next q;
            q_items := {| it_id := it_id it; it_guid := it_guid it; it_data := drop n (it_data it);
                          it_order := as_i32 (it_order it - 1) |} :: its |})
      else ((it_data it, len (it_data it), 2), q_reset (q_drop (it_guid it) q))
  end.

(** *** Entries *)

Lemma split_entry it :
  split_on ":" (entry it) = [show (it_id it); b64_encode (it_data it); show (it_order it)].
Proof.
  unfold entry, create_payload_entry.
  rewrite !append_cons, !append_nil.
  rewrite !split_on_app, split_on_free; [done|by apply string_mem_show| |by apply string_mem_show].
  apply b64_no_colon.
Qed.

Lemma field_of_entry it : in_u64 (it_id it) = true → get_field_metadata (entry it) = Ok (it_id it).
Proof. intros Hu. unfold get_field_metadata. cbn -[split_on]. rewrite split_entry. cbn. by rewrite parse_u64_show. Qed.

Lemma order_of_entry it : in_i64 (it_order it) = true → get_order_metadata (entry it) = Ok (it_order it).
Proof.
  intros Hu. unfold get_order_metadata. cbn -[split_on]. rewrite split_entry. cbn.
  unfold parse_i64. by rewrite parse_signed_show.
Qed.

Lemma decode_bytes_entries its : decode_bytes (map entry its) = Ok (map it_data its).
Proof.
  unfold decode_bytes. induction its as [|it its IH]; [done|]. cbn [map collect].
  rewrite split_entry. cbn. rewrite b64_decode_encode. cbn. by rewrite IH.
Qed.

Lemma decode_default_entries {T} (de : bytes → option T) its ts :
  Forall2 (λ it t, de (it_data it) = Some t) its ts → decode_default de (map entry its) = Ok ts.
Proof.
  unfold decode_default. induction 1 as [|it t its ts Ht Hts IH]; [done|]. cbn [map collect].
  rewrite split_entry. cbn. rewrite b64_decode_encode. cbn. rewrite Ht. cbn. by rewrite IH.
Qed.

Lemma entries_page n its :
  map snd (take n (map (λ it, (it_id it, entry it)) its)) = map entry (take n its).
Proof.
  revert n. induction its as [|it its IH]; intros [|n]; [done..|]. cbn. by rewrite IH.
Qed.

Lemma entry_inj_id it it' : entry it = entry it' → it_id it = it_id it'.
Proof.
  intros Heq. pose proof (split_entry it) as Hs. rewrite Heq, split_entry in Hs.
  apply show_inj. congruence.
Qed.
End rep.

(** The queue is there and nobody holds the lock. *)
Abbreviation holds := (held None).

(** A write elsewhere keeps the queue; the lock may change hands. *)
Lemma held_frame `{Base64} l l' K d d' q :
  held l K d q → (∀ k, k ∈ queue_key_list K → keys d' !! k = keys d !! k) →
  str_of d' (k_lock K) = Ok l' → held l' K d' q.
Proof.
  intros [Hwf Hz Hm Hr Hi Hl] Heq Hl'.
  pose proof (Heq (k_queue K) ltac:(set_solver)) as H1.
  pose proof (Heq (k_meta K) ltac:(set_solver)) as H2.
  pose proof (Heq (rev_key (k_meta K)) ltac:(set_solver)) as H3.
  pose proof (Heq (k_index K) ltac:(set_solver)) as H4.
  unfold zset_of, hash_of in *. split; unfold zset_of, hash_of; rewrite ?H1, ?H2, ?H3, ?H4; done.
Qed.

(** *** Finding items *)

Lemma head_app {A} (l k : list A) : head (l ++ k) = match head l with Some x => Some x | None => head k end.
Proof. by destruct l. Qed.

Section find.
Context `{Base64}.

Lemma find_guid_app g l k :
  find_guid g (l ++ k) = match find_guid g l with Some x => Some x | None => find_guid g k end.
Proof. unfold find_guid. by rewrite filter_app, head_app. Qed.

Lemma find_id_app f l k :
  find_id f (l ++ k) = match find_id f l with Some x => Some x | None => find_id f k end.
Proof. unfold find_id. by rewrite filter_app, head_app. Qed.

Lemma find_guid_cons g it l :
  find_guid g (it :: l) = if decide (it_guid it = g) then Some it else find_guid g l.
Proof. unfold find_guid. rewrite filter_cons. by case_decide. Qed.

Lemma find_id_cons f it l :
  find_id f (it :: l) = if decide (show (it_id it) = f) then Some it else find_id f l.
Proof. unfold find_id. rewrite filter_cons. by case_decide. Qed.

Lemma find_guid_Some g l it : find_guid g l = Some it → it ∈ l ∧ it_guid it = g.
Proof.
  induction l as [|x l IH]; [done|]. rewrite find_guid_cons. case_decide.
  - intros. simplify_eq. split; [left|done].
  - intros Hf. destruct (IH Hf). split; [by right|done].
Qed.

Lemma find_guid_None g l : find_guid g l = None ↔ g ∉ map it_guid l.
Proof.
  induction l as [|x l IH]; [split; [set_solver|done]|]. rewrite find_guid_cons. cbn.
  rewrite not_elem_of_cons. case_decide; [naive_solver|]. rewrite IH. naive_solver.
Qed.

Lemma find_id_None f l : find_id f l = None ↔ Forall (λ it, show (it_id it) ≠ f) l.
Proof.
  induction l as [|x l IH]; [by split|]. rewrite find_id_cons, Forall_cons.
  case_decide; [naive_solver|]. rewrite IH. naive_solver.
Qed.

(** In a list of distinct ids, an item is the one found by its id. *)
Lemma find_id_elem l it : NoDup (map it_id l) → it ∈ l → find_id (show (it_id it)) l = Some it.
Proof.
  induction l as [|x l IH]; [set_solver|]. cbn. rewrite NoDup_cons, elem_of_cons, find_id_cons.
  intros [Hx Hnd] Hin. case_decide as Heq.
  - destruct Hin as [->|Hin]; [done|]. exfalso. apply Hx. apply show_inj in Heq. rewrite Heq.
    by apply list_elem_of_fmap_2.
  - destruct Hin as [->|Hin]; [done|]. by apply IH.
Qed.

Lemma sorted_NoDup l : StronglySorted Z.lt l → NoDup l.
Proof.
  induction 1 as [|x l Hs IH Hx]; constructor; [|done].
  intros Hin. rewrite Forall_forall in Hx. specialize (Hx _ Hin). lia.
Qed.

Lemma meta_field_counter q : meta_field q "counter" = if q_next q =? 0 then None else Some (show (q_next q)).
Proof. unfold meta_field. by rewrite decide_True. Qed.

Lemma meta_field_ne q g : g ≠ "counter" → meta_field q g = show ∘ it_id <$> find_guid g (q_items q).
Proof. intros. unfold meta_field. by rewrite decide_False. Qed.

(** The entries of items whose ids are below a new id. *)
Lemma entries_below n its :
  Forall (λ it, it_id it < n) its →
  Forall (λ y : Z * string, y.1 < n) (map (λ it, (it_id it, entry it)) its).
Proof. intros Hf. apply Forall_fmap. by eapply Forall_impl. Qed.

Lemma entries_other it its :
  Forall (λ x, it_id x ≠ it_id it) its →
  Forall (λ y : Z * string, y.2 ≠ entry it) (map (λ x, (it_id x, entry x)) its).
Proof.
  intros Hf. apply Forall_fmap. eapply Forall_impl; [done|]. cbn.
  intros x Hx Heq. by apply entry_inj_id in Heq.
Qed.

Lemma ids_lt_next q : queue_wf q → Forall (λ it, it_id it < q_next q + 1) (q_items q).
Proof. intros Hwf. eapply Forall_impl; [apply (wf_ids q Hwf)|]. cbn. lia. Qed.

Lemma q_insert_wf guid value q :
  queue_wf q → guid ≠ "counter" → guid ≠ "" → q_next q < 2 ^ 63 - 1 →
  queue_wf (q_insert guid value q).2.
Proof.
  intros Hwf Hg1 Hg2 Hn. unfold q_insert. destruct (find_guid guid (q_items q)) eqn:Hf; [done|].
  apply find_guid_None in Hf. destruct Hwf as [Hs Hids Hnext Hnd Hnm Hor].
  split; cbn; rewrite ?map_app.
  - apply StronglySorted_app. split_and!; [|done|repeat constructor]. cbn.
    intros x1 x2 Hx1 Hx2. apply list_elem_of_singleton in Hx2 as ->.
    apply list_elem_of_fmap in Hx1 as (it & -> & Hit).
    rewrite Forall_forall in Hids. specialize (Hids _ Hit). lia.
  - apply Forall_app. split; [apply (Forall_impl _ _ _ Hids); cbn; lia|].
    repeat constructor; cbn; lia.
  - lia.
  - apply NoDup_app. split_and!; [done| |apply NoDup_singleton]. cbn.
    intros x Hx ->%list_elem_of_singleton. done.
  - apply Forall_app. split; [done|]. by repeat constructor.
  - apply Forall_app. split; [done|]. by repeat constructor.
Qed.
End find.

(** *** [insert] *)

(** The pairwise distinctness of the five keys. *)
Lemma keys_ne K :
  keys_distinct K →
  k_queue K ≠ k_meta K ∧ k_queue K ≠ rev_key (k_meta K) ∧ k_queue K ≠ k_index K ∧
  k_queue K ≠ k_lock K ∧ k_meta K ≠ rev_key (k_meta K) ∧ k_meta K ≠ k_index K ∧
  k_meta K ≠ k_lock K ∧ rev_key (k_meta K) ≠ k_index K ∧ rev_key (k_meta K) ≠ k_lock K ∧
  k_index K ≠ k_lock K.
Proof.
  unfold keys_distinct. rewrite !NoDup_cons, !not_elem_of_cons. tauto.
Qed.

Ltac split_keys HK :=
  let H := fresh in
  pose proof (keys_ne _ HK) as H; destruct H as (? & ? & ? & ? & ? & ? & ? & ? & ? & ?).

Ltac solve_writes :=
  let k := fresh "k" in let Hk := fresh "Hk" in
  intros k Hk; unfold queue_key_list in Hk; rewrite !not_elem_of_cons in Hk;
  destruct Hk as (? & ? & ? & ? & ?); read_store; done.

Section refinement.
Context `{Base64} (K : queue_keys) (HK : keys_distinct K).

Lemma insert_new_fields guid q (h : gmap string string) :
  guid ≠ "counter" → 0 ≤ q_next q → find_guid guid (q_items q) = None →
  (∀ g, h !! g = meta_field q g) →
  ∀ value g, <[guid := show (q_next q + 1)]> (<["counter" := show (q_next q + 1)]> h) !! g =
             meta_field (q_insert guid value q).2 g.
Proof.
  intros Hg Hn Hf Hh value g. unfold q_insert. rewrite Hf. cbn.
  destruct (decide (g = guid)) as [->|Hne].
  - rewrite lookup_insert_eq, meta_field_ne by done. cbn.
    by rewrite find_guid_app, Hf, find_guid_cons, decide_True.
  - rewrite lookup_insert_ne by done. destruct (decide (g = "counter")) as [->|Hc].
    + rewrite lookup_insert_eq, meta_field_counter. cbn.
      by rewrite (proj2 (Z.eqb_neq _ _)) by lia.
    + rewrite lookup_insert_ne, Hh, !meta_field_ne by done. cbn.
      rewrite find_guid_app, find_guid_cons, decide_False by done.
      by destruct (find_guid g (q_items q)).
Qed.

Lemma insert_new_rev guid q (h : gmap string string) :
  queue_wf q → find_guid guid (q_items q) = None →
  (∀ f, h !! f = rev_field q f) →
  ∀ value f, <[show (q_next q + 1) := guid]> h !! f = rev_field (q_insert guid value q).2 f.
Proof.
  intros Hwf Hf Hh value f. unfold q_insert, rev_field. rewrite Hf. cbn. rewrite find_id_app.
  destruct (decide (f = show (q_next q + 1))) as [->|Hne].
  - rewrite lookup_insert_eq.
    assert (find_id (show (q_next q + 1)) (q_items q) = None) as ->.
    { apply find_id_None. eapply Forall_impl; [by apply ids_lt_next|]. cbn.
      intros x Hx Heq. apply show_inj in Heq. lia. }
    by rewrite find_id_cons, decide_True.
  - rewrite lookup_insert_ne, Hh by done. unfold rev_field. rewrite find_id_cons, decide_False by done.
    by destruct (find_id f (q_items q)).
Qed.

Lemma insert_dup_run {l} w q guid value it :
  held l K (redis_db w) q → guid ≠ "counter" → find_guid guid (q_items q) = Some it →
  interp server_step (insert (k_queue K) (k_meta K) (k_index K) guid value) w = (Ok (it_id it), w).
Proof.
  intros [Hwf Hz (hm & Hm & Hmf) _ _ _] Hg Hf. unfold insert.
  rstep. rewrite Hm. rgo. rewrite Hmf, meta_field_ne, Hf by done. rewrite with_redis_id.
  cbn [fmap option_fmap option_map]. rgo.
  rstep. rewrite Hm. rgo. rewrite Hmf, meta_field_ne, Hf by done. rewrite with_redis_id.
  rewrite interp_bind, interp_lift. cbn [reply ok_or fmap option_fmap option_map compose].
  rewrite interp_lift, parse_u64_show; [done|].
  apply find_guid_Some in Hf as [Hf _]. destruct Hwf as [_ Hids Hn _ _ _].
  rewrite Forall_forall in Hids. specialize (Hids _ Hf). unfold in_u64, u64_max. lia.
Qed.

Lemma counter_value q :
  queue_wf q →
  match meta_field q "counter" with
  | None => Ok 0
  | Some s => ok_or "ERR hash value is not an integer" (parse_i64 s)
  end = @Ok string Z (q_next q).
Proof.
  intros Hwf. pose proof (wf_next q Hwf). rewrite meta_field_counter.
  destruct (q_next q =? 0) eqn:H0'; zbool; [by rewrite H0'|]. unfold parse_i64.
  rewrite parse_signed_show; [done|]. unfold in_i64. lia.
Qed.

Lemma insert_new_run {l} w q guid value :
  held l K (redis_db w) q → guid ≠ "counter" → guid ≠ "" → q_next q < 2 ^ 63 - 1 → clock_ok w →
  find_guid guid (q_items q) = None →
  ∃ w', interp server_step (insert (k_queue K) (k_meta K) (k_index K) guid value) w
          = (Ok (q_next q + 1), w') ∧
        held l K (redis_db w') (q_insert guid value q).2 ∧
        same_but_redis w w' ∧ writes (queue_key_list K) (redis_db w) (redis_db w').
Proof.
  intros [Hwf Hz (hm & Hm & Hmf) (hr & Hr & Hrf) [zi Hi] Hl] Hg1 Hg2 Hn Hclock Hf.
  split_keys HK. pose proof (wf_next q Hwf) as Hnext. unfold insert.
  rstep. rewrite Hm. rgo. rewrite Hmf, meta_field_ne, Hf by done. rewrite with_redis_id.
  cbn [fmap option_fmap option_map]. rgo.
  (* the counter *)
  rstep. rewrite Hm. rgo. rewrite Hmf, (counter_value q) by done. rgo.
  assert (in_i64 (q_next q + 1) = true ∧ in_u64 (q_next q + 1) = true) as [Hi64 Hu64].
  { unfold in_i64, in_u64, u64_max. lia. }
  rewrite Hi64. rgo. rewrite Hu64, interp_bind, interp_lift. cbn [reply ok_or]. rgo.
  (* the entry *)
  pose (it := {| it_id := q_next q + 1; it_guid := guid; it_data := value; it_order := 0 |}).
  change (show (q_next q + 1) +:+ _) with (entry it).
  rstep. read_store. rewrite Hz. rgo.
  rewrite z_member_false
    by (apply entries_other; eapply Forall_impl; [by apply ids_lt_next|]; cbn; lia).
  rewrite z_insert_last by (by apply entries_below, ids_lt_next). rgo.
  (* the two hashes *)
  rstep. read_store. rgo.
  rstep. read_store. rewrite Hr. rgo.
  do 2 (rstep; rgo).
  (* the index *)
  rewrite interp_op_bind. cbn [server_step]. rewrite interp_bind, interp_lift.
  unfold as_secs. rewrite (proj2 (Z.ltb_ge _ _)) by apply Hclock.
  rstep. read_store. rewrite Hi. rgo.
  assert (∀ d', zset_of d' (k_queue K) =
                Ok (map (λ x, (it_id x, entry x)) (q_items q) ++ [(q_next q + 1, entry it)]) →
            hash_of d' (k_meta K) =
                Ok (<[guid := show (q_next q + 1)]> (<["counter" := show (q_next q + 1)]> hm)) →
            hash_of d' (rev_key (k_meta K)) = Ok (<[show (q_next q + 1) := guid]> hr) →
            (∃ z, zset_of d' (k_index K) = Ok z) → str_of d' (k_lock K) = Ok l →
            held l K d' (q_insert guid value q).2) as Hfin.
  { intros d' Hz' Hm' Hr' Hi' Hl'. split; [apply q_insert_wf; auto| | | |exact Hi'|exact Hl'].   
    - rewrite Hz'. unfold q_insert. rewrite Hf. cbn. by rewrite map_app.
    - eexists. split; [done|]. apply insert_new_fields; [done|lia|done|done].
    - eexists. split; [done|]. by apply insert_new_rev. }
  destruct (z_member (k_queue K) zi); rgo; eexists; (split_and!; [reflexivity| | |]);
    try (by constructor); try (cbn [redis_db with_redis]; solve_writes);
    apply Hfin; cbn [redis_db with_redis]; read_store; eauto.
Qed.

(** *** [remove] *)

(** A filtered list keeps what its keys satisfy. *)
Lemma map_filter_sublist {A B} (f : A → B) (P : A → Prop) `{∀ x, Decision (P x)} l :
  sublist (map f (filter P l)) (map f l).
Proof. apply fmap_sublist, sublist_filter. Qed.

Lemma sublist_sorted l k : sublist l k → StronglySorted Z.lt k → StronglySorted Z.lt l.
Proof.
  induction 1 as [|x l k Hs IH|x l k Hs IH]; [done| |].
  - inversion 1; subst. constructor; [by apply IH|]. rewrite Forall_forall in *. intros y Hy.
    eauto using elem_of_sublist.
  - inversion 1; subst. by apply IH.
Qed.

Lemma q_drop_wf guid q : queue_wf q → queue_wf (q_drop guid q).
Proof.
  intros [Hs Hids Hn Hnd Hnm Hor]. split; cbn [q_drop q_items q_next];
    [|by apply Forall_filter|done| |by apply Forall_filter..].
  - eapply sublist_sorted; [apply map_filter_sublist|done].
  - eapply sublist_NoDup; [done|apply map_filter_sublist].
Qed.

Lemma empty_queue_wf : queue_wf empty_queue.
Proof. split; cbn; try constructor; lia. Qed.

Lemma q_reset_wf q : queue_wf q → queue_wf (q_reset q).
Proof. intros Hwf. unfold q_reset. case_decide; [apply empty_queue_wf|done]. Qed.

(** Within a well-formed queue, the id and the guid name the same item. *)
Lemma same_item q it x :
  queue_wf q → it ∈ q_items q → x ∈ q_items q → (it_id x = it_id it ↔ it_guid x = it_guid it).
Proof.
  intros Hwf Hit Hx. split; intros Heq; f_equal.
  - eapply (NoDup_map_inj it_id); [apply sorted_NoDup, Hwf|done..].
  - eapply (NoDup_map_inj it_guid); [apply Hwf|done..].
Qed.

Lemma in_range_one it x :
  in_range (Incl (it_id it)) (Incl (it_id it)) (it_id x, entry x) ↔ it_id x = it_id it.
Proof. unfold in_range. cbn. split; intros Hr; [|rewrite Hr]; apply Is_true_true in Hr || apply Is_true_true; lia. Qed.

Lemma range_of_item q it :
  queue_wf q → it ∈ q_items q →
  filter (in_range (Incl (it_id it)) (Incl (it_id it))) (map (λ x, (it_id x, entry x)) (q_items q))
  = [(it_id it, entry it)].
Proof.
  intros Hwf Hit. rewrite filter_fmap'.
  rewrite (filter_ext_in _ (λ x, it_id x = it_id it)) by (intros; apply in_range_one).
  by rewrite filter_key by (try apply sorted_NoDup, Hwf; done).
Qed.

Lemma range_drop_item q it :
  queue_wf q → it ∈ q_items q →
  filter (λ x, ¬ in_range (Incl (it_id it)) (Incl (it_id it)) x) (map (λ x, (it_id x, entry x)) (q_items q))
  = map (λ x, (it_id x, entry x)) (q_items (q_drop (it_guid it) q)).
Proof.
  intros Hwf Hit. rewrite filter_fmap'. f_equal. cbn. apply filter_ext_in. intros x Hx.
  by rewrite in_range_one, same_item.
Qed.

Lemma find_guid_drop g g' l :
  find_guid g' (filter (λ it, it_guid it ≠ g) l) = if decide (g' = g) then None else find_guid g' l.
Proof.
  induction l as [|x l IH]; [by case_decide|].
  destruct (decide (it_guid x = g)) as [Hx|Hx].
  - rewrite filter_cons_False by tauto. rewrite IH, find_guid_cons. case_decide; [done|].
    by rewrite decide_False by congruence.
  - rewrite filter_cons_True by done. rewrite !find_guid_cons, IH.
    destruct (decide (g' = g)) as [->|]; [by rewrite decide_False|done].
Qed.

Lemma find_id_drop q it f :
  queue_wf q → it ∈ q_items q →
  find_id f (q_items (q_drop (it_guid it) q)) =
  if decide (f = show (it_id it)) then None else find_id f (q_items q).
Proof.
  intros Hwf Hit. cbn [q_drop q_items].
  rewrite (filter_ext_in (λ x, it_guid x ≠ it_guid it) (λ x, it_id x ≠ it_id it))
    by (intros; rewrite (same_item q); done).
  clear Hwf Hit. induction (q_items q) as [|x l IH]; [by case_decide|].
  destruct (decide (it_id x = it_id it)) as [Hx|Hx].
  - rewrite filter_cons_False by tauto. rewrite IH, find_id_cons. case_decide; [done|].
    by rewrite decide_False by congruence.
  - rewrite filter_cons_True by done. rewrite !find_id_cons, IH.
    destruct (decide (f = show (it_id it))) as [->|]; [|done].
    rewrite decide_False; [done|]. intros Heq. by apply show_inj in Heq.
Qed.

(** The hashes of the queue without an item. *)
Lemma drop_fields q it (hm hr : gmap string string) :
  queue_wf q → it ∈ q_items q → it_guid it ≠ "counter" →
  (∀ g, hm !! g = meta_field q g) → (∀ f, hr !! f = rev_field q f) →
  (∀ g, delete (it_guid it) hm !! g = meta_field (q_drop (it_guid it) q) g) ∧
  (∀ f, delete (show (it_id it)) hr !! f = rev_field (q_drop (it_guid it) q) f).
Proof.
  intros Hwf Hit Hc Hm Hr. split.
  - intros g. destruct (decide (g = it_guid it)) as [->|Hne].
    + rewrite lookup_delete_eq, meta_field_ne by done. cbn. by rewrite find_guid_drop, decide_True.
    + rewrite lookup_delete_ne, Hm by done. unfold meta_field. cbn.
      case_decide; [done|]. by rewrite find_guid_drop, decide_False.
  - intros f. unfold rev_field. rewrite find_id_drop by done.
    case_decide as Hf; [subst; by rewrite lookup_delete_eq|].
    by rewrite lookup_delete_ne, Hr by done.
Qed.
Lemma q_drop_absent g q : find_guid g (q_items q) = None → q_drop g q = q.
Proof.
  intros Hf%find_guid_None. destruct q as [n its]. unfold q_drop. cbn in *. f_equal.
  apply filter_all. intros x Hx <-. apply Hf. by apply list_elem_of_fmap_2.
Qed.

Lemma q_reset_items q : q_items (q_reset q) = q_items q.
Proof. unfold q_reset. by case_decide. Qed.

Lemma drop_head next it its :
  queue_wf {| q_next := next; q_items := it :: its |} →
  q_items (q_drop (it_guid it) {| q_next := next; q_items := it :: its |}) = its.
Proof.
  intros Hwf. cbn [q_drop q_items]. rewrite filter_cons_False by tauto. apply filter_all.
  pose proof (wf_guids _ Hwf) as Hnd. cbn in Hnd. apply NoDup_cons in Hnd as [Hn _].
  intros x Hx Heq. apply Hn. rewrite <- Heq. by apply list_elem_of_fmap_2.
Qed.

Lemma q_take_prefix next pre post :
  queue_wf {| q_next := next; q_items := pre ++ post |} →
  q_take (map it_guid pre) {| q_next := next; q_items := pre ++ post |}
  = (pre, {| q_next := next; q_items := post |}).
Proof.
  induction pre as [|it pre IH]; intros Hwf; [done|]. cbn [map q_take app q_items].
  assert (q_drop (it_guid it) {| q_next := next; q_items := it :: pre ++ post |}
          = {| q_next := next; q_items := pre ++ post |}) as Hdrop.
  { pose proof (drop_head next it (pre ++ post) Hwf) as Hd. unfold q_drop in *. cbn in *. by rewrite Hd. }
  pose proof (q_drop_wf (it_guid it) _ Hwf) as Hwf'. cbn [app] in Hwf'. rewrite Hdrop in Hwf' |- *.
  rewrite IH by done. by rewrite find_guid_cons, decide_True.
Qed.

(** Removing the first items of a queue by name. *)
Lemma q_remove_prefix n q :
  queue_wf q →
  q_remove (map it_guid (take n (q_items q))) q
  = (take n (q_items q), q_reset {| q_next := q_next q; q_items := drop n (q_items q) |}).
Proof.
  intros Hwf. unfold q_remove. destruct q as [next its]. cbn [q_items q_next].
  rewrite <- (take_drop n its) in Hwf.
  rewrite <- (take_drop n its) at 2. by rewrite q_take_prefix.
Qed.

Lemma q_remove_page q :
  queue_wf q →
  q_remove (map it_guid (q_page q)) q
  = (q_page q, q_reset {| q_next := q_next q; q_items := drop (Z.to_nat PAGE_SIZE) (q_items q) |}).
Proof. apply q_remove_prefix. Qed.

Section remove.
Context `{Decoder T} (out : item → T).

Definition decodable (q : rqueue) : Prop := ∀ it, it ∈ q_items q → decode [entry it] = Ok [out it].

Lemma decodable_drop g q : decodable q → decodable (q_drop g q).
Proof. intros Hd it Hit. apply Hd. by apply list_elem_of_filter in Hit as [_ ?]. Qed.

Lemma remove_one_run {l} w q g acc :
  held l K (redis_db w) q → g ≠ "counter" → decodable q →
  ∃ w', interp server_step (remove_one (k_queue K) (k_meta K) g acc) w
          = (Ok (acc ++ map out (option_list (find_guid g (q_items q)))), w') ∧
        held l K (redis_db w') (q_drop g q) ∧
        same_but_redis w w' ∧ writes (queue_key_list K) (redis_db w) (redis_db w').
Proof.
  intros Hh Hg Hdec. pose proof Hh as [Hwf Hz (hm & Hm & Hmf) (hr & Hr & Hrf) [zi Hi] Hl].
  split_keys HK. unfold remove_one.
  rstep. rewrite Hm. rgo. rewrite Hmf, meta_field_ne, with_redis_id by done.
  destruct (find_guid g (q_items q)) as [it|] eqn:Hf; cbn [fmap option_fmap option_map compose].
  2: { exists w. rewrite q_drop_absent, app_nil_r by done. done. }
  pose proof Hf as [Hit <-]%find_guid_Some.
  rstep. unfold parse_range. rewrite parse_bound_show. cbn [ok_or]. rgo. rewrite Hz. rgo.
  rewrite range_of_item, with_redis_id by done.
  rstep. unfold parse_range. rewrite parse_bound_show. cbn [ok_or]. rgo. rewrite Hz. rgo.
  rewrite range_drop_item by done.
  rstep. read_store. rewrite Hm. rgo.
  rstep. read_store. rewrite Hr. rgo.
  rewrite ?with_redis_twice, interp_bind, interp_lift.
  change (map snd _) with [entry it]. rewrite (Hdec it Hit).
  destruct (drop_fields q it hm hr Hwf Hit Hg Hmf Hrf) as [Hmf' Hrf'].
  eexists. split_and!; [reflexivity| |by constructor|cbn [redis_db with_redis]; solve_writes].
  cbn [redis_db with_redis].
  split; read_store; [by apply q_drop_wf|done|eauto|eauto|eauto|done].
Qed.

Lemma remove_all_run {l} w q guids acc :
  held l K (redis_db w) q → Forall (λ g, g ≠ "counter") guids → decodable q →
  ∃ w', interp server_step (for_each guids acc (remove_one (k_queue K) (k_meta K))) w
          = (Ok (acc ++ map out (q_take guids q).1), w') ∧
        held l K (redis_db w') (q_take guids q).2 ∧
        same_but_redis w w' ∧ writes (queue_key_list K) (redis_db w) (redis_db w').
Proof.
  revert w q acc. induction guids as [|g guids IH]; intros w q acc Hh Hg Hdec.
  { exists w. cbn. by rewrite app_nil_r. }
  apply Forall_cons in Hg as [Hg Hgs]. cbn [for_each].
  destruct (remove_one_run w q g acc Hh Hg Hdec) as (w1 & Hrun & Hh1 & Hs1 & Hw1).
  rewrite (interp_bind_ok _ _ _ _ _ _ Hrun).
  destruct (IH w1 (q_drop g q) (acc ++ map out (option_list (find_guid g (q_items q)))) Hh1 Hgs)
    as (w2 & Hrun2 & Hh2 & Hs2 & Hw2); [by apply decodable_drop|].
  exists w2. rewrite Hrun2. cbn [q_take].
  destruct (q_take guids (q_drop g q)) as [its q'] eqn:Hq. cbn [fst snd] in *.
  rewrite map_app, app_assoc. split_and!; [done|done|by etrans|by etrans].
Qed.

Lemma remove_run {l} w q guids :
  held l K (redis_db w) q → Forall (λ g, g ≠ "counter") guids → decodable q →
  ∃ w', interp server_step (remove (k_queue K) (k_meta K) (k_index K) guids) w
          = (Ok (map out (q_remove guids q).1), w') ∧
        held l K (redis_db w') (q_remove guids q).2 ∧
        same_but_redis w w' ∧ writes (queue_key_list K) (redis_db w) (redis_db w').
Proof.
  intros Hh Hg Hdec. unfold remove.
  destruct (remove_all_run w q guids [] Hh Hg Hdec) as (w1 & Hrun & Hh1 & Hs1 & Hw1).
  rewrite (interp_bind_ok _ _ _ _ _ _ Hrun). unfold q_remove. cbn [app].
  destruct (q_take guids q) as [its q'] eqn:Hq. cbn [fst snd] in *.
  pose proof Hh1 as [Hwf Hz (hm & Hm & Hmf) (hr & Hr & Hrf) [zi Hi] Hl]. split_keys HK.
  rstep. rewrite Hz. rgo. rewrite with_redis_id. unfold q_reset.
  destruct (q_items q') as [|x tl] eqn:Hits.
  2: { rewrite decide_False by done.
       rewrite (proj2 (Z.eqb_neq _ _)) by (cbn [map]; rewrite len_cons; pose proof (len_nonneg (map (λ x, (it_id x, entry x)) tl)); lia).
       eexists. split_and!; [reflexivity|done..]. }
  rewrite decide_True by done. cbn [map]. rewrite len_nil. rgo.
  do 2 (rstep; rgo). rstep. read_store. rewrite Hi. rgo. rewrite ?with_redis_twice.
  eexists. split_and!; [reflexivity| |etrans; [done|by constructor]|].
  - cbn [redis_db with_redis]. split; read_store; [apply empty_queue_wf|done| | |eauto|done].
    + eexists. split; [done|]. intros g. unfold meta_field. cbn. by case_decide.
    + eexists. split; [done|]. intros f. rewrite Hrf. unfold rev_field. by rewrite Hits.
  - etrans; [done|]. cbn [redis_db with_redis]. solve_writes.
Qed.
End remove.
(** *** [get_values] *)

Lemma get_values_locked w v stop :
  str_of (redis_db w) (k_lock K) = Ok (Some v) →
  interp server_step (get_values (k_queue K) (k_lock K) (k_meta K) stop) w = (Ok ([], []), w).
Proof. intros Hl. unfold get_values. rstep. rewrite Hl. rgo. by rewrite with_redis_id. Qed.

Lemma field_ids_of its :
  Forall (λ it, in_u64 (it_id it) = true) its →
  collect (λ v, show <$> get_field_metadata v) (map entry its) = Ok (map (show ∘ it_id) its).
Proof.
  induction 1 as [|it its Hit Hits IH]; [done|]. cbn [map collect].
  rewrite field_of_entry by done. cbn [fmap outcome_fmap mbind outcome_bind]. by rewrite IH.
Qed.

Lemma wf_in_u64 q it : queue_wf q → it ∈ q_items q → in_u64 (it_id it) = true.
Proof.
  intros Hwf Hit. pose proof (wf_ids q Hwf) as Hids. rewrite Forall_forall in Hids.
  pose proof (wf_next q Hwf). specialize (Hids _ Hit). unfold in_u64, u64_max. lia.
Qed.

(** Looking up the guids of the items of a page, in the reverse hash. *)
Lemma guids_run w q its acc :
  holds K (redis_db w) q → (∀ it, it ∈ its → it ∈ q_items q) →
  interp server_step
    (for_each (map (show ∘ it_id) its) acc (λ field_id field_guids,
       field_guid ← redis (HGET (rev_key (k_meta K)) field_id);
       Ret (field_guids ++ [default "" field_guid]))) w
  = (Ok (acc ++ map it_guid its), w).
Proof.
  intros Hh. revert acc. induction its as [|it its IH]; intros acc Hin; cbn [map for_each].
  { by rewrite app_nil_r. }
  pose proof Hh as [Hwf _ _ (hr & Hr & Hrf) _ _].
  rewrite interp_bind. rstep. rewrite Hr. rgo. rewrite with_redis_id, Hrf. unfold rev_field, compose.
  rewrite find_id_elem by (try apply sorted_NoDup, Hwf; apply Hin; left).
  cbn [interp fmap option_fmap option_map default]. rewrite IH by (intros; apply Hin; by right).
  cbn [from_option]. by rewrite <- app_assoc.
Qed.

Lemma get_values_run w q :
  holds K (redis_db w) q →
  interp server_step (get_values (k_queue K) (k_lock K) (k_meta K) (-1)) w
  = (Ok (map entry (q_page q), map it_guid (q_page q)), w).
Proof.
  intros Hh. pose proof Hh as [Hwf Hz _ _ _ Hl]. unfold get_values.
  rstep. rewrite Hl. rgo. rewrite with_redis_id.
  rstep. unfold parse_range. rewrite parse_bound_excl.
  change (parse_bound "+inf") with (Some PosInf). cbn [ok_or]. rgo. rewrite Hz. rgo.
  rewrite with_redis_id.
  assert (filter (in_range (Excl (-1)) PosInf) (map (λ it, (it_id it, entry it)) (q_items q))
          = map (λ it, (it_id it, entry it)) (q_items q)) as ->.
  { apply filter_all. intros x (it & -> & Hit)%list_elem_of_fmap. unfold in_range. cbn.
    pose proof (wf_ids q Hwf) as Hids. rewrite Forall_forall in Hids. specialize (Hids _ Hit).
    apply Is_true_true. lia. }
  assert (map snd (apply_limit (Some (0, PAGE_SIZE)) (map (λ it, (it_id it, entry it)) (q_items q)))
          = map entry (q_page q)) as -> by apply entries_page.
  assert (∀ it, it ∈ q_page q → it ∈ q_items q) as Hpage.
  { intros it Hit. unfold q_page in Hit. by eapply elem_of_take in Hit as (? & ?%list_elem_of_lookup_2 & ?). }
  rewrite interp_bind, interp_lift, field_ids_of; [|apply Forall_forall; eauto using wf_in_u64].
  rewrite interp_bind, (guids_run w q) by done. done.
Qed.

(** *** [dequeue_bytes] *)

Lemma get_first_run w q :
  holds K (redis_db w) q →
  interp server_step (get_first (k_queue K) (k_lock K)) w =
  match q_items q with
  | [] => (Err "Failed to get first value: empty value.", w)
  | it :: _ => (Ok (entry it), w)
  end.
Proof.
  intros [Hwf Hz _ _ _ Hl]. unfold get_first.
  rstep. rewrite Hl. rgo. rewrite with_redis_id. rstep. rewrite Hz. rgo.
  rewrite with_redis_id, interp_lift. by destruct (q_items q).
Qed.

Definition update_head (n : nat) (it : item) : item :=
  {| it_id := it_id it; it_guid := it_guid it; it_data := drop n (it_data it);
     it_order := as_i32 (it_order it - 1) |}.

Lemma update_head_wf n it its next :
  queue_wf {| q_next := next; q_items := it :: its |} →
  queue_wf {| q_next := next; q_items := update_head n it :: its |}.
Proof.
  intros [Hs Hids Hn Hnd Hnm Hor]. split; cbn in *; try done.
  - apply Forall_cons in Hids as [? ?]. by apply Forall_cons.
  - apply Forall_cons in Hnm as [? ?]. by apply Forall_cons.
  - apply Forall_cons in Hor as [? ?]. apply Forall_cons. split; [apply in_i32_as_i32|done].
Qed.

Lemma in_i32_i64 z : in_i32 z = true → in_i64 z = true.
Proof. unfold in_i32, in_i64, i32_min, i32_max. lia. Qed.

Lemma update_value_run w next it its n :
  holds K (redis_db w) {| q_next := next; q_items := it :: its |} →
  ∃ w', interp server_step (update_value (k_queue K) (it_id it) (drop n (it_data it))) w
          = (Ok (true, it_order it), w') ∧
        holds K (redis_db w') {| q_next := next; q_items := update_head n it :: its |} ∧
        same_but_redis w w' ∧ writes (queue_key_list K) (redis_db w) (redis_db w').
Proof.
  intros Hh. pose proof Hh as [Hwf Hz (hm & Hm & Hmf) (hr & Hr & Hrf) [zi Hi] Hl].
  split_keys HK. unfold update_value.
  assert (it ∈ q_items {| q_next := next; q_items := it :: its |}) as Hit by left.
  assert (in_i32 (it_order it) = true) as Hord by (by pose proof (wf_orders _ Hwf) as [? ?]%Forall_cons).
  rstep. unfold parse_range. rewrite parse_bound_show. cbn [ok_or]. rgo. rewrite Hz. rgo.
  rewrite range_of_item, with_redis_id by done. cbn [apply_limit map snd].
  rewrite decide_False by done. rewrite interp_bind, interp_lift. cbn [head ok_or].
  rewrite interp_bind, interp_lift. cbn [to_string ok_or head].
  (* the old entry goes *)
  assert (Forall (λ x, it_id x ≠ it_id it) its) as Hothers.
  { apply Forall_forall. intros x Hx Heq. pose proof (wf_sorted _ Hwf) as Hs. cbn in Hs.
    inversion Hs as [|? ? _ Hlt]; subst. rewrite Forall_forall in Hlt.
    specialize (Hlt (it_id x) (list_elem_of_fmap_2 _ _ _ Hx)). lia. }
  rstep. rewrite Hz. rgo. cbn [foldr q_items map].
  unfold z_delete. rewrite filter_cons_False by (cbn; tauto).
  rewrite filter_all by (apply Forall_forall, entries_other, Hothers).
  rewrite len_cons. replace (1 + len _ - len _) with 1 by lia. rgo.
  rewrite interp_bind, interp_lift, order_of_entry by by apply in_i32_i64.
  rewrite interp_bind, interp_lift, (proj2 (Z.eqb_neq _ _))
    by (unfold in_i32, i32_min in Hord; lia).
  (* the new entry comes *)
  change (create_payload_entry _ _ _) with (entry (update_head n it)).
  rstep. read_store. rgo.
  rewrite z_member_false by (apply entries_other, Hothers). rgo.
  rewrite z_insert_first.
  2: { apply Forall_fmap, Forall_forall. intros x Hx. cbn.
       pose proof (wf_sorted _ Hwf) as Hs. inversion Hs as [|? ? _ Hlt]; subst.
       rewrite Forall_forall in Hlt. by apply (Hlt (it_id x)), list_elem_of_fmap_2. }
  rewrite interp_bind, interp_lift. cbn [ok_or]. rewrite as_i32_id, ?with_redis_twice by done.
  eexists. split_and!; [reflexivity| |done|cbn [redis_db with_redis]; solve_writes].
  cbn [redis_db with_redis]. split; read_store; [by apply update_head_wf|done| | |eauto|done].
  - eexists. split; [done|]. intros g. rewrite Hmf. unfold meta_field. cbn.
    rewrite !find_guid_cons. by repeat case_decide.
  - eexists. split; [done|]. intros f. rewrite Hrf. unfold rev_field. cbn.
    rewrite !find_id_cons. by repeat case_decide.
Qed.
Lemma dequeue_bytes_locked w v amount :
  str_of (redis_db w) (k_lock K) = Ok (Some v) →
  interp server_step (dequeue_bytes (k_queue K) (k_meta K) (k_index K) (k_lock K) amount) w
  = (Ok ([], 0, 1), w).
Proof.
  intros Hl. unfold dequeue_bytes, get_first. rewrite interp_bind, interp_try.
  rstep. rewrite Hl. rgo. by rewrite with_redis_id.
Qed.

Lemma q_remove_head next it its :
  q_remove [it_guid it] {| q_next := next; q_items := it :: its |}
  = ([it], q_reset (q_drop (it_guid it) {| q_next := next; q_items := it :: its |})).
Proof. unfold q_remove. cbn [q_take q_items]. by rewrite find_guid_cons, decide_True. Qed.

Lemma decodable_bytes q : decodable (T:=bytes) it_data q.
Proof. intros it _. apply (decode_bytes_entries [it]). Qed.

Lemma dequeue_bytes_run w q amount :
  holds K (redis_db w) q → 0 ≤ amount →
  ∃ w', interp server_step (dequeue_bytes (k_queue K) (k_meta K) (k_index K) (k_lock K) amount) w
          = (Ok (q_dequeue amount q).1, w') ∧
        holds K (redis_db w') (q_dequeue amount q).2 ∧
        same_but_redis w w' ∧ writes (queue_key_list K) (redis_db w) (redis_db w').
Proof.
  intros Hh Hamount. unfold dequeue_bytes, q_dequeue.
  rewrite interp_bind, interp_try, (get_first_run w q) by done.
  destruct q as [next [|it its]]; cbn [q_items]; [by exists w|].
  pose proof Hh as [Hwf _ _ (hr & Hr & Hrf) _ _].
  assert (it ∈ q_items {| q_next := next; q_items := it :: its |}) as Hit by left.
  rewrite interp_bind, interp_lift, field_of_entry by eauto using wf_in_u64.
  rewrite interp_bind, interp_lift, (decode_bytes_entries [it] : decode_bytes [entry it] = _).
  rewrite interp_bind, interp_lift. cbn [map head ok_or].
  destruct (amount <? len (it_data it)) eqn:Hlt; zbool.
  - destruct (update_value_run w next it its (Z.to_nat amount) Hh) as (w' & Hrun & Hh' & Hs & Hw).
    rewrite (interp_bind_ok _ _ _ _ _ _ Hrun). exists w'.
    rewrite len_take, Z2Nat.id by lia. done.
  - rstep. rewrite Hr. rgo. rewrite with_redis_id, Hrf. unfold rev_field. cbn [q_items].
    rewrite find_id_cons, decide_True by done. cbn [fmap option_fmap option_map].
    destruct (remove_run (T:=bytes) it_data w _ [it_guid it] Hh) as (w' & Hrun & Hh' & Hs & Hw).
    { repeat constructor. by pose proof (wf_names _ Hwf) as [[? ?] ?]%Forall_cons. }
    { apply decodable_bytes. }
    rewrite (interp_bind_ok _ _ _ _ _ _ Hrun). exists w'.
    rewrite q_remove_head in *. cbn [map concat fst snd] in *. by rewrite app_nil_r.
Qed.
End refinement.

(** ** Traces of operations *)

Inductive queue_op :=
| OpInsert (guid : string) (value : bytes)
| OpRemove (guids : list string)
| OpGetValues
| OpDequeue (amount : Z).

Inductive queue_reply :=
| RId (id : Z)
| RRemoved (values : list bytes)
| RPage (values guids : list string)
| RData (data : bytes * Z * Z).

Section traces.
Context `{Base64} (K : queue_keys).

(** The program of an operation. *)
Definition run_op (o : queue_op) : prog serverE string queue_reply :=
  match o with
  | OpInsert guid value =>
      id ← insert (k_queue K) (k_meta K) (k_index K) guid value; Ret (RId id)
  | OpRemove guids =>
      vs ← remove (T:=bytes) (k_queue K) (k_meta K) (k_index K) guids; Ret (RRemoved vs)
  | OpGetValues =>
      '(vs, gs) ← get_values (k_queue K) (k_lock K) (k_meta K) (-1); Ret (RPage vs gs)
  | OpDequeue n =>
      d ← dequeue_bytes (k_queue K) (k_meta K) (k_index K) (k_lock K) n; Ret (RData d)
  end.

Fixpoint run_ops (os : list queue_op) : prog serverE string (list queue_reply) :=
  match os with
  | [] => Ret []
  | o :: os => r ← run_op o; rs ← run_ops os; Ret (r :: rs)
  end.

(** The meaning of an operation. *)
Definition spec_op (o : queue_op) (q : rqueue) : queue_reply * rqueue :=
  match o with
  | OpInsert guid value => prod_map RId id (q_insert guid value q)
  | OpRemove guids => prod_map (RRemoved ∘ map it_data) id (q_remove guids q)
  | OpGetValues => (RPage (map entry (q_page q)) (map it_guid (q_page q)), q)
  | OpDequeue n => prod_map RData id (q_dequeue n q)
  end.

Fixpoint spec_ops (os : list queue_op) (q : rqueue) : list queue_reply * rqueue :=
  match os with
  | [] => ([], q)
  | o :: os =>
      let '(r, q1) := spec_op o q in let '(rs, q2) := spec_ops os q1 in (r :: rs, q2)
  end.

(** Guids are neither empty nor the name of the counter; amounts are [usize]. *)
Definition op_valid (o : queue_op) : Prop :=
  match o with
  | OpInsert guid _ => guid ≠ "counter" ∧ guid ≠ ""
  | OpRemove guids => Forall (λ g, g ≠ "counter") guids
  | OpGetValues => True
  | OpDequeue n => 0 ≤ n
  end.

Lemma spec_op_next o q : queue_wf q → q_next (spec_op o q).2 ≤ q_next q + 1.
Proof.
  intros Hwf. pose proof (wf_next q Hwf).
  assert (∀ q', queue_wf q' → q_next (q_reset q') ≤ q_next q') as Hreset.
  { intros q' Hwf'. pose proof (wf_next q' Hwf'). unfold q_reset. case_decide; cbn; lia. }
  destruct o as [g v|gs| |n]; cbn -[q_dequeue]; [| |lia|].
  - unfold q_insert. destruct (find_guid g (q_items q)); cbn; lia.
  - unfold q_remove.
    assert (queue_wf (q_take gs q).2 ∧ q_next (q_take gs q).2 = q_next q) as [Hwf' Heq].
    { clear Hreset. revert q Hwf H0. induction gs as [|g gs IH]; intros q Hwf Hn; [done|]. cbn [q_take].
      destruct (IH (q_drop g q) (q_drop_wf g q Hwf) Hn) as [Hw Heq].
      by destruct (q_take gs (q_drop g q)). }
    destruct (q_take gs q) as [its q']. cbn in *. specialize (Hreset q' Hwf'). lia.
  - unfold q_dequeue. destruct (q_items q) as [|it its]; [cbn; lia|].
    destruct (n <? len (it_data it)); cbn; [lia|].
    specialize (Hreset _ (q_drop_wf (it_guid it) q Hwf)). cbn in Hreset. lia.
Qed.

Lemma run_op_holds w q o :
  keys_distinct K → holds K (redis_db w) q → clock_ok w → op_valid o → q_next q < 2 ^ 63 - 1 →
  ∃ w', interp server_step (run_op o) w = (Ok (spec_op o q).1, w') ∧
        holds K (redis_db w') (spec_op o q).2 ∧
        same_but_redis w w' ∧ writes (queue_key_list K) (redis_db w) (redis_db w').
Proof.
  intros HK Hh Hclock Hv Hn. destruct o as [g v|gs| |n]; cbn [run_op spec_op] in *.
  - destruct Hv as [Hg1 Hg2]. destruct (find_guid g (q_items q)) as [it|] eqn:Hf.
    + exists w. rewrite (interp_bind_ok _ _ _ _ _ _ (insert_dup_run K w q g v it Hh Hg1 Hf)).
      unfold q_insert. rewrite Hf. done.
    + destruct (insert_new_run K HK w q g v Hh Hg1 Hg2 Hn Hclock Hf) as (w' & Hrun & ?).
      exists w'. rewrite (interp_bind_ok _ _ _ _ _ _ Hrun).
      unfold q_insert in *. rewrite Hf in *. done.
  - destruct (remove_run K HK it_data w q gs Hh Hv (decodable_bytes q)) as (w' & Hrun & ?).
    exists w'. rewrite (interp_bind_ok _ _ _ _ _ _ Hrun). by destruct (q_remove gs q).
  - exists w. rewrite (interp_bind_ok _ _ _ _ _ _ (get_values_run K w q Hh)). done.
  - destruct (dequeue_bytes_run K HK w q n Hh Hv) as (w' & Hrun & ?).
    exists w'. rewrite (interp_bind_ok _ _ _ _ _ _ Hrun). by destruct (q_dequeue n q).
Qed.

Lemma clock_ok_same w w' : same_but_redis w w' → clock_ok w → clock_ok w'.
Proof. intros Hs Hc i. rewrite (same_clock _ _ Hs). apply Hc. Qed.

Lemma run_ops_holds w q os :
  keys_distinct K → holds K (redis_db w) q → clock_ok w → Forall op_valid os →
  q_next q + len os < 2 ^ 63 →
  ∃ w', interp server_step (run_ops os) w = (Ok (spec_ops os q).1, w') ∧
        holds K (redis_db w') (spec_ops os q).2 ∧
        same_but_redis w w' ∧ writes (queue_key_list K) (redis_db w) (redis_db w').
Proof.
  intros HK. revert w q. induction os as [|o os IH]; intros w q Hh Hc Hv Hn; [by exists w|].
  apply Forall_cons in Hv as [Ho Hv]. rewrite len_cons in Hn. pose proof (len_nonneg os).
  destruct (run_op_holds w q o HK Hh Hc Ho ltac:(lia)) as (w1 & Hrun & Hh1 & Hs1 & Hw1).
  pose proof (spec_op_next o q (holds_wf _ _ _ _ Hh)) as Hnext.
  cbn [run_ops spec_ops]. rewrite (interp_bind_ok _ _ _ _ _ _ Hrun).
  destruct (spec_op o q) as [r q1] eqn:Hspec. cbn [fst snd] in *.
  destruct (IH w1 q1 Hh1 (clock_ok_same _ _ Hs1 Hc) Hv ltac:(lia)) as (w2 & Hrun2 & Hh2 & Hs2 & Hw2).
  rewrite (interp_bind_ok _ _ _ _ _ _ Hrun2). exists w2.
  destruct (spec_ops os q1) as [rs q2]. cbn in *. split_and!; [done|done|by etrans|by etrans].
Qed.
End traces.

(** ** Properties *)

(** C17: the Redis queue is a first-in first-out queue of items with unique
    guids.  Over every server that behaves as documented and holds a queue
    under distinct keys, any sequence of [insert], [remove], [get_values] and
    [dequeue_bytes] answers exactly as the operations on the list of items,
    leaves the server holding the resulting list, and writes no key but the
    queue's own. *)
Theorem redis_queue_refines_list `{Base64} {S} (h : handler serverE string S) (view : S → world)
    (K : queue_keys) (q : rqueue) (os : list queue_op) (s : S)
    (Hdoc : documented h view) (HK : keys_distinct K)
    (Hholds : holds K (redis_db (view s)) q) (Hclock : clock_ok (view s))
    (Hvalid : Forall op_valid os) (Hids : q_next q + len os < 2 ^ 63) :
  ∃ s', interp h (run_ops K os) s = (Ok (spec_ops os q).1, s') ∧
        holds K (redis_db (view s')) (spec_ops os q).2 ∧
        writes (queue_key_list K) (redis_db (view s)) (redis_db (view s')).
Proof.
  destruct (run_ops_holds K (view s) q os HK Hholds Hclock Hvalid Hids) as (w & Hrun & Hh & _ & Hw).
  destruct (sim_run _ _ _ _ _ _ _ Hdoc Hrun) as (s' & Hrun' & Hview).
  exists s'. by subst w.
Qed.

(** An empty server. *)
Definition empty_world : world :=
  {| redis_db := {| keys := ∅; ttl := ∅ |}; messages_db := {| receiver := λ a, if decide (device_id a = 1) then Some 1 else None; queues := ∅; row_order := in_order |}; accounts_db := ∅; clock := λ _, 1700000000000;
     ticks := 0; uuids := λ n, "uuid-" +:+ show (Z.of_nat n); drawn := 0; spawned := [] |}.

Lemma empty_holds `{Base64} K : holds K (redis_db empty_world) empty_queue.
Proof.
  split; cbn; [apply empty_queue_wf|done|..].
  - exists ∅. split; [done|]. intros g. unfold meta_field. cbn. by case_decide.
  - exists ∅. by split.
  - by exists [].
  - done.
Qed.

Definition demo_keys : queue_keys :=
  {| k_queue := "q"; k_meta := "m"; k_index := "i"; k_lock := "l" |}.

Definition demo_ops : list queue_op :=
  [OpInsert "a" [x01; x02; x03]; OpInsert "b" [x04]; OpInsert "a" [x05];
   OpDequeue 2; OpGetValues; OpDequeue 2; OpRemove ["b"]; OpGetValues].

Example demo_ops_spec :
  spec_ops demo_ops empty_queue =
  ([RId 1; RId 2; RId 1; RData ([x01; x02], 2, 0);
    RPage ["1:ad:-1"; "2:ae:0"] ["a"; "b"]; RData ([x03], 1, 2);
    RRemoved [[x04]]; RPage [] []], empty_queue).
Proof. vm_compute. reflexivity. Qed.

Lemma redis_queue_refines_list_witness :
  ∃ s', interp server_step (run_ops demo_keys demo_ops) empty_world
        = (Ok (spec_ops demo_ops empty_queue).1, s') ∧
        holds demo_keys (redis_db s') (spec_ops demo_ops empty_queue).2 ∧
        writes (queue_key_list demo_keys) (redis_db empty_world) (redis_db s').
Proof.
  apply (redis_queue_refines_list server_step id demo_keys empty_queue demo_ops empty_world).
  - apply sim_refl.
  - unfold keys_distinct. apply (bool_decide_unpack _). by vm_compute.
  - apply empty_holds.
  - intros i. vm_compute. discriminate.
  - repeat constructor; vm_compute; try discriminate; done.
  - vm_compute. done.
Defined.

(** While a queue is locked for persistence, reading it in either way
    returns nothing and changes nothing: nothing can be taken out twice, nor be
    lost. *)
Theorem locked_queue_is_not_read `{Base64} {S} (h : handler serverE string S) (view : S → world)
    (K : queue_keys) (v : string) (stop amount : Z) (s : S)
    (Hdoc : documented h view) (Hlocked : str_of (redis_db (view s)) (k_lock K) = Ok (Some v)) :
  (∃ s', interp h (get_values (k_queue K) (k_lock K) (k_meta K) stop) s = (Ok ([], []), s') ∧
         view s' = view s) ∧
  (∃ s', interp h (dequeue_bytes (k_queue K) (k_meta K) (k_index K) (k_lock K) amount) s
           = (Ok ([], 0, ChunkType.into_i32 ChunkType.Dummy), s') ∧ view s' = view s).
Proof.
  split; eapply sim_run; try done.
  - by apply (get_values_locked K (view s) v).
  - by apply (dequeue_bytes_locked K (view s) v).
Qed.

Lemma locked_queue_is_not_read_witness :
  let w := with_redis empty_world (put "l" (VStr "1") (redis_db empty_world)) in
  (∃ s', interp server_step (get_values "q" "l" "m" (-1)) w = (Ok ([], []), s') ∧ s' = w) ∧
  (∃ s', interp server_step (dequeue_bytes "q" "m" "i" "l" 10) w = (Ok ([], 0, 1), s') ∧ s' = w).
Proof.
  intros w. apply (locked_queue_is_not_read server_step id demo_keys "1" (-1) 10 w).
  - apply sim_refl.
  - vm_compute. reflexivity.
Defined.
