(* ===== verification/Cache.v ===== *)
(** The three Redis-backed caches of the server.

    [chunk_cache.rs], [payload_cache.rs] and [message_cache.rs] keep one queue
    of RedisQueue.v per device (and, for the first two, per direction) and
    differ in their key names and element types.  Each is a Module here, with
    the operations of its file; the common part is the naming of keys. *)
From S2P Require Export RedisQueue.

Local Open Scope Z_scope.

(** ** Key names *)

Module Buffer.
Inductive t := Sender | Receiver.

#[global] Instance t_eq_dec : EqDecision t.
Proof. solve_decision. Defined.

(** [Display for Buffer] *)
Definition fmt (b : t) : string := match b with Sender => "sender" | Receiver => "receiver" end.
End Buffer.

(** ["::{name::device_id}"] *)
Definition address_suffix (a : ProtocolAddress) : string :=
  "::{" +:+ name a +:+ "::" +:+ show (device_id a) +:+ "}".

(** The keys of the queue whose names begin with [base]. *)
Definition keys_of (base : string) (a : ProtocolAddress) : queue_keys :=
  {| k_queue := base +:+ address_suffix a;
     k_meta := base +:+ "_metadata" +:+ address_suffix a;
     k_index := base +:+ "_index_key";
     k_lock := base +:+ "_persisting" +:+ address_suffix a |}.

Lemma append_assoc s t u : (s +:+ t) +:+ u = s +:+ (t +:+ u).
Proof.
  induction s as [|c s IH]; [done|]. rewrite !append_cons. by rewrite IH.
Qed.

Lemma append_inv_l s t u : s +:+ t = s +:+ u → t = u.
Proof. induction s as [|c s IH]; [done|]. rewrite !append_cons. intros [=]. by apply IH. Qed.

Lemma append_rev_ne s t : t ≠ "" → s +:+ t ≠ s.
Proof.
  intros Ht Heq. apply Ht. apply (append_inv_l s). rewrite Heq.
  clear. induction s as [|c s IH]; [done|]. rewrite append_cons. by f_equal.
Qed.

Lemma keys_of_distinct base a : keys_distinct (keys_of base a).
Proof.
  unfold keys_distinct, keys_of, rev_key. cbn [k_queue k_meta k_index k_lock].
  rewrite !append_assoc.
  assert (∀ l, NoDup l → NoDup (map (String.append base) l)) as Hmap.
  { intros l. apply NoDup_fmap_2. intros s t. apply append_inv_l. }
  apply (Hmap [address_suffix a; "_metadata" +:+ address_suffix a;
               "_metadata" +:+ address_suffix a +:+ ":rev"; "_index_key";
               "_persisting" +:+ address_suffix a]).
  assert (address_suffix a ≠ address_suffix a +:+ ":rev") as Hrev.
  { apply not_eq_sym, append_rev_ne. done. }
  unfold address_suffix in *.
  repeat (apply NoDup_cons; split; [rewrite ?not_elem_of_cons; split_and!; try apply not_elem_of_nil|]);
    try done.
  - intros Heq. by apply append_inv_l in Heq.
  - apply NoDup_singleton.
Qed.

(** The error a broken pool gives is passed on by [?]. *)
Definition notify_cached (a : ProtocolAddress) : prog serverE string unit :=
  op (Spawn (NotifyCached (queue_name a))).
Definition notify_persisted (a : ProtocolAddress) : prog serverE string unit :=
  op (Spawn (NotifyPersisted (queue_name a))).

(** ** [chunk_cache.rs] *)

Module ChunkCache.
Section chunk_cache.
Context `{Bincode, Base64}.

Definition base (b : Buffer.t) : string := "chunk_" +:+ Buffer.fmt b +:+ "_queue".
Definition get_queue_key (a : ProtocolAddress) (b : Buffer.t) : string :=
  base b +:+ address_suffix a.
Definition get_persist_in_progress_key (a : ProtocolAddress) (b : Buffer.t) : string :=
  base b +:+ "_persisting" +:+ address_suffix a.
Definition get_queue_metadata_key (a : ProtocolAddress) (b : Buffer.t) : string :=
  base b +:+ "_metadata" +:+ address_suffix a.
Definition get_queue_index_key (b : Buffer.t) : string := base b +:+ "_index_key".

(** [insert]: the listener is notified whether the insertion succeeds or not. *)
Definition insert (a : ProtocolAddress) (b : Buffer.t) (chunk : DenimChunk) (chunk_guid : string)
    : prog serverE string Z :=
  _ ← op PoolGet;
  let value := serialize_chunk chunk in
  chunk_id ← try_ (RedisQueue.insert (get_queue_key a b) (get_queue_metadata_key a b)
                     (get_queue_index_key b) chunk_guid value);
  _ ← notify_cached a;
  match chunk_id with inl e => Throw e | inr id => Ret id end.

Definition remove (a : ProtocolAddress) (b : Buffer.t) (chunk_guid : list string)
    : prog serverE string (list DenimChunk) :=
  _ ← op PoolGet;
  RedisQueue.remove (get_queue_key a b) (get_queue_metadata_key a b) (get_queue_index_key b) chunk_guid.

(** The metadata key is the receiver's for both buffers. *)
Definition get_all_chunks (a : ProtocolAddress) (b : Buffer.t) : prog serverE string (list DenimChunk) :=
  _ ← op PoolGet;
  '(values, _) ← get_values (get_queue_key a b) (get_persist_in_progress_key a b)
                   (get_queue_metadata_key a Buffer.Receiver) (-1);
  if decide (values = []) then Ret [] else lift (decode values).

Definition dequeue_incoming_chunks (sender : ProtocolAddress) : prog serverE string (list DenimChunk) :=
  _ ← op PoolGet;
  '(values, chunk_guids) ← get_values (get_queue_key sender Buffer.Sender)
                             (get_persist_in_progress_key sender Buffer.Sender)
                             (get_queue_metadata_key sender Buffer.Sender) (-1);
  if decide (values = []) then Ret [] else remove sender Buffer.Sender chunk_guids.

Definition dequeue_outgoing_chunks (receiver : ProtocolAddress) : prog serverE string (list DenimChunk) :=
  _ ← op PoolGet;
  '(values, chunk_guids) ← get_values (get_queue_key receiver Buffer.Receiver)
                             (get_persist_in_progress_key receiver Buffer.Receiver)
                             (get_queue_metadata_key receiver Buffer.Receiver) (-1);
  if decide (values = []) then Ret [] else remove receiver Buffer.Receiver chunk_guids.

Definition add_availability_listener (a : ProtocolAddress) (l : nat) : prog serverE string unit :=
  op (Spawn (AddListener (queue_name a) l)).
Definition remove_availability_listener (a : ProtocolAddress) : prog serverE string unit :=
  op (Spawn (RemoveListener (queue_name a))).
End chunk_cache.

Definition queue (a : ProtocolAddress) (b : Buffer.t) : queue_keys := keys_of (base b) a.
End ChunkCache.

(** ** [payload_cache.rs] *)

Module PayloadCache.
Section payload_cache.
Context `{Bincode, Base64}.

Definition base (b : Buffer.t) : string := "payload_" +:+ Buffer.fmt b +:+ "_queue".
Definition get_queue_key (a : ProtocolAddress) (b : Buffer.t) : string :=
  base b +:+ address_suffix a.
Definition get_persist_in_progress_key (a : ProtocolAddress) (b : Buffer.t) : string :=
  base b +:+ "_persisting" +:+ address_suffix a.
Definition get_queue_metadata_key (a : ProtocolAddress) (b : Buffer.t) : string :=
  base b +:+ "_metadata" +:+ address_suffix a.
Definition get_queue_index_key (b : Buffer.t) : string := base b +:+ "_index_key".

Definition insert (a : ProtocolAddress) (b : Buffer.t) (payload : DeniablePayload) (payload_guid : string)
    : prog serverE string Z :=
  _ ← op PoolGet;
  let value := serialize_payload payload in
  payload_id ← try_ (RedisQueue.insert (get_queue_key a b) (get_queue_metadata_key a b)
                       (get_queue_index_key b) payload_guid value);
  _ ← notify_cached a;
  match payload_id with inl e => Throw e | inr id => Ret id end.

Definition remove (a : ProtocolAddress) (b : Buffer.t) (payload_guid : list string)
    : prog serverE string (list DeniablePayload) :=
  _ ← op PoolGet;
  RedisQueue.remove (get_queue_key a b) (get_queue_metadata_key a b) (get_queue_index_key b) payload_guid.

Definition get_all_payloads (a : ProtocolAddress) (b : Buffer.t) : prog serverE string (list DeniablePayload) :=
  _ ← op PoolGet;
  '(values, _) ← get_values (get_queue_key a b) (get_persist_in_progress_key a b)
                   (get_queue_metadata_key a b) (-1);
  if decide (values = []) then Ret [] else lift (decode values).

Definition get_all_payloads_raw (a : ProtocolAddress) (b : Buffer.t) : prog serverE string (list bytes) :=
  _ ← op PoolGet;
  '(values, _) ← get_values (get_queue_key a b) (get_persist_in_progress_key a b)
                   (get_queue_metadata_key a b) (-1);
  if decide (values = []) then Ret [] else lift (decode_bytes values).

(** [while take >= EMPTY_DENIMCHUNK_SIZE { .. }] *)
Fixpoint dequeue_loop (fuel : nat) (K : queue_keys) (result : list (bytes * Z)) (take : Z)
    : prog serverE string (list (bytes * Z) * Z) :=
  match fuel with
  | O => Crash "out of fuel"
  | S fuel =>
      if EMPTY_DENIMCHUNK_SIZE <=? take then
        take ← lift (usize_sub take EMPTY_DENIMCHUNK_SIZE);
        _ ← op PoolGet;
        '(data, taken, order) ← dequeue_bytes (k_queue K) (k_meta K) (k_index K) (k_lock K) take;
        if taken =? 0 then
          Ret (result ++ [(zeroes (Z.to_nat take), ChunkType.into_i32 ChunkType.Dummy)], 0)
        else
          take ← lift (usize_sub take taken);
          dequeue_loop fuel K (result ++ [(data, order)]) take
      else Ret (result, take)
  end.

Definition dequeue_payload_data (a : ProtocolAddress) (b : Buffer.t) (bytes_amount : Z)
    : prog serverE string (list (bytes * Z) * Z) :=
  dequeue_loop (S (Z.to_nat bytes_amount))
    {| k_queue := get_queue_key a b; k_meta := get_queue_metadata_key a b;
       k_index := get_queue_index_key b; k_lock := get_persist_in_progress_key a b |}
    [] bytes_amount.

Definition add_availability_listener (a : ProtocolAddress) (l : nat) : prog serverE string unit :=
  op (Spawn (AddListener (queue_name a) l)).
Definition remove_availability_listener (a : ProtocolAddress) : prog serverE string unit :=
  op (Spawn (RemoveListener (queue_name a))).
End payload_cache.

Definition queue (a : ProtocolAddress) (b : Buffer.t) : queue_keys := keys_of (base b) a.
End PayloadCache.

(** ** [message_cache.rs] *)

Module MessageCache.
Section message_cache.
Context `{Bincode, Base64}.

Definition base : string := "user_queue".
Definition get_message_queue_key (a : ProtocolAddress) : string := base +:+ address_suffix a.
Definition get_persist_in_progress_key (a : ProtocolAddress) : string :=
  base +:+ "_persisting" +:+ address_suffix a.
Definition get_message_queue_metadata_key (a : ProtocolAddress) : string :=
  base +:+ "_metadata" +:+ address_suffix a.
Definition get_queue_index_key : string := base +:+ "_index_key".

(** The envelope the caller passed is stamped with the guid. *)
Definition with_guid (e : Envelope) (guid : string) : Envelope :=
  {| env_type := env_type e; env_source_service_id := env_source_service_id e;
     env_source_device := env_source_device e;
     env_destination_service_id := env_destination_service_id e;
     env_timestamp := env_timestamp e; env_content := env_content e;
     env_server_guid := Some guid; env_server_timestamp := env_server_timestamp e;
     env_ephemeral := env_ephemeral e; env_urgent := env_urgent e;
     env_updated_pni := env_updated_pni e; env_story := env_story e;
     env_reporting_token := env_reporting_token e |}.

Definition insert (a : ProtocolAddress) (envelope : Envelope) (message_guid : string)
    : prog serverE string Z :=
  _ ← op PoolGet;
  let data := serialize_envelope (with_guid envelope message_guid) in
  message_id ← try_ (RedisQueue.insert (get_message_queue_key a) (get_message_queue_metadata_key a)
                       get_queue_index_key message_guid data);
  _ ← notify_cached a;
  match message_id with inl e => Throw e | inr id => Ret id end.

Definition remove (a : ProtocolAddress) (message_guids : list string)
    : prog serverE string (list Envelope) :=
  _ ← op PoolGet;
  RedisQueue.remove (get_message_queue_key a) (get_message_queue_metadata_key a)
    get_queue_index_key message_guids.

Definition has_messages (a : ProtocolAddress) : prog serverE string bool :=
  _ ← op PoolGet;
  msg_count ← redis (ZCARD (get_message_queue_key a));
  _ ← notify_cached a;
  Ret (0 <? msg_count).

Definition get_all_messages (a : ProtocolAddress) : prog serverE string (list Envelope) :=
  _ ← op PoolGet;
  '(values, _) ← get_values (get_message_queue_key a) (get_persist_in_progress_key a)
                   (get_message_queue_metadata_key a) (-1);
  if decide (values = []) then Ret [] else lift (decode values).

(** [Envelope::decode(values).unwrap()] *)
Definition get_messages_to_persist (a : ProtocolAddress) (limit : Z) : prog serverE string (list Envelope) :=
  _ ← op PoolGet;
  values ← redis (ZRANGE (get_message_queue_key a) 0 limit);
  match decode values with
  | Ok valid_envelopes => Ret valid_envelopes
  | Err _ => Crash "called `Result::unwrap()` on an `Err` value"
  | Panic w => Crash w
  end.

Definition get_message_queues_to_persist (max_time limit : Z) : prog serverE string (list string) :=
  _ ← op PoolGet;
  results ← redis (ZRANGEBYSCORE get_queue_index_key (show 0) (show max_time) (Some (0, limit)));
  if decide (results = []) then Ret results
  else
    _ ← redis (ZREM get_queue_index_key results);
    Ret results.

Definition lock_queue_for_persistence (a : ProtocolAddress) : prog serverE string unit :=
  _ ← op PoolGet;
  redis (SETEX (get_persist_in_progress_key a) 30 "1").

Definition unlock_queue_for_persistence (a : ProtocolAddress) : prog serverE string unit :=
  _ ← op PoolGet;
  _ ← redis (DEL (get_persist_in_progress_key a));
  notify_persisted a.

Definition add_message_availability_listener (a : ProtocolAddress) (l : nat) : prog serverE string unit :=
  op (Spawn (AddListener (queue_name a) l)).
Definition remove_message_availability_listener (a : ProtocolAddress) : prog serverE string unit :=
  op (Spawn (RemoveListener (queue_name a))).
End message_cache.

Definition queue (a : ProtocolAddress) : queue_keys := keys_of base a.
End MessageCache.
