(* ===== verification/DenimManager.v ===== *)
(** The server's DenIM buffers ([server/src/managers/denim/denim_manager.rs]).

    Chunks that arrive from a sender are queued; when a final chunk arrives
    the queue is flushed and reassembled into deniable payloads.  Payloads for
    a receiver are queued and cut, as bytes, into the chunks of the regular
    messages the receiver gets. *)
From S2P Require Export Cache.

Local Open Scope Z_scope.

(** ** Sorting *)

(** [<[T]>::sort]: stable, by the order of the chunks. *)
Fixpoint insert_chunk (c : DenimChunk) (cs : list DenimChunk) : list DenimChunk :=
  match cs with
  | [] => [c]
  | d :: cs => if chunk_le c d then c :: d :: cs else d :: insert_chunk c cs
  end.

Definition sort_chunks (cs : list DenimChunk) : list DenimChunk := foldr insert_chunk [] cs.

(** ** The manager *)

Definition u64_add {E} (a b : Z) : outcome E Z :=
  if in_u64 (a + b) then Ok (a + b) else Panic "attempt to add with overflow".

Section manager.
Context `{Bincode, Base64}.

(** [count += cache.insert(..., &Uuid::new_v4().to_string()).await?] over the elements. *)
Definition enqueue_each {A} (ins : A → string → prog serverE string Z) (l : list A)
    : prog serverE string Z :=
  for_each l 0 (λ x count,
    guid ← op NewV4;
    n ← ins x guid;
    lift (u64_add count n)).

Definition enqueue_incoming_chunk_buffer (sender : ProtocolAddress) (chunks : list DenimChunk)
    : prog serverE string Z :=
  enqueue_each (ChunkCache.insert sender Buffer.Sender) chunks.

(** The loop of [create_deniable_payloads] over the remaining chunks. *)
Fixpoint create_deniable_payloads_from (payloads : list DeniablePayload)
    (pending_chunks chunks : list DenimChunk)
    : outcome string (list DeniablePayload * list DenimChunk) :=
  match chunks with
  | [] => Ok (payloads, pending_chunks)
  | c :: chunks =>
      t ← ChunkType.from_i32 (flags c);
      match t with
      | ChunkType.Dummy => create_deniable_payloads_from payloads pending_chunks chunks
      | ChunkType.Final =>
          let payload_data := concat (map chunk (sort_chunks pending_chunks)) ++ chunk c in
          p ← ok_or "bincode" (deserialize_payload payload_data);
          create_deniable_payloads_from (payloads ++ [p]) [] chunks
      | ChunkType.Data _ => create_deniable_payloads_from payloads (pending_chunks ++ [c]) chunks
      end
  end.

Definition create_deniable_payloads (chunks : list DenimChunk)
    : outcome string (list DeniablePayload * list DenimChunk) :=
  create_deniable_payloads_from [] [] chunks.

Definition flush_incoming_chunk_buffer (sender : ProtocolAddress)
    : prog serverE string (list DeniablePayload) :=
  chunks ← ChunkCache.dequeue_incoming_chunks sender;
  '(payloads, pending_chunks) ← lift (create_deniable_payloads chunks);
  if decide (pending_chunks = []) then Ret payloads
  else
    _ ← enqueue_incoming_chunk_buffer sender pending_chunks;
    Ret payloads.

Definition enqueue_outgoing_chunk_buffer (receiver : ProtocolAddress) (chunks : list DenimChunk)
    : prog serverE string Z :=
  enqueue_each (ChunkCache.insert receiver Buffer.Receiver) chunks.

Definition flush_outgoing_chunk_buffer (receiver : ProtocolAddress)
    : prog serverE string (list DeniablePayload) :=
  chunks ← ChunkCache.dequeue_outgoing_chunks receiver;
  '(payloads, pending_chunks) ← lift (create_deniable_payloads chunks);
  if decide (pending_chunks = []) then Ret payloads
  else
    _ ← enqueue_outgoing_chunk_buffer receiver pending_chunks;
    Ret payloads.

Definition enqueue_outgoing_payload_buffer (receiver : ProtocolAddress) (payloads : list DeniablePayload)
    : prog serverE string Z :=
  enqueue_each (PayloadCache.insert receiver Buffer.Receiver) payloads.

Definition dequeue_outgoing_payload_buffer (receiver : ProtocolAddress) (bytes_amount : Z)
    : prog serverE string (list DenimChunk * Z) :=
  '(cs, rest) ← PayloadCache.dequeue_payload_data receiver Buffer.Receiver bytes_amount;
  Ret (map (λ c, {| chunk := c.1; flags := c.2 |}) cs, rest).

Definition create_denim_message (self : Chunker) (receiver : ProtocolAddress) (envelope : Envelope)
    : prog serverE string (DenimMessage f32) :=
  let regular_payload := RegularEnvelope envelope in
  let regular_payload_size := f32_of_usize (len (serialize_regular regular_payload)) in
  free_space ← lift (get_free_space_in_bytes self regular_payload_size);
  '(cs, rest) ← dequeue_outgoing_payload_buffer receiver free_space;
  Ret {| regular_payload := regular_payload; dm_chunks := cs; dm_counter := None;
         dm_q := Some (q_value self); dm_ballast := zeroes (Z.to_nat rest) |}.

(** The part of [handle_receiving_chunks] (server.rs) that receives: dummies
    are dropped, the rest is queued, and the queue is flushed when one of the
    new chunks is final. *)
Definition receive_chunks (sender : ProtocolAddress) (chunks : list DenimChunk)
    : prog serverE string (list DeniablePayload) :=
  let chunks := filter (λ c, flags c ≠ ChunkType.into_i32 ChunkType.Dummy) chunks in
  if decide (chunks = []) then Ret []
  else
    _ ← enqueue_incoming_chunk_buffer sender chunks;
    if existsb (λ c, flags c =? ChunkType.into_i32 ChunkType.Final) chunks
    then flush_incoming_chunk_buffer sender
    else Ret [].
End manager.

(** ** The size of what is sent

    Facts about every run, over any server. *)

Section sizes.
Context `{Bincode, Base64}.

(** The amount [dequeue_bytes] says it took is the length of what it took. *)
Lemma dequeue_bytes_length K amount :
  returns (λ '(d, taken, _), taken = len d)
    (dequeue_bytes (k_queue K) (k_meta K) (k_index K) (k_lock K) amount).
Proof.
  unfold dequeue_bytes. apply returns_skip. intros [e|first]; [done|].
  do 3 (apply returns_skip; intros ?).
  destruct (amount <? len a1); apply returns_skip.
  - intros [updated order]. by destruct updated.
  - intros [guid|]; [|done]. apply returns_skip. intros removed. done.
Qed.

Lemma dequeue_loop_size fuel K result take :
  returns (λ '(cs, rest), rest + sumZ (map (λ c, 12 + len c.1) cs)
                          = take + sumZ (map (λ c, 12 + len c.1) result) ∧ (0 ≤ take → 0 ≤ rest < 12))
    (PayloadCache.dequeue_loop fuel K result take).
Proof.
  revert result take. induction fuel as [|fuel IH]; intros result take; [done|].
  cbn [PayloadCache.dequeue_loop]. unfold EMPTY_DENIMCHUNK_SIZE.
  destruct (12 <=? take) eqn:Hle; zbool; [|cbn; lia].
  apply returns_bind, returns_lift. intros take' Htake'.
  unfold usize_sub in Htake'. rewrite (proj2 (Z.leb_le _ _)) in Htake' by done. simplify_eq.
  apply returns_skip. intros _. apply returns_bind.
  eapply returns_mono; [apply dequeue_bytes_length|]. intros [[d taken] order] ->. cbn beta iota.
  destruct (len d =? 0) eqn:Hd; zbool.
  - cbn. rewrite map_app, sumZ_app. cbn. rewrite len_zeroes. lia.
  - apply returns_bind, returns_lift. intros rest Hrest.
    unfold usize_sub in Hrest. destruct (len d <=? take - 12) eqn:Hlt; simplify_eq. zbool.
    eapply returns_mono; [apply IH|]. intros [cs rest']. rewrite map_app, sumZ_app. cbn. lia.
Qed.

Lemma create_denim_message_size self receiver envelope :
  returns (λ m, chunks_wire (dm_chunks m) + len (dm_ballast m)
                = total_free_space self (f32_of_usize (len (serialize_regular (RegularEnvelope envelope)))) ∧
                regular_payload m = RegularEnvelope envelope)
    (create_denim_message self receiver envelope).
Proof.
  unfold create_denim_message, dequeue_outgoing_payload_buffer. apply returns_bind, returns_lift.
  intros free. unfold get_free_space_in_bytes, usize_sub, EMPTY_VEC_SIZE.
  set (total := total_free_space _ _). destruct (8 <=? total) eqn:Hle; intros; simplify_eq. zbool.
  apply returns_bind, returns_bind. unfold PayloadCache.dequeue_payload_data.
  eapply returns_mono; [apply dequeue_loop_size|]. intros [cs rest] [Hsum Hrest]. cbn in *.
  split; [|done]. rewrite len_zeroes. unfold chunks_wire. rewrite map_map.
  change (λ x, chunk_wire _) with (λ c : bytes * Z, 12 + len c.1). lia.
Qed.
End sizes.

(** ** What is sent *)

(** The pieces [dequeue_payload_data] takes out of a queue. *)
Fixpoint q_fill (fuel : nat) (amount : Z) (q : rqueue) : list (bytes * Z) * Z * rqueue :=
  match fuel with
  | O => ([], amount, q)
  | S fuel =>
      if 12 <=? amount then
        let '((d, taken, order), q') := q_dequeue (amount - 12) q in
        if taken =? 0 then ([(zeroes (Z.to_nat (amount - 12)), 1)], 0, q')
        else let '(cs, rest, q'') := q_fill fuel (amount - 12 - taken) q' in ((d, order) :: cs, rest, q'')
      else ([], amount, q)
  end.

(** Items can be cut [k] more times than they have bytes before the [i32]
    order of their chunks runs out; and no item is empty. *)
Definition cuttable (k : Z) (q : rqueue) : Prop :=
  Forall (λ it, it_data it ≠ [] ∧ i32_min + k + len (it_data it) < it_order it ≤ 0) (q_items q).

Definition to_chunks (cs : list (bytes * Z)) : list DenimChunk :=
  map (λ c, {| chunk := c.1; flags := c.2 |}) cs.

Definition contents (q : rqueue) : list bytes := map it_data (q_items q).
Definition content_bytes (q : rqueue) : Z := sumZ (map len (contents q)).

Lemma len_pos {A} (l : list A) : l ≠ [] → 0 < len l.
Proof. destruct l; [done|]. rewrite len_cons. pose proof (len_nonneg l). lia. Qed.

Lemma q_dequeue_taken amount q d taken order q' :
  0 ≤ amount → q_dequeue amount q = ((d, taken, order), q') → taken = len d ∧ 0 ≤ taken ≤ amount.
Proof.
  unfold q_dequeue. intros Ha. destruct (q_items q) as [|it its]; [intros; simplify_eq; split_and!; [done|lia|lia]|].
  destruct (amount <? len (it_data it)) eqn:Hl; intros; simplify_eq; zbool.
  - rewrite len_take; lia.
  - pose proof (len_nonneg (it_data it)). lia.
Qed.

(** One dequeue moves bytes from the queue to the wire, in order. *)
Lemma q_dequeue_cuttable amount k q d taken order q' :
  0 ≤ amount → 0 ≤ k → queue_wf q → cuttable (k + 1) q → q_dequeue amount q = ((d, taken, order), q') →
  cuttable k q' ∧
  (taken = 0 → contents q' = contents q ∧ (q_items q ≠ [] → amount = 0)) ∧
  (taken ≠ 0 →
     same_stream ({| chunk := d; flags := order |} :: whole (contents q')) (whole (contents q)) ∧
     (order = 2 ∧ cuttable (k + 1) q' ∨ taken = amount ∧ order ≤ 0)) ∧
  content_bytes q' = content_bytes q - taken.
Proof.
  unfold q_dequeue, content_bytes, contents. intros Ha Hk Hwf Hc.
  destruct q as [next [|it its]]; cbn [q_items q_next];
    [intros; simplify_eq; split_and!; [constructor|done|done|cbn [q_items map]; lia]|].
  apply Forall_cons in Hc as [[Hne Hord] Hits].
  assert (Forall (λ it, it_data it ≠ [] ∧ i32_min + k + len (it_data it) < it_order it ≤ 0) its) as Hits'.
  { eapply Forall_impl; [exact Hits|]. intros x Hx. cbn beta in *. destruct Hx. split; [done|lia]. }
  pose proof (len_pos _ Hne).
  destruct (amount <? len (it_data it)) eqn:Hl; intros; simplify_eq; zbool.
  - assert (in_i32 (it_order it - 1) = true) as Hi.
    { unfold in_i32, i32_max. unfold i32_min in *. lia. }
    split_and!.
    + apply Forall_cons. cbn [it_data it_order]. split; [|done]. rewrite as_i32_id by done.
      assert (len (drop (Z.to_nat taken) (it_data it)) = len (it_data it) - taken) as Hd.
      { rewrite len_drop; lia. }
      split; [|lia]. intros Hnil. rewrite Hnil, len_nil in Hd. lia.
    + intros ->. cbn. by rewrite drop_0.
    + intros _. split; [|right; lia]. intros acc. cbn. unfold is_dummy, is_final. cbn.
      rewrite !(proj2 (Z.eqb_neq (it_order it) _)) by lia. cbn.
      by rewrite <- app_assoc, take_drop.
    + cbn [map it_data q_items]. rewrite !sumZ_cons, len_drop; lia.
  - unfold cuttable. rewrite q_reset_items, drop_head by done. cbn [map]. rewrite sumZ_cons.
    split_and!; [done|lia| |lia]. intros _. split; [done|]. left. by split.
Qed.

Lemma q_dequeue_wf amount q : queue_wf q → queue_wf (q_dequeue amount q).2.
Proof.
  intros Hwf. unfold q_dequeue. destruct q as [next [|it its]]; [done|]. cbn [q_items].
  destruct (amount <? _); cbn [snd]; [by apply (update_head_wf _ it)|].
  by apply q_reset_wf, q_drop_wf.
Qed.

Lemma q_fill_spec fuel amount k q cs rest q' :
  0 ≤ amount → 0 ≤ k → queue_wf q → cuttable (k + 1) q → (Z.to_nat amount < fuel)%nat →
  q_fill fuel amount q = (cs, rest, q') →
  queue_wf q' ∧ cuttable k q' ∧
  same_stream (to_chunks cs ++ whole (contents q')) (whole (contents q)) ∧
  content_bytes q' ≤ content_bytes q ∧
  (12 < amount → q_items q ≠ [] → content_bytes q' < content_bytes q) ∧
  (q_items q' ≠ [] → Forall (λ c, is_dummy c = true → chunk c = []) (to_chunks cs)).
Proof.
  revert amount q cs rest q'. induction fuel as [|fuel IH];
    intros amount q cs rest q' Ha Hk Hwf Hc Hfuel Hq; [lia|]. cbn [q_fill] in Hq.
  assert (cuttable k q) as Hck.
  { eapply Forall_impl; [exact Hc|]. intros x Hx. cbn beta in *. destruct Hx. split; [done|lia]. }
  destruct (12 <=? amount) eqn:Hle; zbool; [|simplify_eq; split_and!; [done..|lia|lia|constructor]].
  destruct (q_dequeue (amount - 12) q) as [[[d taken] order] q1] eqn:Hd.
  pose proof (q_dequeue_taken (amount - 12) q _ _ _ _ ltac:(lia) Hd) as [Htaken Hbound].
  pose proof (q_dequeue_wf (amount - 12) q Hwf) as Hwf1. rewrite Hd in Hwf1. cbn in Hwf1.
  destruct (q_dequeue_cuttable (amount - 12) k q d taken order q1 ltac:(lia) Hk Hwf Hc Hd)
    as (Hc1 & H0 & H1 & Hbytes).
  destruct (taken =? 0) eqn:Ht; zbool.
  { destruct (H0 Ht) as [Hcont Hamount]. simplify_eq. cbn [to_chunks map app].
    assert (q_items q' ≠ [] → q_items q ≠ []) as Hne.
    { intros Hn Heq. apply Hn. unfold contents in Hcont. rewrite Heq in Hcont.
      by destruct (q_items q'). }
    split_and!; [done|done|by rewrite Hcont|lia| |].
    - intros ? Hn. specialize (Hamount Hn). lia.
    - intros Hn. specialize (Hamount (Hne Hn)). replace (amount - 12) with 0 by lia.
      by repeat constructor. }
  destruct (H1 Ht) as [Hstream Hlast]. clear H0 H1 Htaken.
  destruct (q_fill fuel (amount - 12 - taken) q1) as [[cs1 rest1] q2] eqn:Hf. simplify_eq.
  assert (queue_wf q' ∧ cuttable k q' ∧
          same_stream (to_chunks cs1 ++ whole (contents q')) (whole (contents q1)) ∧
          content_bytes q' ≤ content_bytes q1 ∧
          (q_items q' ≠ [] → Forall (λ c, is_dummy c = true → chunk c = []) (to_chunks cs1)))
    as (Hwf2 & Hc2 & Hs2 & Hle2 & Hb2).
  { destruct Hlast as [[_ Hck1]|[Heq _]].
    - destruct (IH (amount - 12 - taken) q1 _ _ _ ltac:(lia) Hk Hwf1 Hck1 ltac:(lia) Hf) as (? & ? & ? & ? & _ & ?). done.
    - destruct fuel; cbn in Hf; [simplify_eq; split_and!; try done; constructor|].
      rewrite (proj2 (Z.leb_gt 12 _)) in Hf by lia. simplify_eq. split_and!; try done; constructor. }
  assert (same_stream (to_chunks ((d, order) :: cs1) ++ whole (contents q')) (whole (contents q))) as Hs.
  { change (to_chunks ((d, order) :: cs1)) with ({| chunk := d; flags := order |} :: to_chunks cs1).
    cbn [app]. by rewrite Hs2. }
  split_and!; [done|done|done|lia|lia|].
  intros Hn. apply Forall_cons. split; [|by apply Hb2]. unfold is_dummy. cbn.
  intros Hdummy. zbool. destruct Hlast as [[? _]|[_ ?]]; lia.
Qed.

(** The order of the payload at the head, and a stream that a queue in this
    state may still produce: its flags descend within a payload. *)
Definition head_order (q : rqueue) : Z := match q_items q with [] => 0 | it :: _ => it_order it end.
Definition produces (q : rqueue) (cs : list DenimChunk) : Prop := ∀ b, head_order q ≤ b → b ≤ 0 → well_flagged b cs.

Lemma head_order_nonpos k q : cuttable k q → head_order q ≤ 0.
Proof.
  unfold cuttable, head_order. destruct (q_items q) as [|it its]; [done|]. intros [[_ Hit] _]%Forall_cons. lia.
Qed.

Lemma q_dequeue_produces amount k q d taken order q' ds :
  0 ≤ amount → 0 ≤ k → queue_wf q → cuttable (k + 1) q → q_dequeue amount q = ((d, taken, order), q') → produces q' ds →
  if taken =? 0 then produces q ds else produces q ({| chunk := d; flags := order |} :: ds).
Proof.
  intros Ha Hk Hwf Hc Hd Hds. pose proof (q_dequeue_cuttable _ _ _ _ _ _ _ Ha Hk Hwf Hc Hd) as (Hc' & _).
  pose proof (head_order_nonpos _ _ Hc') as Hh. unfold q_dequeue, produces, head_order in *.
  destruct (q_items q) as [|it its] eqn:Hq; [simplify_eq; intros b Hb Hb0; apply Hds; by rewrite ?Hq|].
  unfold cuttable in Hc. rewrite Hq in Hc. apply Forall_cons in Hc as [[Hne Hord] _]. pose proof (len_pos _ Hne).
  destruct (amount <? len (it_data it)) eqn:Hl; zbool; simplify_eq.
  - assert (in_i32 (it_order it - 1) = true) as Hi by (unfold in_i32, i32_max; unfold i32_min in *; lia).
    cbn [q_items it_order] in *. rewrite as_i32_id in * by done.
    destruct (taken =? 0); intros b Hb Hb0; [apply Hds; lia|].
    cbn. unfold is_dummy, is_final. cbn. rewrite !(proj2 (Z.eqb_neq (it_order it) _)) by lia.
    split; [unfold i32_min in *; lia|]. apply Hds; lia.
  - rewrite (proj2 (Z.eqb_neq (len (it_data it)) 0)) by lia. intros b _ _. cbn. by apply Hds.
Qed.

Lemma q_fill_produces fuel amount k q cs rest q' ds :
  0 ≤ amount → 0 ≤ k → queue_wf q → cuttable (k + 1) q → (Z.to_nat amount < fuel)%nat →
  q_fill fuel amount q = (cs, rest, q') → produces q' ds → produces q (to_chunks cs ++ ds).
Proof.
  revert amount q cs rest q'. induction fuel as [|fuel IH];
    intros amount q cs rest q' Ha Hk Hwf Hc Hfuel Hq Hds; [lia|]. cbn [q_fill] in Hq.
  destruct (12 <=? amount) eqn:Hle; zbool; [|by simplify_eq].
  destruct (q_dequeue (amount - 12) q) as [[[d taken] order] q1] eqn:Hd.
  pose proof (q_dequeue_taken (amount - 12) q _ _ _ _ ltac:(lia) Hd) as [Htaken Hbound].
  pose proof (q_dequeue_wf (amount - 12) q Hwf) as Hwf1. rewrite Hd in Hwf1. cbn in Hwf1.
  destruct (q_dequeue_cuttable (amount - 12) k q d taken order q1 ltac:(lia) Hk Hwf Hc Hd) as (Hc1 & _ & H1 & _).
  pose proof (λ es, q_dequeue_produces (amount - 12) k q d taken order q1 es ltac:(lia) Hk Hwf Hc Hd) as Hp.
  destruct (taken =? 0) eqn:Ht.
  { simplify_eq. apply Hp. exact Hds. }
  destruct (q_fill fuel (amount - 12 - taken) q1) as [[cs1 rest1] q2] eqn:Hf. simplify_eq. zbool.
  destruct (H1 Ht) as [_ Hlast]. apply Hp.
  destruct Hlast as [[_ Hck1]|[Heq _]]; [by eapply IH; [|exact Hk|exact Hwf1|exact Hck1| |exact Hf|exact Hds]; lia|].
  destruct fuel; cbn in Hf; [by simplify_eq|]. rewrite (proj2 (Z.leb_gt 12 _)) in Hf by lia. by simplify_eq.
Qed.

(** ** Running the buffers *)

(** What a server operation leaves alone: the services other than Redis, and
    the identifiers drawn so far stay drawn. *)
Record evolves (w w' : world) : Prop := {
  ev_messages : messages_db w' = messages_db w;
  ev_accounts : accounts_db w' = accounts_db w;
  ev_clock : clock w' = clock w;
  ev_uuids : uuids w' = uuids w;
  ev_drawn : (drawn w ≤ drawn w')%nat;
}.

Global Instance evolves_preorder : PreOrder evolves.
Proof. split; [done|]. intros w1 w2 w3 [] []. split; try congruence. lia. Qed.

Lemma same_evolves w w' : same_but_redis w w' → evolves w w'.
Proof. intros []. split; try done. lia. Qed.

(** The items of a queue were inserted under drawn identifiers. *)
Definition guids_drawn (w : world) (q : rqueue) : Prop :=
  Forall (λ it, ∃ i, (i < drawn w)%nat ∧ it_guid it = uuids w i) (q_items q).

Lemma guids_drawn_evolves w w' q : evolves w w' → guids_drawn w q → guids_drawn w' q.
Proof.
  intros [_ _ _ Hu Hd] Hg. eapply Forall_impl; [exact Hg|]. cbn. intros it (i & Hi & ->).
  exists i. rewrite Hu. split; [lia|done].
Qed.

Lemma fresh_evolves w w' : evolves w w' → uuids_fresh w → uuids_fresh w'.
Proof. intros [_ _ _ Hu _] Hf. unfold uuids_fresh. by rewrite Hu. Qed.

Lemma clock_ok_evolves w w' : evolves w w' → clock_ok w → clock_ok w'.
Proof. intros [_ _ Hc _ _] Hf i. rewrite Hc. apply Hf. Qed.

(** A queue that only items with order 0 were appended to. *)
Definition appended (q q' : rqueue) (data : list bytes) : Prop :=
  ∃ new, q_items q' = q_items q ++ new ∧ map it_data new = data ∧ Forall (λ it, it_order it = 0) new.

Lemma appended_contents q q' data : appended q q' data → contents q' = contents q ++ data.
Proof. intros (new & Heq & Hd & _). unfold contents. by rewrite Heq, map_app, Hd. Qed.

Lemma appended_cuttable k q q' data :
  cuttable k q → appended q q' data → Forall (λ d, d ≠ [] ∧ k + len d < 2 ^ 31) data → cuttable k q'.
Proof.
  intros Hc (new & Heq & <- & Ho) Hd. unfold cuttable. rewrite Heq. apply Forall_app. split; [done|].
  rewrite Forall_fmap in Hd. apply Forall_forall. intros it Hit.
  rewrite Forall_forall in Ho, Hd. rewrite (Ho it Hit). specialize (Hd it Hit). cbn in Hd.
  unfold i32_min. destruct Hd. split; [done|lia].
Qed.

Section enqueue.
Context `{Base64} (K : queue_keys) (HK : keys_distinct K).

(** The body the caches share. *)
Definition cache_insert (a : ProtocolAddress) (value : bytes) (guid : string) : prog serverE string Z :=
  _ ← op PoolGet;
  id ← try_ (RedisQueue.insert (k_queue K) (k_meta K) (k_index K) guid value);
  _ ← notify_cached a;
  match id with inl e => Throw e | inr id => Ret id end.

(** What an insertion needs of the world and the queue. *)
Record ready (w : world) (q : rqueue) : Prop := {
  ready_holds : holds K (redis_db w) q;
  ready_guids : guids_drawn w q;
  ready_fresh : uuids_fresh w;
  ready_clock : clock_ok w;
}.

Lemma guids_drawn_sub w q q' :
  guids_drawn w q → (∀ it, it ∈ q_items q' → it ∈ q_items q) → guids_drawn w q'.
Proof. unfold guids_drawn. rewrite !Forall_forall. eauto. Qed.

(** A world in which only Redis, the clock ticks and the tasks moved. *)
Lemma ready_same w w' q q' :
  ready w q → same_but_redis w w' → holds K (redis_db w') q' →
  (∀ it, it ∈ q_items q' → it ∈ q_items q) → ready w' q'.
Proof.
  intros [Hh Hg Hf Hc] Hs%same_evolves Hh' Hsub. split; [done| | |].
  - eapply guids_drawn_evolves; [done|]. by eapply guids_drawn_sub.
  - by eapply fresh_evolves.
  - by eapply clock_ok_evolves.
Qed.

Lemma cache_insert_exact w q a value :
  ready w q → q_next q < 2 ^ 31 →
  let guid := uuids w (drawn w) in
  ∃ w', interp server_step (guid ← op NewV4; cache_insert a value guid) w = (Ok (q_next q + 1), w') ∧
        find_guid guid (q_items q) = None ∧ ready w' (q_insert guid value q).2 ∧ evolves w w' ∧
        drawn w' = S (drawn w) ∧ writes (queue_key_list K) (redis_db w) (redis_db w').
Proof.
  intros [Hh Hg Hf Hc] Hn guid. rewrite interp_op_bind. cbn [server_step]. unfold cache_insert.
  rewrite interp_pool_get, interp_bind, interp_try. fold guid. set (w0 := draw w).
  assert (find_guid guid (q_items q) = None) as Hnone.
  { apply find_guid_None. intros (it & Heq & Hit)%list_elem_of_fmap.
    unfold guids_drawn in Hg. rewrite Forall_forall in Hg. destruct (Hg it Hit) as (i & Hi & Hgi).
    unfold guid in Heq. rewrite Hgi in Heq. apply (proj1 Hf) in Heq. lia. }
  destruct (insert_new_run K HK w0 q guid value Hh) as (w1 & Hrun & Hh1 & Hs & Hw);
    [apply Hf|apply Hf|lia|done|done|].
  rewrite Hrun. unfold notify_cached. rewrite interp_spawn.
  assert (evolves w (spawn w1 (NotifyCached (queue_name a)))) as Hev.
  { destruct Hs as [Hs1 Hs2 Hs3 Hs4 Hs5 _]. split; cbn; rewrite ?Hs1, ?Hs2, ?Hs3, ?Hs4, ?Hs5; cbn; try done. lia. }
  eexists _. split; [reflexivity|].
  refine (conj Hnone (conj _ (conj Hev (conj (same_drawn _ _ Hs) Hw)))).
  split; [exact Hh1| |by eapply fresh_evolves|by eapply clock_ok_evolves].
  unfold q_insert, guids_drawn. rewrite Hnone. cbn [q_items snd]. apply Forall_app.
  split; [by eapply guids_drawn_evolves|].
  repeat constructor. exists (drawn w). destruct Hs as [_ _ _ Hs3 Hs4 _].
  cbn. rewrite Hs3, Hs4. cbn. split; [lia|done].
Qed.

Lemma cache_insert_run w q a value :
  ready w q → q_next q < 2 ^ 31 →
  ∃ w' q', interp server_step (guid ← op NewV4; cache_insert a value guid) w = (Ok (q_next q + 1), w') ∧
        ready w' q' ∧ evolves w w' ∧ appended q q' [value] ∧ q_next q' = q_next q + 1 ∧
        writes (queue_key_list K) (redis_db w) (redis_db w').
Proof.
  intros Hr Hn. destruct (cache_insert_exact w q a value Hr Hn) as (w' & Hrun & Hnone & Hr' & Hev & _ & Hw).
  unfold q_insert in Hr'. rewrite Hnone in Hr'. cbn [snd] in Hr'.
  eexists w', _. split_and!; [exact Hrun|exact Hr'|done| |done|done].
  eexists. split_and!; [done|done|]. by repeat constructor.
Qed.

Lemma enqueue_each_run {A} (ser : A → bytes) a (l : list A) w q count :
  ready w q → q_next q + len l < 2 ^ 31 → 0 ≤ count → count + len l * 2 ^ 31 < 2 ^ 64 →
  ∃ w' q' n,
    interp server_step
      (for_each l count (λ x count,
         guid ← op NewV4; n ← cache_insert a (ser x) guid; lift (u64_add count n))) w = (Ok n, w') ∧
    ready w' q' ∧ evolves w w' ∧ appended q q' (map ser l) ∧ q_next q' = q_next q + len l ∧
    writes (queue_key_list K) (redis_db w) (redis_db w').
Proof.
  revert w q count. induction l as [|x l IH]; intros w q count Hr Hn Hcount Hsum.
  { exists w, q, count. split_and!; [done|done|done| |rewrite len_nil; lia|done].
    exists []. by rewrite app_nil_r. }
  rewrite len_cons in *. pose proof (len_nonneg l).
  destruct (cache_insert_run w q a (ser x) Hr ltac:(lia)) as (w1 & q1 & Hrun & Hr1 & Hev & Happ & Hn1 & Hw1).
  pose proof (wf_next _ (holds_wf _ _ _ _ (ready_holds _ _ Hr))).
  destruct (IH w1 q1 (count + (q_next q + 1)) Hr1 ltac:(lia) ltac:(lia) ltac:(lia))
    as (w2 & q2 & n & Hrun2 & Hr2 & Hev2 & Happ2 & Hn2 & Hw2).
  exists w2, q2, n. split_and!; [|done|by etrans| |lia|by etrans].
  - cbn [for_each]. rewrite interp_bind.
    assert (interp server_step (guid ← op NewV4; n ← cache_insert a (ser x) guid; lift (u64_add count n)) w
            = (Ok (count + (q_next q + 1)), w1)) as ->; [|exact Hrun2].
    rewrite interp_op_bind in Hrun |- *. cbn [server_step] in *.
    rewrite (interp_bind_ok _ _ _ _ _ _ Hrun), interp_lift. unfold u64_add.
    destruct (in_u64 _) eqn:Hu; [done|]. unfold in_u64, u64_max in Hu. lia.
  - destruct Happ as (new & Heq & Hd & Ho), Happ2 as (new2 & Heq2 & Hd2 & Ho2).
    exists (new ++ new2). rewrite Heq2, Heq, map_app, Hd, Hd2, app_assoc.
    split_and!; [done|done|by apply Forall_app].
Qed.

(** The loop that fills a message. *)
Lemma dequeue_loop_run fuel w q result amount :
  holds K (redis_db w) q → 0 ≤ amount → (Z.to_nat amount < fuel)%nat →
  ∃ w', interp server_step (PayloadCache.dequeue_loop fuel K result amount) w
          = (let '(cs, rest, _) := q_fill fuel amount q in (Ok (result ++ cs, rest), w')) ∧
        holds K (redis_db w') (q_fill fuel amount q).2 ∧ same_but_redis w w' ∧
        writes (queue_key_list K) (redis_db w) (redis_db w').
Proof.
  revert w q result amount. induction fuel as [|fuel IH]; intros w q result amount Hh Ha Hfuel; [lia|].
  cbn [PayloadCache.dequeue_loop q_fill]. unfold EMPTY_DENIMCHUNK_SIZE.
  destruct (12 <=? amount) eqn:Hle; zbool; [|exists w; by rewrite app_nil_r].
  rewrite usize_sub_ok, interp_bind, interp_lift, interp_pool_get by done.
  destruct (dequeue_bytes_run K HK w q (amount - 12) Hh ltac:(lia)) as (w1 & Hrun & Hh1 & Hs1 & Hw1).
  rewrite (interp_bind_ok _ _ _ _ _ _ Hrun).
  destruct (q_dequeue (amount - 12) q) as [[[d taken] order] q1] eqn:Hd. cbn [fst snd] in *.
  pose proof (q_dequeue_taken (amount - 12) q d taken order q1 ltac:(lia) Hd) as [Htaken Hbound].
  destruct (taken =? 0) eqn:Ht; zbool; [by exists w1|].
  rewrite interp_bind, interp_lift, usize_sub_ok by lia.
  destruct (IH w1 q1 (result ++ [(d, order)]) (amount - 12 - taken) Hh1 ltac:(lia) ltac:(lia))
    as (w2 & Hrun2 & Hh2 & Hs2 & Hw2).
  exists w2. rewrite Hrun2. destruct (q_fill fuel (amount - 12 - taken) q1) as [[cs rest] q2].
  rewrite <- app_assoc. split_and!; [done|done|by etrans|by etrans].
Qed.
End enqueue.

(** ** From the server to the receiver *)

Section outgoing.
Context `{Bincode, Base64}.

(** One regular message to the receiver per envelope. *)
Definition send_messages (self : Chunker) (receiver : ProtocolAddress) (envelopes : list Envelope)
    : prog serverE string (list (DenimMessage f32)) :=
  for_each envelopes [] (λ e out, m ← create_denim_message self receiver e; Ret (out ++ [m])).

(** The chunks of some messages. *)
Definition all_chunks (ms : list (DenimMessage f32)) : list DenimChunk := concat (map dm_chunks ms).

(** The free space of the message that carries an envelope. *)
Definition message_space (self : Chunker) (e : Envelope) : Z :=
  total_free_space self (f32_of_usize (len (serialize_regular (RegularEnvelope e)))).

Lemma payload_queue_distinct a b : keys_distinct (PayloadCache.queue a b).
Proof. apply keys_of_distinct. Qed.

Lemma create_denim_message_run self a e w q k :
  holds (PayloadCache.queue a Buffer.Receiver) (redis_db w) q → cuttable (k + 1) q → 0 ≤ k →
  8 ≤ message_space self e →
  ∃ m w' q', interp server_step (create_denim_message self a e) w = (Ok m, w') ∧
    holds (PayloadCache.queue a Buffer.Receiver) (redis_db w') q' ∧ cuttable k q' ∧
    same_but_redis w w' ∧
    same_stream (dm_chunks m ++ whole (contents q')) (whole (contents q)) ∧
    content_bytes q' ≤ content_bytes q ∧
    (20 < message_space self e → q_items q ≠ [] → content_bytes q' < content_bytes q) ∧
    regular_payload m = RegularEnvelope e ∧
    writes (queue_key_list (PayloadCache.queue a Buffer.Receiver)) (redis_db w) (redis_db w') ∧
    (∀ ds, produces q' ds → produces q (dm_chunks m ++ ds)).
Proof.
  intros Hh Hc Hk Hspace. unfold create_denim_message. fold (message_space self e).
  unfold get_free_space_in_bytes. fold (message_space self e).
  rewrite interp_bind, interp_lift, usize_sub_ok by done. unfold EMPTY_VEC_SIZE.
  set (free := message_space self e - 8). assert (0 ≤ free) by lia.
  unfold dequeue_outgoing_payload_buffer, PayloadCache.dequeue_payload_data.
  destruct (dequeue_loop_run (PayloadCache.queue a Buffer.Receiver) (payload_queue_distinct _ _)
              (S (Z.to_nat free)) w q [] free Hh ltac:(lia) ltac:(lia)) as (w' & Hrun & Hh' & Hs & Hw).
  destruct (q_fill (S (Z.to_nat free)) free q) as [[cs rest] q'] eqn:Hq. cbn [snd app] in *.
  destruct (q_fill_spec (S (Z.to_nat free)) free k q cs rest q' ltac:(lia) Hk (holds_wf _ _ _ _ Hh) Hc
              ltac:(lia) Hq) as (_ & Hc' & Hstream & Hle & Hlt & _).
  rewrite interp_bind, interp_bind.
  change (interp server_step (PayloadCache.dequeue_loop _ _ _ _) w)
    with (interp server_step (PayloadCache.dequeue_loop (S (Z.to_nat free))
            (PayloadCache.queue a Buffer.Receiver) [] free) w).
  rewrite Hrun. eexists _, w', q'. split; [reflexivity|]. split_and!; try done.
  - intros. apply Hlt; [lia|done].
  - intros ds. apply (q_fill_produces (S (Z.to_nat free)) free k q cs rest q' ds); [lia|done|by eapply holds_wf|done|lia|done].
Qed.

Lemma message_chunks self a e w m w' :
  interp server_step (create_denim_message self a e) w = (Ok m, w') → len (dm_chunks m) ≤ message_space self e.
Proof.
  intros Hrun. pose proof (returns_sound server_step _ _ _ _ _ (create_denim_message_size self a e) Hrun) as [Hm _].
  fold (message_space self e) in Hm. rewrite <- Hm. pose proof (len_nonneg (dm_ballast m)). unfold chunks_wire.
  assert (len (dm_chunks m) ≤ sumZ (map chunk_wire (dm_chunks m))) as Hl; [clear|lia].
  induction (dm_chunks m) as [|c cs IH]; [done|]. cbn [map]. rewrite sumZ_cons, len_cons. unfold chunk_wire at 1.
  pose proof (len_nonneg (chunk c)). lia.
Qed.

Lemma send_messages_run self a es w q out :
  holds (PayloadCache.queue a Buffer.Receiver) (redis_db w) q → cuttable (len es) q →
  Forall (λ e, 20 < message_space self e) es →
  ∃ ms w' q', interp server_step
      (for_each es out (λ e out, m ← create_denim_message self a e; Ret (out ++ [m]))) w = (Ok (out ++ ms), w') ∧
    holds (PayloadCache.queue a Buffer.Receiver) (redis_db w') q' ∧ cuttable 0 q' ∧
    same_stream (all_chunks ms ++ whole (contents q')) (whole (contents q)) ∧
    (q_items q' = [] ∨ content_bytes q' + len es ≤ content_bytes q) ∧
    Forall2 (λ e m, regular_payload m = RegularEnvelope e) es ms ∧ len (all_chunks ms) ≤ sumZ (map (message_space self) es) ∧
    (∀ ds, produces q' ds → produces q (all_chunks ms ++ ds)).
Proof.
  revert w q out. induction es as [|e es IH]; intros w q out Hh Hc Hes.
  { exists [], w, q. rewrite app_nil_r. split_and!; [done..|right; rewrite len_nil; lia|constructor|done|done]. }
  apply Forall_cons in Hes as [He Hes]. rewrite len_cons in Hc. cbn [for_each].
  replace (1 + len es) with (len es + 1) in Hc by lia. pose proof (len_nonneg es).
  destruct (create_denim_message_run self a e w q (len es) Hh Hc ltac:(lia) ltac:(lia))
    as (m & w1 & q1 & Hrun & Hh1 & Hc1 & _ & Hs1 & Hle & Hlt & Hm & _ & Hf).
  rewrite interp_bind, (interp_bind_ok _ _ _ _ _ _ Hrun).
  destruct (IH w1 q1 (out ++ [m]) Hh1 Hc1 Hes) as (ms & w2 & q2 & Hrun2 & Hh2 & Hc2 & Hs2 & Hp & Hms & Hl & Hf2).
  exists (m :: ms), w2, q2. cbn [interp]. rewrite Hrun2, <- app_assoc. unfold all_chunks in *. cbn [map concat app].
  assert (same_stream ((dm_chunks m ++ concat (map dm_chunks ms)) ++ whole (contents q2)) (whole (contents q))) as Hs.
  { by rewrite <- app_assoc, Hs2. }
  pose proof (message_chunks _ _ _ _ _ _ Hrun).
  split_and!; [done..| |by constructor|rewrite len_app, sumZ_cons; lia|intros ds Hds; rewrite <- app_assoc; by apply Hf, Hf2].
  rewrite len_cons. destruct Hp as [Hp|Hp]; [by left|].
  destruct (decide (q_items q = [])) as [Hnil|Hne].
  - left. unfold contents in Hs at 2. rewrite Hnil in Hs. cbn in Hs.
    assert (map q_msg (map (λ d, (0, d, 0)) (contents q2)) = contents q2) as Hmap.
    { rewrite map_map. apply map_id. }
    rewrite <- Hmap in Hs. apply same_stream_nil in Hs.
    unfold contents in Hs. by destruct (q_items q2).
  - right. specialize (Hlt He Hne). lia.
Qed.

Lemma cuttable_bytes k q : cuttable k q → content_bytes q ≤ 0 → q_items q = [].
Proof.
  intros Hc Hb. destruct q as [n [|it its]]; [done|]. exfalso.
  apply Forall_cons in Hc as [[Hne _] _]. pose proof (len_pos _ Hne).
  unfold content_bytes, contents in Hb. cbn in Hb.
  assert (0 ≤ sumZ (map len (map it_data its))).
  { clear. induction its as [|x its IH]; [done|]. cbn [map]. rewrite sumZ_cons.
    pose proof (len_nonneg (it_data x)). lia. }
  unfold sumZ in *. lia.
Qed.

Lemma empty_contents q : q_items q = [] → contents q = [].
Proof. unfold contents. by intros ->. Qed.

(** As many messages as there are bytes empty the queue. *)
Lemma drain_run self a es w q :
  holds (PayloadCache.queue a Buffer.Receiver) (redis_db w) q → cuttable (len es) q →
  Forall (λ e, 20 < message_space self e) es → content_bytes q ≤ len es →
  ∃ ms w' q', interp server_step (send_messages self a es) w = (Ok ms, w') ∧
    holds (PayloadCache.queue a Buffer.Receiver) (redis_db w') q' ∧ q_items q' = [] ∧
    absorb [] (all_chunks ms) = (contents q, []) ∧ produces q (all_chunks ms) ∧
    Forall2 (λ e m, regular_payload m = RegularEnvelope e) es ms ∧ len (all_chunks ms) ≤ sumZ (map (message_space self) es).
Proof.
  intros Hh Hc Hes Henough.
  destruct (send_messages_run self a es w q [] Hh Hc Hes) as (ms & w' & q' & Hrun & Hh' & Hc' & Hs & Hp & Hms & Hl & Hf).
  assert (q_items q' = []) as Hnil by (destruct Hp as [Hp|Hp]; [done|apply (cuttable_bytes 0); [done|lia]]).
  exists ms, w', q'. split_and!; [done|done|done| | |done|done].
  - specialize (Hs []). rewrite (empty_contents q' Hnil) in Hs. cbn [whole map] in Hs. by rewrite app_nil_r, absorb_whole in Hs.
  - rewrite <- (app_nil_r (all_chunks ms)). apply Hf. by intros b _ _.
Qed.

(** Queue the payloads, then send one message per envelope. *)
Definition deliver (self : Chunker) (receiver : ProtocolAddress) (payloads : list DeniablePayload)
    (envelopes : list Envelope) : prog serverE string (list DenimChunk) :=
  _ ← enqueue_outgoing_payload_buffer receiver payloads;
  ms ← send_messages self receiver envelopes; Ret (all_chunks ms).

Definition payload_bytes (ps : list DeniablePayload) : Z := sumZ (map (len ∘ serialize_payload) ps).

Lemma payload_bytes_cons p ps : payload_bytes (p :: ps) = len (serialize_payload p) + payload_bytes ps.
Proof. done. Qed.

Lemma payload_bytes_nonneg ps : 0 ≤ payload_bytes ps.
Proof.
  induction ps as [|p ps IH]; [done|]. rewrite payload_bytes_cons. pose proof (len_nonneg (serialize_payload p)). lia.
Qed.

Lemma payload_bytes_each ps p : p ∈ ps → len (serialize_payload p) ≤ payload_bytes ps.
Proof.
  induction ps as [|x ps IH]; [by intros ?%elem_of_nil|]. rewrite payload_bytes_cons. pose proof (payload_bytes_nonneg ps).
  pose proof (len_nonneg (serialize_payload x)). intros [->|Hin]%elem_of_cons; [lia|]. specialize (IH Hin). lia.
Qed.

Lemma deliver_run self a ps es w q :
  ready (PayloadCache.queue a Buffer.Receiver) w q → q_items q = [] →
  Forall (λ e, 20 < message_space self e) es → payload_bytes ps ≤ len es →
  q_next q + len ps + payload_bytes ps + len es < 2 ^ 31 →
  ∃ cs w' q', interp server_step (deliver self a ps es) w = (Ok cs, w') ∧
    holds (PayloadCache.queue a Buffer.Receiver) (redis_db w') q' ∧ q_items q' = [] ∧
    absorb [] cs = (map serialize_payload ps, []).
Proof.
  intros Hr Hempty Hes Henough Hsize. unfold deliver, enqueue_outgoing_payload_buffer, enqueue_each.
  pose proof (wf_next _ (holds_wf _ _ _ _ (ready_holds _ _ _ Hr))). pose proof (len_nonneg ps).
  pose proof (len_nonneg es).
  pose proof (payload_bytes_nonneg ps) as Hpb.
  destruct (enqueue_each_run (PayloadCache.queue a Buffer.Receiver) (payload_queue_distinct _ _)
              serialize_payload a ps w q 0 Hr ltac:(lia) ltac:(lia) ltac:(lia))
    as (w1 & q1 & n & Hrun & Hr1 & _ & Happ & _ & _).
  erewrite interp_bind_ok; [|exact Hrun].
  assert (cuttable (len es) q1) as Hc.
  { eapply (appended_cuttable _ q); [|done|].
    - unfold cuttable. rewrite Hempty. constructor.
    - apply Forall_forall. intros d (p & -> & Hp)%list_elem_of_fmap.
      split; [apply serialize_payload_nonempty|]. pose proof (payload_bytes_each ps p Hp). lia. }
  apply appended_contents in Happ. rewrite (empty_contents q Hempty) in Happ. cbn [app] in Happ.
  assert (content_bytes q1 = payload_bytes ps) as Hb by (unfold content_bytes, payload_bytes; by rewrite Happ, map_map).
  destruct (drain_run self a es w1 q1 (ready_holds _ _ _ Hr1) Hc Hes ltac:(lia)) as (ms & w2 & q2 & Hrun2 & Hh2 & Hnil & Hs & _).
  exists (all_chunks ms), w2, q2. rewrite (interp_bind_ok _ _ _ _ _ _ Hrun2). by rewrite Hs, Happ.
Qed.
End outgoing.

(** ** Properties *)

(** C2: what the server adds to a regular message does not depend on the
    payloads it has for the receiver: over any two servers, in any states,
    whatever they answer, the chunks and the ballast of the message that
    carries a given envelope have the same total size, the free space of the
    envelope. *)
Theorem denim_message_hides_payloads `{Bincode, Base64} {S S'}
    (h : handler serverE string S) (h' : handler serverE string S')
    (self : Chunker) (receiver : ProtocolAddress) (e : Envelope) s s' m m' t t'
    (Hrun : interp h (create_denim_message self receiver e) s = (Ok m, t))
    (Hrun' : interp h' (create_denim_message self receiver e) s' = (Ok m', t')) :
  len (serialize_chunks (dm_chunks m)) + len (dm_ballast m) = message_space self e ∧
  len (serialize_chunks (dm_chunks m)) + len (dm_ballast m)
  = len (serialize_chunks (dm_chunks m')) + len (dm_ballast m').
Proof.
  pose proof (returns_sound h _ _ _ _ _ (create_denim_message_size self receiver e) Hrun) as [Hm _].
  pose proof (returns_sound h' _ _ _ _ _ (create_denim_message_size self receiver e) Hrun') as [Hm' _].
  rewrite !serialize_chunks_length. unfold message_space. lia.
Qed.

Definition demo_address : ProtocolAddress := {| name := "bob"; device_id := 1 |}.
Definition demo_envelope : Envelope :=
  {| env_type := Some 1; env_source_service_id := None; env_source_device := Some 1;
     env_destination_service_id := None; env_timestamp := Some 5; env_content := Some [x01; x02];
     env_server_guid := None; env_server_timestamp := None; env_ephemeral := None;
     env_urgent := None; env_updated_pni := None; env_story := None; env_reporting_token := None |}.
Definition demo_payload : DeniablePayload := KeyRequest {| request_service_id := "a" |}.

(** A server with a payload for the receiver. *)
Definition loaded_world : world :=
  (interp server_step (enqueue_outgoing_payload_buffer demo_address [demo_payload; demo_payload]) empty_world).2.

Lemma denim_message_hides_payloads_witness :
  ∃ m t m' t',
    interp server_step (create_denim_message Chunker_default demo_address demo_envelope) empty_world
      = (Ok m, t) ∧
    interp server_step (create_denim_message Chunker_default demo_address demo_envelope) loaded_world
      = (Ok m', t') ∧
    len (serialize_chunks (dm_chunks m)) + len (dm_ballast m)
    = len (serialize_chunks (dm_chunks m')) + len (dm_ballast m').
Proof.
  do 4 eexists. split; [vm_compute; reflexivity|]. split; [vm_compute; reflexivity|].
  refine (proj2 (denim_message_hides_payloads server_step server_step Chunker_default demo_address
    demo_envelope empty_world loaded_world _ _ _ _ _ _)).
  - vm_compute. reflexivity.
  - vm_compute. reflexivity.
Defined.

(** C3: payloads queued for a receiver reach it: over every server that
    behaves as documented and starts with nothing for the receiver, after
    queueing the payloads and sending at least as many regular messages as
    they have bytes, the chunks of those messages are, to an in-order
    receiver, exactly the serialized payloads, in order, each once. *)
Theorem payloads_reach_receiver `{Bincode, Base64} {S} (h : handler serverE string S) (view : S → world)
    (self : Chunker) (a : ProtocolAddress) (ps : list DeniablePayload) (es : list Envelope) (q : rqueue) (s : S)
    (Hdoc : documented h view)
    (Hready : ready (PayloadCache.queue a Buffer.Receiver) (view s) q) (Hempty : q_items q = [])
    (Hspace : Forall (λ e, 20 < message_space self e) es)
    (Henough : payload_bytes ps ≤ len es)
    (Hsize : q_next q + len ps + payload_bytes ps + len es < 2 ^ 31) :
  ∃ cs s', interp h (deliver self a ps es) s = (Ok cs, s') ∧
           absorb [] cs = (map serialize_payload ps, []).
Proof.
  destruct (deliver_run self a ps es (view s) q Hready Hempty Hspace Henough Hsize)
    as (cs & w & q' & Hrun & _ & _ & Ha).
  destruct (sim_run _ _ _ _ _ _ _ Hdoc Hrun) as (s' & Hrun' & _). eauto.
Qed.

Lemma demo_uuids : uuids_fresh empty_world ∧ clock_ok empty_world.
Proof.
  split; [split|].
  - intros i j Heq. cbn in Heq. apply append_inv_l, show_inj in Heq. lia.
  - intros i. split; intros Heq; cbn in Heq; rewrite append_cons in Heq; discriminate.
  - intros i. vm_compute. discriminate.
Qed.

Lemma empty_ready `{Base64} K : ready K empty_world empty_queue.
Proof. split; [apply empty_holds|constructor|apply demo_uuids..]. Qed.

Lemma payloads_reach_receiver_witness :
  ∃ cs s', interp server_step
      (deliver Chunker_default demo_address [demo_payload; demo_payload] (replicate 100 demo_envelope))
      empty_world = (Ok cs, s') ∧
    absorb [] cs = (map serialize_payload [demo_payload; demo_payload], []).
Proof.
  apply (payloads_reach_receiver server_step id Chunker_default demo_address
           [demo_payload; demo_payload] (replicate 100 demo_envelope) empty_queue empty_world).
  - apply sim_refl.
  - apply empty_ready.
  - reflexivity.
  - apply Forall_replicate. vm_compute. reflexivity.
  - vm_compute. discriminate.
  - vm_compute. reflexivity.
Defined.
