(* ===== verification/Queues.v ===== *)
(** The queues of the three caches do not interfere: what is done to the queue
    of one device or of one cache leaves the others as they are. *)
From S2P Require Export DenimManager Wire.

Local Open Scope Z_scope.

(** ** Key names *)

(** What follows the first colon of a key. *)
Definition key_tail (a : ProtocolAddress) (r : string) : string :=
  ":{" +:+ name a +:+ "::" +:+ show (device_id a) +:+ "}" +:+ r.

Lemma split_first_inj c s s' t t' :
  string_mem c s = false → string_mem c s' = false → s +:+ String c t = s' +:+ String c t' → s = s' ∧ t = t'.
Proof.
  intros Hs Hs' Heq. apply (f_equal (split_first c)) in Heq. rewrite !split_first_app in Heq by done.
  by injection Heq.
Qed.

Lemma key_tail_inj a a' r r' :
  string_mem ":" (name a) = false → string_mem ":" (name a') = false → key_tail a r = key_tail a' r' → a = a' ∧ r = r'.
Proof.
  unfold key_tail. rewrite !append_cons, !append_nil. intros Ha Ha' [= Heq].
  apply split_first_inj in Heq as [Hn [= Heq]]; [|done|done].
  apply split_first_inj in Heq as [Hi Hr]; [|by apply string_mem_show|by apply string_mem_show].
  apply show_inj in Hi. split; [|done]. destruct a, a'. cbn in *. by subst.
Qed.

(** The caches' names of queues. *)
Definition queue_bases : list string :=
  [ChunkCache.base Buffer.Sender; ChunkCache.base Buffer.Receiver;
   PayloadCache.base Buffer.Sender; PayloadCache.base Buffer.Receiver; MessageCache.base].
Definition key_kinds : list string := [""; "_metadata"; "_persisting"].

Lemma kinds_differ b b' x x' :
  b ∈ queue_bases → b' ∈ queue_bases → x ∈ key_kinds → x' ∈ key_kinds → b +:+ x = b' +:+ x' → b = b' ∧ x = x'.
Proof.
  assert (Forall (λ b, Forall (λ b', Forall (λ x, Forall (λ x', b +:+ x = b' +:+ x' → b = b' ∧ x = x')
    key_kinds) key_kinds) queue_bases) queue_bases) as Hall by (apply (bool_decide_unpack _); by vm_compute).
  intros Hb Hb' Hx Hx'. rewrite Forall_forall in Hall. specialize (Hall b Hb). rewrite Forall_forall in Hall.
  specialize (Hall b' Hb'). rewrite Forall_forall in Hall. specialize (Hall x Hx). rewrite Forall_forall in Hall.
  by apply Hall.
Qed.

Lemma index_differs b b' : b ∈ queue_bases → b' ∈ queue_bases → b ≠ b' → b +:+ "_index_key" ≠ b' +:+ "_index_key".
Proof.
  assert (Forall (λ b, Forall (λ b', b ≠ b' → b +:+ "_index_key" ≠ b' +:+ "_index_key") queue_bases) queue_bases) as Hall
    by (apply (bool_decide_unpack _); by vm_compute).
  intros Hb Hb'. rewrite Forall_forall in Hall. specialize (Hall b Hb). rewrite Forall_forall in Hall. by apply Hall.
Qed.

Lemma no_colon b x : b ∈ queue_bases → x ∈ "_index_key" :: key_kinds → string_mem ":" (b +:+ x) = false.
Proof.
  assert (Forall (λ b, Forall (λ x, string_mem ":" (b +:+ x) = false) ("_index_key" :: key_kinds)) queue_bases) as Hall
    by (apply (bool_decide_unpack _); by vm_compute).
  intros Hb Hx. rewrite Forall_forall in Hall. specialize (Hall b Hb). rewrite Forall_forall in Hall. by apply Hall.
Qed.

(** ** Separate queues *)

Definition private_keys (K : queue_keys) : list string := [k_queue K; k_meta K; rev_key (k_meta K); k_lock K].

Record separate (K K' : queue_keys) : Prop := {
  sep_keys k : k ∈ private_keys K → k ∉ queue_key_list K';
  sep_index : k_index K = k_index K' ∨ k_index K ∉ queue_key_list K';
}.

Definition named_key (b x : string) (a : ProtocolAddress) (r : string) : string := (b +:+ x) +:+ String ":" (key_tail a r).

Lemma named_key_inj b b' x x' a a' r r' :
  b ∈ queue_bases → b' ∈ queue_bases → x ∈ key_kinds → x' ∈ key_kinds →
  string_mem ":" (name a) = false → string_mem ":" (name a') = false →
  named_key b x a r = named_key b' x' a' r' → b = b' ∧ a = a'.
Proof.
  intros Hb Hb' Hx Hx' Ha Ha' Heq. unfold named_key in Heq.
  apply split_first_inj in Heq as [Hk Ht]; [|by apply no_colon; [|right]|by apply no_colon; [|right]].
  apply key_tail_inj in Ht as [-> _]; [|done|done]. by apply kinds_differ in Hk as [-> _].
Qed.

Lemma named_key_index b b' x a r :
  b ∈ queue_bases → b' ∈ queue_bases → named_key b x a r ≠ b' +:+ "_index_key".
Proof.
  intros Hb Hb' Heq. pose proof (no_colon b' "_index_key" Hb' ltac:(left)) as Hc. rewrite <- Heq in Hc.
  unfold named_key in Hc. rewrite string_mem_app in Hc. cbn in Hc. by rewrite orb_true_r in Hc.
Qed.

Lemma keys_named b a :
  keys_of b a = {| k_queue := named_key b "" a ""; k_meta := named_key b "_metadata" a "";
                   k_index := b +:+ "_index_key"; k_lock := named_key b "_persisting" a "" |} ∧
  rev_key (k_meta (keys_of b a)) = named_key b "_metadata" a ":rev".
Proof.
  unfold keys_of, rev_key, named_key, key_tail, address_suffix. cbn [k_meta].
  by rewrite !append_assoc, !append_cons, !append_nil.
Qed.

Lemma separate_keys b b' a a' :
  b ∈ queue_bases → b' ∈ queue_bases → string_mem ":" (name a) = false → string_mem ":" (name a') = false →
  b ≠ b' ∨ a ≠ a' → separate (keys_of b a) (keys_of b' a').
Proof.
  intros Hb Hb' Ha Ha' Hne. destruct (keys_named b a) as [Hk Hr], (keys_named b' a') as [Hk' Hr'].
  assert (∀ x x' r r', x ∈ key_kinds → x' ∈ key_kinds → named_key b x a r ≠ named_key b' x' a' r') as Hnamed.
  { intros x x' r r' Hx Hx' Heq. apply named_key_inj in Heq as [-> ->]; [|done..]. by destruct Hne. }
  split.
  - intros k Hin Hin'. unfold private_keys in Hin. unfold queue_key_list in Hin'. rewrite Hr in Hin. rewrite Hr' in Hin'.
    rewrite Hk in Hin. rewrite Hk' in Hin'. cbn [k_queue k_meta k_index k_lock] in *.
    rewrite !elem_of_cons in Hin, Hin'.
    destruct Hin as [->|[->|[->|[->|Hin]]]]; [..|by apply elem_of_nil in Hin];
      destruct Hin' as [Heq|[Heq|[Heq|[Heq|Hin']]]]; try (by apply elem_of_nil in Hin');
      try (by apply named_key_index in Heq);
      revert Heq; apply Hnamed; by repeat constructor.
  - destruct (decide (b = b')) as [->|Hbb]; [left; by rewrite Hk, Hk'|right].
    unfold queue_key_list. rewrite Hr', Hk, Hk'. cbn [k_queue k_meta k_index k_lock].
    rewrite !not_elem_of_cons. split_and!; [| | |by apply index_differs|by apply not_elem_of_nil];
      apply not_eq_sym; by apply named_key_index.
Qed.

(** *** What another queue's operation leaves *)

Section frames.
Context `{Base64}.

Lemma holds_other K K' d d' q q' :
  separate K K' → holds K d q → writes (queue_key_list K') d d' → holds K' d' q' → holds K d' q.
Proof.
  intros [Hs Hi] [Hwf Hz Hm Hr Hx Hl] Hw [_ _ _ _ Hx' _].
  assert (∀ k, k ∈ private_keys K → keys d' !! k = keys d !! k) as Hk by (intros k Hin; by apply Hw, Hs).
  pose proof (Hk (k_queue K) ltac:(unfold private_keys; set_solver)) as Hkq.
  pose proof (Hk (k_meta K) ltac:(unfold private_keys; set_solver)) as Hkm.
  pose proof (Hk (rev_key (k_meta K)) ltac:(unfold private_keys; set_solver)) as Hkr.
  pose proof (Hk (k_lock K) ltac:(unfold private_keys; set_solver)) as Hkl.
  unfold zset_of, hash_of, str_of in *. split; unfold zset_of, hash_of, str_of; rewrite ?Hkq, ?Hkm, ?Hkr, ?Hkl; try done.
  destruct Hi as [Hi|Hi]; [by rewrite Hi|]. by rewrite (Hw _ Hi).
Qed.

Lemma ready_other K K' w w' q q' :
  separate K K' → ready K w q → evolves w w' → writes (queue_key_list K') (redis_db w) (redis_db w') →
  ready K' w' q' → ready K w' q.
Proof.
  intros Hs [Hh Hg Hf Hc] Hev Hw [Hh' _ _ _]. split.
  - by eapply holds_other.
  - by eapply guids_drawn_evolves.
  - by eapply fresh_evolves.
  - by eapply clock_ok_evolves.
Qed.
End frames.

(** A read of the clock. *)
Lemma ready_tick `{Base64} K w q : ready K w q → ready K (tick w) q.
Proof. intros Hr. eapply ready_same; [exact Hr|apply same_tick|apply Hr|done]. Qed.
