(* ===== verification/MessagesManager.v ===== *)
(** Delivered and persisted messages ([messages_manager.rs],
    [message_persister.rs], [account_manager.rs]).

    A device's messages wait in the message cache; the persister moves old
    queues to the database.  Reading concatenates the two stores. *)
From S2P Require Export Cache DenimManager.

Local Open Scope Z_scope.

(** ** Definitions *)

(** [str::split("::")] *)
Fixpoint split_colons (s : string) : list string :=
  match s with
  | EmptyString => [""]
  | String c t =>
      let rest :=
        match split_colons t with [] => [String c ""] | p :: ps => String c p :: ps end in
      match t with
      | String d u => if decide (c = ":"%char ∧ d = ":"%char) then "" :: split_colons u else rest
      | EmptyString => rest
      end
  end.

(** [str::trim_start_matches(c)], [str::trim_end_matches(c)],
    [str::trim_matches(c)] *)
Fixpoint trim_start (c : ascii) (s : string) : string :=
  match s with
  | EmptyString => EmptyString
  | String a t => if decide (a = c) then trim_start c t else s
  end.
Fixpoint trim_end (c : ascii) (s : string) : string :=
  match s with
  | EmptyString => EmptyString
  | String a s =>
      match trim_end c s with
      | EmptyString => if decide (a = c) then EmptyString else String a ""
      | t => String a t
      end
  end.
Definition trim_matches (c : ascii) (s : string) : string := trim_end c (trim_start c s).

(** The third piece of ["user_queue::{name::id}"] keeps no closing brace. *)
Definition get_account_and_device_id_from_queue_key (queue_key : string) : outcome string (string * string) :=
  let parts := split_colons queue_key in
  p1 ← expect "index out of bounds" (parts !! 1%nat);
  let account_id := trim_matches "{" p1 in
  p2 ← expect "index out of bounds" (parts !! 2%nat);
  let device_id := trim_end "}" p2 in
  Ok (account_id, device_id).

Definition server_guid (e : Envelope) : string := default "" (env_server_guid e).

Section messages_manager.
Context `{Bincode, Base64}.

Definition insert (a : ProtocolAddress) (envelope : Envelope) : prog serverE string Z :=
  guid ← op NewV4;
  MessageCache.insert a envelope guid.

Definition has_messages (a : ProtocolAddress) : prog serverE string bool :=
  n ← message_db (count_messages a);
  Ret (0 <? n).

Definition may_have_persisted_messages (a : ProtocolAddress) : prog serverE string (bool * string) :=
  cache_has_messages ← MessageCache.has_messages a;
  db_has_messages ← has_messages a;
  let outcome :=
    if cache_has_messages && db_has_messages then "both"
    else if (cache_has_messages : bool) then "cached"
    else if (db_has_messages : bool) then "persisted" else "none" in
  Ret (cache_has_messages || db_has_messages, outcome).

Definition get_messages_for_device (a : ProtocolAddress) (cached_msg_only : bool)
    : prog serverE string (list Envelope) :=
  cached_messages ← MessageCache.get_all_messages a;
  db_messages ← (if negb cached_msg_only then message_db (get_messages a) else Ret []);
  Ret (cached_messages ++ db_messages).

Definition delete (a : ProtocolAddress) (message_guids : list string)
    : prog serverE string (list Envelope) :=
  cache_removed_messages ← MessageCache.remove a message_guids;
  db_removed_messages ← message_db (delete_messages a);
  Ret (cache_removed_messages ++ db_removed_messages).

Definition persist_messages (a : ProtocolAddress) (messages : list Envelope) : prog serverE string Z :=
  let message_guids := map server_guid messages in
  _ ← message_db (push_message_queue a messages);
  removed ← MessageCache.remove a message_guids;
  Ret (len removed).

Definition add_message_availability_listener (a : ProtocolAddress) (l : nat) : prog serverE string unit :=
  MessageCache.add_message_availability_listener a l.
Definition remove_message_availability_listener (a : ProtocolAddress) : prog serverE string unit :=
  MessageCache.remove_message_availability_listener a.

(** *** The persister *)

Definition QUEUE_BATCH_LIMIT : Z := 100.
Definition MESSAGE_BATCH_LIMIT : Z := 100.
Definition PERSIST_DELAY : Z := 600.

(** The [while] of [persist_queue]: at most [fuel] rounds. *)
Fixpoint persist_rounds (fuel : nat) (a : ProtocolAddress) : prog serverE string unit :=
  match fuel with
  | O => Crash "out of fuel"
  | S fuel =>
      messages ← MessageCache.get_messages_to_persist a MESSAGE_BATCH_LIMIT;
      if decide (messages = []) then Ret tt
      else
        _ ← persist_messages a messages;
        persist_rounds fuel a
  end.

Definition persist_queue (fuel : nat) (account : Account) (device : Device) : prog serverE string unit :=
  let protocol_address :=
    {| name := service_id_string (Aci (aci account)); device_id := dev_id device |} in
  _ ← MessageCache.lock_queue_for_persistence protocol_address;
  _ ← persist_rounds fuel protocol_address;
  MessageCache.unlock_queue_for_persistence protocol_address.

(** The body of the loop over the queues of a batch. *)
Definition persist_key `{ServiceIdText} (fuel : nat) (queue_key : string) : prog serverE string unit :=
  '(account_id, device_id) ← lift (get_account_and_device_id_from_queue_key queue_key);
  service_id ← lift (ok_or ("Failed to parse service id from queue: " +:+ queue_key)
                       (parse_from_service_id_string account_id));
  account ← account_db (get_account service_id);
  device_id ← lift (ok_or "invalid digit found in string" (parse_u32 device_id));
  device ← lift (ok_or "Could not find device in account."
                   (find (λ d, dev_id d =? device_id) (acc_devices account)));
  persist_queue fuel account device.

(** [persist]: batches of stale queues until none is left. *)
Fixpoint persist_batches `{ServiceIdText} (fuel rounds : nat) : prog serverE string unit :=
  match rounds with
  | O => Crash "out of fuel"
  | S rounds =>
      time ← op Now;
      time_in_secs ← lift (expect "Failed to get time"
                             (if time <? 0 then None else Some (time / 1000)));
      max_time ← lift (if time_in_secs <? PERSIST_DELAY then Panic "attempt to subtract with overflow"
                       else Ok (time_in_secs - PERSIST_DELAY));
      queues_to_persist ← MessageCache.get_message_queues_to_persist max_time QUEUE_BATCH_LIMIT;
      if decide (queues_to_persist = []) then Ret tt
      else
        _ ← for_each queues_to_persist tt (λ queue_key _, persist_key fuel queue_key);
        persist_batches fuel rounds
  end.
End messages_manager.

(** ** Names of queues *)

(** No two colons in a row, and none at the end. *)
Fixpoint single_colons (s : string) : bool :=
  match s with
  | EmptyString => true
  | String c t =>
      match t with
      | String d _ => bool_decide (c ≠ ":"%char ∨ d ≠ ":"%char)
      | EmptyString => bool_decide (c ≠ ":"%char)
      end && single_colons t
  end.

Lemma single_colons_free s : string_mem ":" s = false → single_colons s = true.
Proof.
  induction s as [|c s IH]; [done|]. cbn [string_mem single_colons]. case_decide as Hc; [done|].
  intros Hs. rewrite IH by done. destruct s; rewrite bool_decide_true; auto.
Qed.

Lemma split_colons_single s : single_colons s = true → split_colons s = [s].
Proof.
  induction s as [|c s IH]; [done|]. cbn [single_colons split_colons].
  intros [Hc Hs]%andb_true_iff. rewrite IH by done. destruct s as [|d s]; [done|].
  apply bool_decide_eq_true in Hc. by rewrite decide_False by tauto.
Qed.

Lemma split_colons_app s t :
  single_colons s = true → split_colons (s +:+ "::" +:+ t) = s :: split_colons t.
Proof.
  induction s as [|c s IH].
  { intros _. rewrite append_nil, !append_cons, append_nil. cbn [split_colons]. by rewrite decide_True. }
  cbn [single_colons]. intros [Hc Hs]%andb_true_iff. rewrite append_cons.
  specialize (IH Hs). destruct s as [|d s].
  - rewrite append_nil in *. rewrite !append_cons, append_nil in *.
    cbn [split_colons] in *. rewrite decide_True in * by done.
    apply bool_decide_eq_true in Hc. by rewrite decide_False by tauto.
  - rewrite append_cons in *. cbn [split_colons] in *. rewrite IH.
    apply bool_decide_eq_true in Hc. by rewrite decide_False by tauto.
Qed.

Lemma trim_start_free c s : string_mem c s = false → trim_start c s = s.
Proof. destruct s as [|a s]; [done|]. cbn. by case_decide. Qed.

Lemma trim_end_free c s : string_mem c s = false → trim_end c s = s.
Proof.
  induction s as [|a s IH]; [done|]. cbn. case_decide; [done|]. intros Hs. rewrite IH by done.
  by destruct s.
Qed.

Lemma trim_end_last c s : string_mem c s = false → trim_end c (s +:+ String c "") = s.
Proof.
  induction s as [|a s IH]; [intros _; rewrite append_nil; cbn; by rewrite decide_True|].
  rewrite append_cons. cbn [string_mem trim_end]. case_decide; [done|]. intros Hs. rewrite IH by done.
  by destruct s.
Qed.

Lemma service_id_string_plain s :
  is_uuid (uuid_of s) = true →
  single_colons (service_id_string s) = true ∧ string_mem "{" (service_id_string s) = false.
Proof.
  intros Hu. pose proof (uuid_free ":" _ Hu eq_refl) as Hcolon.
  pose proof (uuid_free "{" _ Hu eq_refl) as Hbrace. destruct s as [u|u]; cbn [uuid_of service_id_string] in *.
  - split; [by apply single_colons_free|done].
  - rewrite !append_cons, append_nil. cbn [single_colons string_mem]. rewrite !decide_False by done.
    rewrite single_colons_free, Hbrace by done. split; [|done].
    destruct u as [|c u]; [by vm_compute in Hu|]. cbn in Hcolon. case_decide; [done|].
    rewrite !bool_decide_true by auto. done.
Qed.

(** ** Queues of messages *)

Section messages.
Context `{Bincode, Base64}.

Definition blank_envelope : Envelope :=
  {| env_type := None; env_source_service_id := None; env_source_device := None;
     env_destination_service_id := None; env_timestamp := None; env_content := None;
     env_server_guid := None; env_server_timestamp := None; env_ephemeral := None;
     env_urgent := None; env_updated_pni := None; env_story := None; env_reporting_token := None |}.

Definition item_envelope (it : item) : Envelope :=
  default blank_envelope (deserialize_envelope (it_data it)).

(** The items of the queue are these envelopes, each stamped with the name it
    is stored under. *)
Definition is_message (it : item) (e : Envelope) : Prop :=
  it_data it = serialize_envelope e ∧ env_server_guid e = Some (it_guid it).
Definition stamped (q : rqueue) (es : list Envelope) : Prop := Forall2 is_message (q_items q) es.

Lemma item_envelope_message it e : is_message it e → item_envelope it = e ∧ server_guid e = it_guid it.
Proof.
  intros [Hd Hg]. unfold item_envelope, server_guid.
  by rewrite Hd, deserialize_serialize_envelope, Hg.
Qed.

Lemma messages_envelopes its es : Forall2 is_message its es → map item_envelope its = es.
Proof.
  induction 1 as [|it e its es Hm _ IH]; [done|]. cbn.
  by rewrite (proj1 (item_envelope_message _ _ Hm)), IH.
Qed.

Lemma messages_guids its es : Forall2 is_message its es → map server_guid es = map it_guid its.
Proof.
  induction 1 as [|it e its es Hm _ IH]; [done|]. cbn.
  by rewrite (proj2 (item_envelope_message _ _ Hm)), IH.
Qed.

Lemma messages_decode its es : Forall2 is_message its es → decode (map entry its) = Ok es.
Proof.
  intros Hm. apply (decode_default_entries deserialize_envelope). eapply Forall2_impl; [exact Hm|].
  intros it e [Hd _]. by rewrite Hd, deserialize_serialize_envelope.
Qed.

Lemma stamped_decodable q es : stamped q es → decodable item_envelope q.
Proof.
  intros Hm it [i Hi]%list_elem_of_lookup.
  destruct (Forall2_lookup_l _ _ _ _ _ Hm Hi) as (e & _ & Hie).
  rewrite (proj1 (item_envelope_message _ _ Hie)). apply (messages_decode [it] [e]). by constructor; [|constructor].
Qed.

Lemma stamped_insert q es e guid :
  stamped q es → find_guid guid (q_items q) = None →
  stamped (q_insert guid (serialize_envelope (MessageCache.with_guid e guid)) q).2
    (es ++ [MessageCache.with_guid e guid]).
Proof.
  intros Hm Hf. unfold q_insert. rewrite Hf. cbn. apply Forall2_app; [done|]. by constructor; [|constructor].
Qed.

Lemma stamped_drop n q es :
  stamped q es → stamped (q_reset {| q_next := q_next q; q_items := drop n (q_items q) |}) (drop n es).
Proof. intros Hm. unfold stamped. rewrite q_reset_items. by apply Forall2_drop. Qed.

Lemma stamped_names l K d q es n :
  held l K d q → stamped q es → Forall (λ g, g ≠ "counter") (map server_guid (take n es)).
Proof.
  intros Hh Hm. apply Forall_forall. intros g (e & -> & He)%list_elem_of_fmap.
  apply elem_of_take in He as (i & He & _).
  destruct (Forall2_lookup_r _ _ _ _ _ Hm He) as (it & Hit & Hie).
  rewrite (proj2 (item_envelope_message _ _ Hie)).
  pose proof (wf_names _ (holds_wf _ _ _ _ Hh)) as Hn. rewrite Forall_forall in Hn.
  by apply Hn, (list_elem_of_lookup_2 _ i).
Qed.

(** ** Persisting *)

(** What persisting the queue of [a] leaves alone. *)
Record persists (a : ProtocolAddress) (w w' : world) : Prop := {
  ps_accounts : accounts_db w' = accounts_db w;
  ps_clock : clock w' = clock w;
  ps_uuids : uuids w' = uuids w;
  ps_drawn : drawn w' = drawn w;
  ps_receiver : receiver (messages_db w') = receiver (messages_db w);
  ps_others : ∀ b, receiver (messages_db w) b ≠ receiver (messages_db w) a →
    stored (messages_db w') b = stored (messages_db w) b;
}.

Global Instance persists_preorder a : PreOrder (persists a).
Proof.
  split; [done|]. intros w1 w2 w3 [A1 C1 U1 D1 R1 O1] [A2 C2 U2 D2 R2 O2].
  split; try congruence. intros b Hb. rewrite O2 by congruence. auto.
Qed.

Lemma same_persists a w w' : same_but_redis w w' → persists a w w'.
Proof. intros [Hm Ha Hc Hu Hd Hs]. split; try done; rewrite Hm; done. Qed.

Lemma persists_store a w ms : persists a w (with_messages w (store (messages_db w) a ms)).
Proof.
  split; try done; cbn; [apply receiver_store|]. intros b Hb. unfold stored, store.
  destruct (receiver (messages_db w) a) as [r|] eqn:Hr; [|done]. cbn.
  destruct (receiver (messages_db w) b) as [r'|]; [|done]. by rewrite lookup_insert_ne by congruence.
Qed.

Section queue.
Context (a : ProtocolAddress).
Abbreviation K := (MessageCache.queue a).

Lemma message_queue_distinct : keys_distinct K.
Proof. apply keys_of_distinct. Qed.

Lemma get_messages_to_persist_run l w q es limit :
  held l K (redis_db w) q → stamped q es → 0 ≤ limit →
  interp server_step (MessageCache.get_messages_to_persist a limit) w
  = (Ok (take (Z.to_nat (limit + 1)) es), w).
Proof.
  intros Hh Hm Hl. unfold MessageCache.get_messages_to_persist. rewrite interp_pool_get.
  rstep. change (MessageCache.get_message_queue_key a) with (k_queue K). rewrite (holds_zset _ _ _ _ Hh). rgo.
  rewrite with_redis_id, index_range_0, entries_page by done.
  rewrite (messages_decode _ (take (Z.to_nat (limit + 1)) es)); [done|]. by apply Forall2_take.
Qed.

Lemma take_guids n its es :
  Forall2 is_message its es → map server_guid (take n es) = map it_guid (take n its).
Proof. intros Hm. by apply messages_guids, Forall2_take. Qed.

(** Removing the first messages of the queue. *)
Lemma remove_messages_run l w q es n :
  held l K (redis_db w) q → stamped q es →
  ∃ w' q', interp server_step (MessageCache.remove a (map server_guid (take n es))) w
             = (Ok (take n es), w') ∧
    held l K (redis_db w') q' ∧ stamped q' (drop n es) ∧ q_next q' ≤ q_next q ∧
    same_but_redis w w' ∧ writes (queue_key_list K) (redis_db w) (redis_db w').
Proof.
  intros Hh Hm. pose proof (holds_wf _ _ _ _ Hh) as Hwf. unfold MessageCache.remove. rewrite interp_pool_get.
  destruct (remove_run (T:=Envelope) K message_queue_distinct item_envelope w q
              (map server_guid (take n es)) Hh) as (w' & Hrun & Hh' & Hs & Hw).
  { by eapply stamped_names. }
  { by eapply stamped_decodable. }
  rewrite (take_guids n _ _ Hm) in *. rewrite q_remove_prefix in Hrun, Hh' by done. cbn [fst snd] in *.
  rewrite (messages_envelopes _ (take n es)) in Hrun by by apply Forall2_take.
  eexists w', _. split; [exact Hrun|]. pose proof (wf_next _ Hwf).
  split_and!; [done|by apply stamped_drop| |done|done].
  unfold q_reset. case_decide; cbn; lia.
Qed.

Lemma persist_messages_run l w q es n r :
  held l K (redis_db w) q → stamped q es → receiver (messages_db w) a = Some r →
  ∃ w' q', interp server_step (persist_messages a (take n es)) w = (Ok (len (take n es)), w') ∧
    held l K (redis_db w') q' ∧ stamped q' (drop n es) ∧
    stored (messages_db w') a = stored (messages_db w) a ++ take n es ∧
    persists a w w' ∧ spawned w' = spawned w ∧
    writes (queue_key_list K) (redis_db w) (redis_db w').
Proof.
  intros Hh Hm Hr. unfold persist_messages. rewrite interp_message_db. cbn [message_db_step].
  set (w0 := with_messages w _).
  destruct (remove_messages_run l w0 q es n Hh Hm) as (w' & q' & Hrun & Hh' & Hm' & _ & Hs & Hw).
  rewrite (interp_bind_ok _ _ _ _ _ _ Hrun). exists w', q'. cbn [interp].
  split_and!; [done|done|done| | |by rewrite (same_spawned _ _ Hs)|done].
  - rewrite (same_messages _ _ Hs). cbn. by apply (stored_store _ _ _ r).
  - etrans; [|by apply same_persists]. apply persists_store.
Qed.

(** Every round takes at least one message, so the rounds end. *)
Lemma persist_rounds_run l fuel w q es r :
  held l K (redis_db w) q → stamped q es → receiver (messages_db w) a = Some r →
  (length es < fuel)%nat →
  ∃ w' q', interp server_step (persist_rounds fuel a) w = (Ok tt, w') ∧
    held l K (redis_db w') q' ∧ q_items q' = [] ∧
    stored (messages_db w') a = stored (messages_db w) a ++ es ∧
    persists a w w' ∧ spawned w' = spawned w ∧
    writes (queue_key_list K) (redis_db w) (redis_db w').
Proof.
  revert w q es. induction fuel as [|fuel IH]; intros w q es Hh Hm Hr Hfuel; [lia|]. cbn [persist_rounds].
  pose proof (get_messages_to_persist_run l w q es MESSAGE_BATCH_LIMIT Hh Hm ltac:(done)) as Hget.
  rewrite (interp_bind_ok _ _ _ _ _ _ Hget). set (n := Z.to_nat (MESSAGE_BATCH_LIMIT + 1)).
  case_decide as Hempty.
  - assert (es = []) as -> by (by destruct es).
    exists w, q. cbn [interp]. split_and!; [done|done| |by rewrite app_nil_r|done..].
    by apply Forall2_nil_inv_r in Hm.
  - destruct (persist_messages_run l w q es n r Hh Hm Hr)
      as (w1 & q1 & Hrun & Hh1 & Hm1 & Hst1 & Hp1 & Hsp1 & Hw1).
    rewrite (interp_bind_ok _ _ _ _ _ _ Hrun).
    destruct (IH w1 q1 (drop n es) Hh1 Hm1) as (w2 & q2 & Hrun2 & Hh2 & Hq2 & Hst2 & Hp2 & Hsp2 & Hw2).
    { by rewrite (ps_receiver _ _ _ Hp1). }
    { assert (n = 101)%nat as -> by done. destruct es; [done|]. rewrite length_drop.
      cbn [length] in *. lia. }
    exists w2, q2. split_and!; [done|done|done| |by etrans|congruence|by etrans].
    by rewrite Hst2, Hst1, <- app_assoc, take_drop.
Qed.

Lemma lock_run l w q :
  held l K (redis_db w) q →
  ∃ w', interp server_step (MessageCache.lock_queue_for_persistence a) w = (Ok tt, w') ∧
    held (Some "1") K (redis_db w') q ∧ same_but_redis w w' ∧
    writes [k_lock K] (redis_db w) (redis_db w').
Proof.
  intros Hh. unfold MessageCache.lock_queue_for_persistence. rewrite interp_pool_get.
  unfold redis. rewrite interp_op. eexists. split; [reflexivity|].
  change (MessageCache.get_persist_in_progress_key a) with (k_lock K).
  assert (writes [k_lock K] (redis_db w)
            (expire (k_lock K) 30 (put (k_lock K) (VStr "1") (del (k_lock K) (redis_db w))))) as Hw.
  { intros k Hk%not_elem_of_cons. rewrite keys_expire, keys_put_ne, keys_del_ne by naive_solver. done. }
  split_and!; [|done|exact Hw]. pose proof (keys_ne _ message_queue_distinct) as Hne.
  eapply held_frame; [exact Hh| |].
  - intros k Hk. apply Hw. unfold queue_key_list in Hk. rewrite !elem_of_cons in Hk. set_solver.
  - change (str_of (expire (k_lock K) 30 (put (k_lock K) (VStr "1") (del (k_lock K) (redis_db w))))
              (k_lock K) = Ok (Some "1")).
    rewrite str_of_expire. unfold str_of. cbn. by rewrite lookup_insert_eq.
Qed.

Lemma unlock_run l w q :
  held l K (redis_db w) q →
  ∃ w', interp server_step (MessageCache.unlock_queue_for_persistence a) w = (Ok tt, w') ∧
    held None K (redis_db w') q ∧ persists a w w' ∧ messages_db w' = messages_db w ∧
    spawned w' = spawned w ++ [NotifyPersisted (queue_name a)] ∧
    writes [k_lock K] (redis_db w) (redis_db w').
Proof.
  intros Hh. unfold MessageCache.unlock_queue_for_persistence. rewrite interp_pool_get.
  rstep. rgo. unfold notify_persisted. rewrite interp_op. eexists. split; [reflexivity|].
  change (MessageCache.get_persist_in_progress_key a) with (k_lock K).
  assert (writes [k_lock K] (redis_db w) (del (k_lock K) (redis_db w))) as Hw.
  { intros k Hk%not_elem_of_cons. rewrite keys_del_ne by naive_solver. done. }
  split_and!; [|done|done|done|exact Hw]. pose proof (keys_ne _ message_queue_distinct) as Hne.
  eapply held_frame; [exact Hh| |].
  - intros k Hk. apply Hw. unfold queue_key_list in Hk. rewrite !elem_of_cons in Hk. set_solver.
  - cbn [redis_db with_redis spawn]. unfold str_of. cbn. by rewrite lookup_delete_eq.
Qed.

Lemma drained_run l fuel w q es r :
  held l K (redis_db w) q → stamped q es → receiver (messages_db w) a = Some r →
  (length es < fuel)%nat →
  ∃ w' q', interp server_step
      (_ ← MessageCache.lock_queue_for_persistence a;
       _ ← persist_rounds fuel a;
       MessageCache.unlock_queue_for_persistence a) w = (Ok tt, w') ∧
    holds K (redis_db w') q' ∧ q_items q' = [] ∧
    stored (messages_db w') a = stored (messages_db w) a ++ es ∧
    persists a w w' ∧ spawned w' = spawned w ++ [NotifyPersisted (queue_name a)].
Proof.
  intros Hh Hm Hr Hfuel. destruct (lock_run l w q Hh) as (w1 & Hrun1 & Hh1 & Hs1 & _).
  rewrite (interp_bind_ok _ _ _ _ _ _ Hrun1).
  destruct (persist_rounds_run _ fuel w1 q es r Hh1 Hm) as (w2 & q2 & Hrun2 & Hh2 & Hq2 & Hst2 & Hp2 & Hsp2 & _);
    [by rewrite (same_messages _ _ Hs1)|done|].
  rewrite (interp_bind_ok _ _ _ _ _ _ Hrun2).
  destruct (unlock_run _ w2 q2 Hh2) as (w3 & Hrun3 & Hh3 & Hp3 & Hmsg3 & Hsp3 & _).
  exists w3, q2. split_and!; [done|done|done| | |].
  - by rewrite Hmsg3, Hst2, (same_messages _ _ Hs1).
  - etrans; [by apply same_persists|]. by etrans.
  - by rewrite Hsp3, Hsp2, (same_spawned _ _ Hs1).
Qed.

(** Reading sees the first page of the cache and all that is stored. *)
Lemma get_messages_for_device_run l w q es only :
  held l K (redis_db w) q → stamped q es →
  interp server_step (get_messages_for_device a only) w
  = (Ok ((if l is Some _ then [] else take (Z.to_nat PAGE_SIZE) es) ++
         (if only then [] else selected (messages_db w) a)), w).
Proof.
  intros Hh Hm. unfold get_messages_for_device.
  assert (interp server_step (MessageCache.get_all_messages a) w
          = (Ok (if l is Some _ then [] else take (Z.to_nat PAGE_SIZE) es), w)) as Hrun.
  { unfold MessageCache.get_all_messages. rewrite interp_pool_get. destruct l as [v|].
    - pose proof (get_values_locked K w v (-1) (holds_lock _ _ _ _ Hh)) as Hg.
      by rewrite (interp_bind_ok _ _ _ _ _ _ Hg).
    - pose proof (get_values_run K w q Hh) as Hg. rewrite (interp_bind_ok _ _ _ _ _ _ Hg). unfold q_page.
      assert (Forall2 is_message (take (Z.to_nat PAGE_SIZE) (q_items q)) (take (Z.to_nat PAGE_SIZE) es)) as Hp
        by by apply Forall2_take.
      case_decide as Hnil; [|by rewrite (messages_decode _ _ Hp)].
      apply map_eq_nil in Hnil. rewrite Hnil in Hp. by apply Forall2_nil_inv_l in Hp as ->. }
  rewrite (interp_bind_ok _ _ _ _ _ _ Hrun). destruct only; cbn [negb]; [done|].
  rewrite interp_message_db. cbn [message_db_step]. by destruct w.
Qed.

(** Deleting the first messages by name empties the database too. *)
Lemma delete_run l w q es n r :
  held l K (redis_db w) q → stamped q es → receiver (messages_db w) a = Some r →
  ∃ w' q', interp server_step (delete a (map server_guid (take n es))) w
             = (Ok (take n es ++ selected (messages_db w) a), w') ∧
    held l K (redis_db w') q' ∧ stamped q' (drop n es) ∧ stored (messages_db w') a = [] ∧
    persists a w w' ∧ writes (queue_key_list K) (redis_db w) (redis_db w').
Proof.
  intros Hh Hm Hr. unfold delete.
  destruct (remove_messages_run l w q es n Hh Hm) as (w1 & q1 & Hrun & Hh1 & Hm1 & _ & Hs & Hw).
  rewrite (interp_bind_ok _ _ _ _ _ _ Hrun), interp_message_db. cbn [message_db_step].
  rewrite (same_messages _ _ Hs). eexists _, q1. split; [reflexivity|].
  split_and!; [done|done|cbn; by apply (stored_store _ _ _ r)| |done].
  etrans; [by apply same_persists|]. rewrite <- (same_messages _ _ Hs). apply persists_store.
Qed.

(** Deleting a message by a name the queue does not know. *)
Lemma delete_absent_run l w q es g r :
  held l K (redis_db w) q → stamped q es → g ∉ map server_guid es → g ≠ "counter" → receiver (messages_db w) a = Some r →
  ∃ w' q', interp server_step (delete a [g]) w = (Ok (selected (messages_db w) a), w') ∧
    held l K (redis_db w') q' ∧ stamped q' es ∧ stored (messages_db w') a = [] ∧
    persists a w w' ∧ writes (queue_key_list K) (redis_db w) (redis_db w').
Proof.
  intros Hh Hm Hg Hc Hr. unfold delete. destruct (remove_run (T:=Envelope) K message_queue_distinct item_envelope w q [g] Hh) as (w1 & Hrun & Hh1 & Hs & Hw).
  { by repeat constructor. }
  { by eapply stamped_decodable. }
  rewrite (messages_guids _ _ Hm) in Hg. apply find_guid_None in Hg.
  unfold q_remove in *. cbn [q_take] in *. rewrite (q_drop_absent _ _ Hg), Hg in *. cbn [option_list app fst snd map] in *.
  assert (interp server_step (MessageCache.remove a [g]) w = (Ok [], w1)) as Hremove
    by (unfold MessageCache.remove; rewrite interp_pool_get; exact Hrun).
  rewrite (interp_bind_ok _ _ _ _ _ _ Hremove), interp_message_db. cbn [message_db_step]. rewrite (same_messages _ _ Hs).
  eexists _, (q_reset q). split; [reflexivity|]. split_and!; [done| |cbn; by apply (stored_store _ _ _ r)| |done].
  - unfold stamped. by rewrite q_reset_items.
  - etrans; [by apply same_persists|]. rewrite <- (same_messages _ _ Hs). apply persists_store.
Qed.

(** *** Inserting *)

Lemma insert_run w q es e :
  ready K w q → stamped q es → q_next q < 2 ^ 31 →
  ∃ w' q', interp server_step (insert a e) w = (Ok (q_next q + 1), w') ∧
    ready K w' q' ∧ stamped q' (es ++ [MessageCache.with_guid e (uuids w (drawn w))]) ∧
    q_next q' = q_next q + 1 ∧ evolves w w' ∧ drawn w' = S (drawn w) ∧
    writes (queue_key_list K) (redis_db w) (redis_db w').
Proof.
  intros Hr Hm Hn. set (guid := uuids w (drawn w)).
  pose (value := serialize_envelope (MessageCache.with_guid e guid)).
  destruct (cache_insert_exact K message_queue_distinct w q a value Hr Hn)
    as (w' & Hrun & Hnone & Hr' & Hev & Hd & Hw).
  exists w', (q_insert guid value q).2. split; [|split_and!; [exact Hr'|by apply stamped_insert| |done..]].
  - rewrite <- Hrun. unfold insert. by rewrite !interp_op_bind.
  - unfold q_insert. fold guid in Hnone. by rewrite Hnone.
Qed.

(** The messages as they are stored: numbered with the identifiers drawn. *)
Definition stamp (w : world) (es : list Envelope) : list Envelope :=
  imap (λ i e, MessageCache.with_guid e (uuids w (drawn w + i))) es.

Definition insert_each (es : list Envelope) : prog serverE string unit :=
  for_each es tt (λ e _, _ ← insert a e; Ret tt).

Lemma insert_each_run w q es new :
  ready K w q → stamped q es → q_next q + len new < 2 ^ 31 →
  ∃ w' q', interp server_step (insert_each new) w = (Ok tt, w') ∧
    ready K w' q' ∧ stamped q' (es ++ stamp w new) ∧ evolves w w'.
Proof.
  unfold insert_each. revert w q es. induction new as [|e new IH]; intros w q es Hr Hm Hn.
  { exists w, q. unfold stamp. cbn. by rewrite app_nil_r. }
  rewrite len_cons in Hn. pose proof (len_nonneg new). cbn [for_each].
  destruct (insert_run w q es e Hr Hm ltac:(lia)) as (w1 & q1 & Hrun & Hr1 & Hm1 & Hn1 & Hev1 & Hd1 & _).
  destruct (IH w1 q1 _ Hr1 Hm1 ltac:(lia)) as (w2 & q2 & Hrun2 & Hr2 & Hm2 & Hev2).
  exists w2, q2. split_and!; [|done| |by etrans].
  - rewrite !interp_bind, Hrun. exact Hrun2.
  - replace (stamp w (e :: new)) with (MessageCache.with_guid e (uuids w (drawn w)) :: stamp w1 new).
    { by rewrite <- app_assoc in Hm2. }
    unfold stamp. cbn [imap]. rewrite Nat.add_0_r. f_equal. apply imap_ext. intros i x _. cbn.
    rewrite (ev_uuids _ _ Hev1), Hd1. by rewrite Nat.add_succ_r.
Qed.
End queue.
End messages.

(** ** Batches of stale queues *)

Section batches.
Context `{Bincode, Base64, ServiceIdText}.

(** What the persister reads back from the name of a queue. *)
Lemma queue_key_parts s id :
  is_uuid (uuid_of s) = true →
  get_account_and_device_id_from_queue_key
    (MessageCache.get_message_queue_key {| name := service_id_string s; device_id := id |})
  = Ok (service_id_string s, show id).
Proof.
  intros Hu. destruct (service_id_string_plain s Hu) as [Hcolons Hbrace].
  unfold get_account_and_device_id_from_queue_key, MessageCache.get_message_queue_key, MessageCache.base,
    address_suffix. cbn [name device_id].
  change ("::{" +:+ ?x) with ("::" +:+ ("{" +:+ x)). rewrite split_colons_app by done.
  change ("{" +:+ (service_id_string s +:+ ?x)) with (("{" +:+ service_id_string s) +:+ x).
  rewrite split_colons_app.
  2: { rewrite append_cons, append_nil. cbn [single_colons]. rewrite Hcolons.
       destruct (service_id_string s); by rewrite bool_decide_true by auto. }
  rewrite split_colons_single.
  2: { apply single_colons_free. rewrite string_mem_app, string_mem_show by done. done. }
  cbn [lookup list_lookup expect mbind outcome_bind].
  unfold trim_matches. rewrite append_cons, append_nil. cbn [trim_start]. rewrite decide_True by done.
  rewrite trim_start_free, trim_end_free by done.
  by rewrite trim_end_last by by apply string_mem_show.
Qed.

(** The queues a round takes: the oldest stale ones. *)
Definition stale (max_time : Z) (z : zset) : list string :=
  map snd (take 100 (filter (λ x, 0 ≤ x.1 ≤ max_time) z)).

Lemma stale_queues_run w z max_time :
  zset_of (redis_db w) MessageCache.get_queue_index_key = Ok z →
  ∃ w', interp server_step (MessageCache.get_message_queues_to_persist max_time QUEUE_BATCH_LIMIT) w
          = (Ok (stale max_time z), w') ∧
    zset_of (redis_db w') MessageCache.get_queue_index_key = Ok (foldr z_delete z (stale max_time z)) ∧
    same_but_redis w w' ∧ writes [MessageCache.get_queue_index_key] (redis_db w) (redis_db w').
Proof.
  intros Hz. unfold MessageCache.get_message_queues_to_persist. rewrite interp_pool_get.
  rstep. unfold parse_range. rewrite !parse_bound_show. cbn [ok_or]. rgo. rewrite Hz. rgo. rewrite with_redis_id.
  assert (map snd (apply_limit (Some (0, QUEUE_BATCH_LIMIT)) (filter (in_range (Incl 0) (Incl max_time)) z))
          = stale max_time z) as ->.
  { unfold stale. cbn. do 2 f_equal. apply filter_ext_in. intros x _. unfold in_range. cbn.
    split; [intros Hr%Is_true_true|intros Hr; apply Is_true_true]; lia. }
  case_decide as Hs; [exists w; rewrite Hs; split_and!; done|].
  rstep. rewrite Hz. rgo. eexists. split; [reflexivity|]. cbn [redis_db with_redis].
  split_and!; [by rewrite zset_of_put_zset|done|].
  intros k Hk%not_elem_of_cons. rewrite keys_put_zset_ne by naive_solver. done.
Qed.

Lemma persist_key_unknown w fuel s id :
  is_uuid (uuid_of s) = true → accounts_db w !! s = None →
  interp server_step
    (persist_key fuel (MessageCache.get_message_queue_key {| name := service_id_string s; device_id := id |})) w
  = (Err "no rows returned", w).
Proof.
  intros Hu Ha. unfold persist_key. rewrite queue_key_parts, interp_bind, interp_lift by done.
  rewrite parse_service_id_string, interp_bind, interp_lift by done. cbn [ok_or].
  unfold account_db. rewrite interp_op_bind. cbn. by rewrite Ha.
Qed.

Lemma persist_key_known w fuel s id account device :
  is_uuid (uuid_of s) = true → accounts_db w !! s = Some account → in_u32 id = true →
  find (λ d, dev_id d =? id) (acc_devices account) = Some device →
  interp server_step
    (persist_key fuel (MessageCache.get_message_queue_key {| name := service_id_string s; device_id := id |})) w
  = interp server_step (persist_queue fuel account device) w.
Proof.
  intros Hu Ha Hid Hd. unfold persist_key. rewrite queue_key_parts, interp_bind, interp_lift by done.
  rewrite parse_service_id_string, interp_bind, interp_lift by done. cbn [ok_or].
  unfold account_db. rewrite interp_op_bind. cbn [server_step account_db_step]. rewrite Ha. cbn [ok_or fst].
  rewrite parse_u32_show, interp_bind, interp_lift by done. cbn [ok_or].
  by rewrite interp_bind, interp_lift, Hd.
Qed.
End batches.

Lemma persist_abandons_run `{Bincode, Base64, ServiceIdText} fuel rounds w z s id rest :
  is_uuid (uuid_of s) = true → 600000 ≤ clock w (ticks w) →
  zset_of (redis_db w) MessageCache.get_queue_index_key = Ok z →
  stale (clock w (ticks w) / 1000 - PERSIST_DELAY) z =
    MessageCache.get_message_queue_key {| name := service_id_string s; device_id := id |} :: rest →
  accounts_db w !! s = None →
  ∃ w', interp server_step (persist_batches fuel (S rounds)) w = (Err "no rows returned", w') ∧
    zset_of (redis_db w') MessageCache.get_queue_index_key
      = Ok (foldr z_delete z (stale (clock w (ticks w) / 1000 - PERSIST_DELAY) z)) ∧
    same_but_redis w w' ∧ writes [MessageCache.get_queue_index_key] (redis_db w) (redis_db w').
Proof.
  intros Hu Hclock Hz Hstale Ha. cbn [persist_batches]. rewrite interp_op_bind. cbn [server_step].
  rewrite (proj2 (Z.ltb_ge (clock w (ticks w)) 0)), interp_bind, interp_lift by lia. cbn [expect].
  assert (600 ≤ clock w (ticks w) / 1000) as Hsecs by (apply Z.div_le_lower_bound; lia).
  rewrite (proj2 (Z.ltb_ge _ PERSIST_DELAY)), interp_bind, interp_lift by (unfold PERSIST_DELAY; lia).
  destruct (stale_queues_run (tick w) z (clock w (ticks w) / 1000 - PERSIST_DELAY) Hz)
    as (w1 & Hrun & Hz1 & Hs1 & Hw1).
  rewrite (interp_bind_ok _ _ _ _ _ _ Hrun). exists w1.
  split_and!; [|done|by etrans; [apply same_tick|]|done].
  rewrite Hstale, decide_False by done. cbn [for_each].
  rewrite interp_bind, interp_bind, persist_key_unknown; [done|done|].
  by rewrite (same_accounts _ _ Hs1).
Qed.

(** ** Properties *)

(** C19: persisting a device's queue ends, and moves every message of the cache
    to the database: the cache is left empty and unlocked, the database holds
    what it held and then the cached messages in the order of their arrival, no
    other device's messages change, and the listener is told once. *)
Theorem persist_queue_moves_messages `{Bincode, Base64} {S} (h : handler serverE string S)
    (view : S → world) (account : Account) (device : Device) (q : rqueue) (es : list Envelope)
    (r : Z) (fuel : nat) (s : S)
    (Hdoc : documented h view) :
  let a := get_protocol_address account KindAci (dev_id device) in
  ∀ (Hqueue : holds (MessageCache.queue a) (redis_db (view s)) q) (Hmessages : stamped q es)
    (Hreceiver : receiver (messages_db (view s)) a = Some r) (Hfuel : (length es < fuel)%nat),
  ∃ s' q', interp h (persist_queue fuel account device) s = (Ok tt, s') ∧
    holds (MessageCache.queue a) (redis_db (view s')) q' ∧ q_items q' = [] ∧
    stored (messages_db (view s')) a = stored (messages_db (view s)) a ++ es ∧
    persists a (view s) (view s') ∧
    spawned (view s') = spawned (view s) ++ [NotifyPersisted (queue_name a)].
Proof.
  intros a Hq Hm Hr Hf. destruct (drained_run a _ fuel (view s) q es r Hq Hm Hr Hf) as (w & q' & Hrun & ?).
  destruct (sim_run h server_step view _ s _ _ Hdoc Hrun) as (s' & Hs & <-).
  exists s', q'. split; [exact Hs|done].
Qed.

(** C18: no message is lost and none is repeated on the way from delivery
    through the cache and the database to the reader: after any number of
    insertions and one run of the persister, the database holds the stored
    ones, then the cached ones, then the inserted ones, each under the
    identifier drawn for it, as they were pushed; reading the device's messages
    gives exactly these, each once, in the order in which the database returns
    its rows, which no statement fixes. *)
Theorem inserted_messages_survive_persisting `{Bincode, Base64} {S} (h : handler serverE string S)
    (view : S → world) (account : Account) (device : Device) (q : rqueue) (es new : list Envelope)
    (r : Z) (fuel : nat) (s : S)
    (Hdoc : documented h view) :
  let a := get_protocol_address account KindAci (dev_id device) in
  ∀ (Hready : ready (MessageCache.queue a) (view s) q) (Hmessages : stamped q es)
    (Hreceiver : receiver (messages_db (view s)) a = Some r) (Hids : q_next q + len new < 2 ^ 31)
    (Hfuel : (length es + length new < fuel)%nat),
  let all := stored (messages_db (view s)) a ++ es ++ stamp (view s) new in
  ∃ ms s', interp h (_ ← insert_each a new; _ ← persist_queue fuel account device;
                     get_messages_for_device a false) s = (Ok ms, s') ∧
    ms ≡ₚ all ∧ stored (messages_db (view s')) a = all.
Proof.
  intros a Hr Hm Hrec Hn Hf all.
  destruct (insert_each_run a (view s) q es new Hr Hm Hn) as (w1 & q1 & Hrun1 & Hr1 & Hm1 & Hev1).
  destruct (drained_run a _ fuel w1 q1 _ r (ready_holds _ _ _ Hr1) Hm1)
    as (w2 & q2 & Hrun2 & Hh2 & Hq2 & Hst2 & _).
  { by rewrite (ev_messages _ _ Hev1). }
  { rewrite length_app. unfold stamp. by rewrite length_imap. }
  assert (stamped q2 []) as Hm2 by (unfold stamped; by rewrite Hq2).
  assert (stored (messages_db w2) a = all) as Hall by by rewrite Hst2, (ev_messages _ _ Hev1).
  assert (interp server_step (_ ← insert_each a new; _ ← persist_queue fuel account device; get_messages_for_device a false) (view s)
          = (Ok (selected (messages_db w2) a), w2)) as Hrun.
  { rewrite (interp_bind_ok _ _ _ _ _ _ Hrun1). erewrite interp_bind_ok; [|exact Hrun2].
    by rewrite (get_messages_for_device_run a _ w2 q2 [] false Hh2 Hm2). }
  destruct (sim_run _ _ _ _ _ _ _ Hdoc Hrun) as (s' & Hs & <-). eexists _, s'. split_and!; [exact Hs| |exact Hall].
  by rewrite selected_perm, Hall.
Qed.

(** What a reader of a device's messages sees in every state: the first
    hundred cached messages, unless the persister holds the lock, then the
    stored messages unless only cached ones are wanted.  Reading changes
    nothing. *)
Theorem get_messages_for_device_spec `{Bincode, Base64} {S} (h : handler serverE string S)
    (view : S → world) (a : ProtocolAddress) (l : option string) (q : rqueue) (es : list Envelope)
    (cached_msg_only : bool) (s : S)
    (Hdoc : documented h view) (Hqueue : held l (MessageCache.queue a) (redis_db (view s)) q)
    (Hmessages : stamped q es) :
  ∃ s', interp h (get_messages_for_device a cached_msg_only) s
        = (Ok ((if l is Some _ then [] else take 100 es) ++
               (if cached_msg_only then [] else selected (messages_db (view s)) a)), s') ∧
        view s' = view s.
Proof. eapply sim_run; [done|]. by eapply (get_messages_for_device_run a). Qed.

(** Acknowledging some cached messages by name removes these from the
    cache and every message of the device from the database, acknowledged or
    not; the stored ones are returned with the removed ones. *)
Theorem delete_clears_the_database `{Bincode, Base64} {S} (h : handler serverE string S)
    (view : S → world) (a : ProtocolAddress) (q : rqueue) (es : list Envelope) (n : nat) (r : Z) (s : S)
    (Hdoc : documented h view) (Hqueue : holds (MessageCache.queue a) (redis_db (view s)) q)
    (Hmessages : stamped q es) (Hreceiver : receiver (messages_db (view s)) a = Some r) :
  ∃ s' q', interp h (delete a (map server_guid (take n es))) s
             = (Ok (take n es ++ selected (messages_db (view s)) a), s') ∧
    holds (MessageCache.queue a) (redis_db (view s')) q' ∧ stamped q' (drop n es) ∧
    stored (messages_db (view s')) a = [].
Proof.
  destruct (delete_run a _ (view s) q es n r Hqueue Hmessages Hreceiver) as (w & q' & Hrun & Hh & Hs' & Hst & _).
  destruct (sim_run h server_step view _ s _ _ Hdoc Hrun) as (s' & Hs & <-). by exists s', q'.
Qed.

(** When the account of the first queue of a batch is gone, the persister
    stops with an error after it has taken the whole batch off the index: the
    other queues of the batch keep their messages in the cache, and are found
    again only after another message is queued for them. *)
Theorem persist_abandons_a_batch `{Bincode, Base64, ServiceIdText} {S} (h : handler serverE string S)
    (view : S → world) (fuel rounds : nat) (z : zset) (owner : ServiceId) (id : Z) (rest : list string) (s : S)
    (Hdoc : documented h view) (Huuid : is_uuid (uuid_of owner) = true) :
  let now := clock (view s) (ticks (view s)) in
  let batch := stale (now / 1000 - PERSIST_DELAY) z in
  ∀ (Hclock : 600000 ≤ now) (Hindex : zset_of (redis_db (view s)) MessageCache.get_queue_index_key = Ok z)
    (Hfirst : batch = MessageCache.get_message_queue_key
                        {| name := service_id_string owner; device_id := id |} :: rest)
    (Hgone : accounts_db (view s) !! owner = None),
  ∃ s', interp h (persist_batches fuel (Datatypes.S rounds)) s = (Err "no rows returned", s') ∧
    zset_of (redis_db (view s')) MessageCache.get_queue_index_key = Ok (foldr z_delete z batch) ∧
    messages_db (view s') = messages_db (view s) ∧
    writes [MessageCache.get_queue_index_key] (redis_db (view s)) (redis_db (view s')).
Proof.
  intros now batch Hc Hz Hfirst Hgone.
  destruct (persist_abandons_run fuel rounds (view s) z owner id rest Huuid Hc Hz Hfirst Hgone)
    as (w & Hrun & Hz' & Hs & Hw).
  destruct (sim_run h server_step view _ s _ _ Hdoc Hrun) as (s' & Hrun' & <-).
  exists s'. split_and!; [done|done|by apply same_messages|done].
Qed.

(** The persister finds the device a queue belongs to from the name of the
    queue: for every queue whose account and device exist, its turn is exactly
    the persisting of that device's queue. *)
Theorem queue_key_names_its_device `{Bincode, Base64, ServiceIdText} (w : world) (fuel : nat)
    (owner : ServiceId) (id : Z) (account : Account) (device : Device)
    (Huuid : is_uuid (uuid_of owner) = true) (Haccount : accounts_db w !! owner = Some account)
    (Hid : in_u32 id = true) (Hdevice : find (λ d, dev_id d =? id) (acc_devices account) = Some device) :
  interp server_step (persist_key fuel
    (MessageCache.get_message_queue_key {| name := service_id_string owner; device_id := id |})) w
  = interp server_step (persist_queue fuel account device) w.
Proof. by apply persist_key_known. Qed.

(** ** Witnesses *)

(** A world with one cached message. *)
Definition demo_world : world := (interp server_step (insert sample_address blank_envelope) empty_world).2.
Definition demo_item : item :=
  {| it_id := 1; it_guid := uuids empty_world 0;
     it_data := serialize_envelope (MessageCache.with_guid blank_envelope (uuids empty_world 0)); it_order := 0 |}.
Definition demo_queue : rqueue := {| q_next := 1; q_items := [demo_item] |}.

Lemma demo_stamped : stamped demo_queue [MessageCache.with_guid blank_envelope (uuids empty_world 0)].
Proof. repeat constructor. Qed.

Lemma demo_ready : ready (MessageCache.queue sample_address) empty_world empty_queue.
Proof. split; [apply empty_holds|constructor|apply demo_uuids..]. Qed.

Lemma demo_holds : holds (MessageCache.queue sample_address) (redis_db demo_world) demo_queue.
Proof.
  destruct (cache_insert_exact _ (message_queue_distinct sample_address) empty_world empty_queue sample_address
              (it_data demo_item) demo_ready ltac:(done)) as (w & Hrun & _ & [Hh _ _ _] & _).
  assert (demo_world = w) as ->; [|exact Hh]. unfold demo_world.
  unfold insert. rewrite interp_op_bind in Hrun |- *. cbn [server_step] in *.
  change (interp server_step (MessageCache.insert sample_address blank_envelope
            (uuids empty_world (drawn empty_world))) (draw empty_world)
          = (Ok (q_next empty_queue + 1), w)) in Hrun.
  by rewrite Hrun.
Qed.

Lemma persist_queue_moves_messages_witness :
  ∃ s' q', interp server_step (persist_queue 2 sample_account sample_device) demo_world = (Ok tt, s') ∧
    holds (MessageCache.queue sample_address) (redis_db s') q' ∧ q_items q' = [] ∧
    stored (messages_db s') sample_address =
      stored (messages_db demo_world) sample_address ++
      [MessageCache.with_guid blank_envelope (uuids empty_world 0)] ∧
    persists sample_address demo_world s' ∧
    spawned s' = spawned demo_world ++ [NotifyPersisted (queue_name sample_address)].
Proof.
  apply (persist_queue_moves_messages server_step id sample_account sample_device demo_queue
           [MessageCache.with_guid blank_envelope (uuids empty_world 0)] 1 2 demo_world).
  - apply sim_refl.
  - apply demo_holds.
  - apply demo_stamped.
  - vm_compute. reflexivity.
  - cbn. lia.
Defined.

Lemma inserted_messages_survive_persisting_witness :
  let all := stored (messages_db empty_world) sample_address ++ [] ++ stamp empty_world [blank_envelope; blank_envelope] in
  ∃ ms s', interp server_step
          (_ ← insert_each sample_address [blank_envelope; blank_envelope];
           _ ← persist_queue 3 sample_account sample_device;
           get_messages_for_device sample_address false) empty_world = (Ok ms, s') ∧
    ms ≡ₚ all ∧ stored (messages_db s') sample_address = all.
Proof.
  apply (inserted_messages_survive_persisting server_step id sample_account sample_device empty_queue []
           [blank_envelope; blank_envelope] 1 3 empty_world).
  - apply sim_refl.
  - apply demo_ready.
  - constructor.
  - vm_compute. reflexivity.
  - vm_compute. reflexivity.
  - cbn. lia.
Defined.

Lemma get_messages_for_device_spec_witness :
  ∃ s', interp server_step (get_messages_for_device sample_address false) demo_world
        = (Ok (take 100 [MessageCache.with_guid blank_envelope (uuids empty_world 0)] ++
               selected (messages_db demo_world) sample_address), s') ∧ s' = demo_world.
Proof.
  apply (get_messages_for_device_spec server_step id sample_address None demo_queue
           [MessageCache.with_guid blank_envelope (uuids empty_world 0)] false demo_world).
  - apply sim_refl.
  - apply demo_holds.
  - apply demo_stamped.
Defined.

Lemma delete_clears_the_database_witness :
  ∃ s' q', interp server_step (delete sample_address []) demo_world
             = (Ok (selected (messages_db demo_world) sample_address), s') ∧
    holds (MessageCache.queue sample_address) (redis_db s') q' ∧
    stamped q' [MessageCache.with_guid blank_envelope (uuids empty_world 0)] ∧
    stored (messages_db s') sample_address = [].
Proof.
  apply (delete_clears_the_database server_step id sample_address demo_queue
           [MessageCache.with_guid blank_envelope (uuids empty_world 0)] 0 1 demo_world).
  - apply sim_refl.
  - apply demo_holds.
  - apply demo_stamped.
  - vm_compute. reflexivity.
Defined.

Definition demo_stale : world :=
  with_redis empty_world (put MessageCache.get_queue_index_key
    (VZset [(5, MessageCache.get_message_queue_key sample_address); (6, "user_queue::{x::1}")])
    (redis_db empty_world)).

Lemma persist_abandons_a_batch_witness :
  ∃ s', interp server_step (persist_batches (H1 := demo_service_ids) 9 1) demo_stale
        = (Err "no rows returned", s') ∧
    zset_of (redis_db s') MessageCache.get_queue_index_key = Ok [] ∧
    messages_db s' = messages_db demo_stale ∧
    writes [MessageCache.get_queue_index_key] (redis_db demo_stale) (redis_db s').
Proof.
  apply (persist_abandons_a_batch (H1 := demo_service_ids) server_step id 9 0
           [(5, MessageCache.get_message_queue_key sample_address); (6, "user_queue::{x::1}")]
           (Aci sample_uuid) 1 ["user_queue::{x::1}"] demo_stale).
  - apply sim_refl.
  - vm_compute. reflexivity.
  - vm_compute. discriminate.
  - vm_compute. reflexivity.
  - vm_compute. reflexivity.
  - vm_compute. reflexivity.
Defined.

Lemma queue_key_names_its_device_witness :
  let w := {| redis_db := redis_db empty_world; messages_db := messages_db empty_world;
              accounts_db := {[Aci sample_uuid := sample_account]}; clock := clock empty_world; ticks := 0;
              uuids := uuids empty_world; drawn := 0; spawned := [] |} in
  interp server_step (persist_key (H1 := demo_service_ids) 5
    (MessageCache.get_message_queue_key {| name := sample_uuid; device_id := 1 |})) w
  = interp server_step (persist_queue 5 sample_account sample_device) w.
Proof.
  intros w. apply (queue_key_names_its_device (H1 := demo_service_ids) w 5 (Aci sample_uuid) 1 sample_account sample_device).
  - vm_compute. reflexivity.
  - vm_compute. reflexivity.
  - vm_compute. reflexivity.
  - vm_compute. reflexivity.
Defined.
