(* ===== verification/Postgres.v ===== *)
(** The database of the server ([server/src/storage/postgres.rs], with the
    schema of [server/database/init.sql]).

    Every method of [SignalDatabase] is translated with the statements it
    sends, over the relations of Sql.v, and is shown to respect the schema.
    PostgresSpec.v says what the methods promise each other. *)
From S2P Require Export Sql Server.

Local Open Scope Z_scope.

(** ** Schema *)

Inductive key_store := AciSigned | PniSigned | AciPqLastResort | PniPqLastResort.

Inductive relation :=
| Accounts
| Devices
| DeviceCapabilities
| UsedDeviceLinkTokens
| MsqQueue
| SignedPreKeys (k : key_store)
| DeviceKeys
| OneTimeEcPreKeys
| OneTimePqPreKeys.

Global Instance key_store_eq_dec : EqDecision key_store.
Proof. solve_decision. Defined.
Global Instance relation_eq_dec : EqDecision relation.
Proof. solve_decision. Defined.

Record account_row := {
  a_aci : string; a_pni : string; a_aci_key : bytes; a_pni_key : bytes; a_phone : string }.
Record device_row := {
  d_owner : Z; d_device_id : string; d_name : string; d_auth_token : string; d_salt : string;
  d_registration_id : string; d_pni_registration_id : string }.
Record capability_row := { c_owner : Z; c_type : Z }.
Record message_row := { m_receiver : Z; m_msg : bytes }.
Record signed_row := { s_owner : Z; s_key_id : string; s_public_key : bytes; s_signature : bytes }.
Record device_keys_row := { k_owner : Z; k_keys : key_store → Z }.
Record ec_row := { e_owner : Z; e_key_id : string; e_public_key : bytes }.
Record pq_row := {
  p_owner : Z; p_key_id : string; p_public_key : bytes; p_signature : option bytes }.

Definition row (r : relation) : Type :=
  match r with
  | Accounts => account_row
  | Devices => device_row
  | DeviceCapabilities => capability_row
  | UsedDeviceLinkTokens => string
  | MsqQueue => message_row
  | SignedPreKeys _ => signed_row
  | DeviceKeys => device_keys_row
  | OneTimeEcPreKeys => ec_row
  | OneTimePqPreKeys => pq_row
  end.

Definition key_stores : list key_store := [AciSigned; PniSigned; AciPqLastResort; PniPqLastResort].

(** [UNIQUE] *)
Definition clash (r : relation) : row r → row r → bool :=
  match r return row r → row r → bool with
  | Accounts => λ x y, bool_decide (a_aci x = a_aci y) || bool_decide (a_pni x = a_pni y)
                       || bool_decide (a_phone x = a_phone y)
  | Devices => λ x y, bool_decide (d_device_id x = d_device_id y) && (d_owner x =? d_owner y)
  | UsedDeviceLinkTokens => λ x y, bool_decide (x = y)
  | SignedPreKeys _ => λ x y, (s_owner x =? s_owner y) && bool_decide (s_key_id x = s_key_id y)
  | OneTimeEcPreKeys => λ x y, (e_owner x =? e_owner y) && bool_decide (e_key_id x = e_key_id y)
  | OneTimePqPreKeys => λ x y, (p_owner x =? p_owner y) && bool_decide (p_key_id x = p_key_id y)
  | _ => λ _ _, false
  end.

(** [REFERENCES .. ON DELETE CASCADE] *)
Definition refs (r : relation) : row r → list (relation * Z) :=
  match r return row r → list (relation * Z) with
  | Accounts => λ _, []
  | Devices => λ x, [(Accounts, d_owner x)]
  | DeviceCapabilities => λ x, [(Devices, c_owner x)]
  | UsedDeviceLinkTokens => λ _, []
  | MsqQueue => λ x, [(Devices, m_receiver x)]
  | SignedPreKeys _ => λ x, [(Devices, s_owner x)]
  | DeviceKeys => λ x, (Devices, k_owner x) :: map (λ k, (SignedPreKeys k, k_keys x k)) key_stores
  | OneTimeEcPreKeys => λ x, [(Devices, e_owner x)]
  | OneTimePqPreKeys => λ x, [(Devices, p_owner x)]
  end.

Definition rank (r : relation) : nat :=
  match r with Accounts | UsedDeviceLinkTokens => 0 | Devices => 1 | DeviceKeys => 3 | _ => 2 end%nat.
Definition depth : nat := 4.

Definition pg : Type := database row.
Definition empty_pg : pg := λ _, empty_table.

Abbreviation pg_insert := (Sql.insert row clash refs).
Abbreviation pg_insert_select := (Sql.insert_select row clash refs).
Abbreviation pg_update := (Sql.update row clash refs).
Abbreviation pg_delete := (Sql.delete row refs depth).
Abbreviation pg_upsert := (Sql.upsert row clash refs).
Abbreviation pg_wf := (Sql.wf row clash refs).

Abbreviation stm := (statement pg).
Abbreviation query := (Sql.query (D := pg)).
Abbreviation run := (Sql.run (D := pg)).
Abbreviation execute := (Sql.execute (D := pg)).

(** ** Sub-queries *)

(** [SELECT id FROM accounts WHERE aci = $1 OR pni = $1] *)
Definition account_matches (name : string) (x : Z * account_row) : bool :=
  bool_decide (a_aci x.2 = name) || bool_decide (a_pni x.2 = name).
Definition account_rows (name : string) (d : pg) : list (Z * account_row) :=
  filter (account_matches name) (rows (d Accounts)).
Definition account_id (name : string) (d : pg) : outcome string (option Z) :=
  scalar_subquery (map fst (account_rows name d)).

(** [.. FROM devices WHERE owner = (..)], and with [AND device_id = $2] *)
Definition owned_by (o : option Z) (x : Z * device_row) : bool :=
  match o with Some i => d_owner x.2 =? i | None => false end.
Definition devices_of (name : string) (d : pg) : outcome string (list (Z * device_row)) :=
  o ← account_id name d; Ok (filter (owned_by o) (rows (d Devices))).
Definition device_at (a : ProtocolAddress) (d : pg) : outcome string (list (Z * device_row)) :=
  l ← devices_of (name a) d;
  Ok (filter (λ x, d_device_id x.2 = show (device_id a)) l).

(** The rows of a relation that belong to the devices, [INNER JOIN devices ON
    devices.id = ..] *)
Definition of_devices {A} (owner : A → Z) (ds : list (Z * device_row)) (l : list (Z * A)) : list (Z * A) :=
  filter (λ x, owner x.2 ∈ map fst ds) l.

(** [VARCHAR(n)] *)
Definition varchar (n : nat) (s : string) : outcome string string :=
  if (String.length s <=? n)%nat then Ok s
  else Err ("value too long for type character varying(" +:+ show (Z.of_nat n) +:+ ")").

(** [.parse().unwrap()] *)
Definition parse_unwrap {A} (o : option A) : outcome string A :=
  expect "called `Result::unwrap()` on an `Err` value" o.

(** ** Methods *)

Section methods.
Context `{Bincode, ServiceIdText, ScanOrder}.

(** [PublicKey::deserialize(..)] succeeds; the key is kept serialized. *)
Context (public_key_ok : bytes → bool).

(** *** Devices *)

Definition capability_from (x : Z * capability_row) : outcome string (Z * DeviceCapabilityType) :=
  c ← DeviceCapabilityType.from_i32 (c_type x.2); Ok (c_owner x.2, c).

Definition get_device_capabilities (address : ProtocolAddress) : stm (list DeviceCapabilityType) :=
  query (λ d,
    l ← device_at address d;
    o ← scalar_subquery (map fst l);
    cs ← collect capability_from
           (scan (filter (λ x, o = Some (c_owner x.2))
                    (rows (d DeviceCapabilities))));
    Ok (map snd cs)).

Definition get_all_device_capabilities (service_id : ServiceId) : stm (list (Z * DeviceCapabilityType)) :=
  query (λ d,
    l ← devices_of (service_id_string service_id) d;
    collect capability_from (scan (of_devices c_owner l (rows (d DeviceCapabilities))))).

Definition device_of_row (capabilities : list DeviceCapabilityType) (x : Z * device_row)
    : outcome string Device :=
  device_id ← parse_unwrap (parse_u32 (d_device_id x.2));
  registration_id ← parse_unwrap (parse_u32 (d_registration_id x.2));
  pni_registration_id ← parse_unwrap (parse_u32 (d_pni_registration_id x.2));
  Ok {| dev_id := device_id; dev_name := d_name x.2; last_seen := 0; created := 0;
        auth_token := d_auth_token x.2; salt := d_salt x.2; registration_id := registration_id;
        pni_registration_id := pni_registration_id; dev_capabilities := capabilities |}.

(** The row [add_device] inserts for an owner. *)
Definition row_of_device (device : Device) (owner : Z) : device_row :=
  {| d_owner := owner; d_device_id := show (dev_id device); d_name := dev_name device;
     d_auth_token := auth_token device; d_salt := salt device;
     d_registration_id := show (registration_id device);
     d_pni_registration_id := show (pni_registration_id device) |}.

Definition add_device (service_id : ServiceId) (device : Device) : stm unit :=
  execute (λ d,
    pg_insert_select Devices
      (map (λ x, row_of_device device x.1) (account_rows (service_id_string service_id) d)) d).

Definition get_all_devices (service_id : ServiceId) : stm (list Device) :=
  device_capabilities ← get_all_device_capabilities service_id;
  query (λ d,
    l ← devices_of (service_id_string service_id) d;
    collect (λ x, device_of_row (map snd (filter (λ c, c.1 = x.1) device_capabilities)) x) (scan l)).

Definition get_device (address : ProtocolAddress) : stm Device :=
  device_capabilities ← get_device_capabilities address;
  query (λ d, l ← device_at address d; x ← fetch_one (scan l); device_of_row device_capabilities x).

Definition delete_device (address : ProtocolAddress) : stm unit :=
  execute (λ d,
    l ← device_at address d;
    Ok (pg_delete Devices (λ x, bool_decide (x.1 ∈ map fst l)) d)).

(** *** Accounts *)

Definition parse_aci (s : string) : option string :=
  match parse_from_service_id_string s with Some (Aci u) => Some u | _ => None end.
Definition parse_pni (s : string) : option string :=
  match parse_from_service_id_string s with Some (Pni u) => Some u | _ => None end.

Definition account_of_row (devices : list Device) (x : account_row) : outcome string Account :=
  aci ← parse_unwrap (parse_aci (a_aci x));
  pni ← parse_unwrap (parse_pni (a_pni x));
  _ ← parse_unwrap (if public_key_ok (a_aci_key x) then Some tt else None);
  _ ← parse_unwrap (if public_key_ok (a_pni_key x) then Some tt else None);
  Ok {| Account.aci := aci; Account.pni := pni; aci_identity_key := a_aci_key x;
        pni_identity_key := a_pni_key x; acc_devices := devices; phone_number := a_phone x |}.

Definition row_of_account (account : Account) : account_row :=
  {| a_aci := service_id_string (Aci (aci account)); a_pni := service_id_string (Pni (pni account));
     a_aci_key := aci_identity_key account; a_pni_key := pni_identity_key account;
     a_phone := phone_number account |}.

(** [&account.devices()[0]] *)
Definition add_account (account : Account) : stm unit :=
  _ ← execute (λ d,
    _ ← varchar 36 (service_id_string (Aci (aci account)));
    _ ← varchar 40 (service_id_string (Pni (pni account)));
    pg_insert Accounts (row_of_account account) d);
  device ← pure_ (expect "index out of bounds" (head (acc_devices account)));
  add_device (Aci (aci account)) device.

Definition get_account (service_id : ServiceId) : stm Account :=
  devices ← get_all_devices service_id;
  query (λ d,
    x ← fetch_one (scan (account_rows (service_id_string service_id) d));
    account_of_row devices x.2).

Definition get_account_from_phonenumber_without_devices (phone_number : string) : stm Account :=
  query (λ d,
    x ← fetch_one (scan (filter (λ x, a_phone x.2 = phone_number) (rows (d Accounts))));
    account_of_row [] x.2).

Definition set_aci (s : string) (x : account_row) : account_row :=
  {| a_aci := s; a_pni := a_pni x; a_aci_key := a_aci_key x; a_pni_key := a_pni_key x; a_phone := a_phone x |}.
Definition set_pni (s : string) (x : account_row) : account_row :=
  {| a_aci := a_aci x; a_pni := s; a_aci_key := a_aci_key x; a_pni_key := a_pni_key x; a_phone := a_phone x |}.

Definition update_account_aci (service_id : ServiceId) (new_aci : string) : stm unit :=
  execute (λ d,
    s ← varchar 36 (service_id_string (Aci new_aci));
    pg_update Accounts (account_matches (service_id_string service_id)) (set_aci s) d).

Definition update_account_pni (service_id : ServiceId) (new_pni : string) : stm unit :=
  execute (λ d,
    s ← varchar 40 (service_id_string (Pni new_pni));
    pg_update Accounts (account_matches (service_id_string service_id)) (set_pni s) d).

Definition delete_account (service_id : ServiceId) : stm unit :=
  execute (λ d, Ok (pg_delete Accounts (account_matches (service_id_string service_id)) d)).

Definition add_used_device_link_token (device_link_token : string) : stm unit :=
  execute (λ d, pg_insert UsedDeviceLinkTokens device_link_token d).

(** *** Messages *)

Definition push_message_queue (address : ProtocolAddress) (messages : list Envelope) : stm unit :=
  stm_each messages (λ msg,
    let data := serialize_envelope msg in
    execute (λ d,
      l ← device_at address d;
      pg_insert_select MsqQueue (map (λ x, {| m_receiver := x.1; m_msg := data |}) l) d)).

Definition deserialize_messages (l : list (Z * message_row)) : outcome string (list Envelope) :=
  collect (λ x, ok_or "bincode" (deserialize_envelope (m_msg x.2))) l.

Definition messages_at (address : ProtocolAddress) (d : pg) : outcome string (list (Z * message_row)) :=
  l ← device_at address d; Ok (of_devices m_receiver l (rows (d MsqQueue))).

(** Despite its name it takes nothing off the queue. *)
Definition pop_msg_queue (address : ProtocolAddress) : stm (list Envelope) :=
  query (λ d, l ← messages_at address d; deserialize_messages (scan l)).

Definition count_messages (address : ProtocolAddress) : stm Z :=
  query (λ d, l ← messages_at address d; Ok (as_u32 (len l))).

Definition get_messages (address : ProtocolAddress) : stm (list Envelope) :=
  query (λ d, l ← messages_at address d; deserialize_messages (scan l)).

Definition delete_messages (address : ProtocolAddress) : stm (list Envelope) :=
  l ← run (λ d,
        ds ← device_at address d;
        let deleted := of_devices m_receiver ds (rows (d MsqQueue)) in
        Ok (scan deleted, pg_delete MsqQueue (λ x, bool_decide (m_receiver x.2 ∈ map fst ds)) d));
  pure_ (deserialize_messages l).

(** *** Signed pre-keys *)

Definition signed_row_of (k : UploadSignedPreKey) (owner : Z) : signed_row :=
  {| s_owner := owner; s_key_id := show (signed_key_id k); s_public_key := signed_public_key k;
     s_signature := signature k |}.

(** [INSERT .. SELECT id .. FROM devices .. ON CONFLICT (key_id, owner) DO
    UPDATE ..], which the four functions send to their tables. *)
Fixpoint upsert_signed (store : key_store) (k : UploadSignedPreKey) (owners : list Z) (d : pg)
    : outcome string pg :=
  match owners with
  | [] => Ok d
  | o :: owners =>
      d ← pg_upsert (SignedPreKeys store)
            (λ y, bool_decide (s_key_id y = show (signed_key_id k)) && (s_owner y =? o))
            (signed_row_of k o) (λ y, signed_row_of k (s_owner y)) d;
      upsert_signed store k owners d
  end.

Definition store_in (store : key_store) (spk : UploadSignedPreKey) (address : ProtocolAddress) : stm unit :=
  execute (λ d, l ← device_at address d; upsert_signed store spk (map fst l) d).

Definition store_aci_signed_pre_key : UploadSignedPreKey → ProtocolAddress → stm unit := store_in AciSigned.
Definition store_pni_signed_pre_key : UploadSignedPreKey → ProtocolAddress → stm unit := store_in PniSigned.
Definition store_pq_aci_signed_pre_key : UploadSignedPreKey → ProtocolAddress → stm unit := store_in AciPqLastResort.
Definition store_pq_pni_signed_pre_key : UploadSignedPreKey → ProtocolAddress → stm unit := store_in PniPqLastResort.

Definition store_signed_pre_key (spk : UploadSignedPreKey) (address : ProtocolAddress) : stm unit :=
  service_id ← pure_ (ok_or "Invalid service id" (parse_from_service_id_string (name address)));
  match service_id with
  | Aci _ => store_aci_signed_pre_key spk address
  | Pni _ => store_pni_signed_pre_key spk address
  end.

Definition store_pq_signed_pre_key (spk : UploadSignedPreKey) (address : ProtocolAddress) : stm unit :=
  service_id ← pure_ (ok_or "Invalid service id" (parse_from_service_id_string (name address)));
  match service_id with
  | Aci _ => store_pq_aci_signed_pre_key spk address
  | Pni _ => store_pq_pni_signed_pre_key spk address
  end.

(** *** Key bundles *)

Definition signed_of (store : key_store) (owner : Z) (d : pg) : list (Z * signed_row) :=
  filter (λ x, s_owner x.2 = owner) (rows (d (SignedPreKeys store))).

Definition joined_keys (i1 i2 i3 i4 : Z) (k : key_store) : Z :=
  match k with AciSigned => i1 | PniSigned => i2 | AciPqLastResort => i3 | PniPqLastResort => i4 end.

(** The four-way join of the stores on the owner. *)
Definition bundle_rows (owner : Z) (d : pg) : list device_keys_row :=
  x1 ← signed_of AciSigned owner d;
  x2 ← signed_of PniSigned owner d;
  x3 ← signed_of AciPqLastResort owner d;
  x4 ← signed_of PniPqLastResort owner d;
  [{| k_owner := owner; k_keys := joined_keys x1.1 x2.1 x3.1 x4.1 |}].

Definition store_key_bundle (data : DevicePreKeyBundle) (address : ProtocolAddress) : stm unit :=
  transaction (
    _ ← store_aci_signed_pre_key (aci_signed_pre_key data) address;
    _ ← store_pni_signed_pre_key (pni_signed_pre_key data) address;
    _ ← store_pq_aci_signed_pre_key (aci_pq_pre_key data) address;
    _ ← store_pq_pni_signed_pre_key (pni_pq_pre_key data) address;
    execute (λ d,
      l ← device_at address d;
      pg_insert_select DeviceKeys (scan (x ← l; bundle_rows x.1 d)) d)).

Definition upload_of_row (x : signed_row) : outcome string UploadSignedPreKey :=
  i ← parse_unwrap (parse_u32 (s_key_id x));
  Ok {| signed_key_id := i; signed_public_key := s_public_key x; signature := s_signature x |}.

(** A row of [device_keys] joined with the four stores. *)
Definition signed_by_id (store : key_store) (i : Z) (d : pg) : list signed_row :=
  map snd (filter (λ x, x.1 = i) (rows (d (SignedPreKeys store)))).
Definition joined_bundles (d : pg) (x : Z * device_keys_row)
    : list (signed_row * signed_row * signed_row * signed_row) :=
  x1 ← signed_by_id AciSigned (k_keys x.2 AciSigned) d;
  x2 ← signed_by_id PniSigned (k_keys x.2 PniSigned) d;
  x3 ← signed_by_id AciPqLastResort (k_keys x.2 AciPqLastResort) d;
  x4 ← signed_by_id PniPqLastResort (k_keys x.2 PniPqLastResort) d;
  [(x1, x2, x3, x4)].

Definition get_key_bundle (address : ProtocolAddress) : stm DevicePreKeyBundle :=
  query (λ d,
    l ← device_at address d;
    '(x1, x2, x3, x4) ← fetch_one (scan (of_devices k_owner l (rows (d DeviceKeys)) ≫= joined_bundles d));
    k1 ← upload_of_row x1;
    k2 ← upload_of_row x2;
    k3 ← upload_of_row x3;
    k4 ← upload_of_row x4;
    Ok {| aci_signed_pre_key := k1; pni_signed_pre_key := k2; aci_pq_pre_key := k3; pni_pq_pre_key := k4 |}).

(** *** One-time pre-keys *)

Definition get_one_time_ec_pre_key_count (service_id : ServiceId) : stm Z :=
  query (λ d,
    l ← devices_of (service_id_string service_id) d;
    Ok (as_u32 (len (of_devices e_owner l (rows (d OneTimeEcPreKeys)))))).

Definition get_one_time_pq_pre_key_count (service_id : ServiceId) : stm Z :=
  query (λ d,
    l ← devices_of (service_id_string service_id) d;
    Ok (as_u32 (len (of_devices p_owner l (rows (d OneTimePqPreKeys)))))).

(** The keys a device had are replaced; [owner = (SELECT id FROM devices ..)]. *)
Definition store_one_time_ec_pre_keys (otpks : list UploadPreKey) (owner : ProtocolAddress) : stm unit :=
  transaction (
    _ ← execute (λ d,
          l ← device_at owner d;
          o ← scalar_subquery (map fst l);
          Ok (pg_delete OneTimeEcPreKeys
                (λ x, match o with Some i => e_owner x.2 =? i | None => false end) d));
    stm_each otpks (λ otpk, execute (λ d,
      l ← device_at owner d;
      pg_insert_select OneTimeEcPreKeys
        (map (λ x, {| e_owner := x.1; e_key_id := show (key_id otpk); e_public_key := public_key otpk |}) l) d))).

Definition store_one_time_pq_pre_keys (otpks : list UploadSignedPreKey) (owner : ProtocolAddress) : stm unit :=
  transaction (
    _ ← execute (λ d,
          l ← device_at owner d;
          o ← scalar_subquery (map fst l);
          Ok (pg_delete OneTimePqPreKeys
                (λ x, match o with Some i => p_owner x.2 =? i | None => false end) d));
    stm_each otpks (λ otpk, execute (λ d,
      l ← device_at owner d;
      pg_insert_select OneTimePqPreKeys
        (map (λ x, {| p_owner := x.1; p_key_id := show (signed_key_id otpk);
                      p_public_key := signed_public_key otpk; p_signature := Some (signature otpk) |}) l) d))).

(** [DELETE .. WHERE id IN (SELECT .. LIMIT 1) RETURNING ..]; no key left is
    [Ok(None)]. *)
Definition get_one_time_ec_pre_key (owner : ProtocolAddress) : stm (option UploadPreKey) :=
  key ← run (λ d,
          l ← device_at owner d;
          let chosen := take 1 (scan (of_devices e_owner l (rows (d OneTimeEcPreKeys)))) in
          Ok (chosen, pg_delete OneTimeEcPreKeys (λ x, bool_decide (x.1 ∈ map fst chosen)) d));
  match key with
  | [] => mret None
  | x :: _ =>
      i ← pure_ (parse_unwrap (parse_u32 (e_key_id x.2)));
      mret (Some {| key_id := i; public_key := e_public_key x.2 |})
  end.

Definition get_one_time_pq_pre_key (owner : ProtocolAddress) : stm UploadSignedPreKey :=
  key ← run (λ d,
          l ← device_at owner d;
          let chosen := take 1 (scan (of_devices p_owner l (rows (d OneTimePqPreKeys)))) in
          Ok (chosen, pg_delete OneTimePqPreKeys (λ x, bool_decide (x.1 ∈ map fst chosen)) d));
  x ← pure_ (fetch_one key);
  i ← pure_ (parse_unwrap (parse_u32 (p_key_id x.2)));
  sig ← pure_ (parse_unwrap (p_signature x.2));
  mret {| signed_key_id := i; signed_public_key := p_public_key x.2; signature := sig |}.
End methods.

(** ** The database as a service *)

Inductive databaseE : Type → Type :=
| Db_add_account (account : Account) : databaseE unit
| Db_get_account (service_id : ServiceId) : databaseE Account
| Db_get_account_from_phonenumber (phone_number : string) : databaseE Account
| Db_add_device (service_id : ServiceId) (device : Device) : databaseE unit
| Db_get_all_devices (service_id : ServiceId) : databaseE (list Device)
| Db_get_device (address : ProtocolAddress) : databaseE Device
| Db_delete_device (address : ProtocolAddress) : databaseE unit
| Db_update_account_aci (service_id : ServiceId) (new_aci : string) : databaseE unit
| Db_update_account_pni (service_id : ServiceId) (new_pni : string) : databaseE unit
| Db_delete_account (service_id : ServiceId) : databaseE unit
| Db_get_device_capabilities (address : ProtocolAddress) : databaseE (list DeviceCapabilityType)
| Db_get_all_device_capabilities (service_id : ServiceId) : databaseE (list (Z * DeviceCapabilityType))
| Db_add_used_device_link_token (token : string) : databaseE unit
| Db_push_message_queue (address : ProtocolAddress) (messages : list Envelope) : databaseE unit
| Db_pop_msg_queue (address : ProtocolAddress) : databaseE (list Envelope)
| Db_store_signed_pre_key (spk : UploadSignedPreKey) (address : ProtocolAddress) : databaseE unit
| Db_store_pq_signed_pre_key (spk : UploadSignedPreKey) (address : ProtocolAddress) : databaseE unit
| Db_store_key_bundle (data : DevicePreKeyBundle) (address : ProtocolAddress) : databaseE unit
| Db_get_key_bundle (address : ProtocolAddress) : databaseE DevicePreKeyBundle
| Db_get_one_time_ec_pre_key_count (service_id : ServiceId) : databaseE Z
| Db_get_one_time_pq_pre_key_count (service_id : ServiceId) : databaseE Z
| Db_store_one_time_ec_pre_keys (otpks : list UploadPreKey) (owner : ProtocolAddress) : databaseE unit
| Db_store_one_time_pq_pre_keys (otpks : list UploadSignedPreKey) (owner : ProtocolAddress) : databaseE unit
| Db_get_one_time_ec_pre_key (owner : ProtocolAddress) : databaseE (option UploadPreKey)
| Db_get_one_time_pq_pre_key (owner : ProtocolAddress) : databaseE UploadSignedPreKey
| Db_count_messages (address : ProtocolAddress) : databaseE Z
| Db_get_messages (address : ProtocolAddress) : databaseE (list Envelope)
| Db_delete_messages (address : ProtocolAddress) : databaseE (list Envelope).

Definition postgres `{Bincode, ServiceIdText, ScanOrder} (public_key_ok : bytes → bool)
    : handler databaseE string pg := λ X c,
  match c in databaseE X return stm X with
  | Db_add_account a => add_account a
  | Db_get_account i => get_account public_key_ok i
  | Db_get_account_from_phonenumber n => get_account_from_phonenumber_without_devices public_key_ok n
  | Db_add_device i v => add_device i v
  | Db_get_all_devices i => get_all_devices i
  | Db_get_device a => get_device a
  | Db_delete_device a => delete_device a
  | Db_update_account_aci i u => update_account_aci i u
  | Db_update_account_pni i u => update_account_pni i u
  | Db_delete_account i => delete_account i
  | Db_get_device_capabilities a => get_device_capabilities a
  | Db_get_all_device_capabilities i => get_all_device_capabilities i
  | Db_add_used_device_link_token t => add_used_device_link_token t
  | Db_push_message_queue a ms => push_message_queue a ms
  | Db_pop_msg_queue a => pop_msg_queue a
  | Db_store_signed_pre_key k a => store_signed_pre_key k a
  | Db_store_pq_signed_pre_key k a => store_pq_signed_pre_key k a
  | Db_store_key_bundle b a => store_key_bundle b a
  | Db_get_key_bundle a => get_key_bundle a
  | Db_get_one_time_ec_pre_key_count i => get_one_time_ec_pre_key_count i
  | Db_get_one_time_pq_pre_key_count i => get_one_time_pq_pre_key_count i
  | Db_store_one_time_ec_pre_keys ks a => store_one_time_ec_pre_keys ks a
  | Db_store_one_time_pq_pre_keys ks a => store_one_time_pq_pre_keys ks a
  | Db_get_one_time_ec_pre_key a => get_one_time_ec_pre_key a
  | Db_get_one_time_pq_pre_key a => get_one_time_pq_pre_key a
  | Db_count_messages a => count_messages a
  | Db_get_messages a => get_messages a
  | Db_delete_messages a => delete_messages a
  end.

(** ** The schema is respected *)

Lemma refs_rank r x q i : (q, i) ∈ refs r x → (rank q < rank r)%nat.
Proof.
  destruct r; cbn; rewrite ?elem_of_cons; intros Hin;
    repeat destruct Hin as [[=-> _]|Hin]; cbn; try lia; by apply not_elem_of_nil in Hin.
Qed.

Lemma rank_depth r : (rank r < depth)%nat.
Proof. destruct r; cbn; unfold depth; lia. Qed.

(** Every constraint holds in the empty database. *)
Lemma empty_pg_wf : pg_wf empty_pg.
Proof. intros r. split; [|done]. split; cbn; [constructor|constructor|done|done]. Qed.

Lemma upsert_signed_wf store k owners : ∀ d d',
  upsert_signed store k owners d = Ok d' → pg_wf d → pg_wf d'.
Proof.
  induction owners as [|o owners IH]; intros d d' Hrun Hwf; cbn in Hrun; [by simplify_eq|].
  split_binds. eapply IH; [done|]. by eapply upsert_wf.
Qed.

Lemma pg_delete_wf r p d : pg_wf d → pg_wf (pg_delete r p d).
Proof. apply delete_wf with (rank := rank); [apply refs_rank|apply rank_depth]. Qed.

(** Splits a method into its statements, and leaves what [tac] does not solve. *)
Ltac each_statement tac :=
  unfold add_account, add_device, delete_device, update_account_aci, update_account_pni,
    delete_account, add_used_device_link_token, push_message_queue, store_key_bundle,
    store_one_time_ec_pre_keys, store_one_time_pq_pre_keys, delete_messages, get_one_time_ec_pre_key,
    get_one_time_pq_pre_key, store_signed_pre_key, store_pq_signed_pre_key,
    store_aci_signed_pre_key, store_pni_signed_pre_key, store_pq_aci_signed_pre_key,
    store_pq_pni_signed_pre_key, store_in, get_account, get_all_devices, get_device, pure_;
  repeat first
    [ apply keeps_ret | apply keeps_query | apply keeps_transaction
    | apply keeps_bind; [|intros ?] | apply keeps_each; intros ?
    | apply keeps_execute; intros ???? | apply keeps_run; intros ?????
    | match goal with |- keeps _ (match ?x with _ => _ end) => destruct x end ];
  split_binds; simplify_eq; tac.

Section schema.
Context `{Bincode, ServiceIdText, ScanOrder} (public_key_ok : bytes → bool).

Lemma methods_keep_wf X (c : databaseE X) : keeps pg_wf (postgres public_key_ok X c).
Proof.
  destruct c; cbn [postgres];
    each_statement ltac:(eauto using pg_delete_wf, insert_wf, insert_select_wf, update_wf, upsert_signed_wf).
Qed.
End schema.
