(* ===== verification/PostgresSpec.v ===== *)
(** What the methods of Postgres.v promise: the schema is respected, the
    messages of a device are a queue, devices and accounts are read back, and a
    one-time pre-key is handed out once. *)
From S2P Require Export Postgres Codecs.

Local Open Scope Z_scope.

(** ** Finding a device *)

(** The account texts are what libsignal prints: an ACI is never taken for a
    PNI. *)
Definition names_typed (d : pg) : Prop :=
  Forall (λ x, is_uuid (a_aci x.2) = true ∧ ∃ u, is_uuid u = true ∧ a_pni x.2 = service_id_string (Pni u))
    (rows (d Accounts)).

(** The device an address names. *)
Definition device_found (a : ProtocolAddress) (d : pg) : option (Z * device_row) :=
  match device_at a d with Ok l => head l | _ => None end.

Lemma short_list {A} (l : list A) : (length l ≤ 1)%nat → l = option_list (head l).
Proof. destruct l as [|x [|y l]]; cbn; [done|done|lia]. Qed.

Lemma clash_free {A} (f : A → A → bool) (l k : list (Z * A)) :
  clashes f (map snd l) = false → sublist k l → (∀ x y, x ∈ k → y ∈ k → f x.2 y.2 = true) → (length k ≤ 1)%nat.
Proof.
  intros Hc Hs Hk. apply (clashes_sublist f (map snd k)) in Hc; [|by apply fmap_sublist].
  destruct k as [|x [|y k]]; cbn in *; [lia|lia|]. rewrite (Hk x y) in Hc by set_solver. done.
Qed.

Section found.
Context (d : pg) (Hwf : pg_wf d) (Hnames : names_typed d).

Lemma account_rows_short n : (length (account_rows n d) ≤ 1)%nat.
Proof.
  destruct (Hwf Accounts) as [[_ _ _ Hc] _]. unfold names_typed in Hnames. rewrite Forall_forall in Hnames.
  eapply clash_free; [exact Hc|apply sublist_filter|].
  intros x y [Hx%Is_true_true Hxin]%list_elem_of_filter [Hy%Is_true_true Hyin]%list_elem_of_filter.
  destruct (Hnames _ Hxin) as (Hxa & ux & Hux & Hxp), (Hnames _ Hyin) as (Hya & uy & Huy & Hyp).
  unfold account_matches in Hx, Hy. cbn.
  apply orb_true_iff in Hx as [Hx|Hx], Hy as [Hy|Hy]; apply bool_decide_eq_true in Hx, Hy.
  - rewrite (bool_decide_true (a_aci x.2 = a_aci y.2)) by congruence. done.
  - exfalso. apply (pni_not_uuid uy n); [by rewrite <- Hx|by rewrite <- Hyp].
  - exfalso. apply (pni_not_uuid ux n); [by rewrite <- Hy|by rewrite <- Hxp].
  - rewrite (bool_decide_true (a_pni x.2 = a_pni y.2)) by congruence. by rewrite orb_true_r.
Qed.

Lemma account_id_found n : account_id n d = Ok (fst <$> head (account_rows n d)).
Proof.
  unfold account_id. pose proof (account_rows_short n) as Hs. apply short_list in Hs. rewrite Hs.
  by destruct (head (account_rows n d)).
Qed.

Lemma device_at_found a : device_at a d = Ok (option_list (device_found a d)).
Proof.
  unfold device_found, device_at, devices_of. rewrite account_id_found. cbn [mbind outcome_bind].
  f_equal. apply short_list. destruct (Hwf Devices) as [[_ _ _ Hc] _].
  eapply clash_free; [exact Hc|etrans; apply sublist_filter|].
  intros x y [Hx [Hxo _]%list_elem_of_filter]%list_elem_of_filter
    [Hy [Hyo _]%list_elem_of_filter]%list_elem_of_filter.
  unfold owned_by in *. destruct (fst <$> head (account_rows (name a) d)); [|done].
  apply Is_true_true in Hxo, Hyo. zbool. cbn. rewrite bool_decide_true by congruence. cbn. lia.
Qed.

Lemma device_found_in a x : device_found a d = Some x → x ∈ rows (d Devices).
Proof.
  intros Hf. pose proof (device_at_found a) as Hat. rewrite Hf in Hat.
  unfold device_at, devices_of in Hat. rewrite account_id_found in Hat. cbn [mbind outcome_bind] in Hat.
  assert (x ∈ [x]) as Hin by (by left). injection Hat as Hat. rewrite <- Hat in Hin.
  by apply list_elem_of_filter in Hin as [_ [_ ?]%list_elem_of_filter].
Qed.
Lemma device_found_intro n id y x :
  head (account_rows n d) = Some y → x ∈ rows (d Devices) → d_owner x.2 = y.1 → d_device_id x.2 = show id →
  device_found {| name := n; device_id := id |} d = Some x.
Proof.
  intros Hy Hx Hown Hid. pose proof (device_at_found {| name := n; device_id := id |}) as Hat.
  assert (∃ l, device_at {| name := n; device_id := id |} d = Ok l ∧ x ∈ l) as (l & Hl & Hin).
  { unfold device_at, devices_of. rewrite account_id_found. cbn [name device_id]. rewrite Hy.
    eexists. split; [reflexivity|]. apply list_elem_of_filter. split; [done|].
    apply list_elem_of_filter. split; [|done]. apply Is_true_true. cbn. lia. }
  rewrite Hat in Hl. injection Hl as <-. destruct (device_found _ d) as [x'|]; [|by apply not_elem_of_nil in Hin].
  by apply list_elem_of_singleton in Hin as ->.
Qed.

Lemma account_found n y :
  y ∈ rows (d Accounts) → account_matches n y = true → head (account_rows n d) = Some y.
Proof.
  intros Hy Hm. assert (y ∈ account_rows n d) as Hin.
  { apply list_elem_of_filter. split; [by apply Is_true_true|done]. }
  rewrite (short_list _ (account_rows_short n)) in Hin.
  destruct (head (account_rows n d)); [|by apply not_elem_of_nil in Hin].
  by apply list_elem_of_singleton in Hin as ->.
Qed.
End found.

Lemma device_at_ext d d' a :
  rows (d' Accounts) = rows (d Accounts) → rows (d' Devices) = rows (d Devices) →
  device_at a d' = device_at a d.
Proof. intros Ha Hd. unfold device_at, devices_of, account_id, account_rows. by rewrite Ha, Hd. Qed.

(** ** Messages *)

(** The message calls, and what they reply. *)
Inductive message_op :=
| PushMessages (a : ProtocolAddress) (ms : list Envelope)
| CountMessages (a : ProtocolAddress)
| GetMessages (a : ProtocolAddress)
| DeleteMessages (a : ProtocolAddress).
Inductive message_reply := Done | Count (n : Z) | Messages (es : list Envelope).

(** Neither the statements nor the trait fix an order of the messages. *)
Definition same_reply (r r' : message_reply) : Prop :=
  match r, r' with
  | Done, Done => True
  | Count n, Count n' => n = n'
  | Messages es, Messages es' => es ≡ₚ es'
  | _, _ => False
  end.

Definition spec_message (o : message_op) (t : message_table) : message_reply * message_table :=
  match o with
  | PushMessages a ms => (Done, store t a (stored t a ++ ms))
  | CountMessages a => (Count (len (stored t a)), t)
  | GetMessages a => (Messages (stored t a), t)
  | DeleteMessages a => (Messages (stored t a), store t a [])
  end.
Fixpoint spec_messages (os : list message_op) (t : message_table) : list message_reply * message_table :=
  match os with
  | [] => ([], t)
  | o :: os =>
      let '(r, t1) := spec_message o t in
      let '(rs, t2) := spec_messages os t1 in (r :: rs, t2)
  end.

(** The ids the pushes may use up. *)
Definition pushed (o : message_op) : Z := match o with PushMessages _ ms => len ms | _ => 0 end.

Section message_queues.
Context `{Bincode, ScanOrder}.

Definition pg_message (o : message_op) : stm message_reply :=
  match o with
  | PushMessages a ms => _ ← push_message_queue a ms; mret Done
  | CountMessages a => n ← count_messages a; mret (Count n)
  | GetMessages a => es ← get_messages a; mret (Messages es)
  | DeleteMessages a => es ← delete_messages a; mret (Messages es)
  end.
Fixpoint pg_messages (os : list message_op) : stm (list message_reply) :=
  match os with
  | [] => mret []
  | o :: os => r ← pg_message o; rs ← pg_messages os; mret (r :: rs)
  end.

(** The stored messages of a device. *)
Definition msgs_of (i : Z) (d : pg) : list (Z * message_row) :=
  filter (λ x, m_receiver x.2 = i) (rows (d MsqQueue)).
Definition reads (l : list (Z * message_row)) (es : list Envelope) : Prop :=
  Forall2 (λ x e, deserialize_envelope (m_msg x.2) = Some e) l es.

Record queue_view (d : pg) (t : message_table) : Prop := {
  qv_wf : pg_wf d;
  qv_names : names_typed d;
  qv_receiver : ∀ a, receiver t a = fst <$> device_found a d;
  qv_queues : ∀ i, i ∈ ids row d Devices → reads (msgs_of i d) (default [] (queues t !! i));
}.

Lemma reads_deserialize l es : reads l es → deserialize_messages l = Ok es.
Proof.
  unfold deserialize_messages. induction 1 as [|x e l es Hx _ IH]; [done|]. cbn. by rewrite Hx, IH.
Qed.

Lemma scan_deserialize l es : reads l es → ∃ es', deserialize_messages (scan l) = Ok es' ∧ es' ≡ₚ es.
Proof.
  intros Hr. destruct (Permutation_Forall2 (symmetry (scan_perm l)) Hr) as (es' & Hp & Hr').
  exists es'. split; [by apply reads_deserialize|done].
Qed.

Lemma messages_at_view d t a :
  queue_view d t → ∃ l, messages_at a d = Ok l ∧ reads l (stored t a) ∧
    l = match device_found a d with Some x => msgs_of x.1 d | None => [] end.
Proof.
  intros [Hwf Hn Hr Hq]. unfold messages_at, stored. rewrite device_at_found, Hr by done. cbn.
  destruct (device_found a d) as [x|] eqn:Hf; cbn [option_list map].
  - exists (msgs_of x.1 d). unfold msgs_of, of_devices. split_and!; [|apply Hq|done].
    + f_equal. apply filter_ext_in. intros y _. cbn. apply list_elem_of_singleton.
    + unfold ids. by eapply list_elem_of_fmap_2, device_found_in.
  - exists []. split_and!; [|constructor|done]. f_equal. apply filter_none. intros y _. set_solver.
Qed.

Lemma insert_select_one r x d d' : pg_insert r x d = Ok d' → pg_insert_select r [x] d = Ok d'.
Proof. intros Hi. cbn [Sql.insert_select]. by rewrite Hi. Qed.

(** Only devices, accounts and signed keys are referred to. *)
Lemma refs_leaf r q x i :
  match r with Accounts | Devices | SignedPreKeys _ => False | _ => True end → (r, i) ∉ refs q x.
Proof.
  intros Hr Hin. destruct q; cbn in Hin; rewrite ?elem_of_cons in Hin;
    repeat destruct Hin as [[=-> _]|Hin]; try done; by apply not_elem_of_nil in Hin.
Qed.

(** One message appended to the queue of a device. *)
Definition push_row (x : message_row) (d : pg) : pg :=
  set_table row MsqQueue {| next_id := next_id (d MsqQueue) + 1;
                            rows := rows (d MsqQueue) ++ [(next_id (d MsqQueue), x)] |} d.

Lemma push_row_insert x d :
  m_receiver x ∈ ids row d Devices → next_id (d MsqQueue) ≤ i32_max →
  pg_insert MsqQueue x d = Ok (push_row x d).
Proof.
  intros Hi Hn. unfold Sql.insert.
  assert (existsb (λ y, clash MsqQueue y.2 x) (rows (d MsqQueue)) = false) as ->.
  { by induction (rows (d MsqQueue)) as [|y l IH]. }
  unfold refs_ok, ref_ok. cbn [refs forallb fst snd]. rewrite bool_decide_true by done. cbn [negb andb].
  by rewrite (proj2 (Z.ltb_ge _ _)).
Qed.

Lemma msgs_of_push x d i :
  msgs_of i (push_row x d) =
  msgs_of i d ++ (if decide (m_receiver x = i) then [(next_id (d MsqQueue), x)] else []).
Proof.
  unfold msgs_of, push_row. rewrite set_table_eq. cbn [rows]. by rewrite filter_app.
Qed.

Lemma queue_view_push d t a e x :
  queue_view d t → device_found a d = Some x → next_id (d MsqQueue) ≤ i32_max →
  queue_view (push_row {| m_receiver := x.1; m_msg := serialize_envelope e |} d)
    (store t a (stored t a ++ [e])).
Proof.
  intros Hv Hf Hn. pose proof Hv as [Hwf Hnames Hr Hq]. set (y := {| m_receiver := _; m_msg := _ |}).
  assert (x.1 ∈ ids row d Devices) as Hx by (by eapply list_elem_of_fmap_2, device_found_in).
  assert (pg_insert MsqQueue y d = Ok (push_row y d)) as Hins by by apply push_row_insert.
  assert (receiver t a = Some x.1) as Hra by (by rewrite Hr, Hf).
  split.
  - by eapply insert_wf.
  - unfold names_typed, push_row. by rewrite set_table_ne.
  - intros b. rewrite receiver_store, Hr. unfold device_found.
    by rewrite (device_at_ext d (push_row y d)) by (unfold push_row; by rewrite set_table_ne).
  - intros i Hi. unfold ids in Hi. unfold push_row in Hi. rewrite set_table_ne in Hi by done.
    rewrite msgs_of_push. unfold store, stored. rewrite Hra. cbn [queues m_receiver y].
    destruct (decide (x.1 = i)) as [<-|Hne].
    + rewrite lookup_insert_eq. cbn. apply Forall2_app; [by apply Hq|].
      constructor; [|constructor]. apply deserialize_serialize_envelope.
    + rewrite lookup_insert_ne, app_nil_r by done. by apply Hq.
Qed.

Lemma queue_view_stored d t a : queue_view d t → queue_view d (store t a (stored t a)).
Proof.
  intros [Hwf Hn Hr Hq]. split; [done|done|by rewrite receiver_store|]. intros i Hi.
  unfold store, stored. destruct (receiver t a) as [r|]; [|by apply Hq]. cbn [queues].
  destruct (decide (r = i)) as [<-|Hne]; [rewrite lookup_insert_eq|rewrite lookup_insert_ne by done]; by apply Hq.
Qed.

Lemma push_message_run d t a ms :
  queue_view d t → next_id (d MsqQueue) + len ms ≤ i32_max + 1 →
  ∃ d', push_message_queue a ms d = (Ok tt, d') ∧
    queue_view d' (store t a (stored t a ++ ms)) ∧ next_id (d' MsqQueue) ≤ next_id (d MsqQueue) + len ms.
Proof.
  revert d t. unfold push_message_queue. induction ms as [|e ms IH]; intros d t Hv Hn.
  { exists d. split_and!; [done| |rewrite len_nil; lia]. rewrite app_nil_r. by apply queue_view_stored. }
  rewrite len_cons in *. pose proof (len_nonneg ms). cbn [stm_each].
  pose proof Hv as [Hwf Hnames Hr Hq]. destruct (device_found a d) as [x|] eqn:Hf.
  - pose proof (device_found_in d Hwf Hnames a x Hf) as Hx.
    erewrite stm_bind_ok.
    2: { apply execute_Ok. rewrite device_at_found, Hf by done.
         apply insert_select_one, push_row_insert; [by apply (list_elem_of_fmap_2 fst)|lia]. }
    destruct (IH _ _ (queue_view_push d t a e x Hv Hf ltac:(lia))) as (d' & Hrun & Hv' & Hn').
    { unfold push_row. rewrite set_table_eq. cbn [next_id]. lia. }
    exists d'. unfold push_row in Hn'. rewrite set_table_eq in Hn'. cbn [next_id] in Hn'. split_and!; [done| |lia].
    rewrite store_store in Hv'. rewrite (stored_store _ _ _ x.1) in Hv' by (by rewrite Hr, Hf).
    by rewrite <- app_assoc in Hv'.
  - erewrite stm_bind_ok; [|apply execute_Ok; rewrite device_at_found, Hf by done; reflexivity].
    destruct (IH d t Hv ltac:(lia)) as (d' & Hrun & Hv' & Hn').
    exists d'. split_and!; [done| |lia]. unfold store in *. by rewrite Hr, Hf in *.
Qed.

Lemma ids_short d r : pg_wf d → len (rows (d r)) < 2 ^ 31.
Proof.
  intros Hwf. destruct (Hwf r) as [[Hnd Hrange Hnext _] _].
  assert (length (ids row d r) ≤ length (seqZ 1 (next_id (d r) - 1)))%nat as Hlen.
  { apply submseteq_length, NoDup_submseteq; [done|]. intros i Hi.
    rewrite Forall_forall in Hrange. specialize (Hrange _ Hi). cbn in Hrange. apply elem_of_seqZ. lia. }
  rewrite length_seqZ in Hlen. unfold ids in Hlen. rewrite length_map in Hlen.
  unfold len, i32_max in *. lia.
Qed.

Lemma count_run d t a :
  queue_view d t → count_messages a d = (Ok (len (stored t a)), d).
Proof.
  intros Hv. destruct (messages_at_view d t a Hv) as (l & Hl & Hread & Heq). unfold count_messages, query.
  rewrite Hl. cbn. do 2 f_equal. assert (len l = len (stored t a)) as <-.
  { unfold len. by rewrite (Forall2_length _ _ _ Hread). }
  assert (0 ≤ len l < 2 ^ 31).
  { split; [apply len_nonneg|]. subst l. destruct (device_found a d) as [x|]; [|done].
    pose proof (ids_short d MsqQueue (qv_wf _ _ Hv)) as Hs. unfold len, msgs_of in *.
    eapply Z.le_lt_trans; [|exact Hs]. apply inj_le, length_filter. }
  unfold as_u32. rewrite Z.mod_small; lia.
Qed.

Lemma get_messages_run d t a :
  queue_view d t → ∃ es, get_messages a d = (Ok es, d) ∧ es ≡ₚ stored t a.
Proof.
  intros Hv. destruct (messages_at_view d t a Hv) as (l & Hl & Hread & _). unfold get_messages, query.
  rewrite Hl. cbn [mbind outcome_bind].
  destruct (scan_deserialize _ _ Hread) as (es & -> & Hes). by exists es.
Qed.

Lemma delete_messages_run d t a :
  queue_view d t →
  ∃ es d', delete_messages a d = (Ok es, d') ∧ es ≡ₚ stored t a ∧
    queue_view d' (store t a []) ∧ next_id (d' MsqQueue) = next_id (d MsqQueue).
Proof.
  intros Hv. destruct (messages_at_view d t a Hv) as (l & Hl & Hread & _). pose proof Hv as [Hwf Hnames Hr Hq].
  unfold messages_at in Hl. rewrite device_at_found in Hl by done. cbn in Hl. injection Hl as Hl.
  pose (p := λ x : Z * message_row, bool_decide (m_receiver x.2 ∈ map fst (option_list (device_found a d)))).
  pose (d' := pg_delete MsqQueue p d).
  assert (∀ q, rows (d' q) = rows (set_table row MsqQueue
    {| next_id := next_id (d MsqQueue); rows := filter (λ x, ¬ p x) (rows (d MsqQueue)) |} d q)) as Hrows.
  { apply delete_leaf with (clash := clash); [|done].
    intros q x i Hin. by destruct (refs_leaf MsqQueue q x i). }
  destruct (scan_deserialize _ _ Hread) as (es & Hes & Hperm). exists es, d'.
  assert (rows (d' MsqQueue) = filter (λ x, ¬ p x) (rows (d MsqQueue))) as Hmsq
    by (by rewrite Hrows, set_table_eq).
  split_and!.
  - unfold delete_messages. rewrite (stm_bind_ok _ _ d (scan l) d').
    { unfold pure_, query. by rewrite Hes. }
    apply run_Ok. rewrite device_at_found by done. cbn [mbind outcome_bind]. by rewrite <- Hl.
  - exact Hperm.
  - split; [by apply pg_delete_wf|unfold names_typed; by rewrite Hrows, set_table_ne| |].
    + intros b. rewrite receiver_store, Hr. unfold device_found.
      by rewrite (device_at_ext d d') by by rewrite Hrows, set_table_ne.
    + intros i Hi. unfold ids in Hi. rewrite Hrows, set_table_ne in Hi by done.
      unfold msgs_of. rewrite Hmsq, list_filter_filter. unfold store. rewrite Hr.
      destruct (device_found a d) as [x|] eqn:Hf; cbn [fmap option_fmap option_map queues].
      * destruct (decide (x.1 = i)) as [<-|Hne].
        -- rewrite lookup_insert_eq. cbn. rewrite filter_none; [constructor|].
           intros y _ [Hy Hp]. apply Hp. unfold p. apply Is_true_true, bool_decide_eq_true. cbn. set_solver.
        -- rewrite lookup_insert_ne by done. rewrite (filter_ext_in _ (λ y, m_receiver y.2 = i)); [by apply Hq|].
           intros y _. split; [by intros [? _]|]. intros Hy. split; [done|].
           unfold p. intros Hp%Is_true_true%bool_decide_eq_true. cbn in Hp. set_solver.
      * rewrite (filter_ext_in _ (λ y, m_receiver y.2 = i)); [by apply Hq|].
        intros y _. split; [by intros [? _]|]. intros Hy. split; [done|].
        unfold p. intros Hp%Is_true_true%bool_decide_eq_true. cbn in Hp. set_solver.
  - apply (delete_shrinks row refs depth).
Qed.

Lemma pg_message_run o d t :
  queue_view d t → next_id (d MsqQueue) + pushed o ≤ i32_max + 1 →
  ∃ r d', pg_message o d = (Ok r, d') ∧ same_reply r (spec_message o t).1 ∧ queue_view d' (spec_message o t).2 ∧
        next_id (d' MsqQueue) ≤ next_id (d MsqQueue) + pushed o.
Proof.
  intros Hv Hn. destruct o as [a ms|a|a|a]; cbn [pg_message spec_message pushed fst snd] in *.
  - destruct (push_message_run d t a ms Hv Hn) as (d' & Hrun & ?). exists Done, d'.
    by rewrite (stm_bind_ok _ _ _ _ _ Hrun).
  - exists (Count (len (stored t a))), d. rewrite (stm_bind_ok _ _ _ _ _ (count_run d t a Hv)). split_and!; [done|done|done|lia].
  - destruct (get_messages_run d t a Hv) as (es & Hrun & Hes). exists (Messages es), d.
    rewrite (stm_bind_ok _ _ _ _ _ Hrun). split_and!; [done|done|done|lia].
  - destruct (delete_messages_run d t a Hv) as (es & d' & Hrun & Hes & Hv' & Hn'). exists (Messages es), d'.
    rewrite (stm_bind_ok _ _ _ _ _ Hrun). split_and!; [done|done|done|lia].
Qed.

Lemma pg_messages_run os : ∀ d t,
  queue_view d t → next_id (d MsqQueue) + sumZ (map pushed os) ≤ i32_max + 1 →
  ∃ rs d', pg_messages os d = (Ok rs, d') ∧ Forall2 same_reply rs (spec_messages os t).1 ∧ queue_view d' (spec_messages os t).2.
Proof.
  induction os as [|o os IH]; intros d t Hv Hn; [by exists [], d|].
  cbn [map] in Hn. rewrite sumZ_cons in Hn.
  assert (0 ≤ sumZ (map pushed os)).
  { clear. induction os as [|o os IH]; [done|]. cbn [map]. rewrite sumZ_cons. unfold pushed at 1.
    destruct o as [? ms|?|?|?]; try lia. pose proof (len_nonneg ms). lia. }
  destruct (pg_message_run o d t Hv ltac:(lia)) as (r & d1 & Hrun & Hr & Hv1 & Hn1).
  destruct (IH d1 _ Hv1 ltac:(lia)) as (rs & d2 & Hrun2 & Hrs & Hv2).
  exists (r :: rs), d2. cbn [pg_messages spec_messages]. rewrite (stm_bind_ok _ _ _ _ _ Hrun).
  rewrite (stm_bind_ok _ _ _ _ _ Hrun2). destruct (spec_message o t) as [r' t1]. cbn in *.
  destruct (spec_messages os t1) as [rs' t2]. split_and!; [done|by constructor|done].
Qed.
End message_queues.

(** ** Devices and accounts *)

(** A device as the database gives it back: the times and the capabilities are
    not stored. *)
Definition as_stored (v : Device) : Device :=
  {| dev_id := dev_id v; dev_name := dev_name v; last_seen := 0; created := 0; auth_token := auth_token v;
     salt := salt v; registration_id := registration_id v; pni_registration_id := pni_registration_id v;
     dev_capabilities := [] |}.
Definition device_ok (v : Device) : bool :=
  in_u32 (dev_id v) && in_u32 (registration_id v) && in_u32 (pni_registration_id v).

Lemma device_of_row_of_device v i owner cs :
  device_ok v = true →
  device_of_row cs (i, row_of_device v owner) =
  Ok {| dev_id := dev_id v; dev_name := dev_name v; last_seen := 0; created := 0; auth_token := auth_token v;
        salt := salt v; registration_id := registration_id v; pni_registration_id := pni_registration_id v;
        dev_capabilities := cs |}.
Proof.
  unfold device_ok. rewrite !andb_true_iff. intros [[H1 H2] H3]. unfold device_of_row. cbn [snd row_of_device
    d_device_id d_registration_id d_pni_registration_id d_name d_auth_token d_salt].
  by rewrite !parse_u32_show.
Qed.

Lemma device_of_row_capabilities cs x v : device_of_row cs x = Ok v → dev_capabilities v = cs.
Proof. unfold device_of_row. intros Hv. split_binds. by simplify_eq. Qed.

(** No method ever writes a capability. *)
Definition no_capabilities (d : pg) : Prop := rows (d DeviceCapabilities) = [].

Section devices.
Context `{Bincode, ServiceIdText, ScanOrder}.

Lemma scan_nil {A} : scan (A:=A) [] = [].
Proof. by apply Permutation_nil_r, scan_perm. Qed.

Lemma scan_one {A} (x : A) : scan [x] = [x].
Proof. by apply Permutation_singleton_r, scan_perm. Qed.

Lemma scan_option {A} (o : option A) : scan (option_list o) = option_list o.
Proof. destruct o; [apply scan_one|apply scan_nil]. Qed.

Lemma capabilities_run d a :
  pg_wf d → names_typed d → no_capabilities d → get_device_capabilities a d = (Ok [], d).
Proof.
  intros Hwf Hn Hc. unfold get_device_capabilities, query. rewrite device_at_found by done.
  cbn [mbind outcome_bind]. rewrite Hc. destruct (device_found a d); cbn -[scan]; by rewrite scan_nil.
Qed.

(** Reading the device an address names. *)
Lemma get_device_run d a :
  pg_wf d → names_typed d → no_capabilities d →
  get_device a d =
  (match device_found a d with
   | Some x => device_of_row [] x
   | None => Err "no rows returned by a query that expected to return at least one row"
   end, d).
Proof.
  intros Hwf Hn Hc. unfold get_device. rewrite (stm_bind_ok _ _ _ _ _ (capabilities_run d a Hwf Hn Hc)).
  unfold query. rewrite device_at_found by done. cbn [mbind outcome_bind]. rewrite scan_option.
  by destruct (device_found a d).
Qed.

(** Adding a device that is not there yet. *)
Lemma add_device_run d s v x :
  pg_wf d → names_typed d → head (account_rows (service_id_string s) d) = Some x →
  device_found {| name := service_id_string s; device_id := dev_id v |} d = None →
  next_id (d Devices) ≤ i32_max →
  add_device s v d = (Ok tt, set_table row Devices
    {| next_id := next_id (d Devices) + 1;
       rows := rows (d Devices) ++ [(next_id (d Devices), row_of_device v x.1)] |} d).
Proof.
  intros Hwf Hn Hx Hf Hnext. apply execute_Ok.
  rewrite (short_list _ (account_rows_short d Hwf Hn (service_id_string s))), Hx.
  apply insert_select_one. unfold Sql.insert.
  assert (existsb (λ y, clash Devices y.2 (row_of_device v x.1)) (rows (d Devices)) = false) as ->.
  { apply not_true_iff_false. intros (y & Hy%list_elem_of_In & Hc)%existsb_exists. cbn in Hc.
    apply andb_true_iff in Hc as [Hid%bool_decide_eq_true Hown%Z.eqb_eq].
    pose proof (device_at_found d Hwf Hn {| name := service_id_string s; device_id := dev_id v |}) as Hat.
    rewrite Hf in Hat. unfold device_at, devices_of in Hat. rewrite account_id_found in Hat by done.
    cbn [name device_id] in Hat. rewrite Hx in Hat.
    cbn [mbind outcome_bind fmap option_fmap option_map] in Hat. injection Hat as Hat.
    assert (y ∈ filter (λ x, d_device_id x.2 = show (dev_id v)) (filter (owned_by (Some x.1)) (rows (d Devices))))
      as Hin.
    { apply list_elem_of_filter. split; [done|]. apply list_elem_of_filter. split; [|done].
      apply Is_true_true. unfold owned_by. lia. }
    assert (∀ l : list (Z * device_row), l = [] → (y : Z * device_row) ∉ l) as Hnil
      by (intros ? ->; apply not_elem_of_nil).
    by eapply Hnil. }
  assert (refs_ok row refs d Devices (row_of_device v x.1) = true) as ->.
  { unfold refs_ok, ref_ok. cbn. rewrite bool_decide_true; [done|].
    apply (list_elem_of_fmap_2 fst). assert (x ∈ account_rows (service_id_string s) d) as Hin.
    { rewrite (short_list _ (account_rows_short d Hwf Hn (service_id_string s))), Hx. by left. }
    by apply list_elem_of_filter in Hin as [_ ?]. }
  cbn [negb]. by rewrite (proj2 (Z.ltb_ge _ _)).
Qed.
End devices.

(** ** Capabilities are never written *)

Lemma rows_of_insert r x d d' q : pg_insert r x d = Ok d' → r ≠ q → rows (d' q) = rows (d q).
Proof. intros (-> & _)%insert_Ok Hq. by rewrite set_table_ne. Qed.

Lemma rows_of_insert_select r xs q : ∀ d d',
  pg_insert_select r xs d = Ok d' → r ≠ q → rows (d' q) = rows (d q).
Proof.
  induction xs as [|x xs IH]; intros d d' Hrun Hq; cbn in Hrun; [by simplify_eq|]. split_binds.
  rewrite (IH _ _ Hrun Hq). by eapply rows_of_insert.
Qed.

Lemma rows_of_update r p f d d' q : pg_update r p f d = Ok d' → r ≠ q → rows (d' q) = rows (d q).
Proof. intros (-> & _)%update_Ok Hq. by rewrite set_table_ne. Qed.

Lemma rows_of_upsert_signed k u q owners : ∀ d d',
  upsert_signed k u owners d = Ok d' → SignedPreKeys k ≠ q → rows (d' q) = rows (d q).
Proof.
  induction owners as [|o owners IH]; intros d d' Hrun Hq; cbn in Hrun; [by simplify_eq|]. split_binds.
  rewrite (IH _ _ Hrun Hq). unfold upsert in *. destruct (existsb _ _);
    [by eapply rows_of_update|by eapply rows_of_insert].
Qed.

Lemma no_capabilities_eq d d' :
  rows (d' DeviceCapabilities) = rows (d DeviceCapabilities) → no_capabilities d → no_capabilities d'.
Proof. unfold no_capabilities. congruence. Qed.

Lemma no_capabilities_delete r p d : no_capabilities d → no_capabilities (pg_delete r p d).
Proof.
  unfold no_capabilities. intros Hc. destruct (delete_shrinks row refs depth r p d DeviceCapabilities) as [_ Hs].
  rewrite Hc in Hs. by apply sublist_nil_r in Hs.
Qed.

Section no_capabilities.
Context `{Bincode, ServiceIdText, ScanOrder} (public_key_ok : bytes → bool).

Ltac keep_none :=
  lazymatch goal with
  | H : no_capabilities ?d |- no_capabilities ?d => exact H
  | |- no_capabilities (pg_delete _ _ _) => by apply no_capabilities_delete
  | H : pg_insert _ _ ?d = Ok ?d' |- no_capabilities ?d' =>
      apply (no_capabilities_eq d); [by eapply rows_of_insert|done]
  | H : pg_insert_select _ _ ?d = Ok ?d' |- no_capabilities ?d' =>
      apply (no_capabilities_eq d); [by eapply rows_of_insert_select|done]
  | H : pg_update _ _ _ ?d = Ok ?d' |- no_capabilities ?d' =>
      apply (no_capabilities_eq d); [by eapply rows_of_update|done]
  | H : upsert_signed _ _ _ ?d = Ok ?d' |- no_capabilities ?d' =>
      apply (no_capabilities_eq d); [by eapply rows_of_upsert_signed|done]
  end.

Lemma methods_write_no_capability X (c : databaseE X) : keeps no_capabilities (postgres public_key_ok X c).
Proof. destruct c; cbn [postgres]; each_statement ltac:(idtac; keep_none). Qed.
End no_capabilities.

(** ** One-time pre-keys *)

Section one_time_keys.
Context `{ScanOrder}.

Definition ec_keys_of (i : Z) (d : pg) : list (Z * ec_row) :=
  filter (λ x, e_owner x.2 = i) (rows (d OneTimeEcPreKeys)).
Definition ec_row_of (i : Z) (k : UploadPreKey) : ec_row :=
  {| e_owner := i; e_key_id := show (key_id k); e_public_key := public_key k |}.

(** The device [x] has exactly the keys [ks] left. *)
Record ec_keys (a : ProtocolAddress) (x : Z * device_row) (ks : list UploadPreKey) (d : pg) : Prop := {
  ek_wf : pg_wf d;
  ek_names : names_typed d;
  ek_found : device_found a d = Some x;
  ek_rows : map snd (ec_keys_of x.1 d) ≡ₚ map (ec_row_of x.1) ks;
  ek_ids : Forall (λ k, in_u32 (key_id k) = true) ks;
}.

Lemma ec_rows_at a x ks d :
  ec_keys a x ks d →
  device_at a d = Ok [x] ∧ of_devices e_owner [x] (rows (d OneTimeEcPreKeys)) = ec_keys_of x.1 d.
Proof.
  intros [Hwf Hn Hf _ _]. split; [by rewrite device_at_found, Hf|]. apply filter_ext_in.
  intros y _. cbn. set_solver.
Qed.

(** Deleting one-time keys leaves every other relation as it is. *)
Lemma delete_ec p d q :
  pg_wf d → rows (pg_delete OneTimeEcPreKeys p d q) =
  rows (set_table row OneTimeEcPreKeys {| next_id := next_id (d OneTimeEcPreKeys);
    rows := filter (λ x, ¬ p x) (rows (d OneTimeEcPreKeys)) |} d q).
Proof.
  intros Hwf. apply delete_leaf with (clash := clash); [|done].
  intros r x i Hin. by destruct (refs_leaf OneTimeEcPreKeys r x i).
Qed.

Lemma delete_ec_found a x p d :
  pg_wf d → names_typed d → device_found a d = Some x →
  let d' := pg_delete OneTimeEcPreKeys p d in
  pg_wf d' ∧ names_typed d' ∧ device_found a d' = Some x ∧
  ec_keys_of x.1 d' = filter (λ y, ¬ p y) (ec_keys_of x.1 d).
Proof.
  intros Hwf Hn Hf d'. assert (∀ q, q ≠ OneTimeEcPreKeys → rows (d' q) = rows (d q)) as Hrows.
  { intros q Hq. unfold d'. by rewrite delete_ec, set_table_ne. }
  split_and!; [by apply pg_delete_wf|unfold names_typed; by rewrite Hrows| |].
  - unfold device_found. by rewrite (device_at_ext d d') by by apply Hrows.
  - unfold ec_keys_of, d'. rewrite delete_ec, set_table_eq by done. cbn [rows].
    rewrite !list_filter_filter. apply filter_ext_in. tauto.
Qed.

(** Taking a key out. *)
Lemma get_one_time_ec_run a x ks d :
  ec_keys a x ks d →
  match ks with
  | [] => ∃ d', get_one_time_ec_pre_key a d = (Ok None, d') ∧ ec_keys a x [] d'
  | _ => ∃ k ks' d', get_one_time_ec_pre_key a d = (Ok (Some k), d') ∧
           ks ≡ₚ k :: ks' ∧ ec_keys a x ks' d'
  end.
Proof.
  intros Hk. destruct (ec_rows_at a x ks d Hk) as [Hat Hof]. destruct Hk as [Hwf Hn Hf Hrows Hids].
  set (l := ec_keys_of x.1 d) in *. pose (chosen := take 1 (scan l)).
  pose (d' := pg_delete OneTimeEcPreKeys (λ y, bool_decide (y.1 ∈ map fst chosen)) d).
  destruct (delete_ec_found a x (λ y, bool_decide (y.1 ∈ map fst chosen)) d Hwf Hn Hf) as (Hwf' & Hn' & Hf' & Hl').
  fold d' in Hwf', Hn', Hf', Hl'. fold l in Hl'.
  assert (run (λ d, l ← device_at a d;
    let chosen := take 1 (scan (of_devices e_owner l (rows (d OneTimeEcPreKeys)))) in
    Ok (chosen, pg_delete OneTimeEcPreKeys (λ y, bool_decide (y.1 ∈ map fst chosen)) d)) d = (Ok chosen, d')) as Hrun.
  { apply run_Ok. rewrite Hat. cbn [mbind outcome_bind]. by rewrite Hof. }
  assert (NoDup (map fst l)) as Hnd.
  { eapply sublist_NoDup; [apply (Hwf OneTimeEcPreKeys)|]. apply (fmap_sublist fst), sublist_filter. }
  unfold get_one_time_ec_pre_key. rewrite (stm_bind_ok _ _ _ _ _ Hrun). unfold chosen in *.
  pose proof (scan_perm l) as Hperm. destruct (scan l) as [|c rest] eqn:Hscan; cbn [take] in *.
  - apply Permutation_nil_l in Hperm. rewrite <- Hperm in Hrows. apply Permutation_nil_l in Hrows.
    destruct ks; [|done]. exists d'. split; [done|]. split; [done|done|done| |done].
    by rewrite Hl', <- Hperm.
  - destruct ks as [|k0 ks0] eqn:Hks; [rewrite <- Hperm in Hrows; by apply Permutation_nil_r in Hrows|].
    rewrite <- Hks in *. clear k0 ks0 Hks.
    assert (ec_row_of x.1 <$> ks ≡ₚ c.2 :: map snd rest) as Hsplit by (by rewrite <- Hrows, <- Hperm).
    symmetry in Hsplit. destruct (Permutation_map_inv _ _ Hsplit) as (ks1 & Heq & Hp).
    destruct ks1 as [|k ks']; [done|]. cbn in Heq. injection Heq as Hc Hrest.
    rewrite Hp in Hids. apply Forall_cons in Hids as [Hid Hids].
    exists k, ks', d'. split_and!; [|done|].
    + unfold pure_, query. rewrite Hc. cbn [ec_row_of e_key_id e_public_key]. rewrite parse_u32_show by done.
      cbn. by destruct k.
    + split; [done|done|done| |done]. rewrite Hl', <- Hrest. apply (fmap_Permutation snd).
      rewrite <- Hperm in Hnd |- *. cbn [map] in Hnd. apply NoDup_cons in Hnd as [Hc1 _].
      rewrite filter_cons_False by (rewrite bool_decide_true by set_solver; by intros []).
      rewrite filter_all; [done|]. intros y Hy. rewrite bool_decide_false; [by intros []|].
      change (y.1 ∉ [c.1]). intros Heq%list_elem_of_singleton. apply Hc1. rewrite <- Heq.
      by apply (list_elem_of_fmap_2 fst).
Qed.

(** Asking again and again. *)
Fixpoint take_ec_keys (n : nat) (a : ProtocolAddress) : stm (list (option UploadPreKey)) :=
  match n with
  | O => mret []
  | S n => k ← get_one_time_ec_pre_key a; ks ← take_ec_keys n a; mret (k :: ks)
  end.

Lemma take_ec_keys_run n a x : ∀ ks d,
  ec_keys a x ks d → length ks = n →
  ∃ ks' d', take_ec_keys (S n) a d = (Ok (map Some ks' ++ [None]), d') ∧ ks' ≡ₚ ks.
Proof.
  induction n as [|n IH]; intros ks d Hk Hlen; pose proof (get_one_time_ec_run a x ks d Hk) as Hget.
  - destruct ks; [|done]. destruct Hget as (d' & Hrun & Hk'). exists [], d'. split; [|done].
    cbn [take_ec_keys]. by rewrite (stm_bind_ok _ _ _ _ _ Hrun).
  - destruct ks as [|k0 ks0] eqn:Hks; [done|]. rewrite <- Hks in *. clear k0 ks0 Hks.
    destruct Hget as (k & ks' & d1 & Hrun & Hp & Hk1).
    assert (length ks' = n) as Hlen' by (rewrite Hp in Hlen; cbn in Hlen; lia).
    destruct (IH ks' d1 Hk1 Hlen') as (ks2 & d2 & Hrun2 & Hp2). exists (k :: ks2), d2.
    split; [|by rewrite Hp2]. change (take_ec_keys (S (S n)) a) with
      (k ← get_one_time_ec_pre_key a; ks ← take_ec_keys (S n) a; mret (k :: ks)).
    rewrite (stm_bind_ok _ _ _ _ _ Hrun). by rewrite (stm_bind_ok _ _ _ _ _ Hrun2).
Qed.

(** Uploading keys under distinct ids. *)
Definition ec_insert (a : ProtocolAddress) (k : UploadPreKey) : stm unit := execute (λ d,
  l ← device_at a d; pg_insert_select OneTimeEcPreKeys (map (λ x, ec_row_of x.1 k) l) d).

Lemma ec_insert_run a x ks k d :
  ec_keys a x ks d → key_id k ∉ map key_id ks → in_u32 (key_id k) = true →
  next_id (d OneTimeEcPreKeys) ≤ i32_max →
  ∃ d', ec_insert a k d = (Ok tt, d') ∧ ec_keys a x (ks ++ [k]) d' ∧
        next_id (d' OneTimeEcPreKeys) = next_id (d OneTimeEcPreKeys) + 1.
Proof.
  intros Hk Hnew Hid Hnext. destruct (ec_rows_at a x ks d Hk) as [Hat _]. destruct Hk as [Hwf Hn Hf Hrows Hids].
  pose (d' := set_table row OneTimeEcPreKeys {| next_id := next_id (d OneTimeEcPreKeys) + 1;
    rows := rows (d OneTimeEcPreKeys) ++ [(next_id (d OneTimeEcPreKeys), ec_row_of x.1 k)] |} d).
  assert (pg_insert OneTimeEcPreKeys (ec_row_of x.1 k) d = Ok d') as Hins.
  { unfold Sql.insert.
    assert (existsb (λ y, clash OneTimeEcPreKeys y.2 (ec_row_of x.1 k)) (rows (d OneTimeEcPreKeys)) = false) as ->.
    { apply not_true_iff_false. intros (y & Hy%list_elem_of_In & Hc)%existsb_exists. cbn in Hc.
      apply andb_true_iff in Hc as [Hown%Z.eqb_eq Hkey%bool_decide_eq_true].
      assert (y.2 ∈ map snd (ec_keys_of x.1 d)) as Hin.
      { apply (list_elem_of_fmap_2 snd), list_elem_of_filter. done. }
      rewrite Hrows in Hin. apply list_elem_of_fmap in Hin as (k' & Hy2 & Hk').
      assert (key_id k' = key_id k) as Heq.
      { apply show_inj. change (e_key_id (ec_row_of x.1 k') = show (key_id k)). rewrite <- Hy2. exact Hkey. }
      apply Hnew. rewrite <- Heq.
      by apply list_elem_of_fmap_2. }
    assert (refs_ok row refs d OneTimeEcPreKeys (ec_row_of x.1 k) = true) as ->.
    { unfold refs_ok, ref_ok. cbn. rewrite bool_decide_true; [done|].
      apply (list_elem_of_fmap_2 fst). by eapply device_found_in. }
    cbn [negb]. by rewrite (proj2 (Z.ltb_ge _ _)). }
  exists d'. split_and!.
  - apply execute_Ok. rewrite Hat. by apply insert_select_one.
  - split.
    + by eapply insert_wf.
    + unfold names_typed, d'. by rewrite set_table_ne.
    + unfold device_found. by rewrite (device_at_ext d d') by (unfold d'; by rewrite set_table_ne).
    + unfold ec_keys_of, d'. rewrite set_table_eq. cbn [rows]. rewrite filter_app.
      rewrite filter_cons_True, filter_nil by done. rewrite !map_app. by apply Permutation_app_tail.
    + apply Forall_app. split; [done|]. by apply Forall_singleton.
  - unfold d'. by rewrite set_table_eq.
Qed.

Lemma ec_insert_each_run a x new : ∀ ks d,
  ec_keys a x ks d → NoDup (map key_id (ks ++ new)) → Forall (λ k, in_u32 (key_id k) = true) new →
  next_id (d OneTimeEcPreKeys) + len new ≤ i32_max + 1 →
  ∃ d', stm_each new (ec_insert a) d = (Ok tt, d') ∧ ec_keys a x (ks ++ new) d'.
Proof.
  induction new as [|k new IH]; intros ks d Hk Hnd Hids Hn.
  { exists d. by rewrite app_nil_r. }
  rewrite len_cons in Hn. pose proof (len_nonneg new). apply Forall_cons in Hids as [Hid Hids].
  assert (key_id k ∉ map key_id ks) as Hnew.
  { rewrite map_app in Hnd. apply NoDup_app in Hnd as (_ & Hd & _). intros Hin. apply (Hd _ Hin). by left. }
  destruct (ec_insert_run a x ks k d Hk Hnew Hid ltac:(lia)) as (d1 & Hrun & Hk1 & Hn1).
  destruct (IH (ks ++ [k]) d1 Hk1) as (d2 & Hrun2 & Hk2); [by rewrite <- app_assoc|done|lia|].
  exists d2. cbn [stm_each]. rewrite (stm_bind_ok _ _ _ _ _ Hrun). by rewrite <- app_assoc in Hk2.
Qed.

Lemma store_one_time_ec_run a x ks d :
  pg_wf d → names_typed d → device_found a d = Some x → NoDup (map key_id ks) →
  Forall (λ k, in_u32 (key_id k) = true) ks → next_id (d OneTimeEcPreKeys) + len ks ≤ i32_max + 1 →
  ∃ d', store_one_time_ec_pre_keys ks a d = (Ok tt, d') ∧ ec_keys a x ks d'.
Proof.
  intros Hwf Hn Hf Hnd Hids Hnext. unfold store_one_time_ec_pre_keys.
  pose (d1 := pg_delete OneTimeEcPreKeys (λ y, e_owner y.2 =? x.1) d).
  assert (execute (λ d, l ← device_at a d; o ← scalar_subquery (map fst l);
      Ok (pg_delete OneTimeEcPreKeys
            (λ x, match o with Some i => e_owner x.2 =? i | None => false end) d)) d = (Ok tt, d1)) as Hdel.
  { apply execute_Ok. by rewrite device_at_found, Hf. }
  destruct (delete_ec_found a x (λ y, e_owner y.2 =? x.1) d Hwf Hn Hf) as (Hwf1 & Hn1 & Hf1 & Hl1).
  fold d1 in Hwf1, Hn1, Hf1, Hl1.
  assert (ec_keys a x [] d1) as Hk1.
  { split; [done|done|done| |constructor]. rewrite Hl1. rewrite filter_none; [done|].
    intros y [Hy _]%list_elem_of_filter Hp. apply Hp. by apply Is_true_true, Z.eqb_eq. }
  destruct (ec_insert_each_run a x ks [] d1 Hk1 Hnd Hids) as (d2 & Hrun & Hk2).
  { unfold d1. by rewrite (proj1 (delete_shrinks row refs depth _ _ _ OneTimeEcPreKeys)). }
  exists d2. split; [|done]. unfold transaction. rewrite (stm_bind_ok _ _ _ _ _ Hdel).
  change (stm_each ks _ d1) with (stm_each ks (ec_insert a) d1). by rewrite Hrun.
Qed.
End one_time_keys.

(** ** Accounts are read back *)

Section accounts.
Context `{Bincode, ServiceIdText, ScanOrder} (public_key_ok : bytes → bool).

(** What [Account] and [Device] guarantee by their types, and the columns'
    widths. *)
Record account_ok (c : Account) (v : Device) (vs : list Device) : Prop := {
  ao_aci : is_uuid (aci c) = true;
  ao_pni : is_uuid (pni c) = true;
  ao_aci_key : public_key_ok (aci_identity_key c) = true;
  ao_pni_key : public_key_ok (pni_identity_key c) = true;
  ao_devices : acc_devices c = v :: vs;
  ao_device : device_ok v = true;
}.

(** Nobody has its identifiers or its number yet. *)
Definition account_new_in (c : Account) (d : pg) : bool :=
  negb (existsb (λ y, clash Accounts y.2 (row_of_account c)) (rows (d Accounts))).

Definition with_account (c : Account) (d : pg) : pg :=
  set_table row Accounts {| next_id := next_id (d Accounts) + 1;
    rows := rows (d Accounts) ++ [(next_id (d Accounts), row_of_account c)] |} d.
Definition with_device (v : Device) (owner : Z) (d : pg) : pg :=
  set_table row Devices {| next_id := next_id (d Devices) + 1;
    rows := rows (d Devices) ++ [(next_id (d Devices), row_of_device v owner)] |} d.

Lemma uuid_length u : is_uuid u = true → String.length u = 36%nat.
Proof. by intros [[Hl%Nat.eqb_eq _]%andb_true_iff _]%andb_true_iff. Qed.

Lemma string_length_app s t : String.length (s +:+ t) = (String.length s + String.length t)%nat.
Proof. induction s as [|c s IH]; [done|]. rewrite append_cons. cbn. by rewrite IH. Qed.

(** The devices of an account whose id is new: none. *)
Lemma new_owner_has_none d i :
  pg_wf d → next_id (d Accounts) ≤ i → filter (owned_by (Some i)) (rows (d Devices)) = [].
Proof.
  intros Hwf Hi. apply filter_none. intros x Hx Hown%Is_true_true%Z.eqb_eq.
  destruct (Hwf Devices) as [_ Hk]. unfold keys_ok in Hk. rewrite forallb_forall in Hk.
  assert (refs_ok row refs d Devices x.2 = true) as Hr.
  { apply Hk, list_elem_of_In. by apply (list_elem_of_fmap_2 snd). }
  cbn in Hr. apply andb_true_iff in Hr as [Hr%bool_decide_eq_true _]. cbn in Hr. rewrite Hown in Hr.
  destruct (Hwf Accounts) as [[_ Hrange _ _] _]. rewrite Forall_forall in Hrange.
  destruct (Hrange _ Hr) as [_ Hlt]. exact (Zlt_not_le _ _ Hlt Hi).
Qed.

(** [add_account] adds the account and its first device. *)
Lemma add_account_run d c v vs :
  pg_wf d → names_typed d → account_ok c v vs → account_new_in c d = true →
  next_id (d Accounts) ≤ i32_max → next_id (d Devices) ≤ i32_max →
  let i := next_id (d Accounts) in
  let d' := with_device v i (with_account c d) in
  add_account c d = (Ok tt, d') ∧ pg_wf d' ∧ names_typed d'.
Proof.
  intros Hwf Hn [Ha Hp _ _ Hv _] Hnew Hna Hnd i d'. set (d1 := with_account c d).
  assert (pg_insert Accounts (row_of_account c) d = Ok d1) as Hins.
  { unfold Sql.insert, account_new_in in *. apply negb_true_iff in Hnew. rewrite Hnew. cbn [refs refs_ok negb forallb].
    by rewrite (proj2 (Z.ltb_ge _ _)). }
  pose proof (insert_wf _ _ _ _ _ _ _ Hins Hwf) as Hwf1.
  assert (names_typed d1) as Hn1.
  { unfold names_typed, d1, with_account. rewrite set_table_eq. cbn [rows]. apply Forall_app. split; [done|].
    apply Forall_singleton. cbn. split; [done|]. by exists (pni c). }
  assert (head (account_rows (service_id_string (Aci (aci c))) d1) = Some (i, row_of_account c)) as Hx.
  { apply account_found; [done|done| |].
    - unfold d1, with_account. rewrite set_table_eq. cbn [rows]. apply elem_of_app. right. by left.
    - unfold account_matches. cbn. by rewrite bool_decide_true. }
  assert (device_found {| name := service_id_string (Aci (aci c)); device_id := dev_id v |} d1 = None) as Hnone.
  { destruct (device_found _ d1) as [x|] eqn:Hf; [exfalso|done].
    pose proof (device_at_found d1 Hwf1 Hn1 {| name := service_id_string (Aci (aci c)); device_id := dev_id v |}) as Hat.
    rewrite Hf in Hat. unfold device_at, devices_of in Hat. rewrite account_id_found in Hat by done.
    cbn [name device_id] in Hat. rewrite Hx in Hat. cbn [mbind outcome_bind fmap option_fmap option_map] in Hat.
    injection Hat as Hat. change (option_list (Some x)) with [x] in Hat.
    assert (filter (owned_by (Some i)) (rows (d1 Devices)) = []) as Hnil.
    { unfold d1, with_account. rewrite set_table_ne by done. by apply new_owner_has_none. }
    change (filter (λ y, d_device_id y.2 = show (dev_id v)) (filter (owned_by (Some i)) (rows (d1 Devices))) = [x])
      in Hat. rewrite Hnil in Hat. done. }
  assert (next_id (d1 Devices) ≤ i32_max) as Hnd1 by (unfold d1, with_account; by rewrite set_table_ne).
  pose proof (add_device_run d1 (Aci (aci c)) v (i, row_of_account c) Hwf1 Hn1 Hx Hnone Hnd1) as Hadd.
  split; [|split].
  - unfold add_account. erewrite stm_bind_ok.
    2: { apply execute_Ok. unfold varchar. cbn [service_id_string].
         rewrite string_length_app, (uuid_length (aci c)), (uuid_length (pni c)) by done. cbn [Nat.leb mbind outcome_bind String.length plus].
         exact Hins. }
    rewrite Hv. rewrite (stm_bind_ok _ _ d1 v d1) by done. exact Hadd.
  - pose proof (methods_keep_wf (λ _, true) _ (Db_add_device (Aci (aci c)) v) d1 Hwf1) as Hk.
    cbn [postgres] in Hk. by rewrite Hadd in Hk.
  - unfold names_typed, d', with_device. by rewrite set_table_ne.
Qed.

Lemma all_capabilities_run d s :
  pg_wf d → names_typed d → no_capabilities d → get_all_device_capabilities s d = (Ok [], d).
Proof.
  intros Hwf Hn Hc. unfold get_all_device_capabilities, query, devices_of. rewrite account_id_found by done.
  cbn [mbind outcome_bind]. unfold of_devices. rewrite Hc. cbn -[scan]. by rewrite scan_nil.
Qed.

Lemma get_all_devices_run d s i x :
  pg_wf d → names_typed d → no_capabilities d → fst <$> head (account_rows (service_id_string s) d) = Some i →
  filter (owned_by (Some i)) (rows (d Devices)) = [x] →
  get_all_devices s d = ((λ v, [v]) <$> device_of_row [] x, d).
Proof.
  intros Hwf Hn Hc Hi Hd. unfold get_all_devices.
  rewrite (stm_bind_ok _ _ _ _ _ (all_capabilities_run d s Hwf Hn Hc)).
  unfold query, devices_of. rewrite account_id_found, Hi by done. cbn [mbind outcome_bind]. rewrite Hd, scan_one.
  cbn. by destruct (device_of_row [] x).
Qed.

Lemma get_account_after_add d c v vs s :
  pg_wf d → names_typed d → no_capabilities d → account_ok c v vs → account_new_in c d = true →
  next_id (d Accounts) ≤ i32_max → next_id (d Devices) ≤ i32_max → s = Aci (aci c) ∨ s = Pni (pni c) →
  let d' := with_device v (next_id (d Accounts)) (with_account c d) in
  get_account public_key_ok s d' =
  (Ok {| aci := aci c; pni := pni c; aci_identity_key := aci_identity_key c;
         pni_identity_key := pni_identity_key c; acc_devices := [as_stored v];
         phone_number := phone_number c |}, d').
Proof.
  intros Hwf Hn Hc Hok Hnew Hna Hnd Hs d'.
  destruct (add_account_run d c v vs Hwf Hn Hok Hnew Hna Hnd) as (_ & Hwf' & Hn'). fold d' in Hwf', Hn'.
  destruct Hok as [Ha Hp Hak Hpk Hv Hdev].
  assert (no_capabilities d') as Hc' by (unfold no_capabilities, d', with_device, with_account; by rewrite !set_table_ne).
  assert (head (account_rows (service_id_string s) d') = Some (next_id (d Accounts), row_of_account c)) as Hx.
  { apply account_found; [done|done| |].
    - unfold d', with_device, with_account. rewrite set_table_ne, set_table_eq by done. cbn [rows].
      apply elem_of_app. right. by left.
    - unfold account_matches. cbn. destruct Hs as [-> | ->]; [by rewrite bool_decide_true|].
      rewrite (bool_decide_true (service_id_string (Pni (pni c)) = _)) by done. apply orb_true_r. }
  assert (filter (owned_by (Some (next_id (d Accounts)))) (rows (d' Devices))
          = [(next_id (with_account c d Devices), row_of_device v (next_id (d Accounts)))]) as Hds.
  { unfold d', with_device. rewrite set_table_eq. cbn [rows]. rewrite filter_app.
    unfold with_account. rewrite set_table_ne by done. rewrite new_owner_has_none by done.
    rewrite filter_cons_True, filter_nil; [done|]. apply Is_true_true, Z.eqb_eq. done. }
  assert (get_all_devices s d' = (Ok [as_stored v], d')) as Hget.
  { rewrite (get_all_devices_run d' s (next_id (d Accounts)) _ Hwf' Hn' Hc' ltac:(by rewrite Hx) Hds).
    by rewrite device_of_row_of_device. }
  unfold get_account. rewrite (stm_bind_ok _ _ _ _ _ Hget). unfold query.
  rewrite (short_list _ (account_rows_short d' Hwf' Hn' (service_id_string s))), Hx.
  change (option_list (Some ?x)) with [x]. rewrite scan_one. cbn [fetch_one head ok_or mbind outcome_bind snd].
  unfold account_of_row, parse_aci, parse_pni, row_of_account. cbn [a_aci a_pni a_aci_key a_pni_key a_phone].
  rewrite !parse_service_id_string, Hak, Hpk by done. done.
Qed.
End accounts.

(** ** Deleting an account *)

Lemma delete_account_rows s d q :
  let d' := pg_delete Accounts (account_matches (service_id_string s)) d in
  q ≠ Accounts → rows (d' q) = filter (λ x, refs_ok row refs d' q x.2) (rows (d q)).
Proof.
  intros d' Hq. unfold d' at 1. rewrite (delete_rows row refs depth rank refs_rank rank_depth).
  by rewrite set_table_ne.
Qed.

Lemma owner_kept (d : pg) r i : Is_true (ref_ok row d (r, i) && true) ↔ i ∈ ids row d r.
Proof. rewrite andb_true_r. unfold ref_ok. cbn. by rewrite Is_true_true, bool_decide_eq_true. Qed.

(** ** Properties *)

(** Whatever is asked of the database, in any order and with any answers
    in between, the schema is respected: ids are unique, unique constraints
    hold, and every reference leads to an existing row. *)
Theorem schema_is_respected `{Bincode, ServiceIdText, ScanOrder} (public_key_ok : bytes → bool)
    {A} (p : prog databaseE string A) (d : pg) (Hwf : pg_wf d) :
  pg_wf (interp (postgres public_key_ok) p d).2.
Proof. apply interp_invariant; [|done]. intros X c d'. apply methods_keep_wf. Qed.

Lemma schema_is_respected_witness :
  pg_wf (interp (postgres (H := demo_bincode) (H0 := demo_service_ids) (H1 := in_order) (λ _, true))
           (_ ← op (Db_add_account sample_account); op (Db_delete_account (Aci sample_uuid))) empty_pg).2.
Proof. apply schema_is_respected. apply empty_pg_wf. Defined.

(** C22: the messages pushed to a device are kept for it until they are
    deleted, whatever the order in which the database returns rows: in any
    sequence of pushes, counts, reads and deletions for any addresses, a count
    is that of the device's messages, and a read or a deletion returns exactly
    these, each once, in some order; a deletion leaves that device none and the
    others theirs.  An address without a device swallows what is pushed. *)
Theorem stored_messages_are_kept `{Bincode, ScanOrder} (os : list message_op) (d : pg) (t : message_table)
    (Hview : queue_view d t) (Hids : next_id (d MsqQueue) + sumZ (map pushed os) ≤ i32_max + 1) :
  ∃ rs d', pg_messages os d = (Ok rs, d') ∧ Forall2 same_reply rs (spec_messages os t).1 ∧ queue_view d' (spec_messages os t).2.
Proof. by apply pg_messages_run. Qed.

(** An account is found by its ACI and by its PNI after it was added, with
    its keys and number; of its devices the first is kept, without its times
    and its capabilities. *)
Theorem added_account_is_read_back `{Bincode, ServiceIdText, ScanOrder} (public_key_ok : bytes → bool)
    (d : pg) (c : Account) (v : Device) (vs : list Device) (s : ServiceId)
    (Hwf : pg_wf d) (Hnames : names_typed d) (Hcaps : no_capabilities d)
    (Hok : account_ok public_key_ok c v vs) (Hnew : account_new_in c d = true)
    (Hids : next_id (d Accounts) ≤ i32_max ∧ next_id (d Devices) ≤ i32_max)
    (Hs : s = Aci (aci c) ∨ s = Pni (pni c)) :
  ∃ d', add_account c d = (Ok tt, d') ∧
    get_account public_key_ok s d' =
      (Ok {| aci := aci c; pni := pni c; aci_identity_key := aci_identity_key c;
             pni_identity_key := pni_identity_key c; acc_devices := [as_stored v];
             phone_number := phone_number c |}, d').
Proof.
  destruct Hids as [Hna Hnd].
  destruct (add_account_run public_key_ok d c v vs Hwf Hnames Hok Hnew Hna Hnd) as (Hrun & _ & _).
  eexists. split; [exact Hrun|]. by eapply get_account_after_add.
Qed.

Lemma sample_account_ok : account_ok (λ _, true) sample_account sample_device [].
Proof. by split. Qed.

Lemma added_account_is_read_back_witness :
  ∃ d', add_account sample_account empty_pg = (Ok tt, d') ∧
    get_account (H0 := demo_service_ids) (H1 := in_order) (λ _, true) (Pni (pni sample_account)) d' =
      (Ok {| aci := sample_uuid; pni := pni sample_account; aci_identity_key := [x05];
             pni_identity_key := [x06]; acc_devices := [as_stored sample_device];
             phone_number := "+4512345678" |}, d').
Proof.
  apply (added_account_is_read_back (H0 := demo_service_ids) (H1 := in_order) (λ _, true)
           empty_pg sample_account sample_device []).
  - apply empty_pg_wf.
  - constructor.
  - vm_compute. reflexivity.
  - by split.
  - vm_compute. reflexivity.
  - vm_compute. split; discriminate.
  - right. reflexivity.
Defined.

(** From an empty database, after any program, every account that is read
    has no capability on any device, whatever devices were added: an account
    never has a capability that any or all of its devices must have. *)
Theorem capabilities_are_never_stored `{Bincode, ServiceIdText, ScanOrder} (public_key_ok : bytes → bool)
    {A} (p : prog databaseE string A) (s : ServiceId) (vs : list Device) :
  let d := (interp (postgres public_key_ok) p empty_pg).2 in
  ∀ (Hread : (get_all_devices s d).1 = Ok vs), Forall (λ v, dev_capabilities v = []) vs.
Proof.
  intros d. assert (no_capabilities d) as Hc.
  { apply interp_invariant; [|done]. intros X c d'. apply methods_write_no_capability. }
  clearbody d. unfold get_all_devices, mbind, stm_bind, get_all_device_capabilities, query.
  destruct (devices_of (service_id_string s) d) as [l|e|m] eqn:Hl; cbn [mbind outcome_bind]; [|done..].
  unfold of_devices. rewrite Hc. cbn -[scan]. rewrite scan_nil. cbn -[scan]. generalize (scan l). clear.
  intros l. revert vs. induction l as [|x l IH]; intros vs Hvs; cbn in Hvs; [by simplify_eq|].
  split_binds. simplify_eq. constructor; [by eapply device_of_row_capabilities|by apply IH].
Qed.

Lemma capabilities_are_never_stored_witness :
  Forall (λ v, dev_capabilities v = []) [as_stored sample_device].
Proof.
  apply (capabilities_are_never_stored (H := demo_bincode) (H0 := demo_service_ids) (H1 := in_order) (λ _, true)
           (op (Db_add_account sample_account)) (Aci sample_uuid)).
  vm_compute. reflexivity.
Defined.

(** Adding a device to an account that exists, under a new id, makes it the
    device its address names; it is read back with its names, tokens and
    registration ids, but without its times and capabilities. *)
Theorem added_device_is_read_back `{Bincode, ServiceIdText, ScanOrder} (d : pg) (s : ServiceId) (v : Device)
    (x : Z * account_row)
    (Hwf : pg_wf d) (Hnames : names_typed d) (Hcaps : no_capabilities d) (Hv : device_ok v = true)
    (Haccount : head (account_rows (service_id_string s) d) = Some x)
    (Hnew : device_found {| name := service_id_string s; device_id := dev_id v |} d = None)
    (Hids : next_id (d Devices) ≤ i32_max) :
  ∃ d', add_device s v d = (Ok tt, d') ∧
    get_device {| name := service_id_string s; device_id := dev_id v |} d' = (Ok (as_stored v), d').
Proof.
  pose proof (add_device_run d s v x Hwf Hnames Haccount Hnew Hids) as Hrun.
  set (d' := set_table _ _ _ _) in Hrun. exists d'. split; [exact Hrun|].
  pose proof (methods_keep_wf (λ _, true) _ (Db_add_device s v) d Hwf) as Hwf'. cbn [postgres] in Hwf'.
  rewrite Hrun in Hwf'. cbn [snd] in Hwf'.
  assert (names_typed d') as Hn' by (unfold names_typed, d'; by rewrite set_table_ne).
  rewrite get_device_run; [|done|done|unfold no_capabilities, d'; by rewrite set_table_ne].
  rewrite (device_found_intro d' Hwf' Hn' _ _ x (next_id (d Devices), row_of_device v x.1)).
  - by rewrite device_of_row_of_device.
  - unfold account_rows, d'. by rewrite set_table_ne.
  - unfold d'. rewrite set_table_eq. cbn [rows]. apply elem_of_app. right. by left.
  - done.
  - done.
Qed.

Definition second_device : Device :=
  {| dev_id := 2; dev_name := "tablet"; last_seen := 5; created := 4; auth_token := "t2"; salt := "s2";
     registration_id := 70; pni_registration_id := 80; dev_capabilities := [DeviceCapabilityType.Storage] |}.
Definition sample_pg : pg :=
  with_device sample_device 1 (with_account sample_account empty_pg).

Lemma sample_pg_ok :
  add_account sample_account empty_pg = (Ok tt, sample_pg) ∧ pg_wf sample_pg ∧ names_typed sample_pg.
Proof.
  apply (add_account_run (H := demo_bincode) (H0 := demo_service_ids) (H1 := in_order) (λ _, true) empty_pg sample_account sample_device []).
  - apply empty_pg_wf.
  - constructor.
  - apply sample_account_ok.
  - vm_compute. reflexivity.
  - vm_compute. discriminate.
  - vm_compute. discriminate.
Qed.

Lemma added_device_is_read_back_witness :
  ∃ d', add_device (Aci sample_uuid) second_device sample_pg = (Ok tt, d') ∧
    get_device (H1 := in_order) {| name := sample_uuid; device_id := 2 |} d' = (Ok (as_stored second_device), d').
Proof.
  apply (added_device_is_read_back (H0 := demo_service_ids) (H1 := in_order) sample_pg (Aci sample_uuid) second_device
           (1, row_of_account sample_account)).
  - apply sample_pg_ok.
  - apply sample_pg_ok.
  - vm_compute. reflexivity.
  - vm_compute. reflexivity.
  - vm_compute. reflexivity.
  - vm_compute. reflexivity.
  - vm_compute. discriminate.
Defined.

(** C26: of the one-time pre-keys a device uploads, each is handed out exactly
    once, in some order, and the next request finds none. *)
Theorem one_time_keys_are_handed_out_once `{ScanOrder} (d : pg) (a : ProtocolAddress) (x : Z * device_row)
    (ks : list UploadPreKey)
    (Hwf : pg_wf d) (Hnames : names_typed d) (Hdevice : device_found a d = Some x)
    (Hdistinct : NoDup (map key_id ks)) (Hranges : Forall (λ k, in_u32 (key_id k) = true) ks)
    (Hids : next_id (d OneTimeEcPreKeys) + len ks ≤ i32_max + 1) :
  ∃ ks' d', (_ ← store_one_time_ec_pre_keys ks a; take_ec_keys (S (length ks)) a) d
            = (Ok (map Some ks' ++ [None]), d') ∧ ks' ≡ₚ ks.
Proof.
  destruct (store_one_time_ec_run a x ks d Hwf Hnames Hdevice Hdistinct Hranges Hids) as (d1 & Hrun & Hk).
  rewrite (stm_bind_ok _ _ _ _ _ Hrun). by eapply take_ec_keys_run.
Qed.

Lemma one_time_keys_are_handed_out_once_witness :
  let ks := [{| key_id := 4; public_key := [x01] |}; {| key_id := 9; public_key := [x02] |}] in
  ∃ ks' d', (_ ← store_one_time_ec_pre_keys ks sample_address;
             take_ec_keys (H := in_order) 3 sample_address) sample_pg
            = (Ok (map Some ks' ++ [None]), d') ∧ ks' ≡ₚ ks.
Proof.
  intros ks. apply (one_time_keys_are_handed_out_once (H := in_order) sample_pg sample_address
                      (1, row_of_device sample_device 1) ks).
  - apply sample_pg_ok.
  - apply sample_pg_ok.
  - vm_compute. reflexivity.
  - apply (bool_decide_unpack _). vm_compute. reflexivity.
  - repeat constructor.
  - vm_compute. discriminate.
Defined.

(** Deleting an account removes exactly that account, the devices it owns,
    and the messages and one-time keys of those devices. *)
Theorem delete_account_cascades (s : ServiceId) (d : pg) :
  ∃ d', delete_account s d = (Ok tt, d') ∧
    rows (d' Accounts) = filter (λ x, ¬ account_matches (service_id_string s) x) (rows (d Accounts)) ∧
    rows (d' Devices) = filter (λ x, d_owner x.2 ∈ ids row d' Accounts) (rows (d Devices)) ∧
    rows (d' MsqQueue) = filter (λ x, m_receiver x.2 ∈ ids row d' Devices) (rows (d MsqQueue)) ∧
    rows (d' OneTimeEcPreKeys) = filter (λ x, e_owner x.2 ∈ ids row d' Devices) (rows (d OneTimeEcPreKeys)) ∧
    rows (d' OneTimePqPreKeys) = filter (λ x, p_owner x.2 ∈ ids row d' Devices) (rows (d OneTimePqPreKeys)) ∧
    rows (d' UsedDeviceLinkTokens) = rows (d UsedDeviceLinkTokens).
Proof.
  eexists. split; [reflexivity|]. split_and!.
  1: { rewrite (delete_rows row refs depth rank refs_rank rank_depth), set_table_eq. cbn [rows].
       by apply filter_all. }
  all: rewrite delete_account_rows by done.
  5: by apply filter_all.
  all: apply filter_ext_in; intros x _; apply owner_kept.
Qed.

Definition sample_table : message_table :=
  {| receiver := λ a, fst <$> device_found a sample_pg; queues := ∅; row_order := in_order |}.

Lemma sample_view : queue_view (H := demo_bincode) sample_pg sample_table.
Proof.
  split; [apply sample_pg_ok..|done|]. intros i _. cbn. rewrite lookup_empty. constructor.
Qed.

(** The last row first. *)
Program Definition newest_first : ScanOrder := {| scan _ l := rev l |}.
Next Obligation. intros. by rewrite <- Permutation_rev. Qed.

Lemma stored_messages_are_kept_witness :
  let e := {| env_type := None; env_source_service_id := None; env_source_device := Some 3;
              env_destination_service_id := None; env_timestamp := Some 7; env_content := None;
              env_server_guid := Some "g"; env_server_timestamp := None; env_ephemeral := None;
              env_urgent := None; env_updated_pni := None; env_story := None; env_reporting_token := None |} in
  let os := [PushMessages sample_address [e; e]; CountMessages sample_address; GetMessages sample_address;
             DeleteMessages sample_address; CountMessages sample_address] in
  ∃ rs d', pg_messages (H := demo_bincode) (H0 := newest_first) os sample_pg = (Ok rs, d') ∧
        Forall2 same_reply rs (spec_messages os sample_table).1 ∧ queue_view (H := demo_bincode) d' (spec_messages os sample_table).2.
Proof.
  intros e os. apply (stored_messages_are_kept (H := demo_bincode) (H0 := newest_first) os sample_pg sample_table).
  - apply sample_view.
  - vm_compute. discriminate.
Defined.
