(* ===== verification/BundleSpec.v ===== *)
(** What the database promises about signed pre-keys and key bundles: a stored
    bundle is what is read back, and keys that are uploaded later under new ids
    do not change it. *)
From S2P Require Export PostgresSpec.

Local Open Scope Z_scope.

(** The key of a bundle that a store holds. *)
Definition key_in (s : key_store) (b : DevicePreKeyBundle) : UploadSignedPreKey :=
  match s with
  | AciSigned => aci_signed_pre_key b
  | PniSigned => pni_signed_pre_key b
  | AciPqLastResort => aci_pq_pre_key b
  | PniPqLastResort => pni_pq_pre_key b
  end.

Definition bundle_ok (b : DevicePreKeyBundle) : bool :=
  forallb (λ s, in_u32 (signed_key_id (key_in s b))) key_stores.

Lemma bundle_ok_in s b : bundle_ok b = true → in_u32 (signed_key_id (key_in s b)) = true.
Proof. unfold bundle_ok. cbn. rewrite !andb_true_iff. by destruct s; intros (? & ? & ? & ? & _). Qed.

(** The device [x] of address [a] has exactly one bundle. *)
Record has_bundle (a : ProtocolAddress) (x : Z * device_row) (b : DevicePreKeyBundle) (d : pg) : Prop := {
  hb_wf : pg_wf d;
  hb_names : names_typed d;
  hb_found : device_found a d = Some x;
  hb_row : ∃ y, of_devices k_owner [x] (rows (d DeviceKeys)) = [y] ∧
    ∀ s, signed_by_id s (k_keys y.2 s) d = [signed_row_of (key_in s b) x.1];
  hb_ids : bundle_ok b = true;
}.

Section bundles.
Context `{ScanOrder, ServiceIdText}.

Lemma upload_of_row_of k o : in_u32 (signed_key_id k) = true → upload_of_row (signed_row_of k o) = Ok k.
Proof.
  intros Hk. unfold upload_of_row, signed_row_of. cbn [s_key_id s_public_key s_signature].
  rewrite parse_u32_show by done. by destruct k.
Qed.

Lemma get_key_bundle_run a x b d : has_bundle a x b d → get_key_bundle a d = (Ok b, d).
Proof.
  intros [Hwf Hn Hf (y & Hy & Hs) Hids]. unfold get_key_bundle, query.
  rewrite device_at_found, Hf by done. change (option_list (Some x)) with [x].
  cbn [mbind outcome_bind]. rewrite Hy.
  cbn [mbind list_bind]. unfold joined_bundles at 1. rewrite !Hs. cbn [mbind list_bind app].
  rewrite scan_one. cbn [fetch_one head ok_or mbind outcome_bind].
  rewrite !upload_of_row_of by by apply (bundle_ok_in _ b). cbn. by destruct b.
Qed.

(** *** Storing a signed key under a new id *)

Definition add_signed (s : key_store) (k : UploadSignedPreKey) (o : Z) (d : pg) : pg :=
  set_table row (SignedPreKeys s)
    {| next_id := next_id (d (SignedPreKeys s)) + 1;
       rows := rows (d (SignedPreKeys s)) ++ [(next_id (d (SignedPreKeys s)), signed_row_of k o)] |} d.

Definition new_key (s : key_store) (k : UploadSignedPreKey) (o : Z) (d : pg) : Prop :=
  Forall (λ y, s_key_id y.2 ≠ show (signed_key_id k)) (signed_of s o d).

Lemma upsert_new s k o d :
  new_key s k o d → o ∈ ids row d Devices → next_id (d (SignedPreKeys s)) ≤ i32_max →
  upsert_signed s k [o] d = Ok (add_signed s k o d).
Proof.
  intros Hnew Ho Hnext. cbn [upsert_signed]. unfold upsert. cbv beta.
  assert (∀ y, y ∈ rows (d (SignedPreKeys s)) → s_owner y.2 = o → s_key_id y.2 ≠ show (signed_key_id k)) as Hno.
  { intros y Hy Hyo. unfold new_key in Hnew. rewrite Forall_forall in Hnew. apply Hnew.
    by apply list_elem_of_filter. }
  assert (∀ f : Z * row (SignedPreKeys s) → bool,
    (∀ y, f y = true → s_owner y.2 = o ∧ s_key_id y.2 = show (signed_key_id k)) →
    existsb f (rows (d (SignedPreKeys s))) = false) as Hnone.
  { intros f Hf. apply not_true_iff_false. intros (y & Hy%list_elem_of_In & Hc)%existsb_exists.
    destruct (Hf _ Hc) as [H1 H2]. by apply (Hno y Hy). }
  rewrite Hnone by (intros y [H1%bool_decide_eq_true H2%Z.eqb_eq]%andb_true_iff; done).
  unfold Sql.insert. rewrite Hnone by (intros y [H1%Z.eqb_eq H2%bool_decide_eq_true]%andb_true_iff; done).
  unfold refs_ok, ref_ok. cbn [refs forallb fst snd signed_row_of s_owner]. rewrite bool_decide_true by done.
  cbn [negb andb]. by rewrite (proj2 (Z.ltb_ge _ _)).
Qed.

Lemma store_in_run s k a x d :
  pg_wf d → names_typed d → device_found a d = Some x → new_key s k x.1 d →
  next_id (d (SignedPreKeys s)) ≤ i32_max →
  store_in s k a d = (Ok tt, add_signed s k x.1 d) ∧ pg_wf (add_signed s k x.1 d).
Proof.
  intros Hwf Hn Hf Hnew Hnext.
  assert (upsert_signed s k [x.1] d = Ok (add_signed s k x.1 d)) as Hup.
  { apply upsert_new; [done| |done]. by eapply list_elem_of_fmap_2, device_found_in. }
  split; [|by eapply upsert_signed_wf]. apply execute_Ok. by rewrite device_at_found, Hf.
Qed.

Lemma add_signed_ne s k o d r : SignedPreKeys s ≠ r → add_signed s k o d r = d r.
Proof. intros Hr. unfold add_signed. by rewrite set_table_ne. Qed.

Lemma signed_of_add s s' k o d :
  signed_of s' o (add_signed s k o d) =
  signed_of s' o d ++ (if decide (s = s') then [(next_id (d (SignedPreKeys s)), signed_row_of k o)] else []).
Proof.
  unfold signed_of. case_decide as Hs.
  - subst. unfold add_signed. rewrite set_table_eq. cbn [rows]. rewrite filter_app.
    by rewrite filter_cons_True, filter_nil.
  - rewrite add_signed_ne by congruence. by rewrite app_nil_r.
Qed.

Lemma names_add_signed s k o d : names_typed d → names_typed (add_signed s k o d).
Proof. unfold names_typed. by rewrite add_signed_ne. Qed.

Lemma device_found_add s k o d a : device_found a (add_signed s k o d) = device_found a d.
Proof. unfold device_found. by rewrite (device_at_ext d) by by rewrite add_signed_ne. Qed.

(** The next id of a table is no id of a row. *)
Lemma next_id_new (d : pg) r i : pg_wf d → i ∈ ids row d r → i ≠ next_id (d r).
Proof.
  intros Hwf Hi. destruct (Hwf r) as [[_ Hrange _ _] _]. rewrite Forall_forall in Hrange.
  specialize (Hrange _ Hi). cbn in Hrange. lia.
Qed.

Lemma signed_by_id_add s s' k o d i :
  pg_wf d → i ∈ ids row d (SignedPreKeys s') → signed_by_id s' i (add_signed s k o d) = signed_by_id s' i d.
Proof.
  intros Hwf Hi. unfold signed_by_id. destruct (decide (s = s')) as [<-|Hs].
  - unfold add_signed. rewrite set_table_eq. cbn [rows]. rewrite filter_app, filter_cons_False, filter_nil, app_nil_r; [done|].
    cbn. intros Heq. by apply (next_id_new d (SignedPreKeys s) i).
  - by rewrite add_signed_ne by congruence.
Qed.

(** Later keys leave the bundle as it is. *)
Lemma has_bundle_add a x b s k d :
  has_bundle a x b d → pg_wf (add_signed s k x.1 d) → has_bundle a x b (add_signed s k x.1 d).
Proof.
  intros [Hwf Hn Hf (y & Hy & Hs) Hids] Hwf'. split; [done|by apply names_add_signed|by rewrite device_found_add| |done].
  exists y. rewrite add_signed_ne by done. split; [done|]. intros s'. rewrite signed_by_id_add; [apply Hs|done|].
  specialize (Hs s'). unfold signed_by_id in Hs.
  assert (signed_row_of (key_in s' b) x.1 ∈ map snd (filter (λ z, z.1 = k_keys y.2 s') (rows (d (SignedPreKeys s'))))) as Hin
    by (rewrite Hs; by left).
  apply list_elem_of_fmap in Hin as (z & _ & [<- Hz]%list_elem_of_filter). by apply (list_elem_of_fmap_2 fst).
Qed.

(** What a bundle depends on. *)
Definition of_bundle (r : Postgres.relation) : bool :=
  match r with OneTimeEcPreKeys | OneTimePqPreKeys | MsqQueue => false | _ => true end.

Lemma has_bundle_ext a x b d d' :
  has_bundle a x b d → pg_wf d' → (∀ r, of_bundle r = true → rows (d' r) = rows (d r)) → has_bundle a x b d'.
Proof.
  intros [Hwf Hn Hf (y & Hy & Hs) Hids] Hwf' Hr. split; [done| | | |done].
  - unfold names_typed. by rewrite (Hr Accounts).
  - unfold device_found. by rewrite (device_at_ext d) by by apply Hr.
  - exists y. rewrite (Hr DeviceKeys) by done. split; [done|]. intros s.
    rewrite <- Hs. unfold signed_by_id. by rewrite (Hr (SignedPreKeys s)).
Qed.

(** *** Storing a bundle on a device that has no signed keys *)

Record no_keys (a : ProtocolAddress) (x : Z * device_row) (d : pg) : Prop := {
  nk_wf : pg_wf d;
  nk_names : names_typed d;
  nk_found : device_found a d = Some x;
  nk_signed s : signed_of s x.1 d = [];
  nk_row : of_devices k_owner [x] (rows (d DeviceKeys)) = [];
  nk_next s : next_id (d (SignedPreKeys s)) ≤ i32_max;
  nk_next' : next_id (d DeviceKeys) ≤ i32_max;
}.

(** Some of the stores of the bundle [b] are filled. *)
Record filling (d0 : pg) (a : ProtocolAddress) (x : Z * device_row) (b : DevicePreKeyBundle) (done : list key_store)
    (d : pg) : Prop := {
  fi_wf : pg_wf d;
  fi_names : names_typed d;
  fi_found : device_found a d = Some x;
  fi_signed s : signed_of s x.1 d =
    if decide (s ∈ done) then [(next_id (d0 (SignedPreKeys s)), signed_row_of (key_in s b) x.1)] else [];
  fi_next s : next_id (d (SignedPreKeys s)) = next_id (d0 (SignedPreKeys s)) + (if decide (s ∈ done) then 1 else 0);
  fi_same r : (∀ s, r ≠ SignedPreKeys s) → d r = d0 r;
}.

Lemma filling_step d0 a x b done d s :
  no_keys a x d0 → filling d0 a x b done d → s ∉ done →
  ∃ d', store_in s (key_in s b) a d = (Ok tt, d') ∧ filling d0 a x b (s :: done) d'.
Proof.
  intros Hno [Hwf Hn Hf Hs Hnext Hsame] Hnew.
  destruct (store_in_run s (key_in s b) a x d Hwf Hn Hf) as [Hrun Hwf'].
  { unfold new_key. rewrite Hs. rewrite decide_False by done. constructor. }
  { rewrite Hnext, decide_False, Z.add_0_r by done. apply Hno. }
  eexists. split; [exact Hrun|].
  split; [done|by apply names_add_signed|by rewrite device_found_add| | |intros r Hr; rewrite add_signed_ne by congruence; by apply Hsame].
  - intros s'. rewrite signed_of_add, Hs. destruct (decide (s = s')) as [Hs'|Hs'].
    + subst. rewrite decide_False, decide_True by set_solver. pose proof (Hnext s') as Heq. rewrite decide_False, Z.add_0_r in Heq by done.
      cbn [row] in Heq |- *. by rewrite Heq.
    + rewrite app_nil_r. destruct (decide (s' ∈ done)); [rewrite decide_True by set_solver; done|].
      by rewrite decide_False by set_solver.
  - intros s'. destruct (decide (s = s')) as [<-|Hs'].
    + unfold add_signed. rewrite set_table_eq. cbn [next_id]. rewrite Hnext, decide_False, decide_True by set_solver. lia.
    + rewrite add_signed_ne, Hnext by congruence. repeat case_decide; set_solver.
Qed.

Definition bundle_ids (d0 : pg) (s : key_store) : Z := next_id (d0 (SignedPreKeys s)).

Lemma filled_bundle_row d0 a x b done d :
  filling d0 a x b done d → (∀ s, s ∈ done) →
  bundle_rows x.1 d = [{| k_owner := x.1; k_keys := joined_keys (bundle_ids d0 AciSigned) (bundle_ids d0 PniSigned)
    (bundle_ids d0 AciPqLastResort) (bundle_ids d0 PniPqLastResort) |}].
Proof.
  intros Hd Hall. unfold bundle_rows. rewrite !(fi_signed _ _ _ _ _ _ Hd). rewrite !decide_True by done.
  done.
Qed.

Lemma filled_signed_by_id d0 a x b done d s :
  filling d0 a x b done d → s ∈ done → signed_by_id s (bundle_ids d0 s) d = [signed_row_of (key_in s b) x.1].
Proof.
  intros Hd Hs. pose proof (fi_signed _ _ _ _ _ _ Hd s) as Hof. rewrite decide_True in Hof by done.
  assert ((bundle_ids d0 s, signed_row_of (key_in s b) x.1) ∈ rows (d (SignedPreKeys s))) as Hin.
  { assert ((bundle_ids d0 s, signed_row_of (key_in s b) x.1) ∈ signed_of s x.1 d) as Hin by (rewrite Hof; by left).
    by apply list_elem_of_filter in Hin as [_ ?]. }
  unfold signed_by_id. destruct (fi_wf _ _ _ _ _ _ Hd (SignedPreKeys s)) as [[Hnd _ _ _] _].
  by rewrite (filter_key fst _ _ Hnd Hin).
Qed.

Lemma filled_ids d0 a x b done d s :
  filling d0 a x b done d → s ∈ done → bundle_ids d0 s ∈ ids row d (SignedPreKeys s).
Proof.
  intros Hd Hs. pose proof (filled_signed_by_id d0 a x b done d s Hd Hs) as Hby. unfold signed_by_id in Hby.
  assert (signed_row_of (key_in s b) x.1 ∈ [signed_row_of (key_in s b) x.1]) as Hin by (by left).
  rewrite <- Hby in Hin. apply list_elem_of_fmap in Hin as (z & _ & [<- Hz]%list_elem_of_filter).
  by apply (list_elem_of_fmap_2 fst).
Qed.

Lemma store_key_bundle_run a x b d :
  no_keys a x d → bundle_ok b = true →
  ∃ d', store_key_bundle b a d = (Ok tt, d') ∧ has_bundle a x b d' ∧
    (∀ s, signed_of s x.1 d' = [(next_id (d (SignedPreKeys s)), signed_row_of (key_in s b) x.1)] ∧
          next_id (d' (SignedPreKeys s)) = next_id (d (SignedPreKeys s)) + 1) ∧
    (∀ r, r ≠ DeviceKeys → (∀ s, r ≠ SignedPreKeys s) → d' r = d r).
Proof.
  intros Hno Hids. pose proof Hno as [Hwf Hn Hf Hs Hrow Hnext Hnext'].
  assert (filling d a x b [] d) as Hd.
  { split; [done|done|done| | |done]; intros s; rewrite decide_False by set_solver; [done|lia]. }
  destruct (filling_step d a x b _ d AciSigned Hno Hd) as (d1 & Hr1 & Hd1); [set_solver|].
  destruct (filling_step d a x b _ d1 PniSigned Hno Hd1) as (d2 & Hr2 & Hd2); [set_solver|].
  destruct (filling_step d a x b _ d2 AciPqLastResort Hno Hd2) as (d3 & Hr3 & Hd3); [set_solver|].
  destruct (filling_step d a x b _ d3 PniPqLastResort Hno Hd3) as (d4 & Hr4 & Hd4); [set_solver|].
  assert (∀ s, s ∈ [PniPqLastResort; AciPqLastResort; PniSigned; AciSigned]) as Hall by (intros []; set_solver).
  set (y := {| k_owner := x.1; k_keys := joined_keys (bundle_ids d AciSigned) (bundle_ids d PniSigned)
    (bundle_ids d AciPqLastResort) (bundle_ids d PniPqLastResort) |}).
  assert (∀ s, k_keys y s = bundle_ids d s) as Hy by by intros [].
  pose proof Hd4 as [Hwf4 Hn4 Hf4 Hs4 Hnext4 Hsame4]. pose proof (Hsame4 DeviceKeys ltac:(done)) as Hsame.
  pose (d5 := set_table row DeviceKeys {| next_id := next_id (d4 DeviceKeys) + 1;
    rows := rows (d4 DeviceKeys) ++ [(next_id (d4 DeviceKeys), y)] |} d4).
  assert (x.1 ∈ ids row d4 Devices) as Hx by (by eapply (list_elem_of_fmap_2 fst), device_found_in).
  assert (pg_insert DeviceKeys y d4 = Ok d5) as Hins.
  { unfold Sql.insert.
    assert (existsb (λ z, clash DeviceKeys z.2 y) (rows (d4 DeviceKeys)) = false) as ->
      by (by induction (rows (d4 DeviceKeys)) as [|z l IH]).
    assert (refs_ok row refs d4 DeviceKeys y = true) as ->.
    { unfold refs_ok, ref_ok. cbn [refs forallb map key_stores fst snd]. rewrite !Hy.
      rewrite !bool_decide_true by (first [eapply filled_ids; [exact Hd4|apply Hall] | exact Hx]).
      done. }
    cbn [negb]. rewrite (proj2 (Z.ltb_ge _ _)); [done|by rewrite Hsame]. }
  exists d5. split_and!.
  - unfold store_key_bundle, transaction.
    unfold store_aci_signed_pre_key, store_pni_signed_pre_key, store_pq_aci_signed_pre_key, store_pq_pni_signed_pre_key.
    change (aci_signed_pre_key b) with (key_in AciSigned b). change (pni_signed_pre_key b) with (key_in PniSigned b).
    change (aci_pq_pre_key b) with (key_in AciPqLastResort b). change (pni_pq_pre_key b) with (key_in PniPqLastResort b).
    rewrite (stm_bind_ok _ _ _ _ _ Hr1), (stm_bind_ok _ _ _ _ _ Hr2), (stm_bind_ok _ _ _ _ _ Hr3), (stm_bind_ok _ _ _ _ _ Hr4).
    rewrite (execute_Ok _ _ d5); [done|]. rewrite device_at_found, Hf4 by done. change (option_list (Some x)) with [x].
    cbn [mbind outcome_bind list_bind]. rewrite (filled_bundle_row _ _ _ _ _ _ Hd4 Hall), app_nil_r, scan_one.
    by apply insert_select_one.
  - split; [by eapply insert_wf| | | |done].
    + unfold names_typed, d5. by rewrite set_table_ne.
    + unfold device_found, d5. by rewrite (device_at_ext d4) by by rewrite set_table_ne.
    + exists (next_id (d4 DeviceKeys), y). split.
      * unfold d5. rewrite set_table_eq. cbn [rows]. unfold of_devices in *. rewrite filter_app, Hsame, Hrow.
        rewrite filter_cons_True by (cbn; set_solver). by rewrite filter_nil.
      * intros s. cbn [snd]. rewrite Hy. unfold signed_by_id, d5. rewrite set_table_ne by done.
        by apply (filled_signed_by_id d a x b _ d4 s Hd4).
  - intros s. unfold signed_of, d5. rewrite set_table_ne by done. fold (signed_of s x.1 d4). rewrite Hs4, Hnext4.
    by rewrite !decide_True by apply Hall.
  - intros r Hr Hr'. unfold d5. rewrite set_table_ne by done. by apply Hsame4.
Qed.
End bundles.
