(* ===== verification/Api.v ===== *)
(** Handlers over the database that answer with an HTTP status
    ([server/src/error.rs]), the account manager
    ([server/src/managers/account_manager.rs]) and the authentication of a
    request ([server/src/account_authenticator.rs]). *)
From S2P Require Export PostgresSpec Wire.

Local Open Scope Z_scope.

(** ** Definitions *)

Record ApiError := { status_code : Z; error_body : string }.

Definition UNAUTHORIZED : Z := 401.
Definition BAD_REQUEST : Z := 400.
Definition NOT_FOUND : Z := 404.
Definition UNPROCESSABLE_ENTITY : Z := 422.
Definition INTERNAL_SERVER_ERROR : Z := 500.

Definition api_error (code : Z) (body : string) : ApiError := {| status_code := code; error_body := body |}.

(** [async fn .. -> Result<A, ApiError>] over the database: the database's own
    errors are always mapped. *)
Definition api (A : Type) : Type := prog databaseE string (ApiError + A).

Definition api_ret {F A} (a : A) : prog F string (ApiError + A) := Ret (inr a).
Definition api_err {F A} (e : ApiError) : prog F string (ApiError + A) := Ret (inl e).
Definition api_bind {F A B} (f : A → prog F string (ApiError + B)) (m : prog F string (ApiError + A))
    : prog F string (ApiError + B) :=
  prog_bind (λ r, match r with inl e => Ret (inl e) | inr a => f a end) m.
Notation "'let?' x ':=' m 'in' k" := (api_bind (λ x, k) m)
  (at level 10, x name, m at level 100, k at level 200) : denim_scope.
Local Open Scope denim_scope.

Definition api_lift {F A} (o : outcome ApiError A) : prog F string (ApiError + A) :=
  match o with Ok a => api_ret a | Err e => api_err e | Panic w => Crash w end.

(** [.await.map_err(f)?] on a call of the database *)
Definition map_err {A} (f : string → ApiError) (c : databaseE A) : api A :=
  prog_bind (λ r, Ret (match r with inl e => inl (f e) | inr a => inr a end)) (try_ (op c)).

(** *** [AccountManager] *)

(** [database_err.constraint()], read from the error by the database driver;
    [new_aci] and [new_pni] are the two [Uuid::new_v4()]. *)
Definition create_account (constraint : string → option string) (new_aci new_pni : string)
    (phone_number : string) (aci_identity_key pni_identity_key : bytes) (primary_device : Device) : api Account :=
  let account := account_new new_aci new_pni aci_identity_key pni_identity_key primary_device phone_number in
  let? _ := map_err (λ err,
    if bool_decide (constraint err = Some "phone_number")
    then api_error BAD_REQUEST ("Could not create account" +:+ ", phone number already in use")
    else api_error INTERNAL_SERVER_ERROR "Could not create account") (Db_add_account account) in
  api_ret account.

(** *** [SaltedTokenHash] *)

Record SaltedTokenHash := { hash : string; hash_salt : string }.

(** [HKDF_DeriveSecrets(length, ikm, label, salt)] of [hkdf] over SHA-256 —
    [None] when the output is too long — and [hex::encode]. *)
Class Kdf := {
  HKDF_DeriveSecrets : Z → bytes → bytes → bytes → option bytes;
  hex_string : bytes → string;
  HKDF_short n ikm label salt : 0 ≤ n ≤ 255 * 32 → is_Some (HKDF_DeriveSecrets n ikm label salt);
}.

Section authentication.
Context `{Kdf, ServiceIdText}.

Definition calculate (salt token : string) : outcome ApiError string :=
  b ← ok_or (api_error INTERNAL_SERVER_ERROR ("output too long (" +:+ show 32 +:+ ")"))
        (HKDF_DeriveSecrets 32 (as_bytes token) (as_bytes "authtoken") (as_bytes salt));
  Ok (hex_string b).

(** [random] are the 16 bytes of [generate_salt]. *)
Definition generate_for (random : bytes) (credentials : string) : outcome ApiError SaltedTokenHash :=
  let salt := hex_string random in
  token ← calculate salt credentials;
  Ok {| hash := token; hash_salt := salt |}.

Definition verify (self : SaltedTokenHash) (credentials : string) : outcome ApiError bool :=
  their_value ← calculate (hash_salt self) credentials;
  Ok (bool_decide (hash self = their_value)).

Definition authenticate_device (service_id : ServiceId) (device_id : Z) (password : string) : api AuthenticatedDevice :=
  let? account := map_err (λ _, api_error INTERNAL_SERVER_ERROR "Error getting account") (Db_get_account service_id) in
  let? device := api_lift (ok_or (api_error NOT_FOUND "Device not found")
                             (find (λ d, dev_id d =? device_id) (acc_devices account))) in
  let? verified := api_lift (verify {| hash := auth_token device; hash_salt := salt device |} password) in
  if (verified : bool) then api_ret {| ad_account := account; ad_device := device |}
  else api_err (api_error UNAUTHORIZED "Wrong password").

(** The typed header is read by axum: missing, badly formed, or a user name
    and a password. *)
Inductive basic_header := HeaderMissing | HeaderInvalid | Basic (user password : string).

Definition from_request_parts (header : basic_header) : api AuthenticatedDevice :=
  match header with
  | HeaderMissing => api_err (api_error UNAUTHORIZED "Authorization header is missing")
  | HeaderInvalid => api_err (api_error INTERNAL_SERVER_ERROR "Error parsing Authorization header")
  | Basic user password =>
      match split_first "." user with
      | Some (service, device) =>
          let? service_id := api_lift (ok_or (api_error INTERNAL_SERVER_ERROR "Error parsing service id")
                                         (parse_from_service_id_string service)) in
          let? device_id := api_lift (ok_or (api_error INTERNAL_SERVER_ERROR "Error parsing device id")
                                        (parse_u32 device)) in
          authenticate_device service_id device_id password
      | None =>
          let? service_id := api_lift (ok_or (api_error INTERNAL_SERVER_ERROR "Error parsing service id")
                                         (parse_from_service_id_string user)) in
          authenticate_device service_id 1 password
      end
  end.
End authentication.

(** ** Running handlers *)

Section running.
Context {F : Type → Type} {S : Type} (h : handler F string S).

Lemma api_bind_run {A B} (m : prog F string (ApiError + A)) (f : A → prog F string (ApiError + B)) s :
  interp h (api_bind f m) s =
  match interp h m s with
  | (Ok (inr a), s') => interp h (f a) s'
  | (Ok (inl e), s') => (Ok (inl e), s')
  | (Err e, s') => (Err e, s')
  | (Panic w, s') => (Panic w, s')
  end.
Proof.
  unfold api_bind. change (prog_bind ?g ?p) with (p ≫= g). rewrite interp_bind.
  by destruct (interp h m s) as [[[e|a]|e|w] s'].
Qed.

Lemma api_bind_ok {A B} (m : prog F string (ApiError + A)) (f : A → prog F string (ApiError + B)) s a s' :
  interp h m s = (Ok (inr a), s') → interp h (api_bind f m) s = interp h (f a) s'.
Proof. intros Hm. unfold api_bind. change (prog_bind ?g ?p) with (p ≫= g). by rewrite (interp_bind_ok _ _ _ _ _ _ Hm). Qed.

Lemma api_bind_err {A B} (m : prog F string (ApiError + A)) (f : A → prog F string (ApiError + B)) s e s' :
  interp h m s = (Ok (inl e), s') → interp h (api_bind f m) s = (Ok (inl e), s').
Proof. intros Hm. by rewrite api_bind_run, Hm. Qed.

Lemma api_lift_run {A} (o : outcome ApiError A) s :
  interp h (api_lift o) s =
  (match o with Ok a => Ok (inr a) | Err e => Ok (inl e) | Panic w => Panic w end, s).
Proof. by destruct o. Qed.

Lemma api_lift_bind {A B} (o : outcome ApiError A) (f : A → prog F string (ApiError + B)) s :
  interp h (api_bind f (api_lift o)) s =
  match o with
  | Ok a => interp h (f a) s
  | Err e => (Ok (inl e), s)
  | Panic w => (Panic w, s)
  end.
Proof. by destruct o. Qed.
End running.

Section database.
Context {S : Type} (h : handler databaseE string S).

Lemma map_err_run {A} f (c : databaseE A) s :
  interp h (map_err f c) s =
  match h _ c s with
  | (Ok a, s') => (Ok (inr a), s')
  | (Err e, s') => (Ok (inl (f e)), s')
  | (Panic w, s') => (Panic w, s')
  end.
Proof.
  unfold map_err. change (prog_bind ?g ?p) with (p ≫= g). rewrite interp_bind, interp_try, interp_op.
  by destruct (h A c s) as [[a|e|w] s'].
Qed.

Lemma map_err_ok {A} f (c : databaseE A) s a s' :
  h _ c s = (Ok a, s') → interp h (map_err f c) s = (Ok (inr a), s').
Proof. intros Hc. by rewrite map_err_run, Hc. Qed.

End database.

(** ** Authentication *)

Section authentication_facts.
Context `{Kdf}.

Lemma calculate_ok salt token : ∃ t, calculate salt token = Ok t.
Proof.
  unfold calculate. destruct (HKDF_short 32 (as_bytes token) (as_bytes "authtoken") (as_bytes salt)) as [b Hb]; [lia|].
  rewrite Hb. by eexists.
Qed.

Lemma find_one {A} (f : A → bool) x : f x = true → find f [x] = Some x.
Proof. intros Hx. cbn. by rewrite Hx. Qed.
End authentication_facts.

(** The user names that mean a device of an account. *)
Definition names_device (user : string) (s : ServiceId) (id : Z) : Prop :=
  user = address_to_string {| name := service_id_string s; device_id := id |} ∨
  (user = service_id_string s ∧ id = 1).

Lemma service_id_no_dot s : is_uuid (uuid_of s) = true → string_mem "." (service_id_string s) = false.
Proof.
  intros Hu. destruct s as [u|u]; cbn [uuid_of service_id_string] in *; [|rewrite string_mem_app; cbn];
    by apply uuid_free.
Qed.

Section authenticate.
Context `{Bincode, ServiceIdText, ScanOrder, Kdf} (public_key_ok : bytes → bool).

Lemma from_request_parts_device user s id password :
  is_uuid (uuid_of s) = true → in_u32 id = true → names_device user s id →
  ∀ d, interp (postgres public_key_ok) (from_request_parts (Basic user password)) d =
       interp (postgres public_key_ok) (authenticate_device s id password) d.
Proof.
  intros Hs Hid [->|[-> ->]] d; unfold from_request_parts.
  - unfold address_to_string. cbn [name device_id]. rewrite append_cons, append_nil.
    rewrite split_first_app by by apply service_id_no_dot.
    rewrite api_lift_bind, parse_service_id_string by done. cbn [ok_or]. rewrite api_lift_bind.
    by rewrite parse_u32_show.
  - rewrite split_first_free by by apply service_id_no_dot.
    by rewrite api_lift_bind, parse_service_id_string.
Qed.

Lemma authenticate_device_run s id password c v t d :
  postgres public_key_ok _ (Db_get_account s) d = (Ok c, d) →
  find (λ d, dev_id d =? id) (acc_devices c) = Some v → calculate (salt v) password = Ok t →
  interp (postgres public_key_ok) (authenticate_device s id password) d =
  (Ok (if bool_decide (auth_token v = t) then inr {| ad_account := c; ad_device := v |}
       else inl (api_error UNAUTHORIZED "Wrong password")), d).
Proof.
  intros Hget Hv Ht. unfold authenticate_device. rewrite (api_bind_ok _ _ _ d c d) by by apply map_err_ok.
  rewrite api_lift_bind, Hv. cbn [ok_or]. rewrite api_lift_bind. unfold verify. cbn [hash hash_salt].
  rewrite Ht. cbn [mbind outcome_bind]. by case_bool_decide.
Qed.

(** The credentials are those of a device: the user name is the text of a
    service id of its account, alone for device 1 or followed by the device id,
    and the password has the device's salted hash. *)
Definition user_means (user : string) (s : ServiceId) (id : Z) : Prop :=
  match split_first "." user with
  | Some (service, device) => parse_from_service_id_string service = Some s ∧ parse_u32 device = Some id
  | None => parse_from_service_id_string user = Some s ∧ id = 1
  end.
Definition genuine (auth : basic_header) (d : pg) (ad : AuthenticatedDevice) : Prop :=
  ∃ user password s id, auth = Basic user password ∧ user_means user s id ∧
    (Postgres.get_account public_key_ok s d).1 = Ok (ad_account ad) ∧
    find (λ v, dev_id v =? id) (acc_devices (ad_account ad)) = Some (ad_device ad) ∧
    calculate (salt (ad_device ad)) password = Ok (auth_token (ad_device ad)).

Lemma authenticate_device_genuine s id password d ad :
  (interp (postgres public_key_ok) (authenticate_device s id password) d).1 = Ok (inr ad) ↔
  (Postgres.get_account public_key_ok s d).1 = Ok (ad_account ad) ∧
  find (λ v, dev_id v =? id) (acc_devices (ad_account ad)) = Some (ad_device ad) ∧
  calculate (salt (ad_device ad)) password = Ok (auth_token (ad_device ad)).
Proof.
  unfold authenticate_device. rewrite api_bind_run, map_err_run. cbn [postgres].
  destruct (Postgres.get_account public_key_ok s d) as [[c|e|e] d']; cbn [fst]; [|naive_solver..].
  rewrite api_lift_bind. destruct (find _ (acc_devices c)) as [v|] eqn:Hv; cbn [ok_or].
  2: { split; [done|]. intros ([= ->] & Hfind & _). congruence. }
  rewrite api_lift_bind. unfold verify. cbn [hash hash_salt].
  destruct (calculate_ok (salt v) password) as [t Ht]. rewrite Ht. cbn [mbind outcome_bind].
  case_bool_decide as Heq; cbn [interp fst api_ret api_err]; split.
  - intros [= <-]. cbn [ad_account ad_device]. by rewrite Heq.
  - destruct ad as [c' v']; cbn [ad_account ad_device]. intros ([= ->] & Hfind & _). congruence.
  - done.
  - destruct ad as [c' v']; cbn [ad_account ad_device]. intros ([= ->] & Hfind & Hc). congruence.
Qed.

Lemma from_request_parts_genuine auth d ad :
  (interp (postgres public_key_ok) (from_request_parts auth) d).1 = Ok (inr ad) ↔ genuine auth d ad.
Proof.
  unfold genuine. destruct auth as [| |user password]; [split; [done|naive_solver]..|].
  transitivity (∃ s id, user_means user s id ∧ (interp (postgres public_key_ok) (authenticate_device s id password) d).1 = Ok (inr ad)).
  - unfold from_request_parts, user_means. destruct (split_first "." user) as [[service device]|].
    + rewrite api_lift_bind. destruct (parse_from_service_id_string service) as [s|]; cbn [ok_or]; [|naive_solver].
      rewrite api_lift_bind. destruct (parse_u32 device) as [i|]; cbn [ok_or]; naive_solver.
    + rewrite api_lift_bind. destruct (parse_from_service_id_string user) as [s|]; cbn [ok_or]; naive_solver.
  - setoid_rewrite authenticate_device_genuine. naive_solver.
Qed.
End authenticate.

(** The account whose device was registered with a salted hash of a
    password is authenticated by that password — under its ACI or its PNI, with
    the device id in the user name, or without it for device 1 — and by no
    password with another hash, which gets 401. *)
Theorem password_authenticates `{Bincode, ServiceIdText, ScanOrder, Kdf} (public_key_ok : bytes → bool)
    (d : pg) (c : Account) (v : Device) (vs : list Device) (s : ServiceId) (random : bytes) (password user : string)
    (Hwf : pg_wf d) (Hnames : names_typed d) (Hcaps : no_capabilities d)
    (Hok : account_ok public_key_ok c v vs) (Hnew : account_new_in c d = true)
    (Hids : next_id (d Accounts) ≤ i32_max ∧ next_id (d Devices) ≤ i32_max)
    (Hs : s = Aci (aci c) ∨ s = Pni (pni c)) (Huser : names_device user s (dev_id v))
    (Hhash : generate_for random password = Ok {| hash := auth_token v; hash_salt := salt v |}) :
  ∃ d' c', add_account c d = (Ok tt, d') ∧ aci c' = aci c ∧ acc_devices c' = [as_stored v] ∧
    interp (postgres public_key_ok) (from_request_parts (Basic user password)) d' =
      (Ok (inr {| ad_account := c'; ad_device := as_stored v |}), d') ∧
    ∀ other t, calculate (salt v) other = Ok t → t ≠ auth_token v →
      interp (postgres public_key_ok) (from_request_parts (Basic user other)) d' =
        (Ok (inl (api_error UNAUTHORIZED "Wrong password")), d').
Proof.
  destruct Hids as [Hna Hnd].
  destruct (add_account_run public_key_ok d c v vs Hwf Hnames Hok Hnew Hna Hnd) as (Hrun & _ & _).
  pose proof (get_account_after_add public_key_ok d c v vs s Hwf Hnames Hcaps Hok Hnew Hna Hnd Hs) as Hget.
  destruct Hok as [Ha Hp _ _ Hv Hdev].
  unfold device_ok in Hdev. apply andb_true_iff in Hdev as [[Hid _]%andb_true_iff _].
  assert (is_uuid (uuid_of s) = true) as Huuid by (by destruct Hs as [-> | ->]).
  assert (calculate (salt v) password = Ok (auth_token v)) as Hcalc.
  { unfold generate_for in Hhash. destruct (calculate (hex_string random) password) as [t| |] eqn:Ht; try done.
    cbn in Hhash. injection Hhash as <- <-. done. }
  cbv zeta in Hget.
  set (d' := with_device v (next_id (d Accounts)) (with_account c d)) in *.
  set (c' := {| aci := aci c; pni := _; aci_identity_key := _; pni_identity_key := _; acc_devices := _; phone_number := _ |}) in *.
  assert (find (λ d, dev_id d =? dev_id v) (acc_devices c') = Some (as_stored v)) as Hfind
    by (apply find_one; cbn; apply Z.eqb_refl).
  exists d', c'. split_and!; [done|done|done| |].
  - rewrite (from_request_parts_device public_key_ok user s (dev_id v)) by done.
    rewrite (authenticate_device_run public_key_ok s _ _ c' (as_stored v) (auth_token v)) by done.
    by rewrite bool_decide_true.
  - intros other t Ht Hne. rewrite (from_request_parts_device public_key_ok user s (dev_id v)) by done.
    rewrite (authenticate_device_run public_key_ok s _ _ c' (as_stored v) t) by done.
    by rewrite bool_decide_false by (cbn; congruence).
Qed.

(** A key derivation that keeps the promise, and an account registered with
    it. *)
Definition demo_kdf : Kdf := {|
  HKDF_DeriveSecrets _ ikm label salt := Some (ikm ++ label ++ salt);
  hex_string := hex_encode;
  HKDF_short _ ikm label salt _ := ex_intro _ (ikm ++ label ++ salt) eq_refl;
|}.
Definition demo_hash : SaltedTokenHash :=
  match generate_for (H := demo_kdf) [x01; x02] "pw" with Ok t => t | _ => {| hash := ""; hash_salt := "" |} end.
Definition registered_device : Device :=
  {| dev_id := 1; dev_name := "phone"; last_seen := 0; created := 0; auth_token := hash demo_hash;
     salt := hash_salt demo_hash; registration_id := 7; pni_registration_id := 8; dev_capabilities := [] |}.
Definition registered_account : Account :=
  {| aci := sample_uuid; pni := pni sample_account; aci_identity_key := [x05]; pni_identity_key := [x06];
     acc_devices := [registered_device]; phone_number := "+4512345678" |}.

Lemma password_authenticates_witness :
  ∃ d', add_account registered_account empty_pg = (Ok tt, d') ∧
    (interp (postgres (H := demo_bincode) (H0 := demo_service_ids) (H1 := in_order) (λ _, true))
       (from_request_parts (H := demo_kdf) (H0 := demo_service_ids) (Basic (sample_uuid +:+ ".1") "wp")) d').1 =
      Ok (inl (api_error UNAUTHORIZED "Wrong password")).
Proof.
  destruct (password_authenticates (H := demo_bincode) (H0 := demo_service_ids) (H1 := in_order) (H2 := demo_kdf)
    (λ _, true) empty_pg registered_account registered_device [] (Aci sample_uuid) [x01; x02] "pw" (sample_uuid +:+ ".1"))
    as (d' & c' & Hadd & _ & _ & _ & Hother).
  - apply empty_pg_wf.
  - constructor.
  - vm_compute. reflexivity.
  - by split.
  - vm_compute. reflexivity.
  - vm_compute. split; discriminate.
  - left. reflexivity.
  - left. vm_compute. reflexivity.
  - vm_compute. reflexivity.
  - exists d'. split; [exact Hadd|].
    rewrite (Hother "wp" _ eq_refl); [reflexivity|]. vm_compute. discriminate.
Defined.
