(* ===== verification/KeyManager.v ===== *)
(** Uploading and fetching pre-keys ([server/src/managers/key_manager.rs]). *)
From S2P Require Export Api BundleSpec.

Local Open Scope Z_scope.
Local Open Scope denim_scope.

(** ** Definitions *)

(** What libsignal and SHA-256 compute: whether a public key was signed by an
    identity key ([None] when the key cannot be read), the bytes of an identity
    key's public part, and a digest. *)
Class Signatures := {
  verify_signature : bytes → bytes → bytes → option bool;
  public_key_bytes : bytes → option bytes;
  sha256 : bytes → bytes;
}.

(** [u32::to_be_bytes] *)
Definition byte_of (z : Z) : byte := default x00 (Byte.of_N (Z.to_N (z mod 256))).
Definition to_be_bytes (z : Z) : bytes := map byte_of [z / 2 ^ 24; z / 2 ^ 16; z / 2 ^ 8; z].

Section key_manager.
Context `{Signatures, ServiceIdText}.

Definition identity_key (auth_device : AuthenticatedDevice) (kind : ServiceIdKind) : bytes :=
  match kind with
  | KindAci => aci_identity_key (ad_account auth_device)
  | KindPni => pni_identity_key (ad_account auth_device)
  end.

(** The closure [verify_key]; [.unwrap()] panics on a key that cannot be
    read. *)
Definition verify_key (identity_key : bytes) (prekey : UploadSignedPreKey) : outcome ApiError unit :=
  valid ← expect "called `Result::unwrap()` on an `Err` value"
            (verify_signature identity_key (signed_public_key prekey) (signature prekey));
  if (valid : bool) then Ok tt else Err (api_error UNPROCESSABLE_ENTITY "Invalid signature").

(** [option.map(verify).transpose()?] *)
Definition verify_opt {A} (f : A → outcome ApiError unit) (o : option A) : outcome ApiError unit :=
  match o with Some x => f x | None => Ok tt end.
Definition verify_all (identity_key : bytes) (keys : list UploadSignedPreKey) : outcome ApiError unit :=
  _ ← collect (verify_key identity_key) keys; Ok tt.

Definition verify_bundle (identity_key : bytes) (bundle : SetKeyRequest) : outcome ApiError unit :=
  _ ← verify_opt (verify_key identity_key) (set_signed_pre_key bundle);
  _ ← verify_opt (verify_key identity_key) (set_pq_last_resort_pre_key bundle);
  verify_opt (verify_all identity_key) (set_pq_pre_key bundle).

Definition database_fault (_ : string) : ApiError := api_error INTERNAL_SERVER_ERROR "Database fault".

(** [if let Some(x) = option { .. }] *)
Definition when_some {A} (o : option A) (f : A → api unit) : api unit :=
  match o with Some x => f x | None => api_ret tt end.

Definition handle_put_keys (auth_device : AuthenticatedDevice) (bundle : SetKeyRequest) (kind : ServiceIdKind) : api unit :=
  let address := authenticated_address auth_device kind in
  let? _ := api_lift (verify_bundle (identity_key auth_device kind) bundle) in
  let? _ := when_some (set_pre_key bundle) (λ prekeys,
    map_err database_fault (Db_store_one_time_ec_pre_keys prekeys address)) in
  let? _ := when_some (set_signed_pre_key bundle) (λ prekey,
    map_err database_fault (Db_store_signed_pre_key prekey address)) in
  let? _ := when_some (set_pq_pre_key bundle) (λ prekeys,
    map_err database_fault (Db_store_one_time_pq_pre_keys prekeys address)) in
  when_some (set_pq_last_resort_pre_key bundle) (λ prekey,
    map_err database_fault (Db_store_pq_signed_pre_key prekey address)).

Definition get_key (service_id : ServiceId) (address : ProtocolAddress) (registration_id : Z) : api PreKeyResponseItem :=
  let? bundle := map_err (λ err, api_error INTERNAL_SERVER_ERROR ("Could not fetch user key bundle: " +:+ err))
                   (Db_get_key_bundle address) in
  let '(pq_pre_key, signed_pre_key) :=
    match service_id with
    | Aci _ => (aci_pq_pre_key bundle, aci_signed_pre_key bundle)
    | Pni _ => (pni_pq_pre_key bundle, pni_signed_pre_key bundle)
    end in
  let? prekey := map_err (λ _, api_error INTERNAL_SERVER_ERROR "Could not fetch user pre key")
                   (Db_get_one_time_ec_pre_key address) in
  api_ret {| item_device_id := device_id address; item_registration_id := registration_id;
             item_pre_key := prekey; item_pq_pre_key := pq_pre_key; item_signed_pre_key := signed_pre_key |}.

(** The loop over the devices; an error loses the keys already taken. *)
Fixpoint get_keys (target_service_id : ServiceId) (devices : list Device) : api (list PreKeyResponseItem) :=
  match devices with
  | [] => api_ret []
  | device :: devices =>
      let? key := get_key target_service_id
        {| name := service_id_string target_service_id; device_id := dev_id device |} (registration_id device) in
      let? keys := get_keys target_service_id devices in
      api_ret (key :: keys)
  end.

Definition target_devices (target_service_id : ServiceId) (target_device_id : string) : api (list Device) :=
  match parse_u32 target_device_id with
  | Some id =>
      let? device := map_err (λ _, api_error NOT_FOUND ("Device id does not exist: " +:+ show id))
        (Db_get_device {| name := service_id_string target_service_id; device_id := id |}) in
      api_ret [device]
  | None =>
      if bool_decide (target_device_id = "*") then
        map_err (λ _, api_error INTERNAL_SERVER_ERROR "Could not get all targets devices")
          (Db_get_all_devices target_service_id)
      else api_err (api_error UNPROCESSABLE_ENTITY "Target device id is not a u32 or '*'")
  end.

Definition handle_get_keys_id_device_id (auth_device : AuthenticatedDevice) (target_service_id : ServiceId)
    (target_device_id : string) : api PreKeyResponse :=
  let? _ := map_err (λ _, api_error UNAUTHORIZED "") (Db_get_account (Aci (aci (ad_account auth_device)))) in
  let? target_account := map_err (λ _, api_error NOT_FOUND
      ("Could not find account for service id: " +:+ service_id_string target_service_id))
    (Db_get_account target_service_id) in
  let? devices := target_devices target_service_id target_device_id in
  let? keys := get_keys target_service_id devices in
  api_ret {| response_service_id := service_id_string target_service_id;
             response_identity_key := match target_service_id with
                                      | Aci _ => aci_identity_key target_account
                                      | Pni _ => pni_identity_key target_account
                                      end;
             devices := keys |}.

Definition keycheck_digest (identity : bytes) (signed last_resort : UploadSignedPreKey) : bytes :=
  sha256 (identity ++ to_be_bytes (signed_key_id signed) ++ signed_public_key signed ++
          to_be_bytes (signed_key_id last_resort) ++ signed_public_key last_resort).

Definition handle_post_keycheck (auth_device : AuthenticatedDevice) (kind : ServiceIdKind) (usr_digest : bytes) : api bool :=
  let address := authenticated_address auth_device kind in
  let? bundle := map_err (λ _, api_error INTERNAL_SERVER_ERROR "Could not fetch user key bundle")
                   (Db_get_key_bundle address) in
  let? identity := api_lift (ok_or (api_error INTERNAL_SERVER_ERROR "Could not convert key to bytes")
                               (public_key_bytes (identity_key auth_device kind))) in
  let server_digest :=
    match kind with
    | KindAci => keycheck_digest identity (aci_signed_pre_key bundle) (aci_pq_pre_key bundle)
    | KindPni => keycheck_digest identity (pni_signed_pre_key bundle) (pni_pq_pre_key bundle)
    end in
  api_ret (bool_decide (server_digest = usr_digest)).

Definition get_one_time_pre_key_count (service_id : ServiceId) : prog databaseE string (Z * Z) :=
  ec ← op (Db_get_one_time_ec_pre_key_count service_id);
  pq ← op (Db_get_one_time_pq_pre_key_count service_id);
  Ret (ec, pq).
End key_manager.

(** ** Signatures are checked first *)

Definition signed_keys (bundle : SetKeyRequest) : list UploadSignedPreKey :=
  option_list (set_signed_pre_key bundle) ++ option_list (set_pq_last_resort_pre_key bundle)
  ++ default [] (set_pq_pre_key bundle).

Section verification.
Context `{Signatures}.

Definition key_valid (identity : bytes) (k : UploadSignedPreKey) : bool :=
  match verify_signature identity (signed_public_key k) (signature k) with Some b => b | None => false end.
Definition key_readable (identity : bytes) (k : UploadSignedPreKey) : bool :=
  match verify_signature identity (signed_public_key k) (signature k) with Some _ => true | None => false end.

Lemma verify_key_valid identity k :
  key_readable identity k = true →
  verify_key identity k =
  if key_valid identity k then Ok tt else Err (api_error UNPROCESSABLE_ENTITY "Invalid signature").
Proof. unfold key_readable, verify_key, key_valid. by destruct (verify_signature _ _ _). Qed.

Lemma verify_all_valid identity ks :
  forallb (key_readable identity) ks = true →
  verify_all identity ks =
  if forallb (key_valid identity) ks then Ok tt else Err (api_error UNPROCESSABLE_ENTITY "Invalid signature").
Proof.
  unfold verify_all. induction ks as [|k ks IH]; [done|]. cbn [forallb collect].
  intros [Hk Hks]%andb_true_iff. rewrite (verify_key_valid identity k Hk). specialize (IH Hks).
  destruct (key_valid identity k); [|done]. cbn [mbind outcome_bind andb].
  by destruct (collect (verify_key identity) ks), (forallb (key_valid identity) ks).
Qed.

Lemma verify_bundle_valid identity bundle :
  forallb (key_readable identity) (signed_keys bundle) = true →
  verify_bundle identity bundle =
  if forallb (key_valid identity) (signed_keys bundle) then Ok tt
  else Err (api_error UNPROCESSABLE_ENTITY "Invalid signature").
Proof.
  unfold signed_keys, verify_bundle. rewrite !forallb_app, !andb_true_iff.
  destruct bundle as [ks [k|] [pqs|] [l|]]; cbn; rewrite ?andb_true_r; intros Hr;
    repeat match goal with
    | |- context [verify_all _ _] => rewrite verify_all_valid by apply Hr
    | |- context [verify_key ?i ?x] => rewrite (verify_key_valid i x) by apply Hr; destruct (key_valid i x); cbn
    end; done.
Qed.
End verification.

(** ** What handing out a key leaves alone *)

Section frame.
Context `{ScanOrder}.

Lemma get_one_time_ec_keeps r R a :
  r ≠ OneTimeEcPreKeys → keeps (λ d, pg_wf d ∧ rows (d r) = R) (get_one_time_ec_pre_key a).
Proof.
  intros Hr. each_statement ltac:(idtac).
  lazymatch goal with H : pg_wf _ ∧ _ |- _ => destruct H as [Hwf HR] end.
  split; [by apply pg_delete_wf|]. by rewrite delete_ec, set_table_ne.
Qed.

Lemma store_one_time_ec_keeps r R ks a :
  r ≠ OneTimeEcPreKeys → keeps (λ d, pg_wf d ∧ rows (d r) = R) (store_one_time_ec_pre_keys ks a).
Proof.
  intros Hr. each_statement ltac:(idtac);
    lazymatch goal with H : pg_wf _ ∧ _ |- _ => destruct H as [Hwf HR] end.
  - split; [by apply pg_delete_wf|]. by rewrite delete_ec, set_table_ne.
  - split; [by eapply insert_select_wf|]. rewrite <- HR. by eapply rows_of_insert_select.
Qed.

Lemma store_one_time_ec_keeps_bundle a x b ks c d :
  has_bundle a x b d → has_bundle a x b (store_one_time_ec_pre_keys ks c d).2.
Proof.
  intros Hb. pose proof (hb_wf _ _ _ _ Hb) as Hwf. apply (has_bundle_ext a x b d); [done| |].
  - by apply (store_one_time_ec_keeps Accounts (rows (d Accounts)) ks c).
  - intros r Hr. apply (store_one_time_ec_keeps r (rows (d r)) ks c); [by intros ->|done].
Qed.

Lemma get_one_time_ec_keeps_bundle a x b c d :
  has_bundle a x b d → has_bundle a x b (get_one_time_ec_pre_key c d).2.
Proof.
  intros Hb. pose proof (hb_wf _ _ _ _ Hb) as Hwf. apply (has_bundle_ext a x b d); [done| |].
  - by apply (get_one_time_ec_keeps Accounts (rows (d Accounts)) c).
  - intros r Hr. apply (get_one_time_ec_keeps r (rows (d r)) c); [by intros ->|done].
Qed.
End frame.

(** ** Running the handlers *)

(** The keys a bundle holds for an identity. *)
Definition signed_for (s : ServiceId) (b : DevicePreKeyBundle) : UploadSignedPreKey :=
  match s with Aci _ => aci_signed_pre_key b | Pni _ => pni_signed_pre_key b end.
Definition last_resort_for (s : ServiceId) (b : DevicePreKeyBundle) : UploadSignedPreKey :=
  match s with Aci _ => aci_pq_pre_key b | Pni _ => pni_pq_pre_key b end.

(** One of the keys [ks] is handed out, [ks'] are left. *)
Definition handed_out (key : option UploadPreKey) (ks ks' : list UploadPreKey) : Prop :=
  match key with Some k => ks ≡ₚ k :: ks' | None => ks = [] ∧ ks' = [] end.

Section run.
Context `{Bincode, ServiceIdText, ScanOrder, Signatures} (public_key_ok : bytes → bool).
Abbreviation db := (postgres public_key_ok).

Lemma get_key_run s a x b ks registration d :
  has_bundle a x b d → ec_keys a x ks d →
  ∃ key ks' d', interp db (get_key s a registration) d =
      (Ok (inr {| item_device_id := device_id a; item_registration_id := registration; item_pre_key := key;
                  item_pq_pre_key := last_resort_for s b; item_signed_pre_key := signed_for s b |}), d') ∧
    handed_out key ks ks' ∧ has_bundle a x b d' ∧ ec_keys a x ks' d' ∧
    rows (d' OneTimePqPreKeys) = rows (d OneTimePqPreKeys).
Proof.
  intros Hb Hk.
  assert (∃ key ks' d', get_one_time_ec_pre_key a d = (Ok key, d') ∧ handed_out key ks ks' ∧ ec_keys a x ks' d')
    as (key & ks' & d' & Hrun & Hh & Hk').
  { pose proof (get_one_time_ec_run a x ks d Hk) as Hget. destruct ks as [|k0 ks0].
    - destruct Hget as (d' & Hrun & Hk'). by exists None, [], d'.
    - destruct Hget as (k & ks' & d' & Hrun & Hp & Hk'). by exists (Some k), ks', d'. }
  exists key, ks', d'. split_and!; [|done| |done|].
  - unfold get_key. rewrite (api_bind_ok _ _ _ d b d) by by apply map_err_ok, (get_key_bundle_run a x).
    destruct s; (rewrite (api_bind_ok _ _ _ d key d') by by apply map_err_ok); done.
  - pose proof (get_one_time_ec_keeps_bundle a x b a d Hb) as Hb'. by rewrite Hrun in Hb'.
  - pose proof (get_one_time_ec_keeps OneTimePqPreKeys (rows (d OneTimePqPreKeys)) a ltac:(done) d) as Hpq.
    rewrite Hrun in Hpq. apply Hpq. split; [by eapply hb_wf|done].
Qed.

(** A stored row's device id is the one of the address. *)
Lemma device_of_row_id a x d cs v :
  pg_wf d → names_typed d → device_found a d = Some x → in_u32 (device_id a) = true →
  device_of_row cs x = Ok v → dev_id v = device_id a.
Proof.
  intros Hwf Hn Hf Hid Hv. pose proof (device_at_found d Hwf Hn a) as Hat. rewrite Hf in Hat.
  assert (d_device_id x.2 = show (device_id a)) as Hx.
  { unfold device_at in Hat. destruct (devices_of (name a) d) as [l| |]; try done. cbn in Hat. injection Hat as Hat.
    assert (x ∈ [x]) as Hin by by left. rewrite <- Hat in Hin. by apply list_elem_of_filter in Hin as [? _]. }
  unfold device_of_row in Hv. rewrite Hx, parse_u32_show in Hv by done. cbn in Hv. split_binds. by simplify_eq.
Qed.

Lemma handle_put_signed_run ad kind k l d d' d'' :
  let address := authenticated_address ad kind in
  key_valid (identity_key ad kind) k = true → key_valid (identity_key ad kind) l = true →
  store_signed_pre_key k address d = (Ok tt, d') → store_pq_signed_pre_key l address d' = (Ok tt, d'') →
  interp db (handle_put_keys ad {| set_pre_key := None; set_signed_pre_key := Some k; set_pq_pre_key := None;
                                   set_pq_last_resort_pre_key := Some l |} kind) d = (Ok (inr tt), d'').
Proof.
  intros address Hk Hl Hrun Hrun'. unfold handle_put_keys. rewrite api_lift_bind, verify_bundle_valid.
  2:{ cbn. unfold key_valid, key_readable in *. by destruct (verify_signature _ (signed_public_key k) _),
        (verify_signature _ (signed_public_key l) _). }
  change (signed_keys _) with [k; l]. cbn [forallb]. rewrite Hk, Hl.
  cbn [andb set_signed_pre_key set_pq_last_resort_pre_key set_pq_pre_key set_pre_key when_some].
  rewrite (api_bind_ok _ _ _ d tt d) by done.
  rewrite (api_bind_ok _ _ _ d tt d') by by apply map_err_ok.
  rewrite (api_bind_ok _ _ _ d' tt d') by done. by apply map_err_ok.
Qed.
End run.

(** The stores of an identity. *)
Definition signed_store (kind : ServiceIdKind) : key_store :=
  match kind with KindAci => AciSigned | KindPni => PniSigned end.
Definition last_resort_store (kind : ServiceIdKind) : key_store :=
  match kind with KindAci => AciPqLastResort | KindPni => PniPqLastResort end.

Section store_signed.
Context `{ServiceIdText, ScanOrder}.

Lemma store_signed_run ad kind k x d :
  let a := authenticated_address ad kind in
  is_uuid (aci (ad_account ad)) = true → is_uuid (pni (ad_account ad)) = true →
  pg_wf d → names_typed d → device_found a d = Some x → next_id (d (SignedPreKeys (signed_store kind))) ≤ i32_max →
  new_key (signed_store kind) k x.1 d →
  store_signed_pre_key k a d = (Ok tt, add_signed (signed_store kind) k x.1 d) ∧
  pg_wf (add_signed (signed_store kind) k x.1 d).
Proof.
  intros a Ha Hp Hwf Hn Hf Hnext Hnew. destruct (store_in_run (signed_store kind) k a x d Hwf Hn Hf Hnew Hnext) as [Hrun Hwf'].
  split; [|done]. unfold store_signed_pre_key, a in *.
  destruct kind; cbn [authenticated_address name] in *;
    rewrite parse_service_id_string by done; by rewrite (stm_bind_ok _ _ d _ d) by done.
Qed.

Lemma store_last_resort_run ad kind k x d :
  let a := authenticated_address ad kind in
  is_uuid (aci (ad_account ad)) = true → is_uuid (pni (ad_account ad)) = true →
  pg_wf d → names_typed d → device_found a d = Some x → next_id (d (SignedPreKeys (last_resort_store kind))) ≤ i32_max →
  new_key (last_resort_store kind) k x.1 d →
  store_pq_signed_pre_key k a d = (Ok tt, add_signed (last_resort_store kind) k x.1 d) ∧
  pg_wf (add_signed (last_resort_store kind) k x.1 d).
Proof.
  intros a Ha Hp Hwf Hn Hf Hnext Hnew.
  destruct (store_in_run (last_resort_store kind) k a x d Hwf Hn Hf Hnew Hnext) as [Hrun Hwf'].
  split; [|done]. unfold store_pq_signed_pre_key, a in *.
  destruct kind; cbn [authenticated_address name] in *;
    rewrite parse_service_id_string by done; by rewrite (stm_bind_ok _ _ d _ d) by done.
Qed.
End store_signed.

(** ** Properties *)

(** C34: keys with a bad signature are refused before anything is stored: when
    one of the signed keys of an upload was not signed by the identity key, the
    answer is 422 and no call to the database was made, whichever database it
    is. *)
Theorem bad_signature_stores_nothing `{Signatures} {S : Type} (h : handler databaseE string S) (s : S)
    (ad : AuthenticatedDevice) (bundle : SetKeyRequest) (kind : ServiceIdKind)
    (Hread : forallb (key_readable (identity_key ad kind)) (signed_keys bundle) = true)
    (Hbad : forallb (key_valid (identity_key ad kind)) (signed_keys bundle) = false) :
  interp h (handle_put_keys ad bundle kind) s = (Ok (inl (api_error UNPROCESSABLE_ENTITY "Invalid signature")), s).
Proof. unfold handle_put_keys. by rewrite api_lift_bind, verify_bundle_valid, Hbad. Qed.

(** C33: fetching the keys of a device answers with its identity key, its
    registration id, its signed and last-resort keys, and one one-time key that
    is then gone; when there is none left, without one.  The one-time
    post-quantum keys are never handed out. *)
Theorem keys_are_handed_out `{Bincode, ServiceIdText, ScanOrder, Signatures} (public_key_ok : bytes → bool)
    (d : pg) (ad : AuthenticatedDevice) (s : ServiceId) (id : Z) (requester target : Account)
    (x : Z * device_row) (v : Device) (b : DevicePreKeyBundle) (ks : list UploadPreKey)
    (Hid : in_u32 id = true) (Hcaps : no_capabilities d)
    (Hrequester : get_account public_key_ok (Aci (aci (ad_account ad))) d = (Ok requester, d))
    (Htarget : get_account public_key_ok s d = (Ok target, d))
    (Hb : has_bundle {| name := service_id_string s; device_id := id |} x b d)
    (Hk : ec_keys {| name := service_id_string s; device_id := id |} x ks d)
    (Hv : device_of_row [] x = Ok v) :
  ∃ key ks' d', interp (postgres public_key_ok) (handle_get_keys_id_device_id ad s (show id)) d =
      (Ok (inr {| response_service_id := service_id_string s;
                  response_identity_key := match s with Aci _ => aci_identity_key target | Pni _ => pni_identity_key target end;
                  devices := [{| item_device_id := id; item_registration_id := registration_id v;
                                 item_pre_key := key; item_pq_pre_key := last_resort_for s b;
                                 item_signed_pre_key := signed_for s b |}] |}), d') ∧
    handed_out key ks ks' ∧ has_bundle {| name := service_id_string s; device_id := id |} x b d' ∧
    ec_keys {| name := service_id_string s; device_id := id |} x ks' d' ∧
    rows (d' OneTimePqPreKeys) = rows (d OneTimePqPreKeys).
Proof.
  set (a := {| name := service_id_string s; device_id := id |}) in *.
  pose proof Hb as [Hwf Hn Hf _ _].
  pose proof (device_of_row_id a x d [] v Hwf Hn Hf Hid Hv) as Hvid.
  destruct (get_key_run public_key_ok s a x b ks (registration_id v) d Hb Hk) as (key & ks' & d' & Hrun & Hh & Hb' & Hk' & Hpq).
  exists key, ks', d'. split_and!; try done. unfold handle_get_keys_id_device_id.
  rewrite (api_bind_ok _ _ _ d requester d) by by apply map_err_ok.
  rewrite (api_bind_ok _ _ _ d target d) by by apply map_err_ok.
  rewrite (api_bind_ok _ _ _ d [v] d).
  2:{ unfold target_devices. rewrite parse_u32_show by done. rewrite (api_bind_ok _ _ _ d v d); [done|].
      apply map_err_ok. cbn [postgres]. fold a. by rewrite (get_device_run d a Hwf Hn Hcaps), Hf, Hv. }
  cbn [get_keys]. rewrite Hvid. fold a. cbn [device_id a].
  rewrite (api_bind_ok _ _ _ d [{| item_device_id := id; item_registration_id := registration_id v; item_pre_key := key;
    item_pq_pre_key := last_resort_for s b; item_signed_pre_key := signed_for s b |}] d').
  - by destruct s.
  - by rewrite (api_bind_ok _ _ _ _ _ _ Hrun).
Qed.

(** A signed or last-resort key that is uploaded later, under a new id, is
    accepted and stored and yet never handed out: the bundle of the device
    stays the one of its registration. *)
Theorem rotated_keys_are_not_handed_out `{Bincode, ServiceIdText, ScanOrder, Signatures} (public_key_ok : bytes → bool)
    (d : pg) (ad : AuthenticatedDevice) (kind : ServiceIdKind) (x : Z * device_row) (b : DevicePreKeyBundle)
    (k l : UploadSignedPreKey)
    (Haci : is_uuid (aci (ad_account ad)) = true) (Hpni : is_uuid (pni (ad_account ad)) = true)
    (Hb : has_bundle (authenticated_address ad kind) x b d)
    (Hk : key_valid (identity_key ad kind) k = true) (Hl : key_valid (identity_key ad kind) l = true)
    (Hnewk : new_key (signed_store kind) k x.1 d) (Hnewl : new_key (last_resort_store kind) l x.1 d)
    (Hids : ∀ t, next_id (d (SignedPreKeys t)) ≤ i32_max) :
  ∃ d', interp (postgres public_key_ok) (handle_put_keys ad
      {| set_pre_key := None; set_signed_pre_key := Some k; set_pq_pre_key := None;
         set_pq_last_resort_pre_key := Some l |} kind) d = (Ok (inr tt), d') ∧
    has_bundle (authenticated_address ad kind) x b d' ∧
    get_key_bundle (authenticated_address ad kind) d' = (Ok b, d').
Proof.
  pose proof Hb as [Hwf Hn Hf _ _].
  destruct (store_signed_run ad kind k x d Haci Hpni Hwf Hn Hf (Hids _) Hnewk) as [Hrun Hwf1].
  pose proof (has_bundle_add _ _ _ _ _ _ Hb Hwf1) as Hb1. pose proof Hb1 as [_ Hn1 Hf1 _ _].
  assert (signed_store kind ≠ last_resort_store kind) as Hne by by destruct kind.
  destruct (store_last_resort_run ad kind l x _ Haci Hpni Hwf1 Hn1 Hf1) as [Hrun2 Hwf2].
  { rewrite add_signed_ne by congruence. apply Hids. }
  { unfold new_key. rewrite signed_of_add, decide_False, app_nil_r by done. exact Hnewl. }
  eexists. split; [by eapply handle_put_signed_run|].
  pose proof (has_bundle_add _ _ _ _ _ _ Hb1 Hwf2) as Hb2. split; [done|]. by apply (get_key_bundle_run _ x).
Qed.

(** *** A device with keys *)

(** A signature scheme to compute with. *)
Definition demo_signatures : Signatures := {|
  verify_signature identity key sig := Some (bool_decide (sig = identity ++ key));
  public_key_bytes k := Some k;
  sha256 bs := bs;
|}.

Definition signed_by (identity : bytes) (id : Z) (key : bytes) : UploadSignedPreKey :=
  {| signed_key_id := id; signed_public_key := key; signature := identity ++ key |}.
Definition sample_bundle : DevicePreKeyBundle :=
  {| aci_signed_pre_key := signed_by [x05] 1 [x0a]; pni_signed_pre_key := signed_by [x06] 2 [x0b];
     aci_pq_pre_key := signed_by [x05] 3 [x0c]; pni_pq_pre_key := signed_by [x06] 4 [x0d] |}.
Definition sample_row : Z * device_row := (1, row_of_device sample_device 1).
Definition sample_authenticated : AuthenticatedDevice :=
  {| ad_account := sample_account; ad_device := sample_device |}.
Definition sample_one_time : list UploadPreKey :=
  [{| key_id := 11; public_key := [x0e] |}; {| key_id := 12; public_key := [x0f] |}].

Definition bundle_pg : pg :=
  (store_key_bundle (H1 := in_order) sample_bundle sample_address sample_pg).2.
Definition keys_pg : pg := (store_one_time_ec_pre_keys sample_one_time sample_address bundle_pg).2.

Lemma bundle_pg_ok : has_bundle sample_address sample_row sample_bundle bundle_pg.
Proof.
  destruct sample_pg_ok as (_ & Hwf & Hn).
  destruct (store_key_bundle_run (H := in_order) sample_address sample_row sample_bundle sample_pg) as (d' & Hrun & Hb & _).
  - split; [done|done|by vm_compute|by intros []; vm_compute|by vm_compute|by intros []; vm_compute|by vm_compute].
  - by vm_compute.
  - unfold bundle_pg. by rewrite Hrun.
Qed.

Lemma keys_pg_ok : ec_keys sample_address sample_row sample_one_time keys_pg.
Proof.
  destruct bundle_pg_ok as [Hwf Hn Hf _ _].
  destruct (store_one_time_ec_run sample_address sample_row sample_one_time bundle_pg Hwf Hn Hf) as (d' & Hrun & Hk).
  - apply (bool_decide_unpack _). by vm_compute.
  - repeat constructor.
  - by vm_compute.
  - unfold keys_pg. by rewrite Hrun.
Qed.

Lemma bad_signature_stores_nothing_witness :
  let bundle := {| set_pre_key := Some sample_one_time; set_signed_pre_key := Some (signed_by [x05] 5 [x0a]);
                   set_pq_pre_key := Some [signed_by [x06] 6 [x0b]]; set_pq_last_resort_pre_key := None |} in
  interp (postgres (H := demo_bincode) (H0 := demo_service_ids) (H1 := in_order) (λ _, true))
    (handle_put_keys (H := demo_signatures) sample_authenticated bundle KindAci) sample_pg =
  (Ok (inl (api_error 422 "Invalid signature")), sample_pg).
Proof. intros bundle. apply (bad_signature_stores_nothing (H := demo_signatures)); by vm_compute. Defined.

Lemma rotated_keys_are_not_handed_out_witness :
  ∃ d', interp (postgres (H := demo_bincode) (H0 := demo_service_ids) (H1 := in_order) (λ _, true))
      (handle_put_keys (H := demo_signatures) sample_authenticated
         {| set_pre_key := None; set_signed_pre_key := Some (signed_by [x05] 50 [xaa]); set_pq_pre_key := None;
            set_pq_last_resort_pre_key := Some (signed_by [x05] 51 [xab]) |} KindAci) bundle_pg = (Ok (inr tt), d') ∧
    get_key_bundle (H1 := in_order) sample_address d' = (Ok sample_bundle, d').
Proof.
  destruct (rotated_keys_are_not_handed_out (H := demo_bincode) (H0 := demo_service_ids) (H1 := in_order)
    (H2 := demo_signatures) (λ _, true) bundle_pg sample_authenticated KindAci sample_row sample_bundle
    (signed_by [x05] 50 [xaa]) (signed_by [x05] 51 [xab])) as (d' & Hrun & _ & Hget).
  - by vm_compute.
  - by vm_compute.
  - apply bundle_pg_ok.
  - by vm_compute.
  - by vm_compute.
  - apply (bool_decide_unpack _). by vm_compute.
  - apply (bool_decide_unpack _). by vm_compute.
  - intros []; by vm_compute.
  - by exists d'.
Defined.

Lemma get_account_keeps `{ServiceIdText, ScanOrder} public_key_ok s d :
  keeps (λ d', d' = d) (get_account public_key_ok s).
Proof. each_statement ltac:(done). Qed.

Definition as_stored_account (c : Account) : Account :=
  {| aci := aci c; pni := pni c; aci_identity_key := aci_identity_key c; pni_identity_key := pni_identity_key c;
     acc_devices := map as_stored (acc_devices c); phone_number := phone_number c |}.

Lemma keys_are_handed_out_witness :
  ∃ key d', (interp (postgres (H := demo_bincode) (H0 := demo_service_ids) (H1 := in_order) (λ _, true))
      (handle_get_keys_id_device_id sample_authenticated (Aci sample_uuid) "1") keys_pg) =
    (Ok (inr {| response_service_id := sample_uuid; response_identity_key := [x05];
                devices := [{| item_device_id := 1; item_registration_id := 7; item_pre_key := key;
                               item_pq_pre_key := signed_by [x05] 3 [x0c];
                               item_signed_pre_key := signed_by [x05] 1 [x0a] |}] |}), d').
Proof.
  assert (∀ s, get_account (H0 := demo_service_ids) (H1 := in_order) (λ _, true) s keys_pg =
    ((get_account (H0 := demo_service_ids) (H1 := in_order) (λ _, true) s keys_pg).1, keys_pg)) as Hget
    by (intros s; rewrite surjective_pairing at 1; f_equal; by apply get_account_keeps).
  destruct (keys_are_handed_out (H := demo_bincode) (H0 := demo_service_ids) (H1 := in_order) (H2 := demo_signatures)
    (λ _, true) keys_pg sample_authenticated (Aci sample_uuid) 1 (as_stored_account sample_account) (as_stored_account sample_account)
    sample_row (as_stored sample_device) sample_bundle sample_one_time) as (key & ks' & d' & Hrun & _).
  - by vm_compute.
  - by vm_compute.
  - by rewrite Hget.
  - by rewrite Hget.
  - apply store_one_time_ec_keeps_bundle, bundle_pg_ok.
  - apply keys_pg_ok.
  - by vm_compute.
  - exists key, d'. exact Hrun.
Defined.
