(* ===== verification/Registration.v ===== *)
(** Registering and deleting accounts, linking and removing devices: the
    handlers of [server/src/server/server.rs] that change accounts. *)
From S2P Require Export KeyManager.

Local Open Scope Z_scope.
Local Open Scope denim_scope.

(** ** Definitions *)

Definition FORBIDDEN : Z := 403.
Definition CONFLICT : Z := 409.

Record LinkDeviceToken := { lt_verification_code : string; token_identifier : string }.
Record LinkDeviceResponse := { ld_aci : string; ld_pni : string; ld_device_id : Z }.

(** HMAC over SHA-256 and the two URL-safe base64 codecs; encoding is undone by
    decoding. *)
Class LinkCodes := {
  hmac_sha256 : bytes → bytes → bytes;
  b64_url_encode : bytes → string;
  b64_url_decode : string → option bytes;
  b64_url_no_pad : bytes → string;
  b64_url_decode_encode bs : b64_url_decode (b64_url_encode bs) = Some bs;
}.

(** A function that has no error case. *)
Definition infallible {A} (o : outcome string A) : outcome ApiError A :=
  match o with Ok a => Ok a | Err e => Panic e | Panic w => Panic w end.

Section handlers.
Context `{Kdf, ServiceIdText, Signatures, LinkCodes}.

Definition parse_service_id (s : string) : outcome ApiError ServiceId :=
  ok_or (api_error BAD_REQUEST "Could not parse service id") (parse_from_service_id_string s).

Definition get_kind (identity_string : string) : outcome ApiError ServiceIdKind :=
  if bool_decide (identity_string ∈ ["aci"; "ACI"; ""]) then Ok KindAci
  else if bool_decide (identity_string ∈ ["pni"; "PNI"]) then Ok KindPni
  else Err (api_error BAD_REQUEST
    "Identity type needs to be either of: aci | pni | ACI | PNI or none which will default to aci").

(** Nanoseconds since the epoch, if the clock reads a later time. *)
Definition time_now (clock : Z) : outcome ApiError Z :=
  if clock <? 0 then Err (api_error INTERNAL_SERVER_ERROR "") else Ok (clock / 10 ^ 6).

Definition device_pre_key_bundle (registration : RegistrationRequest) : DevicePreKeyBundle :=
  {| aci_signed_pre_key := reg_aci_signed_pre_key registration;
     pni_signed_pre_key := reg_pni_signed_pre_key registration;
     aci_pq_pre_key := reg_aci_pq_last_resort_pre_key registration;
     pni_pq_pre_key := reg_pni_pq_last_resort_pre_key registration |}.

(** [Device::builder()] with the attributes a client sends. *)
Definition new_device (id : Z) (attributes : AccountAttributes) (now : Z) (hash : SaltedTokenHash) : Device :=
  {| dev_id := id; dev_name := aa_name attributes; last_seen := now; created := now; auth_token := Api.hash hash;
     salt := hash_salt hash; registration_id := aa_registration_id attributes;
     pni_registration_id := aa_pni_registration_id attributes; dev_capabilities := capabilities attributes |}.

Definition handle_post_registration (clock : Z) (random : bytes) (constraint : string → option string) (new_aci new_pni : string)
    (auth_header : BasicAuthorizationHeader) (registration : RegistrationRequest) : api AccountIdentityResponse :=
  let? now := api_lift (time_now clock) in
  let phone_number := username auth_header in
  let? hash := api_lift (generate_for random (password auth_header)) in
  let device := new_device 1 (reg_account_attributes registration) now hash in
  let? account := create_account constraint new_aci new_pni phone_number (reg_aci_identity_key registration)
                    (reg_pni_identity_key registration) device in
  let address := {| name := service_id_string (Aci (aci account)); device_id := dev_id device |} in
  let? _ := map_err (api_error INTERNAL_SERVER_ERROR) (Db_store_key_bundle (device_pre_key_bundle registration) address) in
  api_ret {| air_uuid := aci account; air_number := phone_number; air_pni := pni account;
             air_username_hash := None; air_storage_capable := true |}.

Definition get_identifier (phone_number : string) : api string :=
  let? account := map_err (λ err, api_error BAD_REQUEST ("Could not get ACI: " +:+ err))
                    (Db_get_account_from_phonenumber phone_number) in
  api_ret (service_id_string (Aci (aci account))).

(** *** Linking a device *)

Definition link_secret (secret : option string) : outcome ApiError bytes :=
  s ← expect "Unable to read LINK_DEVICE_SECRET .env var" secret; Ok (as_bytes s).

(** The token: the claims and their code. *)
Definition link_token (secret : bytes) (claims : string) : string :=
  claims +:+ ":" +:+ b64_url_encode (hmac_sha256 secret (as_bytes claims)).

Definition handle_get_link_device_token (secret : option string) (clock : Z) (authenticated_device : AuthenticatedDevice)
    : outcome ApiError LinkDeviceToken :=
  if negb (dev_id (ad_device authenticated_device) =? 1) then Err (api_error UNAUTHORIZED "")
  else
    now ← time_now clock;
    let claims := service_id_string (Aci (aci (ad_account authenticated_device))) +:+ "." +:+ show now in
    secret ← link_secret secret;
    let link_device_token := link_token secret claims in
    Ok {| lt_verification_code := link_device_token;
          token_identifier := b64_url_no_pad (sha256 (as_bytes link_device_token)) |}.

(** The account a verification code speaks for. *)
Definition check_link_token (secret : option string) (clock : Z) (verification_code : string) : outcome ApiError ServiceId :=
  '(claims, b64_signature) ← ok_or (api_error FORBIDDEN "") (split_first ":" verification_code);
  secret ← link_secret secret;
  signature ← ok_or (api_error INTERNAL_SERVER_ERROR "") (b64_url_decode b64_signature);
  if negb (bool_decide (hmac_sha256 secret (as_bytes claims) = signature)) then Err (api_error FORBIDDEN "")
  else
    '(aci_str, timestamp_str) ← ok_or (api_error FORBIDDEN "") (split_first "." claims);
    aci ← ok_or (api_error FORBIDDEN "") (parse_from_service_id_string aci_str);
    timestamp ← ok_or (api_error INTERNAL_SERVER_ERROR "") (parse_u64 timestamp_str);
    _ ← expect "Time went backwards" (if clock <? 0 then None else Some tt);
    let elapsed := clock - timestamp * 10 ^ 6 in
    _ ← expect "overflow when subtracting durations" (if elapsed <? 0 then None else Some tt);
    if 600 <? elapsed / 10 ^ 9 then Err (api_error FORBIDDEN "") else Ok aci.

Definition activation_valid (account : Account) (r : DeviceActivationRequest) : bool :=
  validate_pre_key_signatures verify_signature (aci_identity_key account)
    [da_aci_signed_pre_key r; da_aci_pq_last_resort_pre_key r] &&
  validate_pre_key_signatures verify_signature (pni_identity_key account)
    [da_pni_signed_pre_key r; da_pni_pq_last_resort_pre_key r].

(** The capabilities a new device must have, each of which it has. *)
Definition keeps_capabilities (account : Account) (attributes : AccountAttributes) : outcome string bool :=
  l ← collect (λ c,
    if prevent_downgrade (capability_value c) then
      has ← account_has_capability account c;
      Ok (negb has || bool_decide (c ∈ capabilities attributes))
    else Ok true) DeviceCapabilityType.VALUES;
  Ok (forallb id l).

Definition handle_post_link_device (secret : option string) (clock : Z) (random : bytes) (auth_password : string)
    (link_device_request : LinkDeviceRequest) : api LinkDeviceResponse :=
  let? aci := api_lift (check_link_token secret clock (verification_code link_device_request)) in
  let? account := map_err (λ _, api_error INTERNAL_SERVER_ERROR "") (Db_get_account aci) in
  let account_attributes := account_attributes link_device_request in
  if negb (activation_valid account (device_activation_request link_device_request))
  then api_err (api_error UNPROCESSABLE_ENTITY "")
  else
    let? kept := api_lift (infallible (keeps_capabilities account account_attributes)) in
    if negb kept then api_err (api_error CONFLICT "")
    else
      let? _ := map_err (λ _, api_error FORBIDDEN "") (Db_add_used_device_link_token (verification_code link_device_request)) in
      let? new_device_id := api_lift (infallible (get_next_device_id account)) in
      let? hash := api_lift (generate_for random auth_password) in
      let device := new_device new_device_id account_attributes (clock / 10 ^ 6) hash in
      let? _ := map_err (λ _, api_error INTERNAL_SERVER_ERROR "") (Db_add_device aci device) in
      api_ret {| ld_aci := service_id_string (Aci (Account.aci account)); ld_pni := service_id_string (Pni (pni account));
                 ld_device_id := new_device_id |}.

(** *** Deleting *)

Definition handle_delete_account (authenticated_device : AuthenticatedDevice) : api unit :=
  map_err (λ _, api_error INTERNAL_SERVER_ERROR "") (Db_delete_account (Aci (aci (ad_account authenticated_device)))).

Definition handle_delete_device (device_id : Z) (authenticated_device : AuthenticatedDevice) : api unit :=
  let own := dev_id (ad_device authenticated_device) in
  if negb (own =? 1) && negb (own =? device_id) then api_err (api_error UNAUTHORIZED "")
  else if device_id =? 1 then api_err (api_error FORBIDDEN "")
  else map_err (λ _, api_error INTERNAL_SERVER_ERROR "")
    (Db_delete_device {| name := service_id_string (Aci (aci (ad_account authenticated_device))); device_id := device_id |}).
End handlers.

(** ** What registering stores *)

(** A row that refers to a device refers to one there is. *)
Lemma ref_in_range d r x q i :
  pg_wf d → x ∈ rows (d r) → (q, i) ∈ refs r x.2 → i < next_id (d q).
Proof.
  intros Hwf Hx Hi. destruct (Hwf r) as [_ Hk]. unfold keys_ok in Hk. rewrite forallb_forall in Hk.
  assert (refs_ok row refs d r x.2 = true) as Hr.
  { apply Hk, list_elem_of_In. by apply (list_elem_of_fmap_2 snd). }
  unfold refs_ok in Hr. rewrite forallb_forall in Hr. specialize (Hr _ (proj1 (list_elem_of_In _ _) Hi)).
  unfold ref_ok in Hr. apply bool_decide_eq_true in Hr. cbn in Hr.
  destruct (Hwf q) as [[_ Hrange _ _] _]. rewrite Forall_forall in Hrange. by apply Hrange.
Qed.

(** The database has room for an account, its device and its keys. *)
Definition room_for_account (d : pg) : Prop :=
  ∀ r, r ∈ [Accounts; Devices; DeviceKeys] ++ map SignedPreKeys key_stores → next_id (d r) ≤ i32_max.

Section registered.
Context `{Bincode, ServiceIdText, ScanOrder} (public_key_ok : bytes → bool).

Lemma get_account_ext s d d' :
  rows (d' Accounts) = rows (d Accounts) → rows (d' Devices) = rows (d Devices) →
  rows (d' DeviceCapabilities) = rows (d DeviceCapabilities) →
  get_account public_key_ok s d' = ((get_account public_key_ok s d).1, d').
Proof.
  intros Ha Hd Hc. unfold get_account, get_all_devices, get_all_device_capabilities, query, mbind, stm_bind, devices_of,
    account_id, account_rows. rewrite Ha, Hd, Hc.
  destruct (scalar_subquery _) as [o|e|w]; cbn [mbind outcome_bind]; [|done..].
  destruct (collect capability_from _) as [cs|e|w]; [|done..].
  destruct (collect (λ x, device_of_row _ x) _); [by rewrite Ha|done..].
Qed.

Ltac keep_rows :=
  lazymatch goal with
  | H : ?P ?d |- ?P ?d => exact H
  | Hs : upsert_signed _ _ _ ?d = Ok ?d', H : ∀ q, _ |- ∀ q, _ => 
      let q := fresh "q" in let Hq := fresh "Hq" in intros q Hq; rewrite (rows_of_upsert_signed _ _ q _ _ _ Hs) by (intros <-; by apply Hq); by apply H
  | Hs : pg_insert_select _ _ ?d = Ok ?d', H : ∀ q, _ |- ∀ q, _ =>
      let q := fresh "q" in let Hq := fresh "Hq" in intros q Hq; rewrite (rows_of_insert_select _ _ q _ _ Hs) by (intros <-; by apply Hq); by apply H
  end.

(** The tables of keys. *)
Definition holds_keys (r : Postgres.relation) : Prop := match r with SignedPreKeys _ | DeviceKeys => True | _ => False end.

Lemma store_key_bundle_keeps b a d q :
  ¬ holds_keys q → rows ((store_key_bundle b a d).2 q) = rows (d q).
Proof.
  intros Hq. assert (keeps (λ d', ∀ q, ¬ holds_keys q → rows (d' q) = rows (d q)) (store_key_bundle b a)) as Hk.
  { each_statement ltac:(idtac; keep_rows). }
  by apply Hk.
Qed.

Lemma new_device_has_no_keys d c v vs :
  pg_wf d → names_typed d → account_ok public_key_ok c v vs → account_new_in c d = true → room_for_account d →
  no_keys {| name := service_id_string (Aci (aci c)); device_id := dev_id v |}
    (next_id (d Devices), row_of_device v (next_id (d Accounts)))
    (with_device v (next_id (d Accounts)) (with_account c d)).
Proof.
  intros Hwf Hn Hok Hnew Hroom.
  assert (∀ r, next_id (d r) ≤ i32_max ∨ ¬ r ∈ [Accounts; Devices; DeviceKeys] ++ map SignedPreKeys key_stores) as Hr
    by (intros r; destruct (decide (r ∈ [Accounts; Devices; DeviceKeys] ++ map SignedPreKeys key_stores)); auto).
  destruct (add_account_run public_key_ok d c v vs Hwf Hn Hok Hnew) as (_ & Hwf' & Hn'); [apply Hroom; set_solver..|].
  set (d' := with_device v (next_id (d Accounts)) (with_account c d)) in *.
  assert (∀ q, q ≠ Accounts → q ≠ Devices → d' q = d q) as Hq.
  { intros q Hqa Hqd. unfold d', with_device, with_account. by rewrite !set_table_ne. }
  assert (∀ q x, q ≠ Accounts → q ≠ Devices → x ∈ rows (d q) → (Devices, next_id (d Devices)) ∉ refs q x.2) as Hnone.
  { intros q x Hqa Hqd Hx Hi. apply (ref_in_range d) in Hi; [lia|done|done]. }
  split; [done|done| | | | |].
  - apply (device_found_intro d' Hwf' Hn' _ (dev_id v) (next_id (d Accounts), row_of_account c)); [|  |done|done].
    + apply account_found; [done|done| |].
      * unfold d', with_device. rewrite set_table_ne by done. unfold with_account. rewrite set_table_eq. cbn [rows].
        apply elem_of_app. right. left.
      * unfold account_matches. cbn. by rewrite bool_decide_true.
    + unfold d', with_device. rewrite set_table_eq. cbn [rows]. apply elem_of_app. right. left.
  - intros s. unfold signed_of. rewrite Hq by done. apply filter_none. intros x Hx Ho. cbn in Ho.
    apply (Hnone (SignedPreKeys s) x); [done|done|done|]. cbn. rewrite Ho. left.
  - unfold of_devices. rewrite Hq by done. apply filter_none. intros x Hx Ho. cbn in Ho.
    apply list_elem_of_singleton in Ho. apply (Hnone DeviceKeys x); [done|done|done|]. cbn. rewrite Ho. left.
  - intros s. rewrite Hq by done. apply Hroom. apply elem_of_app. right. apply list_elem_of_fmap_2. by destruct s; set_solver.
  - rewrite Hq by done. apply Hroom. set_solver.
Qed.
End registered.

(** The account that registering creates, as it is read back. *)
Definition registered_account (new_aci new_pni : string) (registration : RegistrationRequest) (phone : string) (now : Z)
    (hash : SaltedTokenHash) : Account :=
  {| aci := new_aci; pni := new_pni; aci_identity_key := reg_aci_identity_key registration;
     pni_identity_key := reg_pni_identity_key registration;
     acc_devices := [as_stored (new_device 1 (reg_account_attributes registration) now hash)]; phone_number := phone |}.

Section registering.
Context `{Bincode, ServiceIdText, ScanOrder, Kdf} (public_key_ok : bytes → bool).

(** Registering stores the account, its device and its key bundle, and changes
    no other table. *)
Lemma post_registration_run d clock random constraint new_aci new_pni header registration :
  0 ≤ clock → pg_wf d → names_typed d → no_capabilities d → room_for_account d →
  is_uuid new_aci = true → is_uuid new_pni = true →
  public_key_ok (reg_aci_identity_key registration) = true ∧ public_key_ok (reg_pni_identity_key registration) = true →
  in_u32 (aa_registration_id (reg_account_attributes registration)) = true ∧
    in_u32 (aa_pni_registration_id (reg_account_attributes registration)) = true →
  bundle_ok (device_pre_key_bundle registration) = true →
  (∀ v, account_new_in (account_new new_aci new_pni (reg_aci_identity_key registration)
          (reg_pni_identity_key registration) v (username header)) d = true) →
  ∃ hash d',
    let v := new_device 1 (reg_account_attributes registration) (clock / 10 ^ 6) hash in
    let x := (next_id (d Devices), row_of_device v (next_id (d Accounts))) in
    let b := device_pre_key_bundle registration in
    (hash_salt hash = hex_string random ∧ calculate (hash_salt hash) (password header) = Ok (Api.hash hash)) ∧
    interp (postgres public_key_ok) (handle_post_registration clock random constraint new_aci new_pni header registration) d =
      (Ok (inr {| air_uuid := new_aci; air_number := username header; air_pni := new_pni; air_username_hash := None;
                  air_storage_capable := true |}), d') ∧
    has_bundle {| name := service_id_string (Aci new_aci); device_id := 1 |} x b d' ∧
    (∀ s, s = Aci new_aci ∨ s = Pni new_pni →
       get_account public_key_ok s d' =
         (Ok (registered_account new_aci new_pni registration (username header) (clock / 10 ^ 6) hash), d')) ∧
    (∀ s, signed_of s x.1 d' = [(next_id (d (SignedPreKeys s)), signed_row_of (key_in s b) x.1)] ∧
          next_id (d' (SignedPreKeys s)) = next_id (d (SignedPreKeys s)) + 1) ∧
    (∀ r, r ≠ Accounts → r ≠ Devices → ¬ holds_keys r → d' r = d r).
Proof.
  intros Hclock Hwf Hnames Hcaps Hroom Haci Hpni Hkeys Hattr Hbundle Hnew.
  destruct (calculate_ok (hex_string random) (password header)) as [t Ht].
  set (hash := {| hash := t; hash_salt := hex_string random |}).
  set (v := new_device 1 (reg_account_attributes registration) (clock / 10 ^ 6) hash).
  set (c := account_new new_aci new_pni (reg_aci_identity_key registration) (reg_pni_identity_key registration) v (username header)).
  assert (account_ok public_key_ok c v []) as Hok.
  { destruct Hkeys, Hattr as [Hr1 Hr2]. split; try done. unfold device_ok. cbn. by rewrite Hr1, Hr2. }
  destruct (add_account_run public_key_ok d c v [] Hwf Hnames Hok (Hnew v)) as (Hadd & Hwf' & Hn'); [apply Hroom; set_solver..|].
  pose proof (λ s, get_account_after_add public_key_ok d c v [] s Hwf Hnames Hcaps Hok (Hnew v)
    ltac:(apply Hroom; set_solver) ltac:(apply Hroom; set_solver)) as Hget. cbv zeta in Hget.
  pose proof (new_device_has_no_keys public_key_ok d c v [] Hwf Hnames Hok (Hnew v) Hroom) as Hno.
  set (d1 := with_device v (next_id (d Accounts)) (with_account c d)) in *.
  assert (∀ r, r ≠ Accounts → r ≠ Devices → d1 r = d r) as Hd1
    by (intros r Hr Hr'; unfold d1, with_device, with_account; by rewrite !set_table_ne).
  destruct (store_key_bundle_run _ _ (device_pre_key_bundle registration) d1 Hno Hbundle) as (d2 & Hstore & Hhas & Hsigned & Hrest).
  exists hash, d2. cbv zeta. split_and!; [done|done| |done| | |].
  - unfold handle_post_registration. rewrite api_lift_bind. unfold time_now. rewrite (proj2 (Z.ltb_ge _ _) Hclock).
    rewrite api_lift_bind. unfold generate_for. rewrite Ht. cbn [mbind outcome_bind].
    fold hash. fold v. rewrite api_bind_run. unfold create_account. rewrite api_bind_run.
    fold c. rewrite (map_err_ok _ _ _ _ tt d1) by exact Hadd.
    cbn [api_ret interp]. rewrite api_bind_run, (map_err_ok _ _ _ _ tt d2) by exact Hstore. reflexivity.
  - intros s Hs. rewrite (get_account_ext public_key_ok s d1 d2) by by rewrite Hrest. by rewrite Hget.
  - intros s. destruct (Hsigned s) as [Hs Hn]. rewrite Hn, Hd1 by done. cbn [fst] in *. rewrite Hd1 in Hs by done. by split.
  - intros r Hra Hrd Hr. rewrite Hrest; [by apply Hd1|by intros -> |by intros s ->; apply Hr].
Qed.
End registering.

(** ** Link tokens *)

Section tokens.
Context `{Bincode, ServiceIdText, ScanOrder} (public_key_ok : bytes → bool).

Definition token_used (t : string) (d : pg) : Prop := t ∈ map snd (rows (d UsedDeviceLinkTokens)).

Lemma token_delete t r p d : r ≠ UsedDeviceLinkTokens → token_used t d → token_used t (pg_delete r p d).
Proof.
  intros Hr. unfold token_used. rewrite (delete_rows row refs depth rank refs_rank rank_depth).
  rewrite set_table_ne by done. by rewrite filter_all.
Qed.

Lemma token_insert t r x d d' : pg_insert r x d = Ok d' → token_used t d → token_used t d'.
Proof.
  intros (-> & _)%insert_Ok Ht. destruct (decide (r = UsedDeviceLinkTokens)) as [->|Hr].
  - unfold token_used. rewrite set_table_eq. cbn [rows]. rewrite map_app. apply elem_of_app. by left.
  - unfold token_used. by rewrite set_table_ne.
Qed.

Lemma token_rows t d d' :
  rows (d' UsedDeviceLinkTokens) = rows (d UsedDeviceLinkTokens) → token_used t d → token_used t d'.
Proof. unfold token_used. congruence. Qed.

Ltac keep_token :=
  lazymatch goal with
  | H : token_used _ ?d |- token_used _ ?d => exact H
  | |- token_used _ (pg_delete _ _ _) => by apply token_delete
  | H : pg_insert _ _ ?d = Ok ?d' |- token_used _ ?d' => by eapply token_insert
  | H : pg_insert_select _ _ ?d = Ok ?d' |- token_used _ ?d' =>
      apply (token_rows _ d); [by eapply rows_of_insert_select|done]
  | H : pg_update _ _ _ ?d = Ok ?d' |- token_used _ ?d' =>
      apply (token_rows _ d); [by eapply rows_of_update|done]
  | H : upsert_signed _ _ _ ?d = Ok ?d' |- token_used _ ?d' =>
      apply (token_rows _ d); [by eapply rows_of_upsert_signed|done]
  end.

Lemma methods_keep_tokens t X (c : databaseE X) : keeps (token_used t) (postgres public_key_ok X c).
Proof. destruct c; cbn [postgres]; each_statement ltac:(idtac; keep_token). Qed.

Lemma programs_keep_tokens {A} t (p : prog databaseE string A) d :
  token_used t d → token_used t (interp (postgres public_key_ok) p d).2.
Proof. apply interp_invariant. intros X c d'. apply methods_keep_tokens. Qed.

Lemma used_token_refused t d : token_used t d → ∃ e, add_used_device_link_token t d = (Err e, d).
Proof.
  intros Ht. unfold add_used_device_link_token, execute, run, Sql.insert.
  assert (existsb (λ y : Z * row UsedDeviceLinkTokens, clash UsedDeviceLinkTokens y.2 t) (rows (d UsedDeviceLinkTokens)) = true) as ->.
  { apply existsb_exists. apply list_elem_of_fmap in Ht as (x & -> & Hx). exists x.
    split; [by apply list_elem_of_In|]. cbn. by apply bool_decide_eq_true. }
  by eexists.
Qed.

Lemma token_accepted t d d' : add_used_device_link_token t d = (Ok tt, d') → token_used t d'.
Proof.
  unfold add_used_device_link_token. intros Hrun.
  unfold execute, run in Hrun. destruct (pg_insert UsedDeviceLinkTokens t d) as [d1|e|w] eqn:Hins; [|done..].
  cbn in Hrun. injection Hrun as <-. apply insert_Ok in Hins as (-> & _).
  unfold token_used. rewrite set_table_eq. cbn [rows]. rewrite map_app. apply elem_of_app. right. left.
Qed.
End tokens.

Section linking.
Context `{Bincode, ServiceIdText, ScanOrder, Kdf, Signatures, LinkCodes} (public_key_ok : bytes → bool).

(** A code that was used is refused, and nothing changes. *)
Lemma used_code_refused secret clock random pw req d :
  token_used (verification_code req) d →
  ∃ o, interp (postgres public_key_ok) (handle_post_link_device secret clock random pw req) d = (o, d) ∧
    ∀ r, o ≠ Ok (inr r).
Proof.
  intros Ht. unfold handle_post_link_device. rewrite api_lift_bind.
  destruct (check_link_token _ _ _) as [aci|e|w]; [|by eexists..].
  rewrite api_bind_run, map_err_run. cbn [postgres].
  pose proof (get_account_keeps public_key_ok aci d d eq_refl) as Hd.
  destruct (get_account public_key_ok aci d) as [[c|e|w] d']; cbn in Hd; subst d'; [|by eexists..].
  destruct (negb (activation_valid _ _)); [by eexists|]. rewrite api_lift_bind.
  destruct (infallible _) as [kept|e|w]; [|by eexists..]. destruct (negb kept); [by eexists|].
  rewrite api_bind_run, map_err_run. cbn [postgres].
  destruct (used_token_refused _ d Ht) as (e & ->). by eexists.
Qed.

Lemma linked_code_used secret clock random pw req d r d' :
  interp (postgres public_key_ok) (handle_post_link_device secret clock random pw req) d = (Ok (inr r), d') →
  token_used (verification_code req) d'.
Proof.
  unfold handle_post_link_device. rewrite api_lift_bind.
  destruct (check_link_token _ _ _) as [aci|e|w]; [|done..].
  rewrite api_bind_run, map_err_run. cbn [postgres].
  destruct (get_account public_key_ok aci d) as [[c|e|w] d0]; [|done..].
  destruct (negb (activation_valid _ _)); [done|]. rewrite api_lift_bind.
  destruct (infallible _) as [kept|e|w]; [|done..]. destruct (negb kept); [done|].
  rewrite api_bind_run, map_err_run. cbn [postgres].
  destruct (add_used_device_link_token _ d0) as [[[]|e|w] d1] eqn:Hadd; [|done..].
  apply token_accepted in Hadd. intros Hrun.
  match type of Hrun with interp _ ?p _ = _ => pose proof (programs_keep_tokens public_key_ok _ p d1 Hadd) as Hk end.
  by rewrite Hrun in Hk.
Qed.

Lemma link_token_parts secret claims :
  string_mem ":" claims = false →
  split_first ":" (link_token secret claims) = Some (claims, b64_url_encode (hmac_sha256 secret (as_bytes claims))).
Proof.
  intros Hc. unfold link_token. rewrite append_cons, append_nil. by apply split_first_app.
Qed.
End linking.

(** ** Properties *)

(** C29: registration is complete: on a database with room that does not know
    the account, registering answers with the new identifiers; on the database
    that it leaves, the account is authenticated with its first device, under
    either identifier and either form of the user name, by the password of its
    header and by no password with another salted hash, which is answered with
    401; and the key bundle of the request is what the database has for the
    device. *)
Theorem registered_account_logs_in `{Bincode, ServiceIdText, ScanOrder, Kdf} (public_key_ok : bytes → bool)
    (d : pg) (clock : Z) (random : bytes) (constraint : string → option string) (new_aci new_pni : string)
    (header : BasicAuthorizationHeader) (registration : RegistrationRequest) (s : ServiceId)
    (Hclock : 0 ≤ clock) (Hwf : pg_wf d) (Hnames : names_typed d) (Hcaps : no_capabilities d)
    (Hroom : room_for_account d) (Haci : is_uuid new_aci = true) (Hpni : is_uuid new_pni = true)
    (Hkeys : public_key_ok (reg_aci_identity_key registration) = true ∧
             public_key_ok (reg_pni_identity_key registration) = true)
    (Hattr : in_u32 (aa_registration_id (reg_account_attributes registration)) = true ∧
             in_u32 (aa_pni_registration_id (reg_account_attributes registration)) = true)
    (Hbundle : bundle_ok (device_pre_key_bundle registration) = true)
    (Hnew : ∀ v, account_new_in (account_new new_aci new_pni (reg_aci_identity_key registration)
                   (reg_pni_identity_key registration) v (username header)) d = true)
    (Hs : s = Aci new_aci ∨ s = Pni new_pni) :
  ∃ response d' ad,
    interp (postgres public_key_ok) (handle_post_registration clock random constraint new_aci new_pni header registration) d =
      (Ok (inr response), d') ∧
    air_uuid response = new_aci ∧ air_pni response = new_pni ∧
    (let logs_in user password o := interp (postgres public_key_ok) (from_request_parts (Basic user password)) d' = (Ok o, d') in
     let salted := calculate (hex_string random) in
     ∀ user, names_device user s 1 → logs_in user (password header) (inr ad) ∧
       ∀ other, salted other ≠ salted (password header) → logs_in user other (inl (api_error UNAUTHORIZED "Wrong password"))) ∧
    aci (ad_account ad) = new_aci ∧ phone_number (ad_account ad) = username header ∧ dev_id (ad_device ad) = 1 ∧
    get_key_bundle (authenticated_address ad KindAci) d' = (Ok (device_pre_key_bundle registration), d').
Proof.
  destruct (post_registration_run public_key_ok d clock random constraint new_aci new_pni header registration
    Hclock Hwf Hnames Hcaps Hroom Haci Hpni Hkeys Hattr Hbundle Hnew) as (hash & d' & [Hsalt Ht] & Hrun & Hhas & Hget & _).
  set (c := registered_account _ _ _ _ _ _) in *. set (v := new_device _ _ _ _) in *.
  eexists _, d', {| ad_account := c; ad_device := as_stored v |}.
  split_and!; [exact Hrun|done|done| |done|done|done|by eapply get_key_bundle_run].
  cbv zeta. intros user Huser.
  assert (∀ pw t, calculate (hex_string random) pw = Ok t →
    interp (postgres public_key_ok) (from_request_parts (Basic user pw)) d' =
    (Ok (if bool_decide (Api.hash hash = t) then inr {| ad_account := c; ad_device := as_stored v |}
         else inl (api_error UNAUTHORIZED "Wrong password")), d')) as Hlogs.
  { intros pw t Hpw. rewrite (from_request_parts_device public_key_ok _ s 1); [|by destruct Hs as [->| ->]|done|done].
    rewrite (authenticate_device_run public_key_ok s 1 _ c (as_stored v) t); [done|by apply Hget|done|].
    cbn. by rewrite Hsalt. }
  rewrite Hsalt in Ht. split; [by rewrite (Hlogs _ _ Ht), bool_decide_true|].
  intros other Hother. destruct (calculate_ok (hex_string random) other) as [t Hcalc].
  rewrite (Hlogs _ _ Hcalc), bool_decide_false; [done|]. intros Heq. apply Hother. by rewrite Hcalc, Ht, Heq.
Qed.

(** C20: a link token speaks for the account of the primary device that asked
    for it, for ten minutes, and for nobody afterwards; every other code for
    the same claims is refused. *)
Theorem link_tokens_expire `{ServiceIdText, Signatures, LinkCodes} (secret : string) (ad : AuthenticatedDevice)
    (clock later : Z) (forged : bytes)
    (Hprimary : dev_id (ad_device ad) = 1) (Haci : is_uuid (aci (ad_account ad)) = true)
    (Hclock : 0 ≤ clock < 2 ^ 64) (Hlater : clock ≤ later) :
  ∃ token, handle_get_link_device_token (Some secret) clock ad = Ok token ∧
    (check_link_token (Some secret) later (lt_verification_code token) =
       if 600 <? (later - clock / 10 ^ 6 * 10 ^ 6) / 10 ^ 9 then Err (api_error FORBIDDEN "")
       else Ok (Aci (aci (ad_account ad)))) ∧
    let claims := service_id_string (Aci (aci (ad_account ad))) +:+ "." +:+ show (clock / 10 ^ 6) in
    (forged ≠ hmac_sha256 (as_bytes secret) (as_bytes claims) →
     check_link_token (Some secret) later (claims +:+ ":" +:+ b64_url_encode forged) = Err (api_error FORBIDDEN "")).
Proof.
  set (now := clock / 10 ^ 6). set (name := service_id_string (Aci (aci (ad_account ad)))).
  set (claims := name +:+ "." +:+ show now). set (key := as_bytes secret).
  assert (0 ≤ now < 2 ^ 64) as Hnow.
  { unfold now. split; [apply Z.div_pos; lia|]. apply Z.div_lt_upper_bound; lia. }
  assert (string_mem ":" claims = false) as Hcolon.
  { unfold claims. rewrite !string_mem_app, (string_mem_show ":") by done.
    unfold name. cbn [service_id_string]. by rewrite (uuid_free ":") by done. }
  assert (∀ bs, check_link_token (Some secret) later (claims +:+ ":" +:+ b64_url_encode bs) =
    if bool_decide (hmac_sha256 key (as_bytes claims) = bs) then
      if 600 <? (later - now * 10 ^ 6) / 10 ^ 9 then Err (api_error FORBIDDEN "") else Ok (Aci (aci (ad_account ad)))
    else Err (api_error FORBIDDEN "")) as Hcheck.
  { intros bs. unfold check_link_token. rewrite append_cons, append_nil, split_first_app by done. cbn [ok_or mbind outcome_bind].
    unfold link_secret. cbn [expect mbind outcome_bind]. rewrite b64_url_decode_encode. cbn [ok_or mbind outcome_bind].
    fold key. destruct (bool_decide _); [|done]. cbn [negb]. unfold claims at 1. rewrite append_cons, append_nil.
    rewrite split_first_app by (by apply service_id_no_dot). cbn [ok_or mbind outcome_bind].
    unfold name. rewrite parse_service_id_string by done. cbn [ok_or mbind outcome_bind].
    rewrite parse_u64_show by (unfold in_u64, u64_max; lia). cbn [ok_or mbind outcome_bind].
    rewrite (proj2 (Z.ltb_ge later 0)) by lia. cbn [expect mbind outcome_bind].
    rewrite (proj2 (Z.ltb_ge (later - now * 10 ^ 6) 0)); [done|].
    pose proof (Z.mul_div_le clock (10 ^ 6) ltac:(lia)). unfold now. lia. }
  eexists. split; [|split].
  - unfold handle_get_link_device_token. rewrite (proj2 (Z.eqb_eq _ _) Hprimary). cbn [negb].
    unfold time_now. rewrite (proj2 (Z.ltb_ge clock 0)) by lia. reflexivity.
  - cbn [lt_verification_code]. fold now name claims. unfold link_token. rewrite Hcheck. by rewrite bool_decide_true.
  - intros claims' Hforged. change claims' with claims. rewrite Hcheck, bool_decide_false; [done|].
    intros Heq. by apply Hforged.
Qed.

(** C28: a link token links one device at most: once it was used, whatever is
    done with the database in between, using it again links nothing and
    changes nothing. *)
Theorem link_tokens_are_used_once `{Bincode, ServiceIdText, ScanOrder, Kdf, Signatures, LinkCodes} (public_key_ok : bytes → bool)
    {A} (between : prog databaseE string A) (d d1 : pg) (secret secret' : option string) (clock clock' : Z)
    (random random' : bytes) (pw pw' : string) (request request' : LinkDeviceRequest) (response : LinkDeviceResponse)
    (Hrun : interp (postgres public_key_ok) (handle_post_link_device secret clock random pw request) d = (Ok (inr response), d1))
    (Hsame : verification_code request' = verification_code request) :
  let d2 := (interp (postgres public_key_ok) between d1).2 in
  ∃ o, interp (postgres public_key_ok) (handle_post_link_device secret' clock' random' pw' request') d2 = (o, d2) ∧
    ∀ response', o ≠ Ok (inr response').
Proof.
  intros d2. apply used_code_refused. rewrite Hsame. apply programs_keep_tokens. by eapply linked_code_used.
Qed.

(** *** Witnesses *)

Definition demo_codes : LinkCodes := {|
  hmac_sha256 key bs := bs ++ key;
  b64_url_encode := hex_encode;
  b64_url_decode := hex_decode;
  b64_url_no_pad := hex_encode;
  b64_url_decode_encode := hex_decode_encode;
|}.

#[local] Existing Instances demo_bincode demo_service_ids in_order demo_kdf demo_signatures demo_codes.

Definition demo_header : BasicAuthorizationHeader := {| username := "+4512345678"; header_device_id := 1; password := "pw" |}.
Definition demo_attributes : AccountAttributes :=
  {| aa_name := "phone"; fetches_messages := true; aa_registration_id := 7; aa_pni_registration_id := 8;
     capabilities := []; unidentified_access_key := [x00] |}.
Definition demo_registration : RegistrationRequest :=
  {| reg_session_id := ""; reg_recovery_password := ""; reg_account_attributes := demo_attributes;
     reg_require_atomic := true; reg_skip_device_transfer := true; reg_aci_identity_key := [x05]; reg_pni_identity_key := [x06];
     reg_aci_signed_pre_key := signed_by [x05] 1 [x0a]; reg_pni_signed_pre_key := signed_by [x06] 2 [x0b];
     reg_aci_pq_last_resort_pre_key := signed_by [x05] 1 [x0c]; reg_pni_pq_last_resort_pre_key := signed_by [x06] 2 [x0d];
     reg_apn_token := None; reg_gcm_token := None |}.

Definition demo_postgres : handler databaseE string pg := postgres (λ _, true).
Definition demo_register : api AccountIdentityResponse :=
  handle_post_registration (10 ^ 18) [x01; x02] (λ _, None) sample_uuid (pni sample_account) demo_header demo_registration.

Lemma registered_account_logs_in_witness :
  ∃ response d' ad, interp demo_postgres demo_register empty_pg = (Ok (inr response), d') ∧
    interp demo_postgres (from_request_parts (Basic sample_uuid "pw")) d' = (Ok (inr ad), d') ∧
    interp demo_postgres (from_request_parts (Basic sample_uuid "wp")) d' = (Ok (inl (api_error UNAUTHORIZED "Wrong password")), d') ∧
    dev_id (ad_device ad) = 1.
Proof.
  destruct (registered_account_logs_in (λ _, true) empty_pg (10 ^ 18) [x01; x02] (λ _, None) sample_uuid (pni sample_account)
    demo_header demo_registration (Aci sample_uuid)) as (response & d' & ad & Hrun & _ & _ & Hauth & _ & _ & Hid & _).
  - lia.
  - apply empty_pg_wf.
  - constructor.
  - done.
  - intros r _. by vm_compute.
  - by vm_compute.
  - by vm_compute.
  - by split.
  - by split; vm_compute.
  - by vm_compute.
  - done.
  - by left.
  - exists response, d', ad. split_and!; [done| | |done]; apply (Hauth sample_uuid); [by right..|]. by vm_compute.
Defined.

Lemma link_tokens_expire_witness :
  ∃ token, handle_get_link_device_token (Some "secret") (10 ^ 18 + 5) sample_authenticated = Ok token ∧
    check_link_token (Some "secret") (10 ^ 18 + 700 * 10 ^ 9) (lt_verification_code token) = Err (api_error FORBIDDEN "").
Proof.
  destruct (link_tokens_expire "secret" sample_authenticated (10 ^ 18 + 5) (10 ^ 18 + 700 * 10 ^ 9) [])
    as (token & Hget & Hcheck & _).
  - done.
  - by vm_compute.
  - lia.
  - lia.
  - exists token. split; [exact Hget|]. rewrite Hcheck. reflexivity.
Defined.

(** A registered account that links a second device. *)
Definition demo_accounts : pg := (interp demo_postgres demo_register empty_pg).2.
Definition demo_activation : DeviceActivationRequest :=
  {| da_aci_signed_pre_key := signed_by [x05] 3 [x0a]; da_pni_signed_pre_key := signed_by [x06] 4 [x0b];
     da_aci_pq_last_resort_pre_key := signed_by [x05] 5 [x0c]; da_pni_pq_last_resort_pre_key := signed_by [x06] 6 [x0d] |}.
Definition demo_link : LinkDeviceRequest :=
  {| verification_code := match handle_get_link_device_token (Some "secret") (10 ^ 18) sample_authenticated with
                          | Ok t => lt_verification_code t | _ => "" end;
     account_attributes := demo_attributes; device_activation_request := demo_activation |}.

Lemma link_tokens_are_used_once_witness :
  let link := handle_post_link_device (Some "secret") (10 ^ 18 + 1) [x03] "pw2" demo_link in
  let d1 := (interp demo_postgres link demo_accounts).2 in
  (interp demo_postgres link demo_accounts).1 =
    Ok (inr {| ld_aci := sample_uuid; ld_pni := service_id_string (Pni (pni sample_account)); ld_device_id := 2 |}) ∧
  ∀ response, interp demo_postgres link d1 ≠ (Ok (inr response), d1).
Proof.
  intros link d1.
  assert ((interp demo_postgres link demo_accounts).1 =
    Ok (inr {| ld_aci := sample_uuid; ld_pni := service_id_string (Pni (pni sample_account)); ld_device_id := 2 |})) as Hlink
    by by vm_compute.
  split; [exact Hlink|]. intros response Hagain.
  destruct (link_tokens_are_used_once (λ _, true) (Ret tt) demo_accounts d1 (Some "secret") (Some "secret") (10 ^ 18 + 1) (10 ^ 18 + 1)
    [x03] [x03] "pw2" "pw2" demo_link demo_link
    {| ld_aci := sample_uuid; ld_pni := service_id_string (Pni (pni sample_account)); ld_device_id := 2 |}) as (o & Hrun & Hno).
  - unfold d1. rewrite <- Hlink. apply surjective_pairing.
  - done.
  - apply (Hno response). cbn [interp snd] in Hrun. change (interp demo_postgres link d1 = (o, d1)) in Hrun. congruence.
Defined.
