(* ===== verification/DenimIncoming.v ===== *)
(** From a client's chunks to the payloads the server handles.

    The proofs about the incoming half of DenimManager.v: reassembly against
    the in-order receiver [absorb] of Chunk.v, one round of receiving, and the
    whole way from the client's chunker to the server's payloads. *)
From S2P Require Export DenimManager.

Local Open Scope Z_scope.

(** ** Sorting *)

Definition chunk_before (c d : DenimChunk) : Prop := flags d ≤ flags c.

Lemma insert_chunk_perm c cs : insert_chunk c cs ≡ₚ c :: cs.
Proof.
  induction cs as [|d cs IH]; [done|]. cbn. destruct (chunk_le c d); [done|].
  rewrite IH. apply Permutation_swap.
Qed.

Lemma sort_chunks_perm cs : sort_chunks cs ≡ₚ cs.
Proof.
  unfold sort_chunks. induction cs as [|c cs IH]; [done|]. cbn [foldr].
  by rewrite insert_chunk_perm, IH.
Qed.

Lemma insert_chunk_sorted c cs :
  StronglySorted chunk_before cs → StronglySorted chunk_before (insert_chunk c cs).
Proof.
  induction 1 as [|d cs Hs IH Hd]; [by repeat constructor|]. cbn. unfold chunk_le.
  destruct (flags d <=? flags c) eqn:Hle; zbool.
  - constructor; [by constructor|]. constructor; [done|].
    eapply Forall_impl; [exact Hd|]. unfold chunk_before. intros x Hx. lia.
  - constructor; [done|]. rewrite insert_chunk_perm. constructor; [unfold chunk_before; lia|done].
Qed.

Lemma sort_chunks_sorted cs : StronglySorted chunk_before (sort_chunks cs).
Proof. induction cs as [|c cs IH]; [constructor|]. by apply insert_chunk_sorted. Qed.

Lemma sort_chunks_id cs : StronglySorted chunk_before cs → sort_chunks cs = cs.
Proof.
  induction 1 as [|d cs Hs IH Hd]; [done|].
  change (sort_chunks (d :: cs)) with (insert_chunk d (sort_chunks cs)). rewrite IH.
  destruct Hd as [|e cs He Hcs]; [done|]. cbn. unfold chunk_le, chunk_before in *.
  by rewrite (proj2 (Z.leb_le _ _)).
Qed.

(** Chunks with distinct flags have one sorted order. *)
Lemma sort_chunks_unique cs ds :
  cs ≡ₚ ds → NoDup (map flags cs) → sort_chunks cs = sort_chunks ds.
Proof.
  intros Hp Hnd. apply (StronglySorted_unique_strong chunk_before);
    [|apply sort_chunks_sorted..|by rewrite !sort_chunks_perm].
  intros x y Hx Hy Hxy Hyx. unfold chunk_before in *.
  rewrite sort_chunks_perm in Hx. rewrite sort_chunks_perm, <- Hp in Hy.
  apply (NoDup_map_inj flags cs); [done..|lia].
Qed.

(** ** Reassembly *)

Section reassembly.
Context `{Bincode}.

Definition payloads_of (ds : list bytes) (ps : list DeniablePayload) : Prop :=
  Forall2 (λ d p, deserialize_payload d = Some p) ds ps.

Definition joined (cs : list DenimChunk) : bytes := concat (map chunk cs).

Lemma joined_snoc cs c : joined (cs ++ [c]) = joined cs ++ chunk c.
Proof. unfold joined. rewrite map_app, concat_app. cbn. by rewrite app_nil_r. Qed.

(** Pending data chunks, in order, the next flag being at most [b]. *)
Definition pending_ok (b : Z) (pend : list DenimChunk) : Prop :=
  StronglySorted chunk_before pend ∧ Forall (λ c, b ≤ flags c ≤ 0 ∧ i32_min ≤ flags c) pend.

Lemma payloads_of_serialized ps : payloads_of (map serialize_payload ps) ps.
Proof. unfold payloads_of. induction ps as [|p ps IH]; constructor; [|done]. apply deserialize_serialize_payload. Qed.

Lemma pending_ok_nil : pending_ok 0 [].
Proof. split; constructor. Qed.

Lemma pending_ok_snoc b pend c :
  pending_ok b pend → i32_min ≤ flags c ≤ b → b ≤ 0 → pending_ok (flags c) (pend ++ [c]).
Proof.
  intros [Hs Hf] Hc Hb. split.
  - apply StronglySorted_app. split_and!; [|done|by repeat constructor].
    intros x y Hx Hy%list_elem_of_singleton. subst. rewrite Forall_forall in Hf.
    specialize (Hf x Hx). unfold chunk_before. lia.
  - apply Forall_app. split; [|repeat constructor; lia].
    eapply Forall_impl; [exact Hf|]. intros x Hx. cbn beta in *. lia.
Qed.

Lemma from_i32_data {E} z : z ≤ 0 → @ChunkType.from_i32 E z = Ok (ChunkType.Data z).
Proof.
  intros. unfold ChunkType.from_i32.
  rewrite !(proj2 (Z.eqb_neq z _)), (proj2 (Z.leb_le _ _)) by lia. done.
Qed.

(** On a well-flagged stream [create_deniable_payloads] is the in-order
    receiver, with the unfinished message kept as chunks. *)
Lemma create_from_absorb cs : ∀ b pend payloads ds acc ps,
  b ≤ 0 → pending_ok b pend → well_flagged b cs → absorb (joined pend) cs = (ds, acc) → payloads_of ds ps →
  ∃ pend' b', create_deniable_payloads_from payloads pend cs = Ok (payloads ++ ps, pend') ∧
    joined pend' = acc ∧ b' ≤ 0 ∧ pending_ok b' pend' ∧
    (∀ es, well_flagged b (cs ++ es) → well_flagged b' es).
Proof.
  induction cs as [|c cs IH]; intros b pend payloads ds acc ps Hb Hp Hf Ha Hps.
  { cbn in Ha. simplify_eq. inversion Hps; subst. exists pend, b.
    rewrite app_nil_r. split_and!; try done; try apply Hp. }
  cbn [absorb well_flagged create_deniable_payloads_from app] in *.
  unfold is_dummy, is_final in *. unfold ChunkType.from_i32 at 1.
  destruct (flags c =? 1) eqn:H1; [by eapply IH|].
  destruct (flags c =? 2) eqn:H2.
  - destruct (absorb [] cs) as [ds' acc'] eqn:Ha'. simplify_eq.
    inversion Hps as [|? p ? ps' Hdp Hps']; subst.
    rewrite sort_chunks_id by apply Hp. fold (joined pend). cbn [mbind outcome_bind].
    rewrite Hdp. cbn [ok_or mbind outcome_bind].
    destruct (IH 0 [] (payloads ++ [p]) ds' acc ps' ltac:(lia) pending_ok_nil Hf Ha' Hps')
      as (pend' & b' & Hrun & ?).
    exists pend', b'. rewrite Hrun, <- app_assoc. done.
  - destruct Hf as [Hfc Hf]. rewrite (proj2 (Z.leb_le (flags c) 0)) by lia. cbn [mbind outcome_bind].
    destruct (IH (flags c) (pend ++ [c]) payloads ds acc ps ltac:(lia)
                (pending_ok_snoc b pend c Hp Hfc Hb) Hf) as (pend' & b' & Hrun & Hj & Hb' & Hp' & Hes);
      [by rewrite joined_snoc|done|].
    exists pend', b'. split_and!; try done. intros es [_ Hes']. by apply Hes.
Qed.

(** The data chunks of a message may arrive in any order. *)
Lemma create_from_final pend c payloads p :
  Forall (λ c, flags c ≤ 0) pend → flags c = 2 →
  deserialize_payload (joined (sort_chunks pend) ++ chunk c) = Some p →
  create_deniable_payloads_from payloads [] (pend ++ [c]) = Ok (payloads ++ [p], []).
Proof.
  intros Hp Hc Hd.
  assert (∀ acc, Forall (λ c, flags c ≤ 0) pend →
    create_deniable_payloads_from payloads acc (pend ++ [c]) =
    create_deniable_payloads_from payloads (acc ++ pend) [c]) as Hall.
  { clear Hp Hd. induction pend as [|x pend IH]; intros acc Hp; [by rewrite app_nil_r|].
    apply Forall_cons in Hp as [Hx Hp]. cbn [app create_deniable_payloads_from].
    rewrite from_i32_data by done. cbn [mbind outcome_bind]. rewrite IH, <- app_assoc by done. done. }
  rewrite Hall by done. cbn [app create_deniable_payloads_from]. rewrite Hc. cbn [mbind outcome_bind].
  unfold joined in Hd. rewrite Hd. done.
Qed.
End reassembly.

(** ** One flush *)

Section flush.
Context `{Bincode, Base64}.

Definition page {A} (l : list A) : list A := take (Z.to_nat PAGE_SIZE) l.
Definition beyond {A} (l : list A) : list A := drop (Z.to_nat PAGE_SIZE) l.

(** The queue holds these chunks. *)
Definition holds_chunks (q : rqueue) (cs : list DenimChunk) : Prop :=
  contents q = map serialize_chunk cs ∧ Forall (λ c, in_i32 (flags c) = true) cs.

Definition item_chunk (it : item) : DenimChunk :=
  default {| chunk := []; flags := 0 |} (deserialize_chunk (it_data it)).

Lemma item_chunks its cs :
  map it_data its = map serialize_chunk cs → Forall (λ c, in_i32 (flags c) = true) cs →
  map item_chunk its = cs ∧
  Forall (λ it, deserialize_chunk (it_data it) = Some (item_chunk it)) its.
Proof.
  revert cs. induction its as [|it its IH]; intros [|c cs] Heq Hf; try done. cbn in Heq.
  injection Heq as Hit Heq. apply Forall_cons in Hf as [Hc Hf]. destruct (IH cs Heq Hf) as [<- Hits].
  assert (deserialize_chunk (it_data it) = Some c) as Hd.
  { rewrite Hit. by apply deserialize_serialize_chunk. }
  assert (item_chunk it = c) as Hic by (unfold item_chunk; by rewrite Hd).
  cbn. rewrite Hic. split; [done|]. constructor; [by rewrite Hic|done].
Qed.

Lemma chunks_decodable q cs :
  holds_chunks q cs → decodable (T:=DenimChunk) item_chunk q.
Proof.
  intros [Heq Hf] it Hit. destruct (item_chunks _ _ Heq Hf) as [_ Hd]. rewrite Forall_forall in Hd.
  apply (decode_default_entries deserialize_chunk [it] [item_chunk it]).
  constructor; [by apply Hd|constructor].
Qed.

Lemma chunk_queue_distinct a b : keys_distinct (ChunkCache.queue a b).
Proof. apply keys_of_distinct. Qed.

Lemma dequeue_incoming_run a w q cs :
  ready (ChunkCache.queue a Buffer.Sender) w q → holds_chunks q cs →
  ∃ w' q', interp server_step (ChunkCache.dequeue_incoming_chunks a) w = (Ok (page cs), w') ∧
    ready (ChunkCache.queue a Buffer.Sender) w' q' ∧ holds_chunks q' (beyond cs) ∧
    q_next q' ≤ q_next q ∧ same_but_redis w w' ∧
    writes (queue_key_list (ChunkCache.queue a Buffer.Sender)) (redis_db w) (redis_db w').
Proof.
  intros Hr Hcs. pose proof Hr as [Hh Hg Hf Hc]. pose proof Hcs as [Heq Hflags].
  unfold ChunkCache.dequeue_incoming_chunks. rewrite interp_pool_get.
  pose proof (get_values_run (ChunkCache.queue a Buffer.Sender) w q Hh) as Hget.
  erewrite interp_bind_ok; [|exact Hget]. unfold q_page. fold (page (q_items q)).
  destruct (q_items q) as [|it its] eqn:Hits.
  { unfold contents in Heq. rewrite Hits in Heq. destruct cs; [|done].
    exists w, q. unfold holds_chunks, contents. rewrite Hits. done. }
  rewrite decide_False by done. rewrite <- Hits. clear it its Hits.
  unfold ChunkCache.remove. rewrite interp_pool_get.
  destruct (remove_run (T:=DenimChunk) (ChunkCache.queue a Buffer.Sender) (chunk_queue_distinct _ _)
              item_chunk w q (map it_guid (q_page q)) Hh)
    as (w' & Hrun & Hh' & Hs & Hw).
  { apply Forall_forall. intros g (it & -> & Hit)%list_elem_of_fmap.
    pose proof (wf_names _ (holds_wf _ _ _ _ Hh)) as Hn. rewrite Forall_forall in Hn.
    apply Hn. unfold q_page in Hit. by eapply elem_of_take in Hit as (? & ?%list_elem_of_lookup_2 & ?). }
  { by eapply chunks_decodable. }
  rewrite q_remove_page in Hrun, Hh' by apply Hh. cbn [fst snd] in *.
  destruct (item_chunks _ _ Heq Hflags) as [Hchunks _].
  assert (page cs = map item_chunk (q_page q)) as ->.
  { unfold page, q_page. by rewrite <- Hchunks, fmap_take. }
  eexists w', _. split; [exact Hrun|].
  pose proof (wf_next _ (holds_wf _ _ _ _ Hh)).
  split_and!; [eapply ready_same; [done..|]| | |done|done].
  - intros it. rewrite q_reset_items. cbn [q_items]. intros Hit.
    eapply elem_of_sublist; [done|apply sublist_drop].
  - unfold holds_chunks, contents. rewrite q_reset_items. cbn [q_items]. unfold beyond. split.
    + etrans; [apply fmap_drop|]. unfold contents in Heq.
      etrans; [apply f_equal, Heq|]. symmetry. apply fmap_drop.
    + by apply Forall_drop.
  - unfold q_reset. case_decide; cbn; lia.
Qed.
Lemma create_from_sublist cs : ∀ payloads pend ps pend',
  create_deniable_payloads_from payloads pend cs = Ok (ps, pend') → sublist pend' (pend ++ cs).
Proof.
  induction cs as [|c cs IH]; intros payloads pend ps pend' Hrun; cbn in Hrun.
  { simplify_eq. by rewrite app_nil_r. }
  unfold ChunkType.from_i32 in Hrun.
  destruct (flags c =? 1); [|destruct (flags c =? 2); [|destruct (flags c <=? 0); [|done]]];
    cbn [mbind outcome_bind] in Hrun.
  - etrans; [by eapply IH|]. apply sublist_app; [done|]. by apply sublist_cons.
  - destruct (ok_or _ _) as [p|e|m]; cbn [mbind outcome_bind] in Hrun; [|done..].
    apply IH in Hrun. cbn [app] in Hrun. etrans; [done|]. apply sublist_inserts_l. by apply sublist_cons.
  - apply IH in Hrun. by rewrite <- app_assoc in Hrun.
Qed.

Lemma enqueue_incoming_run a w q cs ds :
  ready (ChunkCache.queue a Buffer.Sender) w q → holds_chunks q cs →
  Forall (λ c, in_i32 (flags c) = true) ds → q_next q + len ds < 2 ^ 31 →
  ∃ w' q' n, interp server_step (enqueue_incoming_chunk_buffer a ds) w = (Ok n, w') ∧
    ready (ChunkCache.queue a Buffer.Sender) w' q' ∧ holds_chunks q' (cs ++ ds) ∧ evolves w w' ∧
    q_next q' = q_next q + len ds ∧
    writes (queue_key_list (ChunkCache.queue a Buffer.Sender)) (redis_db w) (redis_db w').
Proof.
  intros Hr [Heq Hf] Hds Hn. pose proof (wf_next _ (holds_wf _ _ _ _ (ready_holds _ _ _ Hr))).
  pose proof (len_nonneg ds).
  destruct (enqueue_each_run (ChunkCache.queue a Buffer.Sender) (chunk_queue_distinct _ _)
              serialize_chunk a ds w q 0 Hr Hn ltac:(lia) ltac:(lia))
    as (w' & q' & n & Hrun & Hr' & Hev & Happ & Hn' & Hw).
  exists w', q', n. split_and!; [exact Hrun|done| |done|done|done].
  apply appended_contents in Happ. split; [|by apply Forall_app].
  by rewrite Happ, Heq, map_app.
Qed.

(** What a flush does, in every case. *)
Lemma flush_incoming_run a w q cs :
  ready (ChunkCache.queue a Buffer.Sender) w q → holds_chunks q cs → q_next q + 100 < 2 ^ 31 →
  ∃ w' q',
    interp server_step (flush_incoming_chunk_buffer a) w =
      (prod_map id (λ _, w') (fst <$> create_deniable_payloads (page cs), tt)) ∧
    ready (ChunkCache.queue a Buffer.Sender) w' q' ∧
    holds_chunks q' (beyond cs ++
      match create_deniable_payloads (page cs) with Ok (_, pend) => pend | _ => [] end) ∧
    evolves w w' ∧ q_next q' ≤ q_next q + 100 ∧
    writes (queue_key_list (ChunkCache.queue a Buffer.Sender)) (redis_db w) (redis_db w').
Proof.
  intros Hr Hcs Hn. destruct (dequeue_incoming_run a w q cs Hr Hcs)
    as (w1 & q1 & Hrun & Hr1 & Hcs1 & Hn1 & Hs & Hw1).
  unfold flush_incoming_chunk_buffer. rewrite (interp_bind_ok _ _ _ _ _ _ Hrun).
  rewrite interp_bind, interp_lift.
  pose proof (same_evolves _ _ Hs) as Hev1.
  destruct (create_deniable_payloads (page cs)) as [[ps pend]|e|m] eqn:Hc; cbn beta iota.
  2, 3: exists w1, q1; rewrite app_nil_r; split_and!; [done..|lia|done].
  destruct (decide (pend = [])) as [->|Hne].
  { exists w1, q1. rewrite app_nil_r. split_and!; [done..|lia|done]. }
  pose proof (create_from_sublist _ _ _ _ _ Hc) as Hsub. cbn [app] in Hsub.
  assert (len pend ≤ 100) as Hlen.
  { apply sublist_length in Hsub. unfold page in Hsub. rewrite length_take in Hsub.
    unfold len. change (Z.to_nat PAGE_SIZE) with 100%nat in Hsub. lia. }
  assert (Forall (λ c, in_i32 (flags c) = true) pend) as Hpend.
  { apply Forall_forall. intros c Hin. destruct Hcs as [_ Hf]. rewrite Forall_forall in Hf. apply Hf.
    eapply elem_of_sublist in Hin; [|done]. unfold page in Hin.
    eapply elem_of_sublist; [done|apply sublist_take]. }
  destruct (enqueue_incoming_run a w1 q1 (beyond cs) pend Hr1 Hcs1 Hpend ltac:(lia))
    as (w2 & q2 & n & Hrun2 & Hr2 & Hcs2 & Hev2 & Hn2 & Hw2).
  rewrite (interp_bind_ok _ _ _ _ _ _ Hrun2). exists w2, q2.
  split_and!; [done|done|done|by etrans|lia|by etrans].
Qed.

(** ** Rounds of receiving *)

Definition has_final (cs : list DenimChunk) : bool := existsb is_final cs.
Definition no_dummies (cs : list DenimChunk) : list DenimChunk := filter (λ c, flags c ≠ 1) cs.

Lemma absorb_no_dummies acc cs : absorb acc (no_dummies cs) = absorb acc cs.
Proof.
  revert acc. induction cs as [|c cs IH]; intros acc; [done|]. unfold no_dummies in *.
  rewrite filter_cons. cbn [absorb]. unfold is_dummy. case_decide as Hd.
  - cbn [absorb]. unfold is_dummy. rewrite !(proj2 (Z.eqb_neq (flags c) 1)) by done.
    destruct (is_final c); [|apply IH]. by rewrite IH.
  - rewrite Hd. apply IH.
Qed.

Lemma well_flagged_no_dummies b cs es :
  well_flagged b (cs ++ es) → well_flagged b (no_dummies cs ++ es).
Proof.
  revert b. induction cs as [|c cs IH]; intros b Hf; [done|]. unfold no_dummies in *.
  rewrite filter_cons. cbn [app well_flagged] in Hf. unfold is_dummy in Hf. case_decide as Hd.
  - cbn [app well_flagged]. unfold is_dummy. rewrite (proj2 (Z.eqb_neq _ _)) in Hf |- * by done.
    destruct (is_final c); [by apply IH|]. destruct Hf. split; [done|by apply IH].
  - rewrite Hd in Hf. by apply IH.
Qed.

Lemma well_flagged_i32 b cs :
  b ≤ 0 → well_flagged b cs → Forall (λ c, in_i32 (flags c) = true) cs.
Proof.
  revert b. induction cs as [|c cs IH]; intros b Hb Hf; [constructor|]. cbn in Hf.
  unfold is_dummy, is_final in Hf.
  destruct (flags c =? 1) eqn:H1; [|destruct (flags c =? 2) eqn:H2]; zbool.
  - constructor; [by rewrite H1|by eapply IH].
  - constructor; [by rewrite H2|by eapply (IH 0)].
  - destruct Hf as [Hc Hf]. constructor; [unfold in_i32, i32_max; lia|eapply IH; [|done]; lia].
Qed.

Lemma absorb_no_final acc cs ds acc' :
  has_final cs = false → absorb acc cs = (ds, acc') → ds = [].
Proof.
  revert acc. induction cs as [|c cs IH]; intros acc Hn Ha; cbn in *; [by simplify_eq|].
  apply orb_false_iff in Hn as [Hc Hn]. rewrite Hc in Ha. destruct (is_dummy c); by eapply IH.
Qed.

Lemma well_flagged_app_l b cs es : well_flagged b (cs ++ es) → well_flagged b cs.
Proof.
  revert b. induction cs as [|c cs IH]; intros b Hf; [done|]. cbn in *.
  destruct (is_dummy c); [by apply IH|]. destruct (is_final c); [by apply IH|].
  destruct Hf. split; [done|by apply IH].
Qed.

(** Data chunks that follow a pending prefix extend it. *)
Lemma pending_extend b pend cs :
  b ≤ 0 → pending_ok b pend → well_flagged b cs → no_dummies cs = cs → has_final cs = false →
  ∃ b', b' ≤ 0 ∧ pending_ok b' (pend ++ cs) ∧ (∀ es, well_flagged b (cs ++ es) → well_flagged b' es).
Proof.
  revert b pend. induction cs as [|c cs IH]; intros b pend Hb Hp Hf Hnd Hn.
  { exists b. rewrite app_nil_r. split_and!; try done; apply Hp. }
  cbn [has_final existsb well_flagged app] in *. apply orb_false_iff in Hn as [Hc Hn].
  unfold no_dummies in Hnd. rewrite filter_cons in Hnd. case_decide as Hd.
  2: { exfalso. assert (c ∈ c :: cs) as Hin by left. rewrite <- Hnd in Hin.
       apply list_elem_of_filter in Hin as [? _]. done. }
  injection Hnd as Hnd. unfold is_dummy in *. rewrite (proj2 (Z.eqb_neq _ _)) in * by done.
  rewrite Hc in Hf |- *. destruct Hf as [Hfc Hf].
  destruct (IH (flags c) (pend ++ [c]) ltac:(lia) (pending_ok_snoc b pend c Hp Hfc Hb) Hf Hnd Hn)
    as (b' & Hb' & Hp' & Hes).
  exists b'. rewrite <- app_assoc in Hp'. split_and!; try done; try apply Hp'.
  intros es [_ Hes']. by apply Hes.
Qed.
(** The data chunks that follow the last final chunk. *)
Fixpoint trailing (pend cs : list DenimChunk) : list DenimChunk :=
  match cs with
  | [] => pend
  | c :: cs =>
      if is_dummy c then trailing pend cs
      else if is_final c then trailing [] cs
      else trailing (pend ++ [c]) cs
  end.

Lemma create_from_trailing cs : ∀ payloads pend ps pend',
  create_deniable_payloads_from payloads pend cs = Ok (ps, pend') → pend' = trailing pend cs.
Proof.
  induction cs as [|c cs IH]; intros payloads pend ps pend' Hrun; cbn in *; [by simplify_eq|].
  unfold ChunkType.from_i32, is_dummy, is_final in *.
  destruct (flags c =? 1); [by eapply IH|]. destruct (flags c =? 2).
  - cbn [mbind outcome_bind] in Hrun. destruct (ok_or _ _); [by eapply IH|done..].
  - destruct (flags c <=? 0); [by eapply IH|done].
Qed.

Lemma trailing_app pend cs ds : trailing pend (cs ++ ds) = trailing (trailing pend cs) ds.
Proof.
  revert pend. induction cs as [|c cs IH]; intros pend; [done|]. cbn.
  destruct (is_dummy c); [done|]. by destruct (is_final c).
Qed.

Lemma trailing_no_dummies pend cs : trailing pend (no_dummies cs) = trailing pend cs.
Proof.
  revert pend. induction cs as [|c cs IH]; intros pend; [done|]. unfold no_dummies in *.
  rewrite filter_cons. cbn [trailing]. unfold is_dummy. case_decide as Hd.
  - cbn [trailing]. unfold is_dummy. rewrite !(proj2 (Z.eqb_neq (flags c) 1)) by done.
    by destruct (is_final c).
  - rewrite Hd. apply IH.
Qed.

Lemma trailing_no_final pend cs :
  no_dummies cs = cs → has_final cs = false → trailing pend cs = pend ++ cs.
Proof.
  revert pend. induction cs as [|c cs IH]; intros pend Hnd Hn; [by rewrite app_nil_r|].
  cbn [has_final existsb trailing] in *. apply orb_false_iff in Hn as [Hc Hn]. rewrite Hc.
  unfold no_dummies in Hnd. rewrite filter_cons in Hnd. case_decide as Hd.
  - injection Hnd as Hnd. unfold is_dummy. rewrite (proj2 (Z.eqb_neq _ _)) by done.
    rewrite IH, <- app_assoc by done. done.
  - exfalso. assert (c ∈ c :: cs) as Hin by left. rewrite <- Hnd in Hin.
    apply list_elem_of_filter in Hin as [? _]. done.
Qed.

(** A pending message needs no more than one page of the queue at a time. *)
Fixpoint fits (pend : list DenimChunk) (batches : list (list DenimChunk)) : Prop :=
  match batches with
  | [] => True
  | b :: bs => len pend + len (no_dummies b) ≤ PAGE_SIZE ∧ fits (trailing pend b) bs
  end.

Lemma trailing_length cs : ∀ pend, len (trailing pend cs) ≤ len pend + len (no_dummies cs).
Proof.
  induction cs as [|c cs IH]; intros pend; cbn [trailing]; [pose proof (len_nonneg (no_dummies [])); lia|].
  unfold no_dummies, is_dummy. rewrite filter_cons. fold (no_dummies cs). pose proof (len_nonneg pend).
  pose proof (len_nonneg (no_dummies cs)). destruct (flags c =? 1) eqn:Hd; zbool.
  - rewrite decide_False by tauto. apply IH.
  - rewrite decide_True, len_cons by done. destruct (is_final c).
    + specialize (IH []). rewrite len_nil in IH. lia.
    + specialize (IH (pend ++ [c])). rewrite len_app, len_cons, len_nil in IH. lia.
Qed.

(** All the chunks on one page. *)
Lemma fits_small batches : ∀ pend, len pend + len (no_dummies (concat batches)) ≤ PAGE_SIZE → fits pend batches.
Proof.
  induction batches as [|b batches IH]; intros pend Hp; [done|]. cbn [concat fits] in *.
  unfold no_dummies in Hp. rewrite filter_app, len_app in Hp. fold (no_dummies b) (no_dummies (concat batches)) in Hp.
  pose proof (trailing_length b pend). pose proof (len_nonneg (no_dummies (concat batches))). split; [lia|apply IH; lia].
Qed.

(** The incoming buffer of a sender: the chunks of an unfinished message. *)
Record inbox (a : ProtocolAddress) (w : world) (pend : list DenimChunk) (b n : Z) : Prop := {
  inbox_queue : ∃ q, ready (ChunkCache.queue a Buffer.Sender) w q ∧ holds_chunks q pend ∧ q_next q ≤ n;
  inbox_pending : pending_ok b pend;
  inbox_bound : b ≤ 0;
}.

Lemma no_dummies_idemp cs : no_dummies (no_dummies cs) = no_dummies cs.
Proof. apply filter_all. intros x Hx. by apply list_elem_of_filter in Hx as [? _]. Qed.

Lemma receive_chunks_run a w pend b n batch ds acc ps :
  inbox a w pend b n → well_flagged b batch → absorb (joined pend) batch = (ds, acc) →
  payloads_of ds ps → len pend + len (no_dummies batch) ≤ PAGE_SIZE → n + 200 < 2 ^ 31 →
  ∃ w' b', interp server_step (receive_chunks a batch) w = (Ok ps, w') ∧
    inbox a w' (trailing pend batch) b' (n + 200) ∧ joined (trailing pend batch) = acc ∧
    (∀ es, well_flagged b (batch ++ es) → well_flagged b' es) ∧ evolves w w' ∧
    writes (queue_key_list (ChunkCache.queue a Buffer.Sender)) (redis_db w) (redis_db w').
Proof.
  intros [(q & Hr & Hcs & Hq) Hp Hb] Hf Ha Hps Hfit Hn. unfold receive_chunks.
  cbn [ChunkType.into_i32]. fold (no_dummies batch).
  pose proof (well_flagged_no_dummies b batch) as Hwf.
  rewrite <- absorb_no_dummies in Ha. rewrite <- trailing_no_dummies.
  assert (well_flagged b (no_dummies batch)) as Hf'.
  { specialize (Hwf []). rewrite !app_nil_r in Hwf. by apply Hwf. }
  pose proof (no_dummies_idemp batch) as Hnd.
  revert Hwf Ha Hfit Hf' Hnd. generalize (no_dummies batch). intros cs Hwf Ha Hfit Hf' Hnd.
  pose proof (len_nonneg cs). pose proof (len_nonneg pend).
  destruct (decide (cs = [])) as [->|Hne].
  { cbn in Ha. simplify_eq. inversion Hps; subst. exists w, b. split_and!; [done| |done| |done|done].
    - split; [|done|done]. exists q. split_and!; [done|done|lia].
    - intros es Hes. by apply (Hwf es) in Hes. }
  assert (Forall (λ c, in_i32 (flags c) = true) cs) as Hi32 by (by eapply well_flagged_i32).
  unfold PAGE_SIZE in Hfit.
  destruct (enqueue_incoming_run a w q pend cs Hr Hcs Hi32 ltac:(lia))
    as (w1 & q1 & n1 & Hrun & Hr1 & Hcs1 & Hev1 & Hn1 & Hw1).
  rewrite (interp_bind_ok _ _ _ _ _ _ Hrun).
  change (existsb (λ c, flags c =? 2) cs) with (has_final cs).
  destruct (has_final cs) eqn:Hfinal.
  - (* flush *)
    assert (page (pend ++ cs) = pend ++ cs ∧ beyond (pend ++ cs) = []) as [Hpage Hbeyond].
    { unfold page, beyond, PAGE_SIZE. unfold len in Hfit.
      split; [apply take_ge|apply drop_ge]; rewrite length_app; lia. }
    destruct (flush_incoming_run a w1 q1 (pend ++ cs) Hr1 Hcs1 ltac:(lia))
      as (w2 & q2 & Hrun2 & Hr2 & Hcs2 & Hev2 & Hn2 & Hw2).
    rewrite Hpage in Hrun2, Hcs2. rewrite Hbeyond in Hcs2. cbn [app] in Hcs2.
    assert (∀ c, c ∈ pend → flags c ≤ 0) as Hdata.
    { intros c Hc. destruct Hp as [_ Hp]. rewrite Forall_forall in Hp. specialize (Hp c Hc). lia. }
    assert (∀ pre post, (∀ c, c ∈ pre → flags c ≤ 0) →
              create_deniable_payloads_from [] post (pre ++ cs) =
              create_deniable_payloads_from [] (post ++ pre) cs) as Hall.
    { intros pre. induction pre as [|x pre IH]; intros post Hpre; [by rewrite app_nil_r|].
      cbn [app create_deniable_payloads_from]. rewrite from_i32_data by (apply Hpre; left).
      cbn [mbind outcome_bind]. rewrite IH by (intros; apply Hpre; by right). by rewrite <- app_assoc. }
    unfold create_deniable_payloads in Hrun2, Hcs2. rewrite Hall in Hrun2, Hcs2 by done.
    cbn [app] in Hrun2, Hcs2.
    destruct (create_from_absorb cs b pend [] ds acc ps Hb Hp Hf' Ha Hps)
      as (pend' & b' & Hc & Hj & Hb' & Hp' & Hes).
    rewrite Hc in Hrun2, Hcs2. pose proof (create_from_trailing _ _ _ _ _ Hc) as Ht. subst pend'.
    exists w2, b'. split_and!; [done| |done|by intros es Hes'%Hwf; apply Hes|by etrans|by etrans].
    split; [|done|done]. exists q2. split_and!; [done|done|lia].
  - (* keep *)
    rewrite (trailing_no_final _ _ Hnd Hfinal).
    pose proof (absorb_no_final _ _ _ _ Hfinal Ha) as ->. inversion Hps; subst.
    destruct (pending_extend b pend cs Hb Hp Hf' Hnd Hfinal) as (b' & Hb' & Hp' & Hes).
    destruct (create_from_absorb cs b pend [] [] acc [] Hb Hp Hf' Ha ltac:(constructor))
      as (pend' & b'' & Hc & Hj & _).
    apply create_from_trailing in Hc. rewrite (trailing_no_final _ _ Hnd Hfinal) in Hc. subst pend'.
    exists w1, b'. split_and!; [done| |done|by intros es Hes'%Hwf; apply Hes|done|done].
    split; [|done|done]. exists q1. split_and!; [done|done|lia].
Qed.

(** The server receives the chunks of several messages of one sender. *)
Definition receive_all (a : ProtocolAddress) (batches : list (list DenimChunk))
    : prog serverE string (list DeniablePayload) :=
  for_each batches [] (λ batch out, ps ← receive_chunks a batch; Ret (out ++ ps)).

Lemma absorb_app_inv acc cs ds out acc2 :
  absorb acc (cs ++ ds) = (out, acc2) →
  ∃ out1 acc1 out2, absorb acc cs = (out1, acc1) ∧ absorb acc1 ds = (out2, acc2) ∧ out = out1 ++ out2.
Proof.
  rewrite absorb_app. destruct (absorb acc cs) as [o1 a1]. destruct (absorb a1 ds) as [o2 a2] eqn:H2.
  intros [= <- <-]. by exists o1, a1, o2.
Qed.

Lemma receive_all_run a batches : ∀ w pend b n ds acc ps out,
  inbox a w pend b n → well_flagged b (concat batches) →
  absorb (joined pend) (concat batches) = (ds, acc) → payloads_of ds ps → fits pend batches →
  n + 200 * len batches < 2 ^ 31 →
  ∃ w' b' pend', interp server_step
      (for_each batches out (λ batch out, ps ← receive_chunks a batch; Ret (out ++ ps))) w
      = (Ok (out ++ ps), w') ∧
    inbox a w' pend' b' (n + 200 * len batches) ∧ joined pend' = acc.
Proof.
  induction batches as [|batch batches IH]; intros w pend b n ds acc ps out Hin Hf Ha Hps Hfit Hn.
  { cbn in Ha. simplify_eq. inversion Hps; subst. exists w, b, pend. rewrite app_nil_r.
    change (len []) with 0. split_and!; [done| |done]. by replace (n + 200 * 0) with n by lia. }
  cbn [concat for_each fits] in *. rewrite len_cons in *. pose proof (len_nonneg batches).
  apply absorb_app_inv in Ha as (ds1 & acc1 & ds2 & Ha1 & Ha2 & ->).
  apply Forall2_app_inv_l in Hps as (ps1 & ps2 & Hps1 & Hps2 & ->).
  destruct Hfit as [Hfit Hfits].
  destruct (receive_chunks_run a w pend b n batch ds1 acc1 ps1 Hin (well_flagged_app_l _ _ _ Hf)
              Ha1 Hps1 Hfit ltac:(lia)) as (w1 & b1 & Hrun & Hin1 & Hj & Hes & _).
  rewrite interp_bind, interp_bind, Hrun. cbn [interp].
  destruct (IH w1 (trailing pend batch) b1 (n + 200) ds2 acc ps2 (out ++ ps1) Hin1 (Hes _ Hf))
    as (w2 & b2 & pend2 & Hrun2 & Hin2 & Hj2); [by rewrite Hj|done|done|lia|].
  exists w2, b2, pend2. rewrite Hrun2, <- app_assoc. split_and!; [done| |done].
  by replace (n + 200 * (1 + len batches)) with (n + 200 + 200 * len batches) by lia.
Qed.

Lemma empty_inbox a w n : 0 ≤ n →
  ready (ChunkCache.queue a Buffer.Sender) w empty_queue → inbox a w [] 0 n.
Proof.
  intros Hn Hr. split; [|apply pending_ok_nil|done]. exists empty_queue.
  split_and!; [done|by split|done].
Qed.
End flush.

(** ** Properties *)

(** C4: the server gets what the client sends.  Let the client send away its
    queue of serialized payloads with some regular messages, and the server,
    which behaves as documented and has nothing pending from this client,
    receive the chunks of these messages in order.  If at no time the chunks
    that are pending together with those of the next message are more than
    the hundred of a page of the server's queue, the server hands on exactly
    the client's payloads, in order, each once, and keeps nothing. *)
Theorem client_payloads_reach_server `{Bincode, Base64} {S} (h : handler serverE string S)
    (view : S → world) (no_message : string) (self : Chunker) (a : ProtocolAddress) (sizes : list f32) (q : sending_queue)
    (css : list (list DenimChunk)) (ps : list DeniablePayload) (s : S)
    (Hdoc : documented h view)
    (Hqueue : map q_msg q = map serialize_payload ps)
    (Hq : sendable q) (Hcnt : ∀ x, x ∈ q → x.2 ≤ 0)
    (Hsizes : Forall (λ size, 20 < total_free_space self size) sizes)
    (Hsend : interp (fifo_buffer no_message) (send_all self sizes []) q = (Ok css, []))
    (Hready : ready (ChunkCache.queue a Buffer.Sender) (view s) empty_queue)
    (Hfits : fits [] css) (Hshort : 200 * len css < 2 ^ 31) :
  ∃ s' b n, interp h (receive_all a css) s = (Ok ps, s') ∧
            ∃ pend, inbox a (view s') pend b n ∧ joined pend = [].
Proof.
  destruct (send_all_fifo no_message self sizes q [] Hq Hcnt Hsizes) as (css' & q' & Hrun & Hstream & Hflags & _).
  rewrite Hsend in Hrun. injection Hrun as <- <-. cbn [map whole app] in *.
  specialize (Hstream []). rewrite app_nil_r, absorb_whole, Hqueue in Hstream.
  assert (well_flagged 0 (concat css)) as Hf.
  { rewrite <- (app_nil_r (concat css)). apply (Hflags []); [by intros b _ _| |lia].
    destruct q as [|x q]; [done|]. apply Hcnt. left. }
  destruct (receive_all_run a css (view s) [] 0 0 (map serialize_payload ps) [] ps [])
    as (w' & b' & pend' & Hrun & Hin & Hj); [by apply empty_inbox|done|done|apply payloads_of_serialized|done|done|].
  destruct (sim_run _ _ _ _ _ _ _ Hdoc Hrun) as (s' & Hrun' & <-). eauto 10.
Qed.

Definition demo_queue : sending_queue :=
  [(1, serialize_payload demo_payload, 0); (2, serialize_payload demo_payload, 0)].
Definition demo_sizes : list f32 := replicate 8 (f32_of_usize 50).

Lemma client_payloads_reach_server_witness :
  ∃ css s' b n,
    interp (fifo_buffer "empty") (send_all Chunker_default demo_sizes []) demo_queue = (Ok css, []) ∧
    interp server_step (receive_all demo_address css) empty_world
      = (Ok [demo_payload; demo_payload], s') ∧
    ∃ pend, inbox demo_address s' pend b n ∧ joined pend = [].
Proof.
  eexists. assert (∀ P Q : Prop, P → Q → P ∧ Q) as Hand by done.
  destruct (client_payloads_reach_server server_step id "empty" Chunker_default demo_address demo_sizes
              demo_queue (match (interp (fifo_buffer "empty") (send_all Chunker_default demo_sizes []) demo_queue).1
                          with Ok css => css | _ => [] end)
              [demo_payload; demo_payload] empty_world) as (s' & b & n & Hrun & Hin).
  - apply sim_refl.
  - reflexivity.
  - split; [apply (bool_decide_unpack _); by vm_compute|].
    repeat constructor; try discriminate; vm_compute; done.
  - intros x. unfold demo_queue. rewrite !elem_of_cons, elem_of_nil. intros [->|[->|[]]]; vm_compute; discriminate.
  - apply Forall_replicate. vm_compute. done.
  - vm_compute. reflexivity.
  - apply empty_ready.
  - vm_compute. repeat split; discriminate.
  - vm_compute. reflexivity.
  - exists s', b, n. split; [vm_compute; reflexivity|]. by split.
Defined.

(** C32: the server reassembles a payload from data chunks that arrive in any
    order, as long as their flags tell them apart and the final chunk comes
    last. *)
Theorem reassembly_tolerates_reordering `{Bincode} (sent received : list DenimChunk) (final : DenimChunk)
    (p : DeniablePayload)
    (Hperm : sent ≡ₚ received) (Hsorted : StronglySorted chunk_before sent)
    (Hdistinct : NoDup (map flags sent)) (Hdata : Forall (λ c, flags c ≤ 0) sent)
    (Hfinal : flags final = ChunkType.into_i32 ChunkType.Final)
    (Hpayload : deserialize_payload (joined sent ++ chunk final) = Some p) :
  create_deniable_payloads (received ++ [final]) = Ok ([p], []).
Proof.
  apply (create_from_final received final [] p); [by rewrite <- Hperm|done|].
  by rewrite <- (sort_chunks_unique sent received), sort_chunks_id.
Qed.

Lemma reassembly_tolerates_reordering_witness :
  let bs := serialize_payload demo_payload in
  let c1 := {| chunk := take 3 bs; flags := 0 |} in
  let c2 := {| chunk := take 4 (drop 3 bs); flags := -1 |} in
  let final := {| chunk := drop 7 bs; flags := 2 |} in
  create_deniable_payloads ([c2; c1] ++ [final]) = Ok ([demo_payload], []).
Proof.
  intros bs c1 c2 final.
  apply (reassembly_tolerates_reordering [c1; c2] [c2; c1] final demo_payload).
  - apply Permutation_swap.
  - repeat constructor; vm_compute; discriminate.
  - apply (bool_decide_unpack _). by vm_compute.
  - repeat constructor; vm_compute; discriminate.
  - reflexivity.
  - vm_compute. reflexivity.
Defined.

(** A flush of more than a page of chunks misplaces chunks.  When the
    first page holds data chunks only, the flush returns no payload, and the
    chunks of the first page end up behind the ones beyond it, a final chunk
    included: the message they belong to can no longer be reassembled from
    the order of the queue. *)
Theorem flush_beyond_a_page_misplaces_chunks `{Bincode, Base64} {S} (h : handler serverE string S)
    (view : S → world) (a : ProtocolAddress) (q : rqueue) (cs : list DenimChunk) (s : S)
    (Hdoc : documented h view) (Hready : ready (ChunkCache.queue a Buffer.Sender) (view s) q)
    (Hholds : holds_chunks q cs) (Hids : q_next q + 100 < 2 ^ 31)
    (Hdata : Forall (λ c, flags c ≤ 0) (page cs)) (Hmore : PAGE_SIZE < len cs) :
  ∃ s' q', interp h (flush_incoming_chunk_buffer a) s = (Ok [], s') ∧
           ready (ChunkCache.queue a Buffer.Sender) (view s') q' ∧
           holds_chunks q' (beyond cs ++ page cs) ∧ beyond cs ≠ [].
Proof.
  destruct (flush_incoming_run a (view s) q cs Hready Hholds Hids) as (w' & q' & Hrun & Hr & Hc & _).
  assert (∀ pre post, Forall (λ c, flags c ≤ 0) pre →
            create_deniable_payloads_from [] post pre = Ok ([], post ++ pre)) as Hall.
  { intros pre. induction pre as [|x pre IH]; intros post Hpre; cbn; [by rewrite app_nil_r|].
    apply Forall_cons in Hpre as [Hx Hpre]. rewrite from_i32_data by done.
    cbn [mbind outcome_bind]. rewrite IH, <- app_assoc by done. done. }
  unfold create_deniable_payloads in Hrun, Hc. rewrite (Hall _ []) in Hrun, Hc by done.
  cbn [fmap outcome_fmap prod_map fst snd id app] in Hrun, Hc.
  destruct (sim_run _ _ _ _ _ _ _ Hdoc Hrun) as (s' & Hrun' & <-).
  exists s', q'. split_and!; [done..|]. intros Hnil.
  apply (f_equal length) in Hnil. unfold beyond in Hnil. rewrite length_drop in Hnil.
  unfold len in Hmore. unfold PAGE_SIZE in *. cbn in Hnil. lia.
Qed.

(** 101 data chunks and a final one, queued. *)
Definition demo_long : list DenimChunk :=
  map (λ i, {| chunk := [x07]; flags := - Z.of_nat i |}) (seq 0 101) ++ [{| chunk := [x08]; flags := 2 |}].

Lemma flush_beyond_a_page_misplaces_chunks_witness :
  ∃ w q s' q', interp server_step (enqueue_incoming_chunk_buffer demo_address demo_long) empty_world
                 = (Ok 5253, w) ∧ holds_chunks q demo_long ∧
    interp server_step (flush_incoming_chunk_buffer demo_address) w = (Ok [], s') ∧
    ready (ChunkCache.queue demo_address Buffer.Sender) s' q' ∧
    holds_chunks q' (beyond demo_long ++ page demo_long) ∧ beyond demo_long ≠ [].
Proof.
  assert (Forall (λ c, in_i32 (flags c) = true) demo_long) as Hi.
  { apply (bool_decide_unpack _). by vm_compute. }
  destruct (enqueue_incoming_run demo_address empty_world empty_queue [] demo_long
              (empty_ready _) ltac:(by split) Hi ltac:(by vm_compute))
    as (w & q & n & Hrun & Hr & Hh & _ & Hn & _).
  exists w, q.
  destruct (flush_beyond_a_page_misplaces_chunks server_step id demo_address q demo_long w)
    as (s' & q' & Hflush).
  - apply sim_refl.
  - exact Hr.
  - exact Hh.
  - rewrite Hn. by vm_compute.
  - apply (bool_decide_unpack _). by vm_compute.
  - by vm_compute.
  - exists s', q'. split; [|by split].
    assert (n = 5253) as <-; [|done].
    assert ((interp server_step (enqueue_incoming_chunk_buffer demo_address demo_long) empty_world).1
            = Ok 5253) as Hv by (vm_compute; reflexivity).
    rewrite Hrun in Hv. by injection Hv.
Defined.

(** A chunk whose flag is above the known ones makes the server panic
    while it reassembles, whatever came before it in the buffer: the client
    chooses the flags. *)
Theorem unknown_chunk_flag_panics `{Bincode} (before after : list DenimChunk) (c : DenimChunk)
    (Hbefore : Forall (λ d, flags d ≤ 1) before) (Hflag : 2 < flags c) :
  is_panic (create_deniable_payloads (before ++ c :: after)) = true.
Proof.
  unfold create_deniable_payloads. generalize (@nil DeniablePayload) (@nil DenimChunk).
  induction Hbefore as [|d before Hd Hbefore IH]; intros payloads pend; cbn [app create_deniable_payloads_from];
    unfold ChunkType.from_i32.
  - rewrite !(proj2 (Z.eqb_neq (flags c) _)), (proj2 (Z.leb_gt _ _)) by lia. done.
  - destruct (flags d =? 1) eqn:H1; [apply IH|]. zbool.
    rewrite (proj2 (Z.eqb_neq (flags d) 2)), (proj2 (Z.leb_le _ _)) by lia. apply IH.
Qed.

Lemma unknown_chunk_flag_panics_witness :
  is_panic (create_deniable_payloads ([{| chunk := [x01]; flags := 0 |}] ++ {| chunk := []; flags := 3 |} :: [])) = true.
Proof.
  apply unknown_chunk_flag_panics; [by repeat constructor; vm_compute|by vm_compute].
Defined.
