(* ===== verification/Messaging.v ===== *)
(** Sending messages: [handle_put_messages] and [handle_receiving_chunks] of
    [server/src/server/server.rs], which put regular messages into the queues
    of their devices and pass deniable payloads on. *)
From S2P Require Export Registration DenimIncoming MessagesManager Queues.

Local Open Scope Z_scope.
Local Open Scope denim_scope.

(** ** Definitions *)

(** What the handlers reach through the state of the server: the managers and
    the database. *)
Inductive stateE : Type → Type :=
| OnServer {X} (c : serverE X) : stateE X
| OnDatabase {X} (c : databaseE X) : stateE X.

Definition managers {A} (p : prog serverE string A) : prog stateE string A := expand (λ X c, op (OnServer c)) p.
Definition on_database {A} (p : prog databaseE string A) : prog stateE string A := expand (λ X c, op (OnDatabase c)) p.

(** [.await.map_err(f)?] *)
Definition or_api {A} (f : string → ApiError) (p : prog stateE string A) : prog stateE string (ApiError + A) :=
  r ← try_ p; Ret (match r with inl e => inl (f e) | inr a => inr a end).

(** A function that panics or returns. *)
Definition unwrap {A} (o : outcome string A) : prog stateE string A :=
  match o with Ok a => Ret a | Err e => Crash e | Panic w => Crash w end.

(** How errors of the validators are written ([serde_json]), and the order in
    which a [HashMap] is iterated. *)
Class ServerText := {
  mismatched_json : MismatchedDevicesError → string;
  stale_json : StaleDevicesError → string;
  map_order {A} : list A → list A;
  map_order_perm {A} (l : list A) : map_order l ≡ₚ l;
}.

Record SendMessageResponse := { needs_sync : bool }.

Definition GONE : Z := 410.

Section handlers.
Context `{Bincode, Base64, ServiceIdText, ServerText}.

(** [map.entry(account).or_insert_with(Vec::new).push(payload)] *)
Fixpoint push_payload (account : Account) (payload : DeniablePayload) (map : list (Account * list DeniablePayload))
    : list (Account * list DeniablePayload) :=
  match map with
  | [] => [(account, [payload])]
  | (a, ps) :: map =>
      if decide (a = account) then (a, ps ++ [payload]) :: map
      else (a, ps) :: push_payload account payload map
  end.

(** [u32::from(device_id) as u8] *)
Definition sender_device_id (authenticated_device : AuthenticatedDevice) : Z :=
  dev_id (ad_device authenticated_device) mod 256.

(** One payload of a sender: what it becomes is kept for an account. *)
Definition route_payload (authenticated_device : AuthenticatedDevice) (receiver_device_id payload_timestamp : Z)
    (deniable_payload : DeniablePayload) (account_payloads_map : list (Account * list DeniablePayload))
    : prog stateE string (list (Account * list DeniablePayload)) :=
  match deniable_payload with
  | KeyRequest pre_key_request =>
      receiver_service_id ← lift (ok_or "Failed to get service id"
        (parse_from_service_id_string (request_service_id pre_key_request)));
      r ← on_database (handle_get_keys_id_device_id authenticated_device receiver_service_id (show receiver_device_id));
      pre_key_response ← match r with
        | inl _ => Crash "Failed to create pre key response: {e}"
        | inr response => Ret response
        end;
      Ret (push_payload (ad_account authenticated_device) (KeyResponse pre_key_response) account_payloads_map)
  | DeniableSignalMessage signal_message =>
      destination ← lift (expect "Failed to get destination ACI" (destination_service_id signal_message));
      receiver_service_id ← lift (expect "Failed to parse string to ServiceId" (parse_from_service_id_string destination));
      now ← managers (op Now);
      envelope ← unwrap (to_envelope signal_message receiver_service_id (ad_account authenticated_device)
        (sender_device_id authenticated_device) payload_timestamp false now);
      receiver_account ← on_database (op (Db_get_account receiver_service_id));
      Ret (push_payload receiver_account (DeniableEnvelope envelope) account_payloads_map)
  | _ => Ret account_payloads_map
  end.

(** The payloads of an account are queued for each of its devices. *)
Definition enqueue_for_account (account : Account) (payloads : list DeniablePayload) : prog stateE string unit :=
  for_each (acc_devices account) tt (λ device _,
    _ ← managers (enqueue_outgoing_payload_buffer (get_protocol_address account KindAci (dev_id device)) payloads);
    Ret tt).

Definition handle_receiving_chunks (authenticated_device : AuthenticatedDevice) (destination : Account)
    (chunks : list DenimChunk) (payload_timestamp : Z) : prog stateE string unit :=
  let chunks := filter (λ c, flags c ≠ ChunkType.into_i32 ChunkType.Dummy) chunks in
  if decide (chunks = []) then Ret tt
  else
    receiver_device_id ← lift (ok_or "Error" (dev_id <$> head (acc_devices destination)));
    let sender := authenticated_address authenticated_device KindAci in
    deniable_payloads ← managers (receive_chunks sender chunks);
    account_payloads_map ← for_each deniable_payloads [] (λ payload map,
      route_payload authenticated_device receiver_device_id payload_timestamp payload map);
    for_each (map_order account_payloads_map) tt (λ '(account, payloads) _, enqueue_for_account account payloads).

(** The fold over the messages. *)
Definition regular_messages_of (payload : DenimMessages f32) : list SignalMessage :=
  omap (λ m, match regular_payload m with RegularSignalMessage s => Some s | RegularEnvelope _ => None end)
    (dms_messages payload).
Definition chunks_of (payload : DenimMessages f32) : list DenimChunk := concat (map dm_chunks (dms_messages payload)).

Definition insert_message (authenticated_device : AuthenticatedDevice) (destination_identifier : ServiceId)
    (destination : Account) (timestamp : Z) (message : SignalMessage) : prog stateE string (ApiError + unit) :=
  now ← managers (op Now);
  envelope ← unwrap (to_envelope message destination_identifier (ad_account authenticated_device)
    (sender_device_id authenticated_device) timestamp false now);
  let address := {| name := service_id_string (Aci (aci destination)); device_id := destination_device_id message |} in
  let? _ := or_api (λ _, api_error INTERNAL_SERVER_ERROR "Could not insert message")
    (managers (MessagesManager.insert address envelope)) in
  api_ret tt.

Fixpoint insert_messages (authenticated_device : AuthenticatedDevice) (destination_identifier : ServiceId)
    (destination : Account) (timestamp : Z) (messages : list SignalMessage) : prog stateE string (ApiError + unit) :=
  match messages with
  | [] => api_ret tt
  | message :: messages =>
      let? _ := insert_message authenticated_device destination_identifier destination timestamp message in
      insert_messages authenticated_device destination_identifier destination timestamp messages
  end.

Definition is_pni (s : ServiceId) : bool := match s with Pni _ => true | Aci _ => false end.

(** What a request is checked for before anything is stored: the account it
    is for. *)
Definition check_messages (authenticated_device : AuthenticatedDevice) (destination_identifier : ServiceId)
    (messages : list SignalMessage) : prog stateE string (ApiError + Account) :=
  let account := ad_account authenticated_device in
  if decide (destination_identifier = Pni (pni account)) then api_err (api_error FORBIDDEN "")
  else
    let is_sync_message := bool_decide (destination_identifier = Aci (aci account)) in
    let? destination :=
      if is_sync_message then api_ret account
      else or_api (λ _, api_error NOT_FOUND "Destination account not found")
             (on_database (op (Db_get_account destination_identifier))) in
    let exclude_device_ids := if is_sync_message then [dev_id (ad_device authenticated_device)] else [] in
    let? _ :=
      match validate_complete_device_list destination (map destination_device_id messages) exclude_device_ids with
      | inl err => api_err (api_error CONFLICT (mismatched_json err))
      | inr _ => api_ret tt
      end in
    let? _ :=
      match validate_registration_id_from_messages destination messages (is_pni destination_identifier) with
      | inl err => api_err (api_error GONE (stale_json err))
      | inr _ => api_ret tt
      end in
    api_ret destination.

Definition handle_put_messages (authenticated_device : AuthenticatedDevice) (destination_identifier : ServiceId)
    (payload : DenimMessages f32) : prog stateE string (ApiError + SendMessageResponse) :=
  let messages := regular_messages_of payload in
  let? destination := check_messages authenticated_device destination_identifier messages in
  let? _ := insert_messages authenticated_device destination_identifier destination (dms_timestamp payload) messages in
  let? _ := or_api (λ e, api_error INTERNAL_SERVER_ERROR ("internal error: " +:+ e))
    (handle_receiving_chunks authenticated_device destination (chunks_of payload) (dms_timestamp payload)) in
  let is_sync_message := bool_decide (destination_identifier = Aci (aci (ad_account authenticated_device))) in
  api_ret {| needs_sync := negb is_sync_message && (1 <? len (acc_devices (ad_account authenticated_device))) |}.
End handlers.

(** *** Running the handlers *)

Definition state_step {S D} (server : handler serverE string S) (database : handler databaseE string D)
    : handler stateE string (S * D) := λ X c s,
  match c in stateE X return outcome string X * (S * D) with
  | OnServer c => let '(o, s1) := server _ c s.1 in (o, (s1, s.2))
  | OnDatabase c => let '(o, d) := database _ c s.2 in (o, (s.1, d))
  end.

Section running.
Context {S D : Type} (server : handler serverE string S) (database : handler databaseE string D).
Abbreviation h := (state_step server database).

Lemma interp_managers {A} (p : prog serverE string A) st :
  interp h (managers p) st = let '(o, s) := interp server p st.1 in (o, (s, st.2)).
Proof.
  unfold managers. rewrite interp_expand. revert st. induction p as [a|e|w|X c k IH]; intros [s d]; try done.
  cbn [interp]. unfold through at 1. rewrite interp_op. cbn [state_step fst snd].
  destruct (server X c s) as [[x|e|w] s']; [apply (IH _ (s', d))..|done].
Qed.

Lemma interp_on_database {A} (p : prog databaseE string A) st :
  interp h (on_database p) st = let '(o, d) := interp database p st.2 in (o, (st.1, d)).
Proof.
  unfold on_database. rewrite interp_expand. revert st. induction p as [a|e|w|X c k IH]; intros [s d]; try done.
  cbn [interp]. unfold through at 1. rewrite interp_op. cbn [state_step fst snd].
  destruct (database X c d) as [[x|e|w] d']; [apply (IH _ (s, d'))..|done].
Qed.

Lemma interp_or_api {A} f (p : prog stateE string A) st :
  interp h (or_api f p) st =
  match interp h p st with
  | (Ok a, st') => (Ok (inr a), st')
  | (Err e, st') => (Ok (inl (f e)), st')
  | (Panic w, st') => (Panic w, st')
  end.
Proof.
  unfold or_api. rewrite interp_bind, interp_try. by destruct (interp h p st) as [[a|e|w] st'].
Qed.
End running.

(** Over a server that behaves as documented, programs run as over the
    reference one. *)
Lemma state_sim {S T D} (h : handler serverE string S) (ref : handler serverE string T) (view : S → T)
    (database : handler databaseE string D) :
  sim h ref view → sim (state_step h database) (state_step ref database) (prod_map view id).
Proof.
  intros Hsim X c [s d]. destruct c as [X c|X c]; cbn [state_step prod_map fst snd id].
  - rewrite (Hsim X c s). by destruct (h X c s).
  - by destruct (database X c d).
Qed.

(** ** Checking a request *)

Section checking.
Context `{Bincode, Base64, ServiceIdText, ServerText, ScanOrder} (public_key_ok : bytes → bool).
Context {S : Type} (server : handler serverE string S).
Abbreviation step := (state_step server (postgres public_key_ok)).

(** The account a service id is for, as the sender's device sees it. *)
Definition destination_of (ad : AuthenticatedDevice) (s : ServiceId) (d : pg) : outcome string Account :=
  if bool_decide (s = Aci (aci (ad_account ad))) then Ok (ad_account ad) else (Postgres.get_account public_key_ok s d).1.
Definition excluded_devices (ad : AuthenticatedDevice) (s : ServiceId) : list Z :=
  if bool_decide (s = Aci (aci (ad_account ad))) then [dev_id (ad_device ad)] else [].

(** One message for each device of the account but the excluded ones. *)
Definition for_all_devices (c : Account) (excluded : list Z) (ms : list SignalMessage) : Prop :=
  ∀ i, i ∈ map destination_device_id ms ↔ i ∈ map dev_id (acc_devices c) ∧ i ∉ excluded.
(** A message that states a registration id states that of its device. *)
Definition up_to_date (c : Account) (pni_ids : bool) (m : SignalMessage) : Prop :=
  destination_registration_id m ≤ 0 ∨ ∃ v, v ∈ acc_devices c ∧ dev_id v = destination_device_id m ∧
    destination_registration_id m = if pni_ids then pni_registration_id v else registration_id v.

Lemma check_messages_run ad s ms (st : S) d c :
  s ≠ Pni (pni (ad_account ad)) → destination_of ad s d = Ok c → account_wf c →
  (for_all_devices c (excluded_devices ad s) ms ∧ (∀ m, m ∈ ms → up_to_date c (is_pni s) m) ∧
   interp step (check_messages ad s ms) (st, d) = (Ok (inr c), (st, d))) ∨
  (¬ (for_all_devices c (excluded_devices ad s) ms ∧ ∀ m, m ∈ ms → up_to_date c (is_pni s) m) ∧
   ∃ e, interp step (check_messages ad s ms) (st, d) = (Ok (inl e), (st, d)) ∧ status_code e ∈ [CONFLICT; GONE]).
Proof.
  intros Hpni Hdest Hwf. unfold check_messages. rewrite decide_False by done. rewrite api_bind_run.
  pose proof (get_account_keeps public_key_ok s d d eq_refl) as Hd.
  assert (interp step (if bool_decide (s = Aci (aci (ad_account ad))) then api_ret (ad_account ad)
      else or_api (λ _, api_error NOT_FOUND "Destination account not found") (on_database (op (Db_get_account s)))) (st, d)
    = (Ok (inr c), (st, d))) as ->.
  { unfold destination_of in Hdest. case_bool_decide; [by simplify_eq|].
    rewrite interp_or_api, interp_on_database, interp_op. cbn [postgres snd fst].
    destruct (Postgres.get_account public_key_ok s d) as [o d']. cbn in Hdest, Hd. by subst. }
  rewrite api_bind_run. fold (excluded_devices ad s).
  destruct (complete_device_list_iff c (map destination_device_id ms) (excluded_devices ad s)) as [Hiff _].
  fold (for_all_devices c (excluded_devices ad s) ms) in Hiff.
  destruct (validate_complete_device_list _ _ _) as [e|[]].
  { right. split; [|by eexists; split; [done|left]]. intros [Hall _]. by apply Hiff in Hall. }
  cbn [api_ret interp]. rewrite api_bind_run.
  destruct (registration_ids_iff c ms (is_pni s) Hwf) as [Hiff2 _].
  destruct (validate_registration_id_from_messages _ _ _) as [e|[]].
  - right. split; [|by eexists; split; [done|right; left]]. intros [_ Hall]. by apply Hiff2 in Hall.
  - left. split_and!; [by apply Hiff|by apply Hiff2|done].
Qed.
End checking.

(** ** Queueing the messages *)

Section delivery.
Context `{Bincode, Base64, ServiceIdText, ServerText} {D : Type} (database : handler databaseE string D).
Context (ad : AuthenticatedDevice) (s : ServiceId) (c : Account) (timestamp : Z).
Abbreviation step := (state_step server_step database).

Definition device_address (i : Z) : ProtocolAddress := {| name := service_id_string (Aci (aci c)); device_id := i |}.

(** The queue of device [i] holds the messages [es], and has room for [n]
    more. *)
Definition has_queued (w : world) (n i : Z) (es : list Envelope) : Prop :=
  ∃ q, ready (MessageCache.queue (device_address i)) w q ∧ stamped q es ∧ q_next q + n < 2 ^ 31.

(** The message [m] as it is queued: from the sender, to the destination, with
    a time and an identifier of its own. *)
Definition carries (m : SignalMessage) (e : Envelope) : Prop :=
  ∃ now guid e0, to_envelope m s (ad_account ad) (sender_device_id ad) timestamp false now = Ok e0 ∧
    e = MessageCache.with_guid e0 guid.

(** The new messages of device [i], in their order. *)
Definition delivered (ms : list SignalMessage) (i : Z) (new : list Envelope) : Prop :=
  Forall2 carries (filter (λ m, destination_device_id m = i) ms) new.

Lemma addresses_separate i j :
  is_uuid (aci c) = true → i ≠ j →
  separate (MessageCache.queue (device_address i)) (MessageCache.queue (device_address j)).
Proof.
  intros Hu Hij. apply separate_keys; [by repeat constructor..|by apply uuid_free|by apply uuid_free|].
  right. by intros [= ?].
Qed.

Lemma insert_message_run w d m (ids : list Z) es n :
  is_uuid (aci c) = true → is_Some (b64_decode (content m)) → destination_device_id m ∈ ids → 1 ≤ n →
  (∀ i, i ∈ ids → has_queued w n i (es i)) →
  ∃ w' e, interp step (insert_message ad s c timestamp m) (w, d) = (Ok (inr tt), (w', d)) ∧ carries m e ∧
    ∀ i, i ∈ ids → has_queued w' (n - 1) i (es i ++ if decide (destination_device_id m = i) then [e] else []).
Proof.
  intros Hu [bs Hbs] Hin Hn Hes. set (j := destination_device_id m) in *. destruct (Hes j Hin) as (q & Hr & Hst & Hq).
  assert (0 ≤ clock w (ticks w)) as Hclock by apply (ready_clock _ _ _ Hr).
  assert (∃ e0, to_envelope m s (ad_account ad) (sender_device_id ad) timestamp false (clock w (ticks w)) = Ok e0) as [e0 He0].
  { unfold to_envelope. rewrite Hbs. cbn [expect mbind outcome_bind]. rewrite (proj2 (Z.ltb_ge _ _) Hclock). by eexists. }
  pose proof (ready_tick _ _ _ Hr) as Hr0.
  destruct (insert_run (device_address j) (tick w) q (es j) e0 Hr0 Hst ltac:(lia))
    as (w' & q' & Hrun & Hr' & Hst' & Hq' & Hev & _ & Hw).
  exists w', (MessageCache.with_guid e0 (uuids (tick w) (drawn (tick w)))). split_and!.
  - unfold insert_message. rewrite interp_bind, interp_managers, interp_op. cbn [server_step fst snd]. rewrite He0.
    cbn [unwrap mbind prog_mbind prog_bind]. rewrite api_bind_run, interp_or_api, interp_managers.
    change (destination_device_id m) with j. fold (device_address j). cbn [fst snd].
    rewrite Hrun. reflexivity.
  - eexists _, _, e0. split; [exact He0|reflexivity].
  - intros i Hi. destruct (decide (j = i)) as [<-|Hij].
    + exists q'. split_and!; [done|done|lia].
    + destruct (Hes i Hi) as (qi & Hri & Hsti & Hqi). exists qi. rewrite app_nil_r. split_and!; [|done|lia].
      eapply (ready_other _ (MessageCache.queue (device_address j))); [by apply addresses_separate, not_eq_sym|by apply ready_tick|exact Hev|exact Hw|exact Hr'].
Qed.

Lemma insert_messages_run ms : ∀ w d (ids : list Z) es,
  is_uuid (aci c) = true → Forall (λ m, is_Some (b64_decode (content m)) ∧ destination_device_id m ∈ ids) ms →
  (∀ i, i ∈ ids → has_queued w (len ms) i (es i)) →
  ∃ w' new, interp step (insert_messages ad s c timestamp ms) (w, d) = (Ok (inr tt), (w', d)) ∧
    ∀ i, i ∈ ids → has_queued w' 0 i (es i ++ new i) ∧ delivered ms i (new i).
Proof.
  induction ms as [|m ms IH]; intros w d ids es Hu Hms Hes.
  { exists w, (λ _, []). split; [done|]. intros i Hi. rewrite app_nil_r. split; [by apply Hes|constructor]. }
  apply Forall_cons in Hms as [[Hm Hin] Hms]. rewrite len_cons in Hes. pose proof (len_nonneg ms).
  destruct (insert_message_run w d m ids es (1 + len ms) Hu Hm Hin ltac:(lia) Hes) as (w1 & e & Hrun & He & Hes1).
  replace (1 + len ms - 1) with (len ms) in Hes1 by lia.
  destruct (IH w1 d ids _ Hu Hms Hes1) as (w2 & new & Hrun2 & Hnew).
  exists w2, (λ i, (if decide (destination_device_id m = i) then [e] else []) ++ new i). split.
  - cbn [insert_messages]. rewrite api_bind_run, Hrun. exact Hrun2.
  - intros i Hi. destruct (Hnew i Hi) as [Hq Hd]. rewrite app_assoc. split; [done|]. unfold delivered in *.
    rewrite filter_cons. case_decide; [by constructor|done].
Qed.
End delivery.

Lemma dummies_dropped ks :
  Forall (λ k, flags k = ChunkType.into_i32 ChunkType.Dummy) ks →
  filter (λ c, flags c ≠ ChunkType.into_i32 ChunkType.Dummy) ks = [].
Proof. induction 1 as [|k ks Hk _ IH]; [done|]. rewrite filter_cons_False; [done|intros Hneq; by apply Hneq]. Qed.

(** ** Properties *)

(** C15: messages are accepted only for exactly the devices of their
    destination (for a message to oneself, the others), each with the
    registration id of its device or with 0, which the validator takes for none
    given.  A request that is not of this form is refused with 409 or 410, and
    neither the queues nor the database have changed. *)
Theorem only_complete_messages_are_accepted `{Bincode, Base64, ServiceIdText, ServerText, ScanOrder} (public_key_ok : bytes → bool)
    {S} (server : handler serverE string S) (ad : AuthenticatedDevice) (s : ServiceId) (payload : DenimMessages f32)
    (st : S) (d : pg) (c : Account)
    (Hpni : s ≠ Pni (pni (ad_account ad))) (Hdest : destination_of public_key_ok ad s d = Ok c) (Hwf : account_wf c) :
  let run := interp (state_step server (postgres public_key_ok)) (handle_put_messages ad s payload) (st, d) in
  let ms := regular_messages_of payload in
  let complete := for_all_devices c (excluded_devices ad s) ms ∧ ∀ m, m ∈ ms → up_to_date c (is_pni s) m in
  (∀ response st', run = (Ok (inr response), st') → complete) ∧
  (¬ complete → ∃ e, run = (Ok (inl e), (st, d)) ∧ status_code e ∈ [CONFLICT; GONE]).
Proof.
  intros run ms complete. unfold run, handle_put_messages. rewrite api_bind_run. fold ms.
  destruct (check_messages_run public_key_ok server ad s ms st d c Hpni Hdest Hwf)
    as [(Hall & Hreg & ->)|(Hno & e & -> & He)]; [split; [done|intros Hno; by destruct Hno]|].
  split; [done|]. intros _. by exists e.
Qed.

(** C14: a request for exactly the devices of its destination is accepted by a
    server that behaves as documented: each message is put at the end of the
    queue of its device, in the order of the request, as an envelope from the
    sender to the destination; then the deniable chunks are received, which
    with dummies only does nothing more. *)
Theorem accepted_messages_are_queued `{Bincode, Base64, ServiceIdText, ServerText, ScanOrder} (public_key_ok : bytes → bool)
    {S} (h : handler serverE string S) (view : S → world) (ad : AuthenticatedDevice) (s : ServiceId) (payload : DenimMessages f32)
    (st : S) (d : pg) (c : Account) (es : Z → list Envelope)
    (Hdoc : documented h view)
    (Hpni : s ≠ Pni (pni (ad_account ad))) (Hdest : destination_of public_key_ok ad s d = Ok c) (Hwf : account_wf c)
    (Huuid : is_uuid (aci c) = true)
    (Hall : for_all_devices c (excluded_devices ad s) (regular_messages_of payload))
    (Hreg : ∀ m, m ∈ regular_messages_of payload → up_to_date c (is_pni s) m)
    (Hcontent : ∀ m, m ∈ regular_messages_of payload → is_Some (b64_decode (content m)))
    (Hes : ∀ v, v ∈ acc_devices c → has_queued c (view st) (len (regular_messages_of payload)) (dev_id v) (es (dev_id v))) :
  let step := state_step h (postgres public_key_ok) in
  let request := handle_put_messages ad s payload in
  let response := {| needs_sync := negb (bool_decide (s = Aci (aci (ad_account ad)))) &&
                                   (1 <? len (acc_devices (ad_account ad))) |} in
  ∃ st' new,
    (∀ v, v ∈ acc_devices c → has_queued c (view st') 0 (dev_id v) (es (dev_id v) ++ new (dev_id v)) ∧
       delivered ad s (dms_timestamp payload) (regular_messages_of payload) (dev_id v) (new (dev_id v))) ∧
    (∀ st2, interp step (handle_receiving_chunks ad c (chunks_of payload) (dms_timestamp payload)) (st', d) = (Ok tt, st2) →
       interp step request (st, d) = (Ok (inr response), st2)) ∧
    (Forall (λ k, flags k = ChunkType.into_i32 ChunkType.Dummy) (chunks_of payload) →
       interp step request (st, d) = (Ok (inr response), (st', d))).
Proof.
  intros step request response.
  destruct (insert_messages_run (postgres public_key_ok) ad s c (dms_timestamp payload) (regular_messages_of payload) (view st) d
              (map dev_id (acc_devices c)) es Huuid) as (w' & new & Hrun & Hnew).
  { apply Forall_forall. intros m Hm. split; [by apply Hcontent|]. apply Hall. by apply list_elem_of_fmap_2. }
  { intros i (v & -> & Hv)%list_elem_of_fmap. by apply Hes. }
  destruct (sim_run _ _ _ _ (st, d) _ _ (state_sim h server_step view (postgres public_key_ok) Hdoc) Hrun)
    as ([st' d'] & Hrun' & [= <- ->]). fold step in Hrun'.
  assert (∀ st2, interp step (handle_receiving_chunks ad c (chunks_of payload) (dms_timestamp payload)) (st', d) = (Ok tt, st2) →
       interp step request (st, d) = (Ok (inr response), st2)) as Hrest.
  { intros st2 Hst. unfold request, handle_put_messages. rewrite api_bind_run.
    destruct (check_messages_run public_key_ok h ad s (regular_messages_of payload) st d c Hpni Hdest Hwf)
      as [(_ & _ & Hcheck)|(Hno & _)]; [|by destruct Hno]. fold step in Hcheck.
    rewrite Hcheck, api_bind_run, Hrun', api_bind_run. unfold step in *. by rewrite interp_or_api, Hst. }
  exists st', new. split_and!; [|done|].
  - intros v Hv. apply Hnew. by apply list_elem_of_fmap_2.
  - intros Hdummies. apply Hrest. unfold handle_receiving_chunks.
    by rewrite (dummies_dropped _ Hdummies).
Qed.

(** *** Witnesses *)

Definition demo_text : ServerText := {|
  mismatched_json _ := "";
  stale_json _ := "";
  map_order _ l := l;
  map_order_perm _ l := Permutation_refl l;
|}.
#[local] Existing Instances demo_bincode demo_service_ids in_order demo_signatures demo_text.

(** Another account, that sends to the registered one. *)
Definition demo_sender : AuthenticatedDevice :=
  {| ad_account := {| aci := pni sample_account; pni := "00000000-0000-4000-8000-000000000003"; aci_identity_key := [x07];
       pni_identity_key := [x08]; acc_devices := [sample_device]; phone_number := "+4587654321" |};
     ad_device := sample_device |}.
Definition demo_message (registration_id : Z) : SignalMessage :=
  {| type_ := 1; destination_device_id := 1; destination_service_id := None;
     destination_registration_id := registration_id; content := "00" |}.
Definition demo_messages (ms : list SignalMessage) : DenimMessages f32 :=
  {| dms_messages := map (λ m, {| regular_payload := RegularSignalMessage m; dm_chunks := [{| chunk := [x00]; flags := 1 |}]; dm_counter := None;
                                  dm_q := None; dm_ballast := [] |}) ms;
     dms_online := false; dms_urgent := false; dms_timestamp := 5 |}.

(** The account of [demo_accounts]. *)
Definition demo_destination : Account :=
  match (Postgres.get_account (λ _, true) (Aci sample_uuid) demo_accounts).1 with Ok c => c | _ => sample_account end.

Lemma demo_destination_of : destination_of (λ _, true) demo_sender (Aci sample_uuid) demo_accounts = Ok demo_destination.
Proof. by vm_compute. Qed.

Lemma demo_destination_wf : account_wf demo_destination.
Proof.
  assert (map dev_id (acc_devices demo_destination) = [1]) as Hids by by vm_compute. split_and!.
  - by destruct (acc_devices _).
  - rewrite Hids. apply NoDup_singleton.
  - apply Forall_forall. intros v Hv. apply (list_elem_of_fmap_2 dev_id) in Hv. unfold fmap, list_fmap in Hv.
    change (dev_id v ∈ map dev_id (acc_devices demo_destination)) in Hv. rewrite Hids in Hv.
    by apply list_elem_of_singleton in Hv as ->.
Qed.

Lemma demo_empty_queues v :
  v ∈ acc_devices demo_destination → has_queued demo_destination empty_world 1 (dev_id v) [].
Proof.
  intros Hv. exists empty_queue. split_and!; [|constructor|by cbn].
  split; [apply empty_holds|constructor|apply demo_uuids..].
Qed.

Lemma only_complete_messages_are_accepted_witness :
  ∃ e, interp (state_step server_step (postgres (λ _, true)))
         (handle_put_messages demo_sender (Aci sample_uuid) (demo_messages [])) (empty_world, demo_accounts)
       = (Ok (inl e), (empty_world, demo_accounts)) ∧ status_code e ∈ [CONFLICT; GONE].
Proof.
  apply (only_complete_messages_are_accepted (λ _, true) server_step demo_sender (Aci sample_uuid) (demo_messages [])
           empty_world demo_accounts demo_destination).
  - done.
  - apply demo_destination_of.
  - apply demo_destination_wf.
  - intros [Hall _]. destruct (Hall 1) as [_ Hin]. apply elem_of_nil in Hin; [done|].
    split; [by left|by intros ?%elem_of_nil].
Defined.

Lemma accepted_messages_are_queued_witness :
  ∃ w' new, has_queued demo_destination w' 0 1 new ∧
    delivered demo_sender (Aci sample_uuid) 5 [demo_message 7] 1 new ∧
    interp (state_step server_step (postgres (λ _, true)))
      (handle_put_messages demo_sender (Aci sample_uuid) (demo_messages [demo_message 7])) (empty_world, demo_accounts)
    = (Ok (inr {| needs_sync := false |}), (w', demo_accounts)).
Proof.
  destruct (accepted_messages_are_queued (λ _, true) server_step id demo_sender (Aci sample_uuid) (demo_messages [demo_message 7])
           empty_world demo_accounts demo_destination (λ _, [])) as (w' & new & Hnew & _ & Hrun).
  - apply sim_refl.
  - done.
  - apply demo_destination_of.
  - apply demo_destination_wf.
  - by vm_compute.
  - intros i. change (i ∈ [1] ↔ i ∈ [1] ∧ i ∉ []). set_solver.
  - intros m ->%list_elem_of_singleton. right. eexists. split; [by left|done].
  - intros m ->%list_elem_of_singleton. by eexists.
  - apply demo_empty_queues.
  - destruct (Hnew (hd sample_device (acc_devices demo_destination))) as [Hq Hd]; [by vm_compute; left|].
    exists w', (new 1). split_and!; [exact Hq|exact Hd|]. apply Hrun. by repeat constructor.
Defined.
