(* ===== verification/Endpoints.v ===== *)
(** The HTTP interface of the server: the endpoints of
    [server/src/server/server.rs], which authenticate a request, read its
    parameters and call a handler.  Requests that axum cannot read (a body that
    is not the JSON of its type, a path that is not a number) do not get here. *)
From S2P Require Export Messaging.

Local Open Scope Z_scope.
Local Open Scope denim_scope.

(** ** Definitions *)

(** What the handlers read besides the state: the clock in nanoseconds, random
    bytes, two new identifiers, an environment variable, and the database
    driver's name for the constraint of an error. *)
Record environment := {
  env_clock : Z;
  env_random : bytes;
  env_new_aci : string;
  env_new_pni : string;
  env_link_secret : option string;
  env_constraint : string → option string;
}.

Record CheckKeysRequest := { identity_type : string; user_digest : bytes }.

(** A header as text: missing, not visible ASCII, or a text. *)
Inductive header_text := NoHeader | UnreadableHeader (err : string) | HeaderText (s : string).

(** The requests of the router; the two routes of a connection, the upgrade and
    the keepalive, are in [WebSocket.v] and [Service.v]. *)
Inductive http_request :=
| GetRoot
| GetIdentifier (auth : basic_header) (phone_number : string)
| PutMessages (auth : basic_header) (destination : string) (payload : DenimMessages f32)
| PostRegistration (authorization : header_text) (registration : RegistrationRequest)
| GetKeysIdDeviceId (auth : basic_header) (identifier device_id : string)
| GetKeys (auth : basic_header)
| PostKeycheck (auth : basic_header) (check_keys_request : CheckKeysRequest)
| PutKeys (auth : basic_header) (identity : option string) (set_keys_request : SetKeyRequest)
| DeleteAccount (auth : basic_header)
| DeleteDevice (auth : basic_header) (device_id : Z)
| GetLinkDeviceToken (auth : basic_header)
| PostLinkDevice (password : string) (link_device_request : LinkDeviceRequest).

Inductive http_reply :=
| Empty
| Hello (s : string)
| Identifier (s : string)
| Sent (r : SendMessageResponse)
| Registered (r : AccountIdentityResponse)
| Keys (r : PreKeyResponse)
| KeyCount (r : PreKeyCount)
| LinkToken (r : LinkDeviceToken)
| Linked (r : LinkDeviceResponse).

Section endpoints.
Context `{Bincode, Base64, ServiceIdText, ServerText, Kdf, Signatures, LinkCodes} (env : environment).

Definition handler_of {A} (p : api A) (reply : A → http_reply) : prog stateE string (ApiError + http_reply) :=
  let? a := on_database p in api_ret (reply a).

(** An endpoint with an [AuthenticatedDevice] among its arguments. *)
Definition authenticated (auth : basic_header) (endpoint : AuthenticatedDevice → prog stateE string (ApiError + http_reply))
    : prog stateE string (ApiError + http_reply) :=
  let? authenticated_device := on_database (from_request_parts auth) in endpoint authenticated_device.

Definition get_identifier_endpoint (phone_number : string) (_ : AuthenticatedDevice) : prog stateE string (ApiError + http_reply) :=
  handler_of (get_identifier phone_number) Identifier.

Definition put_messages_endpoint (destination_identifier : string) (payload : DenimMessages f32)
    (authenticated_device : AuthenticatedDevice) : prog stateE string (ApiError + http_reply) :=
  let? destination_identifier := api_lift (parse_service_id destination_identifier) in
  let? response := handle_put_messages authenticated_device destination_identifier payload in
  api_ret (Sent response).

(** The [Authorization] header, read as text and then by [FromStr]. *)
Definition registration_header (authorization : header_text) : outcome ApiError BasicAuthorizationHeader :=
  text ← match authorization with
    | NoHeader => Err (api_error UNAUTHORIZED "Missing authorization header")
    | UnreadableHeader err =>
        Err (api_error UNAUTHORIZED ("Authorization header could not be parsed as string: " +:+ err))
    | HeaderText s => Ok s
    end;
  match header_decode text with
  | Ok h => Ok h
  | Err err => Err (api_error UNAUTHORIZED ("Authorization header could not be parsed: " +:+ err))
  | Panic w => Panic w
  end.

Definition post_registration_endpoint (authorization : header_text) (registration : RegistrationRequest)
    : prog stateE string (ApiError + http_reply) :=
  let? auth_header := api_lift (registration_header authorization) in
  handler_of (handle_post_registration (env_clock env) (env_random env) (env_constraint env) (env_new_aci env) (env_new_pni env)
    auth_header registration) Registered.

Definition get_keys_id_device_id (identifier device_id : string) (authenticated_device : AuthenticatedDevice)
    : prog stateE string (ApiError + http_reply) :=
  let? service_id := api_lift (ok_or (api_error BAD_REQUEST "Identifier is not of right format")
                                 (parse_from_service_id_string identifier)) in
  handler_of (handle_get_keys_id_device_id authenticated_device service_id device_id) Keys.

Definition get_keys (authenticated_device : AuthenticatedDevice) : prog stateE string (ApiError + http_reply) :=
  let? counts := or_api (λ _, api_error INTERNAL_SERVER_ERROR "")
    (on_database (get_one_time_pre_key_count (Aci (aci (ad_account authenticated_device))))) in
  api_ret (KeyCount {| pk_count := counts.1; pk_pq_count := counts.2 |}).

Definition post_keycheck_endpoint (check_keys_request : CheckKeysRequest) (authenticated_device : AuthenticatedDevice)
    : prog stateE string (ApiError + http_reply) :=
  let? kind := api_lift (get_kind (identity_type check_keys_request)) in
  let? same := on_database (handle_post_keycheck authenticated_device kind (user_digest check_keys_request)) in
  if (same : bool) then api_ret Empty else api_err (api_error CONFLICT "").

(** [params.get("identity").unwrap()] *)
Definition put_keys_endpoint (identity : option string) (set_keys_request : SetKeyRequest) (authenticated_device : AuthenticatedDevice)
    : prog stateE string (ApiError + http_reply) :=
  let? kind := api_lift (identity ← expect "called `Option::unwrap()` on a `None` value" identity; get_kind identity) in
  handler_of (handle_put_keys authenticated_device set_keys_request kind) (λ _, Empty).

Definition delete_account_endpoint (authenticated_device : AuthenticatedDevice) : prog stateE string (ApiError + http_reply) :=
  handler_of (handle_delete_account authenticated_device) (λ _, Empty).

Definition delete_device_endpoint (device_id : Z) (authenticated_device : AuthenticatedDevice)
    : prog stateE string (ApiError + http_reply) :=
  handler_of (handle_delete_device device_id authenticated_device) (λ _, Empty).

Definition get_link_device_token (authenticated_device : AuthenticatedDevice) : prog stateE string (ApiError + http_reply) :=
  let? token := api_lift (handle_get_link_device_token (env_link_secret env) (env_clock env) authenticated_device) in
  api_ret (LinkToken token).

Definition post_link_device_endpoint (password : string) (link_device_request : LinkDeviceRequest)
    : prog stateE string (ApiError + http_reply) :=
  handler_of (handle_post_link_device (env_link_secret env) (env_clock env) (env_random env) password link_device_request) Linked.

(** The [Router] of [start_server]. *)
Definition serve (request : http_request) : prog stateE string (ApiError + http_reply) :=
  match request with
  | GetRoot => api_ret (Hello "Hello from Signal Server")
  | GetIdentifier auth phone_number => authenticated auth (get_identifier_endpoint phone_number)
  | PutMessages auth destination payload => authenticated auth (put_messages_endpoint destination payload)
  | PostRegistration authorization registration => post_registration_endpoint authorization registration
  | GetKeysIdDeviceId auth identifier device_id => authenticated auth (get_keys_id_device_id identifier device_id)
  | GetKeys auth => authenticated auth get_keys
  | PostKeycheck auth check => authenticated auth (post_keycheck_endpoint check)
  | PutKeys auth identity keys => authenticated auth (put_keys_endpoint identity keys)
  | DeleteAccount auth => authenticated auth delete_account_endpoint
  | DeleteDevice auth device_id => authenticated auth (delete_device_endpoint device_id)
  | GetLinkDeviceToken auth => authenticated auth get_link_device_token
  | PostLinkDevice password request => post_link_device_endpoint password request
  end.
End endpoints.

(** ** Authentication comes first *)

(** The credentials of a request, if its endpoint asks for some. *)
Definition credentials (request : http_request) : option basic_header :=
  match request with
  | GetIdentifier auth _ | PutMessages auth _ _ | GetKeysIdDeviceId auth _ _ | GetKeys auth | PostKeycheck auth _
  | PutKeys auth _ _ | DeleteAccount auth | DeleteDevice auth _ | GetLinkDeviceToken auth => Some auth
  | GetRoot | PostRegistration _ _ | PostLinkDevice _ _ => None
  end.

Section authentication.
Context `{Bincode, Base64, ServiceIdText, ServerText, ScanOrder, Kdf, Signatures, LinkCodes} (public_key_ok : bytes → bool).
Abbreviation db := (postgres public_key_ok).

Lemma authenticate_device_keeps s id password d : (interp db (authenticate_device s id password) d).2 = d.
Proof.
  unfold authenticate_device. rewrite api_bind_run, map_err_run. cbn [postgres].
  pose proof (get_account_keeps public_key_ok s d d eq_refl) as Hd.
  destruct (Postgres.get_account public_key_ok s d) as [[c|e|e] d']; cbn [snd] in Hd; subst; [|done..].
  rewrite api_lift_bind. destruct (ok_or _ _) as [v|e|e]; [|done..].
  rewrite api_lift_bind. by destruct (verify _ _) as [[]|e|e].
Qed.

Lemma from_request_parts_keeps auth d : (interp db (from_request_parts auth) d).2 = d.
Proof.
  destruct auth as [| |user password]; [done..|]. unfold from_request_parts.
  destruct (split_first "." user) as [[service device]|].
  - rewrite api_lift_bind. destruct (ok_or _ _) as [s|e|e]; [|done..].
    rewrite api_lift_bind. destruct (ok_or _ _) as [i|e|e]; [|done..]. apply authenticate_device_keeps.
  - rewrite api_lift_bind. destruct (ok_or _ _) as [s|e|e]; [|done..]. apply authenticate_device_keeps.
Qed.

Lemma authenticated_run {S} (h : handler serverE string S) auth endpoint st d :
  interp (state_step h db) (authenticated auth endpoint) (st, d) =
  match (interp db (from_request_parts auth) d).1 with
  | Ok (inr ad) => interp (state_step h db) (endpoint ad) (st, d)
  | Ok (inl e) => (Ok (inl e), (st, d))
  | Err e => (Err e, (st, d))
  | Panic e => (Panic e, (st, d))
  end.
Proof.
  unfold authenticated. rewrite api_bind_run, interp_on_database. cbn [snd fst].
  pose proof (from_request_parts_keeps auth d) as Hd.
  destruct (interp db (from_request_parts auth) d) as [[[e|ad]|e|e] d']; cbn [snd fst] in *; by subst.
Qed.

Lemma authenticated_genuine {S} (h : handler serverE string S) auth endpoint st d :
  let run := interp (state_step h db) (authenticated auth endpoint) (st, d) in
  (∃ ad, genuine public_key_ok auth d ad ∧ run = interp (state_step h db) (endpoint ad) (st, d)) ∨
  ((∀ ad, ¬ genuine public_key_ok auth d ad) ∧ run.2 = (st, d) ∧ ∀ reply, run.1 ≠ Ok (inr reply)).
Proof.
  cbv zeta. rewrite authenticated_run. pose proof (from_request_parts_genuine public_key_ok auth d) as Hgen.
  destruct (interp db (from_request_parts auth) d).1 as [[e|ad]|e|e];
    [right|left; exists ad; by split; [apply Hgen|]|right..];
    (split_and!; [by intros ad ?%Hgen|done|done]).
Qed.

(** The endpoint behind the credentials. *)
Definition endpoint_of (env : environment) (request : http_request) : AuthenticatedDevice → prog stateE string (ApiError + http_reply) :=
  match request with
  | GetIdentifier _ phone_number => get_identifier_endpoint phone_number
  | PutMessages _ destination payload => put_messages_endpoint destination payload
  | GetKeysIdDeviceId _ identifier device_id => get_keys_id_device_id identifier device_id
  | GetKeys _ => get_keys
  | PostKeycheck _ check => post_keycheck_endpoint check
  | PutKeys _ identity keys => put_keys_endpoint identity keys
  | DeleteAccount _ => delete_account_endpoint
  | DeleteDevice _ device_id => delete_device_endpoint device_id
  | GetLinkDeviceToken _ => get_link_device_token env
  | GetRoot | PostRegistration _ _ | PostLinkDevice _ _ => λ _, serve env request
  end.
End authentication.

(** ** Properties *)

(** C30: an endpoint that asks for credentials runs for exactly the device whose
    credentials the request brings: the user name names an account in the
    database and a device of it, and the password has the salted hash that the
    device was registered with.  Without such credentials the request is
    refused, and neither the database nor any other service is changed.  Only
    the greeting, registering and linking ask for none. *)
Theorem credentials_come_first `{Bincode, Base64, ServiceIdText, ServerText, ScanOrder, Kdf, Signatures, LinkCodes}
    (public_key_ok : bytes → bool) {S} (h : handler serverE string S) (env : environment) (request : http_request) (st : S) (d : pg) :
  let run := interp (state_step h (postgres public_key_ok)) (serve env request) (st, d) in
  match credentials request with
  | Some auth =>
      (∃ ad, genuine public_key_ok auth d ad ∧
             run = interp (state_step h (postgres public_key_ok)) (endpoint_of env request ad) (st, d)) ∨
      ((∀ ad, ¬ genuine public_key_ok auth d ad) ∧ run.2 = (st, d) ∧ ∀ reply, run.1 ≠ Ok (inr reply))
  | None => request = GetRoot ∨ (∃ a r, request = PostRegistration a r) ∨ (∃ p r, request = PostLinkDevice p r)
  end.
Proof.
  intros run. unfold run. destruct request; cbn [credentials serve endpoint_of]; eauto; apply authenticated_genuine.
Qed.
