(* ===== verification/Routing.v ===== *)
(** What becomes of the deniable payloads the server assembles: each message
    is queued for every device of the account it is for
    ([handle_receiving_chunks] of [server/src/server/server.rs]). *)
From S2P Require Export Messaging.

Local Open Scope Z_scope.
Local Open Scope denim_scope.

(** ** Queueing for many devices *)

Section outboxes.
Context `{Bincode, Base64}.

Definition outbox_keys (a : ProtocolAddress) : queue_keys := PayloadCache.queue a Buffer.Receiver.

(** What is queued: bytes, and how often they were cut already, as a count
    below zero; and a payload that is queued whole. *)
Definition pieces (q : rqueue) : list (bytes * Z) := map (λ it, (it_data it, it_order it)) (q_items q).
Definition queued (p : DeniablePayload) : bytes * Z := (serialize_payload p, 0).

Lemma appended_pieces q q' ps : appended q q' (map serialize_payload ps) → pieces q' = pieces q ++ map queued ps.
Proof.
  intros (new & Heq & Hd & Ho). unfold pieces. rewrite Heq, map_app. f_equal. clear Heq. revert ps Hd.
  induction Ho as [|it new Hit _ IH]; intros [|p ps] Hd; try done. cbn in *. injection Hd as Hd1 Hd2.
  unfold queued at 1. rewrite Hd1, Hit. f_equal. by apply IH.
Qed.

(** The queue of what a device will be sent holds [data], and has room for [n]
    more payloads. *)
Definition outbox (w : world) (n : Z) (a : ProtocolAddress) (data : list (bytes * Z)) : Prop :=
  ∃ q, ready (outbox_keys a) w q ∧ pieces q = data ∧ q_next q + n < 2 ^ 31.

(** The clock, and the queues apart from those of the devices [A], are kept. *)
Definition keeps_others (A : ProtocolAddress → Prop) (w w' : world) : Prop :=
  clock w' = clock w ∧ ∀ K q, (∀ a, A a → separate K (outbox_keys a)) → ready K w q → ready K w' q.

Global Instance keeps_others_preorder A : PreOrder (keeps_others A).
Proof.
  split; [by intros w|]. intros w1 w2 w3 [Hc H12] [Hc' H23]. split; [by rewrite Hc'|].
  intros K q HK Hr. by apply H23, H12.
Qed.

Section devices.
Context (A : ProtocolAddress → Prop) (HA : ∀ a, A a → string_mem ":" (name a) = false).

Lemma outboxes_separate a b : A a → A b → a ≠ b → separate (outbox_keys a) (outbox_keys b).
Proof. intros Ha Hb Hne. apply separate_keys; [by repeat constructor..|by apply HA|by apply HA|by right]. Qed.

Lemma enqueue_run w a ps n data :
  A a → len ps ≤ n a → (∀ x, A x → outbox w (n x) x (data x)) →
  ∃ w' count, interp server_step (enqueue_outgoing_payload_buffer a ps) w = (Ok count, w') ∧ keeps_others A w w' ∧
    ∀ x, A x → outbox w' (n x - if decide (x = a) then len ps else 0) x
                      (data x ++ if decide (x = a) then map queued ps else []).
Proof.
  intros Ha Hn Hout. destruct (Hout a Ha) as (q & Hr & Hc & Hq).
  pose proof (wf_next _ (holds_wf _ _ _ _ (ready_holds _ _ _ Hr))). pose proof (len_nonneg ps).
  destruct (enqueue_each_run (outbox_keys a) (payload_queue_distinct _ _) serialize_payload a ps w q 0 Hr
              ltac:(lia) ltac:(lia) ltac:(lia)) as (w' & q' & count & Hrun & Hr' & Hev & Happ & Hn' & Hw).
  exists w', count. split_and!; [exact Hrun| |].
  - split; [by apply ev_clock|]. intros K k HK Hk. eapply ready_other; [by apply HK|exact Hk|done..].
  - intros x Hx. destruct (decide (x = a)) as [->|Hne].
    + exists q'. split_and!; [done| |lia]. by rewrite (appended_pieces _ _ _ Happ), Hc.
    + destruct (Hout x Hx) as (k & Hk & Hkc & Hkn). exists k. rewrite app_nil_r. split_and!; [|done|lia].
      eapply (ready_other _ (outbox_keys a)); [by apply outboxes_separate|exact Hk|done..].
Qed.

(** What is queued for [x] by a list of jobs. *)
Definition sent (x : ProtocolAddress) (jobs : list (ProtocolAddress * list DeniablePayload)) : list DeniablePayload :=
  concat (map snd (filter (λ j, j.1 = x) jobs)).

Lemma sent_cons x j jobs : sent x (j :: jobs) = (if decide (j.1 = x) then j.2 else []) ++ sent x jobs.
Proof. unfold sent. rewrite filter_cons. by case_decide. Qed.
Lemma sent_app x jobs jobs' : sent x (jobs ++ jobs') = sent x jobs ++ sent x jobs'.
Proof. unfold sent. by rewrite filter_app, map_app, concat_app. Qed.

Definition run_jobs (jobs : list (ProtocolAddress * list DeniablePayload)) : prog stateE string unit :=
  for_each jobs tt (λ j _, _ ← managers (enqueue_outgoing_payload_buffer j.1 j.2); Ret tt).

Lemma run_jobs_run {D} (database : handler databaseE string D) (d : D) jobs : ∀ w n data,
  (∀ j, j ∈ jobs → A j.1) → (∀ x, A x → len (sent x jobs) ≤ n x) → (∀ x, A x → outbox w (n x) x (data x)) →
  ∃ w', interp (state_step server_step database) (run_jobs jobs) (w, d) = (Ok tt, (w', d)) ∧ keeps_others A w w' ∧
    ∀ x, A x → outbox w' (n x - len (sent x jobs)) x (data x ++ map queued (sent x jobs)).
Proof.
  induction jobs as [|[a ps] jobs IH]; intros w n data Hjobs Hn Hout.
  { exists w. split_and!; [done|done|]. intros x Hx. change (sent x []) with (@nil DeniablePayload). cbn [map].
    rewrite app_nil_r, len_nil, Z.sub_0_r. by apply Hout. }
  pose proof (Hjobs (a, ps) ltac:(left)) as Ha. cbn [fst] in Ha.
  assert (∀ x, A x → len (if decide (x = a) then ps else []) + len (sent x jobs) ≤ n x) as Hn'.
  { intros x Hx. specialize (Hn x Hx). rewrite sent_cons, len_app in Hn. cbn [fst snd] in Hn.
    destruct (decide (x = a)) as [->|]; [by rewrite decide_True in Hn|by rewrite decide_False in Hn by (by apply not_eq_sym)]. }
  destruct (enqueue_run w a ps n data Ha) as (w1 & count & Hrun & Hk1 & Hout1); [|done|].
  { specialize (Hn' a Ha). rewrite decide_True in Hn' by done. pose proof (len_nonneg (sent a jobs)). lia. }
  destruct (IH w1 (λ x, n x - if decide (x = a) then len ps else 0)
              (λ x, data x ++ if decide (x = a) then map queued ps else [])
              (λ j Hj, Hjobs j (list_elem_of_further _ _ _ Hj))) as (w2 & Hrun2 & Hk2 & Hout2); [|exact Hout1|].
  { intros x Hx. specialize (Hn' x Hx). destruct (decide (x = a)); rewrite ?len_nil in *; lia. }
  exists w2. split_and!; [|by etrans|].
  - unfold run_jobs. cbn [for_each]. rewrite interp_bind, interp_bind, interp_managers. cbn [fst snd]. rewrite Hrun. exact Hrun2.
  - intros x Hx. specialize (Hout2 x Hx). rewrite sent_cons, len_app, map_app, app_assoc. cbn [fst snd].
    rewrite Z.sub_add_distr. destruct (decide (x = a)) as [->|Hne]; [by rewrite decide_True|].
    by rewrite decide_False by (by apply not_eq_sym).
Qed.
End devices.
End outboxes.

(** ** Grouping by account *)

(** The payloads of an account among those kept for accounts. *)
Definition payloads_for (c : Account) (out : list (Account * DeniablePayload)) : list DeniablePayload :=
  map snd (filter (λ x, x.1 = c) out).
Definition kept (c : Account) (m : list (Account * list DeniablePayload)) : list DeniablePayload :=
  concat (map snd (filter (λ x, x.1 = c) m)).
Definition group (m : list (Account * list DeniablePayload)) (out : list (Account * DeniablePayload))
    : list (Account * list DeniablePayload) :=
  fold_left (λ m x, push_payload x.1 x.2 m) out m.

Lemma kept_cons c x m : kept c (x :: m) = (if decide (x.1 = c) then x.2 else []) ++ kept c m.
Proof. unfold kept. rewrite filter_cons. by case_decide. Qed.

Lemma push_payload_kept c a p m :
  NoDup (map fst m) → kept c (push_payload a p m) = kept c m ++ if decide (a = c) then [p] else [].
Proof.
  induction m as [|[b l] m IH]; intros Hnd; cbn [push_payload].
  { rewrite kept_cons. cbn [fst snd]. unfold kept. by rewrite app_nil_r. }
  apply NoDup_cons in Hnd as [Hb Hnd]. destruct (decide (b = a)) as [->|Hne]; rewrite !kept_cons; cbn [fst snd].
  - destruct (decide (a = c)) as [<-|]; [|by rewrite app_nil_r].
    assert (kept a m = []) as ->; [|by rewrite !app_nil_r].
    unfold kept. destruct (filter _ m) as [|x xs] eqn:Hf; [done|]. destruct Hb.
    assert (x ∈ filter (λ x, x.1 = a) m) as [<- Hin]%list_elem_of_filter by (rewrite Hf; left).
    exact (list_elem_of_fmap_2 fst _ _ Hin).
  - by rewrite IH, app_assoc.
Qed.

Lemma push_payload_keys a p m :
  NoDup (map fst m) → NoDup (map fst (push_payload a p m)) ∧
  ∀ c, c ∈ map fst (push_payload a p m) ↔ c = a ∨ c ∈ map fst m.
Proof.
  induction m as [|[b l] m IH]; intros Hnd; cbn [push_payload].
  { split; [apply NoDup_singleton|]. intros c. by rewrite map_cons, elem_of_cons. }
  rewrite map_cons in Hnd. apply NoDup_cons in Hnd as [Hb Hnd]. destruct (IH Hnd) as [Hnd' Hin].
  destruct (decide (b = a)) as [->|Hne]; rewrite !map_cons; cbn [fst].
  - split; [by apply NoDup_cons|]. intros c. rewrite elem_of_cons. naive_solver.
  - split; [|intros c; rewrite !elem_of_cons, Hin; naive_solver].
    apply NoDup_cons. split; [|done]. rewrite Hin. by intros [->|].
Qed.

Lemma group_spec out : ∀ m, NoDup (map fst m) →
  NoDup (map fst (group m out)) ∧ (∀ c, kept c (group m out) = kept c m ++ payloads_for c out) ∧
  (∀ c, c ∈ map fst (group m out) ↔ c ∈ map fst out ∨ c ∈ map fst m).
Proof.
  induction out as [|[a p] out IH]; intros m Hm.
  { split_and!; [done| |]; intros c; [by rewrite app_nil_r|].
    split; [by right|]. by intros [?%elem_of_nil|]. }
  destruct (push_payload_keys a p m Hm) as [Hm' Hin]. destruct (IH _ Hm') as (Hnd & Hkept & Hkeys).
  split_and!; [done| |]; intros c; unfold group in *; cbn [fold_left map fst snd].
  - rewrite Hkept, push_payload_kept by done. rewrite <- app_assoc. unfold payloads_for. rewrite filter_cons. cbn [fst].
    by case_decide.
  - rewrite Hkeys, Hin, elem_of_cons. naive_solver.
Qed.

Lemma kept_perm c m m' : m ≡ₚ m' → NoDup (map fst m) → kept c m = kept c m'.
Proof.
  induction 1 as [|x m m' _ IH|x y m|m m' m'' Hm IH _ IH']; intros Hnd; [done|..].
  - rewrite !kept_cons, IH; [done|]. by apply NoDup_cons in Hnd as [_ ?].
  - cbn [map] in Hnd. apply NoDup_cons in Hnd as [Hy _]. rewrite !kept_cons.
    destruct (decide (x.1 = c)) as [Hx|], (decide (y.1 = c)) as [Heq|]; rewrite ?app_nil_r; try done.
    destruct Hy. rewrite Heq, Hx. left.
  - rewrite IH by done. apply IH'. by rewrite <- Hm.
Qed.

(** ** Routing the payloads of a sender *)

Section routing.
Context `{Bincode, Base64, ServiceIdText, ServerText, ScanOrder} (public_key_ok : bytes → bool).
Context (ad : AuthenticatedDevice) (timestamp : Z).
Abbreviation step := (state_step server_step (postgres public_key_ok)).

(** The payload is a message for the account [c]. *)
Definition sends_to (d : pg) (p : DeniablePayload) (c : Account) : Prop :=
  ∃ m t s, p = DeniableSignalMessage m ∧ destination_service_id m = Some t ∧
    parse_from_service_id_string t = Some s ∧ (Postgres.get_account public_key_ok s d).1 = Ok c ∧
    is_Some (b64_decode (content m)).

(** The message as it is passed on, by a server with this clock. *)
Definition becomes (times : nat → Z) (p p' : DeniablePayload) : Prop :=
  ∃ m t s i e, p = DeniableSignalMessage m ∧ destination_service_id m = Some t ∧
    parse_from_service_id_string t = Some s ∧
    to_envelope m s (ad_account ad) (sender_device_id ad) timestamp false (times i) = Ok e ∧ p' = DeniableEnvelope e.

Definition device_addresses (c : Account) : list ProtocolAddress :=
  map (λ v, get_protocol_address c KindAci (dev_id v)) (acc_devices c).

(** The same clock, and queues are as ready as before. *)
Definition keeps_ready (w w' : world) : Prop := clock w' = clock w ∧ ∀ K q, ready K w q → ready K w' q.

Lemma route_run w d p c i m :
  clock_ok w → sends_to d p c →
  ∃ p', becomes (clock w) p p' ∧
    interp step (route_payload ad i timestamp p m) (w, d) = (Ok (push_payload c p' m), (tick w, d)).
Proof.
  intros Hclock (sm & t & s & -> & Ht & Hs & Hc & [bs Hbs]).
  assert (∃ e, to_envelope sm s (ad_account ad) (sender_device_id ad) timestamp false (clock w (ticks w)) = Ok e) as [e He].
  { unfold to_envelope. rewrite Hbs. cbn [expect mbind outcome_bind].
    rewrite (proj2 (Z.ltb_ge _ _) (Hclock _)). by eexists. }
  exists (DeniableEnvelope e). split; [by exists sm, t, s, (ticks w), e|].
  unfold route_payload. rewrite Ht, interp_bind, interp_lift. cbn [expect].
  rewrite interp_bind, interp_lift, Hs. cbn [expect].
  rewrite interp_bind, interp_managers, interp_op. cbn [server_step fst snd]. rewrite He. cbn [unwrap mbind prog_mbind prog_bind].
  rewrite interp_bind, interp_on_database, interp_op. cbn [postgres fst snd].
  pose proof (get_account_keeps public_key_ok s d d eq_refl) as Hd.
  destruct (Postgres.get_account public_key_ok s d) as [o d']. cbn in Hc, Hd. by subst.
Qed.

Lemma routes_run ps cs : ∀ w d i m,
  clock_ok w → Forall2 (sends_to d) ps cs →
  ∃ ps' w', Forall2 (becomes (clock w)) ps ps' ∧ keeps_ready w w' ∧
    interp step (for_each ps m (λ p m, route_payload ad i timestamp p m)) (w, d) = (Ok (group m (zip cs ps')), (w', d)).
Proof.
  intros w d i m Hclock Hps. revert w m Hclock. induction Hps as [|p c ps cs Hp _ IH]; intros w m Hclock.
  { by exists [], w. }
  destruct (route_run w d p c i m Hclock Hp) as (p' & Hp' & Hrun).
  destruct (IH (tick w) (push_payload c p' m) Hclock) as (ps' & w' & Hps' & Hk & Hrun').
  exists (p' :: ps'), w'. split_and!; [by constructor| |].
  - destruct Hk as [Hc Hk]. split; [done|]. intros K q Hr. by apply Hk, ready_tick.
  - cbn [for_each]. by rewrite interp_bind, Hrun.
Qed.

(** The jobs of the accounts. *)
Definition jobs_of (x : Account * list DeniablePayload) : list (ProtocolAddress * list DeniablePayload) :=
  map (λ a, (a, x.2)) (device_addresses x.1).

Lemma sent_jobs c v (m : list (Account * list DeniablePayload)) :
  account_wf c → v ∈ acc_devices c → (∀ a, a ∈ map fst m → aci a = aci c → a = c) →
  sent (get_protocol_address c KindAci (dev_id v)) (concat (map jobs_of m)) = kept c m.
Proof.
  intros (_ & Hnd & _) Hv. induction m as [|[a l] m IH]; intros Hm; [done|]. cbn [map concat].
  rewrite sent_app, kept_cons, IH by (intros b Hb; apply Hm; by right). f_equal. cbn [fst snd].
  unfold jobs_of, device_addresses. cbn [fst snd]. rewrite map_map. destruct (decide (a = c)) as [->|Hne].
  - clear -Hv Hnd. induction (acc_devices c) as [|u us IH]; [by apply elem_of_nil in Hv|].
    cbn [map] in *. apply NoDup_cons in Hnd as [Hu Hnd]. rewrite sent_cons. cbn [fst snd].
    apply elem_of_cons in Hv as [->|Hv].
    + rewrite decide_True by done. rewrite <- (app_nil_r l) at 2. f_equal.
      unfold sent. destruct (filter _ _) as [|j js] eqn:Hf; [done|]. destruct Hu.
      assert (j ∈ j :: js) as Hj by left. rewrite <- Hf in Hj.
      apply list_elem_of_filter in Hj as [Heq (x & -> & Hx)%list_elem_of_fmap]. injection Heq as Heq.
      rewrite <- Heq. by apply list_elem_of_fmap_2.
    + rewrite decide_False, IH; [done..|]. intros Heq. injection Heq as Heq. destruct Hu. rewrite Heq.
      by apply list_elem_of_fmap_2.
  - assert (∀ us, sent (get_protocol_address c KindAci (dev_id v))
      (map (λ u, (get_protocol_address a KindAci (dev_id u), l)) us) = []) as ->; [|done].
    intros us. induction us as [|u us IHu]; [done|]. cbn [map]. rewrite sent_cons, IHu. cbn [fst snd].
    rewrite decide_False; [done|]. intros Heq. apply Hne, Hm; [by left|]. by injection Heq.
Qed.

Lemma run_jobs_app {D} (database : handler databaseE string D) jobs jobs' st :
  interp (state_step server_step database) (run_jobs (jobs ++ jobs')) st =
  interp (state_step server_step database) (_ ← run_jobs jobs; run_jobs jobs') st.
Proof.
  unfold run_jobs. revert st. induction jobs as [|j jobs IH]; intros st; [done|]. cbn [app for_each].
  rewrite !interp_bind.
  destruct (interp _ (managers _) st) as [[x|e|w] st']; [|done..]. cbn [interp]. by rewrite IH, interp_bind.
Qed.

(** Queueing for the accounts is running their jobs. *)
Lemma enqueue_is_jobs {D} (database : handler databaseE string D) m st :
  interp (state_step server_step database) (for_each m tt (λ '(account, payloads) _, enqueue_for_account account payloads)) st =
  interp (state_step server_step database) (run_jobs (concat (map jobs_of m))) st.
Proof.
  revert st. induction m as [|[c l] m IH]; intros st; [done|]. cbn [for_each map concat].
  rewrite run_jobs_app, !interp_bind.
  assert (∀ us st, interp (state_step server_step database)
      (for_each us tt (λ device _, _ ← managers (enqueue_outgoing_payload_buffer (get_protocol_address c KindAci (dev_id device)) l); Ret tt)) st
    = interp (state_step server_step database) (run_jobs (map (λ a, (a, l)) (map (λ v, get_protocol_address c KindAci (dev_id v)) us))) st) as Hus.
  { unfold run_jobs. induction us as [|u us IHu]; intros s; [done|]. cbn [for_each map fst snd]. rewrite !interp_bind.
    destruct (interp _ _ s) as [[x|e|w] s']; [|done..]. cbn [interp]. apply IHu. }
  unfold enqueue_for_account. rewrite Hus. unfold jobs_of, device_addresses. cbn [fst snd].
  destruct (interp _ _ st) as [[[]|e|w] st']; [apply IH|done..].
Qed.

Lemma queue_all_run known w d m n data :
  NoDup (map fst m) → map fst m ⊆ known → (∀ c, c ∈ known → account_wf c ∧ is_uuid (aci c) = true) →
  (∀ c c', c ∈ known → c' ∈ known → aci c = aci c' → c = c') →
  (∀ c, c ∈ known → len (kept c m) ≤ n) →
  (∀ c v, c ∈ known → v ∈ acc_devices c →
     outbox w n (get_protocol_address c KindAci (dev_id v)) (data (get_protocol_address c KindAci (dev_id v)))) →
  ∃ w', interp step (for_each (map_order m) tt (λ '(account, payloads) _, enqueue_for_account account payloads)) (w, d)
      = (Ok tt, (w', d)) ∧
    keeps_others (λ a, ∃ c, c ∈ known ∧ a ∈ device_addresses c) w w' ∧
    ∀ c v, c ∈ known → v ∈ acc_devices c →
      outbox w' (n - len (kept c m)) (get_protocol_address c KindAci (dev_id v))
        (data (get_protocol_address c KindAci (dev_id v)) ++ map queued (kept c m)).
Proof.
  intros Hnd Hsub Hwf Hinj Hn Hout. pose proof (map_order_perm m) as Hperm.
  assert (∀ c, c ∈ map fst (map_order m) ↔ c ∈ map fst m) as Hkeys by (intros c; by rewrite Hperm).
  assert (∀ c v, c ∈ known → v ∈ acc_devices c →
    sent (get_protocol_address c KindAci (dev_id v)) (concat (map jobs_of (map_order m))) = kept c m) as Hsent.
  { intros c v Hc Hv. rewrite sent_jobs; [by apply kept_perm; [|by rewrite Hperm]|by apply Hwf|done|].
    intros a Ha%Hkeys Heq. apply Hinj; [by apply Hsub|done|done]. }
  pose (A := λ a, ∃ c, c ∈ known ∧ a ∈ device_addresses c).
  destruct (run_jobs_run A) with (database := postgres public_key_ok) (d := d)
    (jobs := concat (map jobs_of (map_order m))) (w := w) (n := λ _ : ProtocolAddress, n) (data := data)
    as (w' & Hrun & Hk & Hout').
  - intros a (c & Hc & (v & -> & _)%list_elem_of_fmap). cbn [name get_protocol_address].
    apply uuid_free; [by apply Hwf|done].
  - intros j Hj. apply list_elem_of_In, in_concat in Hj as (js & Hjs & Hj). apply in_map_iff in Hjs as ([c l] & <- & Hc).
    apply in_map_iff in Hj as (a & <- & Ha). exists c. cbn [fst] in *. apply list_elem_of_In in Hc, Ha.
    split; [|done]. apply Hsub, Hkeys. by apply (list_elem_of_fmap_2 fst) in Hc.
  - intros a (c & Hc & (v & -> & Hv)%list_elem_of_fmap). rewrite Hsent by done. by apply Hn.
  - intros a (c & Hc & (v & -> & Hv)%list_elem_of_fmap). by apply Hout.
  - exists w'. split_and!; [by rewrite enqueue_is_jobs|exact Hk|]. intros c v Hc Hv.
    rewrite <- (Hsent c v) by done. apply Hout'. exists c. split; [done|]. by apply (list_elem_of_fmap_2 (λ v, get_protocol_address c KindAci (dev_id v))).
Qed.

(** *** What the handler does *)

Lemma outbox_keeps w w' n a data : keeps_ready w w' → outbox w n a data → outbox w' n a data.
Proof. intros [_ Hk] (q & Hr & Hc & Hn). exists q. split_and!; [by apply Hk|done..]. Qed.

Lemma inbox_separate sender a :
  string_mem ":" (name sender) = false → string_mem ":" (name a) = false →
  separate (ChunkCache.queue sender Buffer.Sender) (outbox_keys a) ∧
  separate (outbox_keys a) (ChunkCache.queue sender Buffer.Sender).
Proof. intros Hs Ha. split; (apply separate_keys; [by repeat constructor..|done|done|by left]). Qed.

Lemma inbox_keeps a w w' pend b n :
  (∀ q, ready (ChunkCache.queue a Buffer.Sender) w q → ready (ChunkCache.queue a Buffer.Sender) w' q) →
  inbox a w pend b n → inbox a w' pend b n.
Proof. intros Hk [(q & Hr & Hc & Hq) Hp Hb]. split; [|done|done]. exists q. split_and!; [by apply Hk|done..]. Qed.

Lemma payloads_for_length c (cs : list Account) ps : len (payloads_for c (zip cs ps)) ≤ len ps.
Proof.
  unfold payloads_for, len. rewrite length_map. pose proof (length_filter (λ x, x.1 = c) (zip cs ps)).
  pose proof (length_zip cs ps). lia.
Qed.

(** Nothing but the incoming queue of the sender and the outgoing queues of the
    devices of some accounts is touched. *)
Definition untouched (known : list Account) (w w' : world) : Prop :=
  ∀ K q, separate K (ChunkCache.queue (authenticated_address ad KindAci) Buffer.Sender) →
    (∀ c a, c ∈ known → a ∈ device_addresses c → separate K (outbox_keys a)) → ready K w q → ready K w' q.

Global Instance untouched_preorder known : PreOrder (untouched known).
Proof. split; [by intros w K q _ _|]. intros w1 w2 w3 H12 H23 K q HK HK' Hr. by apply H23, H12. Qed.

Lemma untouched_outbox known w w' a n data :
  untouched known w w' → is_uuid (aci (ad_account ad)) = true → (∀ c, c ∈ known → is_uuid (aci c) = true) →
  string_mem ":" (name a) = false → (∀ c, c ∈ known → a ∉ device_addresses c) →
  outbox w n a data → outbox w' n a data.
Proof.
  intros Hk Huuid Hwf Ha Hno (q & Hr & Hq & Hn). exists q. split_and!; [|done..]. apply Hk; [| |done].
  - apply (inbox_separate (authenticated_address ad KindAci) a); [by apply uuid_free|done].
  - intros c b Hc Hb. apply (outboxes_separate (λ x, string_mem ":" (name x) = false)); [done|done| |].
    + apply list_elem_of_fmap in Hb as (v & -> & _). apply uuid_free; [by apply Hwf|done].
    + intros ->. by destruct (Hno c Hc).
Qed.

(** Routing what was assembled, and queueing it. *)
Lemma route_all_run known w d ps cs i k data :
  clock_ok w → 0 ≤ k → Forall2 (sends_to d) ps cs → cs ⊆ known →
  (∀ c, c ∈ known → account_wf c ∧ is_uuid (aci c) = true) → (∀ c c', c ∈ known → c' ∈ known → aci c = aci c' → c = c') →
  (∀ c v, c ∈ known → v ∈ acc_devices c →
     outbox w (len ps + k) (get_protocol_address c KindAci (dev_id v)) (data (get_protocol_address c KindAci (dev_id v)))) →
  ∃ ps' w', Forall2 (becomes (clock w)) ps ps' ∧
    interp step (m ← for_each ps [] (λ p m, route_payload ad i timestamp p m);
                 for_each (map_order m) tt (λ '(account, payloads) _, enqueue_for_account account payloads)) (w, d)
      = (Ok tt, (w', d)) ∧
    keeps_others (λ a, ∃ c, c ∈ known ∧ a ∈ device_addresses c) w w' ∧
    ∀ c v, c ∈ known → v ∈ acc_devices c →
      outbox w' k (get_protocol_address c KindAci (dev_id v))
        (data (get_protocol_address c KindAci (dev_id v)) ++ map queued (payloads_for c (zip cs ps'))).
Proof.
  intros Hclock Hk0 Hps Hsub Hwf Hinj Hout. destruct (routes_run ps cs w d i [] Hclock Hps) as (ps' & w1 & Hps' & Hk & Hrun).
  destruct (group_spec (zip cs ps') [] (NoDup_nil_2 (A := Account))) as (Hnd & Hkept & Hkeys).
  assert (map fst (zip cs ps') = cs) as Hzip.
  { change (map fst (zip cs ps')) with ((zip cs ps').*1). apply fst_zip.
    pose proof (Forall2_length _ _ _ Hps). pose proof (Forall2_length _ _ _ Hps'). lia. }
  assert (len ps' = len ps) as Hlen by (unfold len; by rewrite (Forall2_length _ _ _ Hps')).
  assert (∀ c, c ∈ map fst (group [] (zip cs ps')) ↔ c ∈ cs) as Hin.
  { intros c. rewrite Hkeys, Hzip. split; [by intros [?|?%elem_of_nil]|by left]. }
  assert (∀ c, len (kept c (group [] (zip cs ps'))) ≤ len ps) as Hroom
    by (intros c; rewrite Hkept, <- Hlen; apply payloads_for_length).
  destruct (queue_all_run known w1 d (group [] (zip cs ps')) (len ps + k) data Hnd) as (w2 & Hrun2 & Hk2 & Hout2); [|done..| | |].
  - intros c Hc%Hin. by apply Hsub.
  - intros c _. specialize (Hroom c). lia.
  - intros c v Hc Hv. eapply outbox_keeps; [exact Hk|]. by apply Hout.
  - exists ps', w2. split_and!; [done|by rewrite interp_bind, Hrun| |].
    + destruct Hk as [Hc Hk], Hk2 as [Hc2 Hk2]. split; [by rewrite Hc2|]. intros K q HK Hr. apply Hk2; [|by apply Hk]. done.
    + intros c v Hc Hv. destruct (Hout2 c v Hc Hv) as (q & Hr & Hcq & Hn). exists q.
      rewrite Hkept in Hcq. specialize (Hroom c). split_and!; [done|exact Hcq|lia].
Qed.

Lemma receive_no_dummies a cs : receive_chunks a (no_dummies cs) = receive_chunks a cs.
Proof. unfold receive_chunks. cbn [ChunkType.into_i32]. fold (no_dummies (no_dummies cs)) (no_dummies cs). by rewrite no_dummies_idemp. Qed.

Lemma receiving_run known w d destination chunks pend b n ds rest ps cs k data :
  let sender := authenticated_address ad KindAci in
  inbox sender w pend b n → well_flagged b chunks → absorb (joined pend) chunks = (ds, rest) → payloads_of ds ps →
  len pend + len (no_dummies chunks) ≤ PAGE_SIZE → n + 200 < 2 ^ 31 →
  acc_devices destination ≠ [] → is_uuid (aci (ad_account ad)) = true → 0 ≤ k → Forall2 (sends_to d) ps cs → cs ⊆ known →
  (∀ c, c ∈ known → account_wf c ∧ is_uuid (aci c) = true) → (∀ c c', c ∈ known → c' ∈ known → aci c = aci c' → c = c') →
  (∀ c v, c ∈ known → v ∈ acc_devices c →
     outbox w (len ps + k) (get_protocol_address c KindAci (dev_id v)) (data (get_protocol_address c KindAci (dev_id v)))) →
  ∃ ps' w' b', Forall2 (becomes (clock w)) ps ps' ∧ clock w' = clock w ∧
    interp step (handle_receiving_chunks ad destination chunks timestamp) (w, d) = (Ok tt, (w', d)) ∧
    inbox sender w' (trailing pend chunks) b' (n + 200) ∧ joined (trailing pend chunks) = rest ∧
    (∀ es, well_flagged b (chunks ++ es) → well_flagged b' es) ∧ untouched known w w' ∧
    ∀ c v, c ∈ known → v ∈ acc_devices c →
      outbox w' k (get_protocol_address c KindAci (dev_id v))
        (data (get_protocol_address c KindAci (dev_id v)) ++ map queued (payloads_for c (zip cs ps'))).
Proof.
  intros sender Hin Hf Ha Hps Hfit Hn Hdest Huuid Hk0 Hto Hsub Hwf Hinj Hout.
  assert (string_mem ":" (name sender) = false) as Hsender by by apply uuid_free.
  assert (∀ c v, c ∈ known → string_mem ":" (name (get_protocol_address c KindAci (dev_id v))) = false) as Hplain
    by (intros c v Hc; apply uuid_free; [by apply Hwf|done]).
  destruct (receive_chunks_run sender w pend b n chunks ds rest ps Hin Hf Ha Hps Hfit Hn)
    as (w1 & b' & Hrun & Hin1 & Hj & Hes & Hev & Hw).
  unfold handle_receiving_chunks. cbn [ChunkType.into_i32]. fold (no_dummies chunks).
  destruct (decide (no_dummies chunks = [])) as [Hnone|Hsome].
  { rewrite <- receive_no_dummies, Hnone in Hrun. unfold receive_chunks in Hrun. cbn in Hrun. injection Hrun as <- <-.
    apply Forall2_nil_inv_l in Hto as ->. exists [], w, b'. split_and!; [constructor|done..|].
    intros c v Hc Hv. rewrite app_nil_r. by apply Hout. }
  assert (untouched known w w1) as Hk1.
  { intros K q HK _ Hr. destruct Hin1 as [(q1 & Hr1 & _) _ _]. by eapply (ready_other K). }
  destruct (acc_devices destination) as [|first devices]; [done|]. cbn [head].
  destruct Hin1 as [(q1 & Hr1 & Hq1) Hp1 Hb1].
  destruct (route_all_run known w1 d ps cs (dev_id first) k data (ready_clock _ _ _ Hr1) Hk0 Hto Hsub Hwf Hinj)
    as (ps' & w2 & Hps' & Hrun2 & Hk & Hout2).
  { intros c v Hc Hv. destruct (Hout c v Hc Hv) as (q & Hr & Hq & Hnq). exists q. split_and!; [|done..].
    eapply (ready_other _ (ChunkCache.queue sender Buffer.Sender)); [|exact Hr|exact Hev|exact Hw|exact Hr1].
    by apply inbox_separate, Hplain. }
  exists ps', w2, b'. destruct Hk as [Hc2 Hk]. rewrite (ev_clock _ _ Hev) in Hps', Hc2.
  split_and!; [done|done| |split; [|done..]|done|done| |done].
  - rewrite interp_bind, interp_lift. cbn [fmap option_fmap option_map ok_or].
    rewrite interp_bind, interp_managers. cbn [fst snd]. fold sender. rewrite receive_no_dummies, Hrun. exact Hrun2.
  - exists q1. split; [|done]. apply Hk; [|done]. intros a (c & Hc & (v & -> & _)%list_elem_of_fmap).
    by apply inbox_separate, Hplain.
  - intros K q HK HK' Hr. apply Hk; [|by apply Hk1]. intros a (c & Hc & Ha'). by eapply HK'.
Qed.
End routing.

(** ** Properties *)

(** C5: deniable messages are passed on.  When the server, which behaves as
    documented, receives chunks that complete messages of a sender and fit, with
    those it has pending from the sender, a page of a hundred, each of these
    messages becomes an envelope from the sender in the outgoing queue of every
    device of the account it is addressed to, whoever the regular messages are
    for: in the order they were sent, each once, behind what is queued there.
    The outgoing queues of all other devices stay as they are, and what is
    unfinished is kept for the sender. *)
Theorem deniable_messages_are_routed `{Bincode, Base64, ServiceIdText, ServerText, ScanOrder} (public_key_ok : bytes → bool)
    {S} (h : handler serverE string S) (view : S → world) (ad : AuthenticatedDevice) (destination : Account)
    (chunks pend : list DenimChunk) (timestamp b n : Z) (ds : list bytes) (rest : bytes) (ps : list DeniablePayload)
    (cs : list Account) (data : ProtocolAddress → list (bytes * Z)) (st : S) (d : pg)
    (Hdoc : documented h view) (Hdest : acc_devices destination ≠ []) (Huuid : is_uuid (aci (ad_account ad)) = true)
    (Hin : inbox (authenticated_address ad KindAci) (view st) pend b n) (Hflags : well_flagged b chunks)
    (Hread : absorb (joined pend) chunks = (ds, rest)) (Hpayloads : payloads_of ds ps)
    (Hfit : len pend + len (no_dummies chunks) ≤ PAGE_SIZE) (Hroom : n + 200 < 2 ^ 31)
    (Hto : Forall2 (sends_to public_key_ok d) ps cs)
    (Hwf : ∀ c, c ∈ cs → account_wf c ∧ is_uuid (aci c) = true)
    (Hinj : ∀ c c', c ∈ cs → c' ∈ cs → aci c = aci c' → c = c')
    (Hout : ∀ c v, c ∈ cs → v ∈ acc_devices c →
       outbox (view st) (len ps) (get_protocol_address c KindAci (dev_id v)) (data (get_protocol_address c KindAci (dev_id v)))) :
  ∃ envelopes st', Forall2 (becomes ad timestamp (clock (view st))) ps envelopes ∧
    interp (state_step h (postgres public_key_ok)) (handle_receiving_chunks ad destination chunks timestamp) (st, d)
      = (Ok tt, (st', d)) ∧
    (∀ c v, c ∈ cs → v ∈ acc_devices c →
       outbox (view st') 0 (get_protocol_address c KindAci (dev_id v))
         (data (get_protocol_address c KindAci (dev_id v)) ++ map queued (payloads_for c (zip cs envelopes)))) ∧
    (∀ a k more, string_mem ":" (name a) = false → (∀ c, c ∈ cs → a ∉ device_addresses c) →
       outbox (view st) k a more → outbox (view st') k a more) ∧
    ∃ b', inbox (authenticated_address ad KindAci) (view st') (trailing pend chunks) b' (n + 200) ∧
          joined (trailing pend chunks) = rest.
Proof.
  destruct (receiving_run public_key_ok ad timestamp cs (view st) d destination chunks pend b n ds rest ps cs 0 data
              Hin Hflags Hread Hpayloads Hfit Hroom Hdest Huuid (Z.le_refl 0) Hto (reflexivity cs) Hwf Hinj)
    as (envelopes & w' & b' & Hes & _ & Hrun & Hin' & Hj & _ & Hkeep & Hout'); [by rewrite Z.add_0_r|].
  destruct (sim_run _ _ _ _ (st, d) _ _ (state_sim h server_step view (postgres public_key_ok) Hdoc) Hrun)
    as ([st' d'] & Hrun' & [= <- ->]).
  exists envelopes, st'. split_and!; [done|exact Hrun'|exact Hout'| |by exists b'].
  intros a k more. eapply untouched_outbox; [exact Hkeep|done|]. intros c Hc. by apply Hwf.
Qed.

(** *** Witnesses *)

#[local] Existing Instances demo_bincode demo_service_ids in_order demo_signatures demo_text.

(** A regular message to oneself that hides a message to the other account. *)
Definition demo_deniable : SignalMessage :=
  {| type_ := 1; destination_device_id := 1; destination_service_id := Some sample_uuid;
     destination_registration_id := 7; content := "abac" |}.
Definition demo_chunks : list DenimChunk :=
  [{| chunk := serialize_payload (DeniableSignalMessage demo_deniable); flags := 2 |}; {| chunk := [x00]; flags := 1 |}].

Lemma deniable_messages_are_routed_witness :
  ∃ e w', interp (state_step server_step (postgres (λ _, true)))
      (handle_receiving_chunks demo_sender (ad_account demo_sender) demo_chunks 5) (empty_world, demo_accounts)
    = (Ok tt, (w', demo_accounts)) ∧
    becomes demo_sender 5 (clock empty_world) (DeniableSignalMessage demo_deniable) e ∧
    outbox w' 0 (get_protocol_address demo_destination KindAci 1) [queued e].
Proof.
  destruct (deniable_messages_are_routed (λ _, true) server_step id demo_sender (ad_account demo_sender) demo_chunks [] 5 0 0
    [serialize_payload (DeniableSignalMessage demo_deniable)] [] [DeniableSignalMessage demo_deniable] [demo_destination]
    (λ _, []) empty_world demo_accounts) as (es & w' & Hes & Hrun & Hout & _).
  - apply sim_refl.
  - done.
  - done.
  - apply empty_inbox; [done|]. apply empty_ready.
  - by vm_compute.
  - by vm_compute.
  - constructor; [|constructor]. apply deserialize_serialize_payload.
  - by vm_compute.
  - done.
  - constructor; [|constructor]. exists demo_deniable, sample_uuid, (Aci sample_uuid).
    split_and!; [done..|by vm_compute|by eexists].
  - intros c ->%list_elem_of_singleton. split; [apply demo_destination_wf|by vm_compute].
  - by intros c c' ->%list_elem_of_singleton ->%list_elem_of_singleton.
  - intros c v ->%list_elem_of_singleton Hv. exists empty_queue. split_and!; [apply empty_ready|done|by cbn].
  - apply Forall2_cons_inv_l in Hes as (e & es' & He & ->%Forall2_nil_inv_l & ->).
    exists e, w'. split_and!; [exact Hrun|exact He|].
    specialize (Hout demo_destination (hd sample_device (acc_devices demo_destination)) ltac:(by left) ltac:(by vm_compute; left)).
    unfold payloads_for in Hout. cbn [zip zip_with] in Hout. rewrite filter_cons_True in Hout by done. exact Hout.
Defined.
