(* ===== verification/Interleaving.v ===== *)
(** Requests that are handled at the same time: programs over the same services
    whose calls interleave in any order.

    Everywhere else a handler runs to its end before the next one starts.  Here
    each call of a service is one step of a pool of programs; the services
    themselves answer one call at a time (a Redis command, a method of the
    database). *)
From S2P Require Export Routing.

Local Open Scope Z_scope.

(** ** Pools *)

Section pool.
Context {F : Type → Type} {E S : Type}.

Inductive thread :=
| Thread (A : Type) (p : prog F E A).
Arguments Thread {A} p.

(** One call. *)
Definition advance (h : handler F E S) {A} (p : prog F E A) (s : S) : option (prog F E A * S) :=
  match p with
  | Call c k =>
      match h _ c s with
      | (Ok x, s') => Some (k (inr x), s')
      | (Err e, s') => Some (k (inl e), s')
      | (Panic w, s') => Some (Crash w, s')
      end
  | _ => None
  end.

Definition thread_advance (h : handler F E S) (t : thread) (s : S) : option (thread * S) :=
  match t with
  | Thread p => match advance h p s with Some (p', s') => Some (Thread p', s') | None => None end
  end.

(** The scheduler takes any program that has a call to make. *)
Inductive pool_step (h : handler F E S) : list thread * S → list thread * S → Prop :=
| one_call ts s i t t' s' :
    ts !! i = Some t → thread_advance h t s = Some (t', s') → pool_step h (ts, s) (<[i := t']> ts, s').

Context (h : handler F E S).

(** *** A program that is scheduled alone *)

Definition runs {A} (p : prog F E A) (s : S) (p' : prog F E A) (s' : S) : Prop :=
  rtc (λ x y, advance h x.1 x.2 = Some y) (p, s) (p', s').

Lemma runs_trans {A} (p p' p'' : prog F E A) s s' s'' : runs p s p' s' → runs p' s' p'' s'' → runs p s p'' s''.
Proof. unfold runs. intros H1 H2. by etrans. Qed.

Lemma runs_call {A} (p p' : prog F E A) s s' : advance h p s = Some (p', s') → runs p s p' s'.
Proof. intros Ha. by apply rtc_once. Qed.

Lemma runs_ok {A} (p : prog F E A) : ∀ s a s', interp h p s = (Ok a, s') → runs p s (Ret a) s'.
Proof.
  induction p as [b|e|w|X c k IH]; intros s a s' Hrun; cbn in Hrun; simplify_eq; [apply rtc_refl|].
  destruct (h X c s) as [[x|e|w] s1] eqn:Hc; [| |done]; (eapply runs_trans; [apply runs_call; cbn; by rewrite Hc|by apply IH]).
Qed.

Lemma advance_bind {A B} (f : A → prog F E B) (p p' : prog F E A) s s' :
  advance h p s = Some (p', s') → advance h (p ≫= f) s = Some (p' ≫= f, s').
Proof. destruct p as [b|e|w|X c k]; [done..|]. cbn. destruct (h X c s) as [[x|e|w] s1]; intros; by simplify_eq. Qed.

Lemma runs_bind {A B} (f : A → prog F E B) (p p' : prog F E A) s s' :
  runs p s p' s' → runs (p ≫= f) s (p' ≫= f) s'.
Proof.
  unfold runs. intros Hr. remember (p, s) as x eqn:Hx. remember (p', s') as y eqn:Hy. revert p s Hx Hy.
  induction Hr as [x|x [q t] z Ha _ IH]; intros p s -> Hy; [simplify_eq; apply rtc_refl|].
  eapply rtc_l; [by apply advance_bind|]. by apply IH.
Qed.

(** What a program does up to a point, and what is left of it. *)
Lemma runs_bind_ok {A B} (p : prog F E A) (f : A → prog F E B) s a s' :
  interp h p s = (Ok a, s') → runs (p ≫= f) s (f a) s'.
Proof. intros Hr. apply (runs_bind f p (Ret a)), runs_ok, Hr. Qed.

Lemma pool_runs {A} ts i (p p' : prog F E A) s s' :
  runs p s p' s' → ts !! i = Some (Thread p) → rtc (pool_step h) (ts, s) (<[i := Thread p']> ts, s').
Proof.
  unfold runs. intros Hr. remember (p, s) as x eqn:Hx. remember (p', s') as y eqn:Hy. revert p s ts Hx Hy.
  induction Hr as [x|x [q t] y Ha Hr IH]; intros p s ts -> Hy Hi.
  { simplify_eq. rewrite list_insert_id by done. apply rtc_refl. }
  eapply rtc_l; [apply (one_call h ts s i (Thread p) (Thread q) t Hi); cbn in *; by rewrite Ha|].
  rewrite <- (list_insert_insert_eq ts i (Thread p') (Thread q)).
  apply (IH q t); [done|done|]. apply list_lookup_insert_eq. by eapply lookup_lt_Some.
Qed.

End pool.
Arguments thread : clear implicits.
Arguments Thread {F E A} p.

(** An unknown service that behaves as documented. *)
Lemma thread_sim {F E S T} (h : handler F E S) (ref : handler F E T) (view : S → T) t s t' w' :
  sim h ref view → thread_advance ref t (view s) = Some (t', w') →
  ∃ s', thread_advance h t s = Some (t', s') ∧ view s' = w'.
Proof.
  intros Hsim Ht. destruct t as [A [b|e|w|X c k]]; [done..|]. cbn in *. rewrite (Hsim X c s) in Ht.
  destruct (h X c s) as [[x|e|w] s1]; cbn in Ht; simplify_eq; by exists s1.
Qed.

Lemma pool_sim {F E S T} (h : handler F E S) (ref : handler F E T) (view : S → T) ts s ts' w' :
  sim h ref view → rtc (pool_step ref) (ts, view s) (ts', w') →
  ∃ s', rtc (pool_step h) (ts, s) (ts', s') ∧ view s' = w'.
Proof.
  intros Hsim Hr. remember (ts, view s) as x eqn:Hx. remember (ts', w') as y eqn:Hy. revert ts s Hx Hy.
  induction Hr as [x|x y z Hxy _ IH]; intros ts s -> Hy.
  { simplify_eq. exists s. split; [apply rtc_refl|done]. }
  inversion Hxy as [? ? i t t' w1 Hi Ht]; subst.
  destruct (thread_sim h ref view t s t' w1 Hsim Ht) as (s1 & Ha & <-).
  destruct (IH _ s1 eq_refl eq_refl) as (s' & Hr' & Hv). exists s'. split; [|done].
  eapply rtc_l; [by apply (one_call h ts s i t t' s1)|done].
Qed.

(** ** A removal and an insertion that overlap *)

Section overlap.
Context `{Bincode, Base64} (a : ProtocolAddress).
Abbreviation K := (MessageCache.queue a).

(** The end of [remove] once it has found the queue empty. *)
Definition discard (removed : list Envelope) : prog serverE string (list Envelope) :=
  _ ← redis (DEL (k_queue K));
  _ ← redis (DEL (k_meta K));
  _ ← redis (ZREM (k_index K) [k_queue K]);
  Ret removed.

(** The end of [delete], from there. *)
Definition delete_rest (removed : list Envelope) : prog serverE string (list Envelope) :=
  cache_removed_messages ← discard removed;
  db_removed_messages ← message_db (delete_messages a);
  Ret (cache_removed_messages ++ db_removed_messages).

Lemma remove_up_to_discard w q g removed w1 :
  interp server_step (for_each [g] [] (remove_one (T := Envelope) (k_queue K) (k_meta K))) w = (Ok removed, w1) →
  holds K (redis_db w1) q → q_items q = [] →
  runs server_step (MessagesManager.delete a [g]) w (delete_rest removed) w1.
Proof.
  intros Hrun Hh Hnil. unfold MessagesManager.delete, delete_rest. apply runs_bind. unfold MessageCache.remove.
  eapply runs_trans; [by apply runs_call|]. cbn beta iota. unfold RedisQueue.remove.
  eapply runs_trans; [exact (runs_bind_ok server_step _ _ w removed w1 Hrun)|].
  pose proof (holds_zset _ _ _ _ Hh) as Hz. rewrite Hnil in Hz.
  eapply runs_trans; [apply runs_call|].
  - cbn. unfold redis_step. change (k_queue K) with (MessageCache.get_message_queue_key a) in Hz. rewrite Hz. reflexivity.
  - cbn. rewrite with_redis_id. apply rtc_refl.
Qed.

(** An empty cache and an empty table. *)
Lemma nothing_to_read w only :
  zset_of (redis_db w) (k_queue K) = Ok [] → str_of (redis_db w) (k_lock K) = Ok None → stored (messages_db w) a = [] →
  interp server_step (get_messages_for_device a only) w = (Ok [], w).
Proof.
  intros Hz Hl Hst. unfold get_messages_for_device, MessageCache.get_all_messages.
  rewrite interp_bind, interp_pool_get, interp_bind. unfold get_values.
  rstep. change (str_of _ (MessageCache.get_persist_in_progress_key a)) with (str_of (redis_db w) (k_lock K)). rewrite Hl. rgo.
  rewrite with_redis_id. rstep. unfold parse_range. rewrite parse_bound_excl.
  change (parse_bound "+inf") with (Some PosInf). cbn [ok_or]. rgo.
  change (zset_of _ (MessageCache.get_message_queue_key a)) with (zset_of (redis_db w) (k_queue K)). rewrite Hz. rgo.
  rewrite with_redis_id. rewrite interp_bind. change (apply_limit _ _) with (@nil (Z * string)). cbn.
  rewrite decide_True by done. destruct only; [done|]. cbn. rewrite (selected_nil _ _ Hst). by destruct w.
Qed.

Lemma delete_rest_run w removed z d only :
  zset_of (redis_db w) (k_index K) = Ok z → str_of (redis_db w) (k_lock K) = Ok None → receiver (messages_db w) a = Some d →
  ∃ w', interp server_step (delete_rest removed) w = (Ok (removed ++ selected (messages_db w) a), w') ∧
    interp server_step (get_messages_for_device a only) w' = (Ok [], w').
Proof.
  intros Hi Hl Hd. split_keys (message_queue_distinct a). unfold delete_rest, discard.
  eexists. split.
  - rewrite interp_bind. do 2 (rstep; rgo). rstep. read_store. rewrite Hi. rgo. cbn [interp].
    rewrite interp_message_db. cbn [message_db_step]. reflexivity.
  - apply nothing_to_read; cbn [redis_db with_redis with_messages messages_db].
    + read_store. done.
    + read_store. done.
    + rewrite ?with_redis_twice. cbn. by apply (stored_store _ _ _ d).
Qed.
(** *** One after the other *)

Lemma delete_ready w q es n d :
  ready K w q → stamped q es → receiver (messages_db w) a = Some d →
  ∃ w' q', interp server_step (MessagesManager.delete a (map server_guid (take n es))) w
      = (Ok (take n es ++ selected (messages_db w) a), w') ∧
    ready K w' q' ∧ stamped q' (drop n es) ∧ q_next q' ≤ q_next q ∧
    stored (messages_db w') a = [] ∧ uuids w' = uuids w ∧ drawn w' = drawn w.
Proof.
  intros [Hh Hg Hf Hc] Hm Hd.
  destruct (remove_messages_run a None w q es n Hh Hm) as (w1 & q1 & Hrun & Hh1 & Hm1 & Hn & Hs & _).
  unfold MessagesManager.delete. rewrite (interp_bind_ok _ _ _ _ _ _ Hrun), interp_message_db. cbn [message_db_step].
  rewrite (same_messages _ _ Hs). eexists _, q1. split; [reflexivity|].
  split_and!; [|exact Hm1|exact Hn|cbn; by apply (stored_store _ _ _ d)|apply (same_uuids _ _ Hs)|apply (same_drawn _ _ Hs)].
  pose proof (same_evolves _ _ Hs) as Hev. split; [exact Hh1| |exact (fresh_evolves _ _ Hev Hf)|exact (clock_ok_evolves _ _ Hev Hc)].
  apply (guids_drawn_evolves _ _ _ Hev). unfold guids_drawn in *. rewrite Forall_forall in Hg |- *.
  intros it [i Hi]%list_elem_of_lookup. destruct (Forall2_lookup_l _ _ _ _ _ Hm1 Hi) as (e & He & _ & Hit).
  rewrite lookup_drop in He. destruct (Forall2_lookup_r _ _ _ _ _ Hm He) as (it' & Hi' & _ & Hit').
  rewrite Hit in Hit'. injection Hit' as ->. apply Hg. by eapply list_elem_of_lookup_2.
Qed.

Lemma read_ready w q es :
  ready K w q → stamped q es → len es ≤ PAGE_SIZE → stored (messages_db w) a = [] →
  interp server_step (get_messages_for_device a false) w = (Ok es, w).
Proof.
  intros Hr Hm Hes Hst. rewrite (get_messages_for_device_run a None w q es false (ready_holds _ _ _ Hr) Hm), (selected_nil _ _ Hst), app_nil_r.
  rewrite take_ge; [done|]. unfold len in Hes. lia.
Qed.

Lemma delete_then_insert w q e e' d :
  ready K w q → stamped q [e] → q_next q < 2 ^ 31 → receiver (messages_db w) a = Some d →
  (interp server_step (_ ← MessagesManager.delete a [server_guid e]; _ ← MessagesManager.insert a e'; get_messages_for_device a false) w).1
  = Ok [MessageCache.with_guid e' (uuids w (drawn w))].
Proof.
  intros Hr Hm Hn Hd. destruct (delete_ready w q [e] 1 d Hr Hm Hd) as (w1 & q1 & Hrun1 & Hr1 & Hm1 & Hn1 & Hst1 & Hu & Hdr).
  cbn [take map drop] in *. rewrite (interp_bind_ok _ _ _ _ _ _ Hrun1).
  destruct (insert_run a w1 q1 [] e' Hr1 Hm1 ltac:(lia)) as (w2 & q2 & Hrun2 & Hr2 & Hm2 & _ & Hev & _).
  rewrite (interp_bind_ok _ _ _ _ _ _ Hrun2), (read_ready w2 q2 _ Hr2 Hm2); [|done|by rewrite (ev_messages _ _ Hev)].
  by rewrite Hu, Hdr.
Qed.

Lemma insert_then_delete w q e e' d :
  ready K w q → stamped q [e] → q_next q < 2 ^ 31 → receiver (messages_db w) a = Some d →
  (interp server_step (_ ← MessagesManager.insert a e'; _ ← MessagesManager.delete a [server_guid e]; get_messages_for_device a false) w).1
  = Ok [MessageCache.with_guid e' (uuids w (drawn w))].
Proof.
  intros Hr Hm Hn Hd. destruct (insert_run a w q [e] e' Hr Hm Hn) as (w1 & q1 & Hrun1 & Hr1 & Hm1 & _ & Hev & _).
  rewrite (interp_bind_ok _ _ _ _ _ _ Hrun1).
  destruct (delete_ready w1 q1 _ 1 d Hr1 Hm1) as (w2 & q2 & Hrun2 & Hr2 & Hm2 & _ & Hst2 & _); [by rewrite (ev_messages _ _ Hev)|].
  cbn [take map drop app] in *. rewrite (interp_bind_ok _ _ _ _ _ _ Hrun2). by rewrite (read_ready w2 q2 _ Hr2 Hm2).
Qed.
(** *** At the same time *)

Lemma overlap_run w q e e' d :
  ready K w q → stamped q [e] → q_next q < 2 ^ 31 → receiver (messages_db w) a = Some d →
  ∃ w', rtc (pool_step server_step)
      ([Thread (MessagesManager.delete a [server_guid e]); Thread (MessagesManager.insert a e')], w)
      ([Thread (Ret (e :: selected (messages_db w) a)); Thread (Ret (q_next q + 1))], w') ∧
    interp server_step (get_messages_for_device a false) w' = (Ok [], w').
Proof.
  intros Hr Hm Hn Hd. set (g := server_guid e).
  destruct (remove_all_run (T := Envelope) K (message_queue_distinct a) item_envelope w q [g] [] (ready_holds _ _ _ Hr))
    as (w1 & Hrun1 & Hh1 & Hs1 & _); [by apply (stamped_names None K (redis_db w) q [e] 1 (ready_holds _ _ _ Hr))|by eapply stamped_decodable|].
  inversion Hm as [|it ? its ? Hit Hnil Hits Hq]; subst. inversion Hnil; subst.
  assert (it_guid it = g) as Hg by (symmetry; exact (proj2 (item_envelope_message _ _ Hit))).
  assert (q_take [g] q = ([it], q_drop g q)) as Htake.
  { cbn [q_take]. rewrite <- Hits. unfold find_guid. rewrite filter_cons_True by done. done. }
  rewrite Htake in Hrun1, Hh1. cbn [fst snd map app] in Hrun1, Hh1. rewrite (proj1 (item_envelope_message _ _ Hit)) in Hrun1.
  assert (q_items (q_drop g q) = []) as Hempty.
  { unfold q_drop. cbn [q_items]. rewrite <- Hits, filter_cons_False by (cbn; tauto). done. }
  pose proof (ready_same K w w1 q (q_drop g q) Hr Hs1 Hh1 ltac:(rewrite Hempty; by intros ? ?%elem_of_nil)) as Hr1.
  destruct (insert_run a w1 (q_drop g q) [] e' Hr1) as (w2 & q2 & Hrun2 & Hr2 & _ & _ & Hev & _);
    [unfold stamped; rewrite Hempty; constructor|done|].
  pose proof (ready_holds _ _ _ Hr2) as Hh2. destruct (holds_index _ _ _ _ Hh2) as [z Hz].
  destruct (delete_rest_run w2 [e] z d false Hz (holds_lock _ _ _ _ Hh2)) as (w3 & Hrun3 & Hread);
    [by rewrite (ev_messages _ _ Hev), (same_messages _ _ Hs1)|].
  exists w3. split; [|exact Hread].
  eapply rtc_trans.
  { apply (pool_runs server_step _ 0 _ _ _ _ (remove_up_to_discard w _ g [e] w1 Hrun1 Hh1 Hempty)). done. }
  eapply rtc_trans; [apply (pool_runs server_step _ 1 _ _ _ _ (runs_ok server_step _ _ _ _ Hrun2)); done|].
  eapply rtc_trans; [apply (pool_runs server_step _ 0 _ _ _ _ (runs_ok server_step _ _ _ _ Hrun3)); done|].
  rewrite (ev_messages _ _ Hev), (same_messages _ _ Hs1). apply rtc_refl.
Qed.
End overlap.

(** ** Properties *)

(** C21: requests that overlap can lose an accepted message.  While the one
    message in a device's queue is acknowledged, another one is accepted: both
    requests succeed, in an interleaving after which the device has nothing to
    read.  One after the other, in either order, they leave the accepted
    message to be read. *)
Theorem overlapping_requests_lose_a_message `{Bincode, Base64} {S} (h : handler serverE string S) (view : S → world)
    (a : ProtocolAddress) (q : rqueue) (e e' : Envelope) (d : Z) (s : S)
    (Hdoc : documented h view) (Hready : ready (MessageCache.queue a) (view s) q) (Hmessage : stamped q [e])
    (Hroom : q_next q < 2 ^ 31) (Hdevice : receiver (messages_db (view s)) a = Some d) :
  let acknowledge := MessagesManager.delete a [server_guid e] in
  let accept := MessagesManager.insert a e' in
  let read := get_messages_for_device a false in
  let accepted := MessageCache.with_guid e' (uuids (view s) (drawn (view s))) in
  (∃ s', rtc (pool_step h) ([Thread acknowledge; Thread accept], s)
           ([Thread (Ret (e :: selected (messages_db (view s)) a)); Thread (Ret (q_next q + 1))], s') ∧
     (interp h read s').1 = Ok []) ∧
  (interp h (_ ← acknowledge; _ ← accept; read) s).1 = Ok [accepted] ∧
  (interp h (_ ← accept; _ ← acknowledge; read) s).1 = Ok [accepted].
Proof.
  intros acknowledge accept read accepted. split_and!.
  - destruct (overlap_run a (view s) q e e' d Hready Hmessage Hroom Hdevice) as (w' & Hpool & Hread).
    destruct (pool_sim h server_step view _ s _ w' Hdoc Hpool) as (s' & Hpool' & <-). exists s'. split; [done|].
    destruct (sim_run _ _ _ _ _ _ _ Hdoc Hread) as (s'' & Hread' & _). unfold read. by rewrite Hread'.
  - pose proof (delete_then_insert a (view s) q e e' d Hready Hmessage Hroom Hdevice) as Hrun.
    rewrite (sim_interp _ _ _ _ _ Hdoc) in Hrun. exact Hrun.
  - pose proof (insert_then_delete a (view s) q e e' d Hready Hmessage Hroom Hdevice) as Hrun.
    rewrite (sim_interp _ _ _ _ _ Hdoc) in Hrun. exact Hrun.
Qed.

Lemma overlapping_requests_lose_a_message_witness :
  let w := (interp server_step (MessagesManager.insert demo_address demo_envelope) empty_world).2 in
  let e := MessageCache.with_guid demo_envelope "uuid-0" in
  ∃ w', rtc (pool_step server_step)
      ([Thread (MessagesManager.delete demo_address [server_guid e]); Thread (MessagesManager.insert demo_address demo_envelope)], w)
      ([Thread (Ret [e]); Thread (Ret 2)], w') ∧
    (interp server_step (get_messages_for_device demo_address false) w').1 = Ok [].
Proof.
  intros w e.
  destruct (insert_run demo_address empty_world empty_queue [] demo_envelope) as (w1 & q1 & Hrun & Hr & Hm & Hn & Hev & Hd & _).
  - apply empty_ready.
  - constructor.
  - done.
  - assert (w = w1) as -> by (unfold w; by rewrite Hrun).
    destruct (overlapping_requests_lose_a_message server_step id demo_address q1 e demo_envelope 1 w1)
      as ((w' & Hpool & Hread) & _).
    + apply sim_refl.
    + exact Hr.
    + exact Hm.
    + rewrite Hn. done.
    + cbn. rewrite (ev_messages _ _ Hev). by vm_compute.
    + exists w'. split; [|exact Hread]. rewrite Hn in Hpool.
      assert (stored (messages_db (id w1)) demo_address = []) as Hst by (cbn; rewrite (ev_messages _ _ Hev); by vm_compute).
      rewrite (selected_nil _ _ Hst) in Hpool. exact Hpool.
Defined.
