(* ===== verification/WebSocket.v ===== *)
(** Connected clients ([server/src/managers/websocket/connection.rs],
    [websocket_manager.rs], [server/src/availability_listener.rs], and the
    keepalive and upgrade handlers of [server/src/server/server.rs]).

    A connection is shared behind a lock: the task that reads its socket, the
    tasks that announce messages, and the presence manager lock it. *)
From S2P Require Export Routing Presence Frames.

Local Open Scope Z_scope.
Local Open Scope denim_scope.

(** ** Definitions *)

Inductive UserIdentity :=
| IdentityAddress (a : ProtocolAddress)
| IdentityDevice (d : AuthenticatedDevice).

(** [ws] is [ConnectionState::Active] or [Closed].  [state] is a clone of the
    server's: all clones share everything but the listeners of the presence
    manager, so only the number of that manager is kept here. *)
Record WebSocketConnection := {
  identity : UserIdentity;
  socket_address : string;
  ws_active : bool;
  pending_requests : gmap Z string;
  presence_clone : nat;
}.

Definition new_connection (i : UserIdentity) (socket_addr : string) (clone : nat) : WebSocketConnection :=
  {| identity := i; socket_address := socket_addr; ws_active := true; pending_requests := ∅; presence_clone := clone |}.
Definition with_ws (c : WebSocketConnection) (active : bool) : WebSocketConnection :=
  {| identity := identity c; socket_address := socket_address c; ws_active := active;
     pending_requests := pending_requests c; presence_clone := presence_clone c |}.
Definition with_pending (c : WebSocketConnection) (m : gmap Z string) : WebSocketConnection :=
  {| identity := identity c; socket_address := socket_address c; ws_active := ws_active c;
     pending_requests := m; presence_clone := presence_clone c |}.

Definition protocol_address (c : WebSocketConnection) : ProtocolAddress :=
  match identity c with
  | IdentityDevice d => authenticated_address d KindAci
  | IdentityAddress a => a
  end.

(** The codecs of the libraries: protobuf ([prost]), [bincode] and
    [serde_json] of the messages, the URIs and reasons of HTTP. *)
Class SocketText := {
  socket_protobuf :: Protobuf;
  serialize_denim_message : DenimMessage f32 → bytes;
  messages_from_json : string → option (DenimMessages f32);
  response_to_json : SendMessageResponse → string;
  parse_uri : string → string + string;
  canonical_reason : Z → option string;
  reason_ok : is_Some (canonical_reason 200);
  reason_internal_server_error : is_Some (canonical_reason 500);
}.

(** What a connection reaches: the connections and their locks, its sink (the
    sending half of its socket), the map of the [WebSocketManager], the map of
    availability listeners, random numbers, and the server's state. *)
Inductive socketE : Type → Type :=
| NewConnection (c : WebSocketConnection) : socketE nat
| GetConnection (i : nat) : socketE WebSocketConnection
| SetPending (i : nat) (m : gmap Z string) : socketE unit
| SetActive (i : nat) (active : bool) : socketE unit
| Lock (i : nat) : socketE unit
| Unlock (i : nat) : socketE unit
| SinkSend (i : nat) (f : ws_frame) : socketE unit
| SinkClose (i : nat) : socketE unit
| Sockets : socketE (gmap ProtocolAddress nat)
| SetSockets (m : gmap ProtocolAddress nat) : socketE unit
| Listeners : socketE (gmap string nat)
| SetAvailabilityListeners (m : gmap string nat) : socketE unit
| RequestId : socketE Z
| OnPresence (clone : nat) {X} (c : presenceE X) : socketE X
| OnState {X} (c : stateE X) : socketE X.

Abbreviation socket_prog := (prog socketE string).

Definition on_state {A} (p : prog stateE string A) : socket_prog A := embed (λ X c, OnState c) p.

(** [connection.lock().await] up to the drop of the guard. *)
Definition locked {A} (i : nat) (p : socket_prog A) : socket_prog A :=
  _ ← op (Lock i);
  r ← try_ p;
  _ ← op (Unlock i);
  match r with inl e => Throw e | inr a => Ret a end.

(** *** The connection ([connection.rs]) *)

Module Connection.
Section connection.
Context `{Bincode, Base64, ServiceIdText, ServerText, SocketText} (chunker : Chunker) (self : nat).

Definition send (msg : ws_frame) : socket_prog unit :=
  c ← op (GetConnection self);
  if ws_active c then op (SinkSend self msg) else Throw "Connection is closed".

Definition close_reason (code : Z) (reason : string) : socket_prog unit := send (Close (Some (code, reason))).

(** [current_millis()?] *)
Definition current_millis : socket_prog Z :=
  now ← on_state (managers (op Now));
  if now <? 0 then Throw "Time went backwards" else Ret now.

Definition outgoing (message : Envelope) : Envelope :=
  {| env_type := env_type message; env_source_service_id := env_source_service_id message;
     env_source_device := env_source_device message; env_destination_service_id := env_destination_service_id message;
     env_timestamp := env_timestamp message; env_content := env_content message; env_server_guid := env_server_guid message;
     env_server_timestamp := env_server_timestamp message; env_ephemeral := None; env_urgent := env_urgent message;
     env_updated_pni := env_updated_pni message; env_story := Some false; env_reporting_token := env_reporting_token message |}.

(** The request a message is sent in. *)
Definition message_request (id : Z) (now : Z) (denim_message : DenimMessage f32) : WebSocketMessage :=
  create_request id "PUT" "/api/v1/message" ["X-Signal-Key: false"; "X-Signal-Timestamp: " +:+ show now]
    (Some (serialize_denim_message denim_message)).

Definition create_message (message : Envelope) : socket_prog WebSocketMessage :=
  id ← op RequestId;
  c ← op (GetConnection self);
  let message := outgoing message in
  r ← try_ (on_state (managers (create_denim_message chunker (protocol_address c) message)));
  denim_message ← match r with
    | inl _ => Crash "Failed to create denim message: {e}"
    | inr m => Ret m
    end;
  now ← current_millis;
  guid ← lift (expect "This is always some" (env_server_guid message));
  _ ← op (SetPending self (<[id := guid]> (pending_requests c)));
  Ret (message_request id now denim_message).

Definition send_message (message : Envelope) : socket_prog unit :=
  msg ← create_message message;
  _ ← send (Binary (encode_message msg));
  c ← op (GetConnection self);
  _ ← on_state (managers (MessagesManager.delete (protocol_address c) [server_guid message]));
  Ret tt.

Definition send_messages (cached_only : bool) : socket_prog bool :=
  c ← op (GetConnection self);
  r ← try_ (on_state (managers (get_messages_for_device (protocol_address c) cached_only)));
  match r with
  | inl _ => Ret false
  | inr envelopes =>
      _ ← for_each envelopes tt (λ envelope _, _ ← try_ (send_message envelope); Ret tt);
      Ret true
  end.

Definition close : socket_prog unit :=
  c ← op (GetConnection self);
  _ ← (if ws_active c then _ ← try_ (op (SinkClose self)); Ret tt else Ret tt);
  op (SetActive self false).

Definition is_active : socket_prog bool := c ← op (GetConnection self); Ret (ws_active c).

Definition queue_empty_request (id time : Z) : WebSocketMessage :=
  create_request id "PUT" "/api/v1/queue/empty" ["X-Signal-Timestamp: " +:+ show time] None.

Definition send_queue_empty : socket_prog bool :=
  id ← op RequestId;
  time ← try_ current_millis;
  match time with
  | inl _ => Ret false
  | inr time =>
      r ← try_ (send (Binary (encode_message (queue_empty_request id time))));
      Ret (match r with inl _ => false | inr _ => true end)
  end.
End connection.

(** [handle_keepalive] of [server.rs], over the state a connection or a request
    has: [clone] is its presence manager. *)
Definition handle_keepalive (clone : nat) (authenticated_device : AuthenticatedDevice) : socket_prog (ApiError + unit) :=
  let address := authenticated_address authenticated_device KindAci in
  present ← embed (λ X c, OnPresence clone c) (is_locally_present address);
  _ ← (if (present : bool) then Ret tt
       else
         sockets ← op Sockets;
         match sockets !! address with
         | Some connection => _ ← try_ (locked connection (close_reason connection 1000 "OK")); Ret tt
         | None => Ret tt
         end);
  Ret (inr tt).

Section requests.
Context `{Bincode, Base64, ServiceIdText, ServerText, SocketText} (self : nat).

(** Answering a request. *)
Definition respond (id status_code : Z) (body : option bytes) : socket_prog unit :=
  response ← lift (create_response canonical_reason id status_code [] body);
  send self (Binary (encode_message response)).

Definition destination_in (path : string) : outcome string ServiceId :=
  path ← match parse_uri path with inl e => Err e | inr p => Ok p end;
  parts ← path_extractor path;
  identifier ← extract Some parts 2;
  ok_or "Could not parse uri to service id" (parse_from_service_id_string identifier).

Definition handle_request (request_msq : WebSocketRequestMessage) : socket_prog unit :=
  msq_id ← lift (ok_or "Request id was not present" (ws_request_id request_msq));
  path ← lift (ok_or "Request path was not present" (ws_path request_msq));
  if negb (String.prefix "/v1/messages" path) && negb (String.prefix "/v1/keepalive" path) then
    _ ← respond msq_id INTERNAL_SERVER_ERROR None;
    Throw ("Incorret path: " +:+ path)
  else if String.prefix "/v1/keepalive" path then
    c ← op (GetConnection self);
    user ← match identity c with
      | IdentityAddress _ => Crash "not yet implemented"
      | IdentityDevice auth_device => Ret auth_device
      end;
    r ← handle_keepalive (presence_clone c) user;
    match r with
    | inr _ => respond msq_id 200 None
    | inl _ => close_reason self 1000 "OK"
    end
  else
    c ← op (GetConnection self);
    authenticated_device ← match identity c with
      | IdentityAddress _ => Crash "not yet implemented: We do not support protocol addresses yet!"
      | IdentityDevice d => Ret d
      end;
    destination ← lift (destination_in path);
    messages ← lift (unpack_messages messages_from_json (ws_request_body request_msq));
    res ← on_state (handle_put_messages authenticated_device destination messages);
    match res with
    | inr res => respond msq_id 200 (Some (as_bytes (response_to_json res)))
    | inl _ => respond msq_id INTERNAL_SERVER_ERROR None
    end.

Definition handle_response (response_msq : WebSocketResponseMessage) : socket_prog unit :=
  id ← lift (ok_or "Response message was not present" (ws_id response_msq));
  c ← op (GetConnection self);
  match pending_requests c !! id with
  | None => Throw "pending_requests did not have the expected request"
  | Some guid =>
      _ ← on_state (managers (MessagesManager.delete (protocol_address c) [guid]));
      op (SetPending self (delete id (pending_requests c)))
  end.

Definition on_receive (proto_message : WebSocketMessage) : socket_prog unit :=
  match kind_of proto_message with
  | KindUnknown => close_reason self 1007 "Badly formatted"
  | KindRequest =>
      match ws_request proto_message with
      | Some req => handle_request req
      | None => close_reason self 1007 "Badly formatted"
      end
  | KindResponse =>
      match ws_response proto_message with
      | Some res => handle_response res
      | None => close_reason self 1007 "Badly formatted"
      end
  end.

(** *** As a listener *)

Definition send_available (chunker : Chunker) (cached_only : bool) : socket_prog bool :=
  active ← is_active self;
  sent ← (if (active : bool) then send_messages chunker self cached_only else Ret false);
  if (sent : bool) then send_queue_empty self else Ret false.
Definition send_cached (chunker : Chunker) : socket_prog bool := send_available chunker true.
Definition send_persisted (chunker : Chunker) : socket_prog bool := send_available chunker false.

Definition handle_displacement (connected_elsewhere : bool) : socket_prog unit :=
  _ ← try_ (if connected_elsewhere then close_reason self 4409 "Connected elsewhere" else close_reason self 1000 "OK");
  Ret tt.
End requests.
End Connection.

(** *** The map of connections ([websocket_manager.rs]) *)

Module WebSocketManager.
Section manager.
Context `{Bincode, Base64, ServiceIdText, ServerText, SocketText}.

Definition register_new_connection (address : ProtocolAddress) (connection : nat) : socket_prog unit :=
  sockets ← op Sockets;
  op (SetSockets (<[address := connection]> sockets)).

Definition is_connected (address : ProtocolAddress) : socket_prog bool :=
  sockets ← op Sockets;
  Ret (bool_decide (is_Some (sockets !! address))).

Definition get (address : ProtocolAddress) : socket_prog (option nat) :=
  sockets ← op Sockets;
  Ret (sockets !! address).

Definition close_connection (address : ProtocolAddress) (connection : nat) : socket_prog (option nat) :=
  _ ← locked connection (Connection.close connection);
  sockets ← op Sockets;
  _ ← op (SetSockets (delete address sockets));
  Ret (sockets !! address).

(** The task of a connection, over what its socket receives until it ends. *)
Fixpoint listen_loop (address : ProtocolAddress) (connection : nat) (received : list (string + ws_frame)) : socket_prog unit :=
  let ended := _ ← close_connection address connection; Ret tt in
  match received with
  | [] => ended
  | inl _ :: _ => _ ← close_connection address connection; ended
  | inr (Binary b) :: received =>
      match decode_message b with
      | inl _ => _ ← try_ (locked connection (Connection.close_reason connection 1007 "Badly formatted")); ended
      | inr msg =>
          r ← try_ (locked connection (Connection.on_receive connection msg));
          match r with
          | inl e => Crash ("called `Result::unwrap()` on an `Err` value: " +:+ e)
          | inr _ => listen_loop address connection received
          end
      end
  | inr (Text t) :: received =>
      _ ← try_ (locked connection (Connection.send connection (Text t)));
      listen_loop address connection received
  | inr (Close _) :: _ => ended
  | inr (Ping _) :: received | inr (Pong _) :: received => listen_loop address connection received
  end.
End manager.
End WebSocketManager.

(** *** Announcing messages ([availability_listener.rs]) *)

Section availability.
Context `{Bincode, Base64, ServiceIdText, ServerText, SocketText} (chunker : Chunker).

(** The body of a spawned task.  It holds the map of listeners, [map_lock],
    while it runs. *)
Definition map_lock : nat := 0.
Definition run_task (t : task) : socket_prog unit :=
  locked map_lock (
    listeners ← op Listeners;
    let tell (queue : string) (f : nat → socket_prog bool) :=
      match listeners !! queue with
      | Some listener => _ ← locked listener (f listener); Ret tt
      | None => Ret tt
      end in
    match t with
    | NotifyCached queue => tell queue (λ l, Connection.send_cached l chunker)
    | NotifyPersisted queue => tell queue (λ l, Connection.send_persisted l chunker)
    | AddListener queue listener => op (SetAvailabilityListeners (<[queue := listener]> listeners))
    | RemoveListener queue => op (SetAvailabilityListeners (delete queue listeners))
    end).

(** *** The upgrade of a request ([create_websocket_endpoint]) *)

(** The presence manager [clone], whose listeners are connections. *)
Definition on_presence {A} (clone : nat) (p : presence_prog A) : socket_prog A :=
  expand (λ X c,
    match c in presenceE X return socket_prog X → socket_prog X with
    | HandleDisplacement l b => λ _, locked l (Connection.handle_displacement l b)
    | _ => id
    end (op (OnPresence clone c))) p.

(** What runs once the request is upgraded; [endpoint] and [clone] are the
    presence managers of the request's state and of the connection's.  The task
    of the connection is [listen_loop]. *)
Definition on_upgrade (endpoint clone : nat) (authenticated_device : AuthenticatedDevice) (socket_addr : string)
    : socket_prog unit :=
  let websocket := new_connection (IdentityDevice authenticated_device) socket_addr clone in
  let address := protocol_address websocket in
  connection ← op (NewConnection websocket);
  _ ← WebSocketManager.register_new_connection address connection;
  found ← WebSocketManager.get address;
  match found with
  | None => Ret tt
  | Some websocket_manager =>
      _ ← locked websocket_manager (Connection.send_persisted websocket_manager chunker);
      _ ← on_state (managers (add_message_availability_listener address websocket_manager));
      _ ← try_ (on_presence endpoint (set_present address websocket_manager));
      Ret tt
  end.

(** [get_keepalive], with the presence manager of the request's state. *)
Definition get_keepalive (clone : nat) (authenticated_device : AuthenticatedDevice) : socket_prog (ApiError + unit) :=
  Connection.handle_keepalive clone authenticated_device.
End availability.

(** *** Running connections

    One task at a time: a lock that is held is held by the task that asks for
    it, which then waits forever.  [forever] marks these runs; the sink answers
    as [fate] says, and what it takes is kept in [sent]. *)
Definition forever : string := "waits forever for a lock it holds".

Record socket_world := {
  connections : gmap nat WebSocketConnection;
  created_connections : nat;
  held : gset nat;
  sockets : gmap ProtocolAddress nat;
  availability : gmap string nat;
  presence : presence_world;
  request_ids : nat → Z;
  drawn_ids : nat;
  fate : nat → option string;
  attempts : nat;
  sent : list (nat * ws_frame);
}.

Definition with_connections (w : socket_world) (m : gmap nat WebSocketConnection) (n : nat) : socket_world :=
  {| connections := m; created_connections := n; held := held w; sockets := sockets w; availability := availability w;
     presence := presence w; request_ids := request_ids w; drawn_ids := drawn_ids w; fate := fate w;
     attempts := attempts w; sent := sent w |}.
Definition change_connection (w : socket_world) (i : nat) (f : WebSocketConnection → WebSocketConnection) : socket_world :=
  with_connections w (alter f i (connections w)) (created_connections w).
Definition with_held (w : socket_world) (locks : gset nat) : socket_world :=
  {| connections := connections w; created_connections := created_connections w; held := locks; sockets := sockets w;
     availability := availability w; presence := presence w; request_ids := request_ids w; drawn_ids := drawn_ids w;
     fate := fate w; attempts := attempts w; sent := sent w |}.
Definition with_sockets (w : socket_world) (m : gmap ProtocolAddress nat) : socket_world :=
  {| connections := connections w; created_connections := created_connections w; held := held w; sockets := m;
     availability := availability w; presence := presence w; request_ids := request_ids w; drawn_ids := drawn_ids w;
     fate := fate w; attempts := attempts w; sent := sent w |}.
Definition with_availability (w : socket_world) (m : gmap string nat) : socket_world :=
  {| connections := connections w; created_connections := created_connections w; held := held w; sockets := sockets w;
     availability := m; presence := presence w; request_ids := request_ids w; drawn_ids := drawn_ids w;
     fate := fate w; attempts := attempts w; sent := sent w |}.
Definition with_presence (w : socket_world) (p : presence_world) : socket_world :=
  {| connections := connections w; created_connections := created_connections w; held := held w; sockets := sockets w;
     availability := availability w; presence := p; request_ids := request_ids w; drawn_ids := drawn_ids w;
     fate := fate w; attempts := attempts w; sent := sent w |}.
Definition draw_id (w : socket_world) : socket_world :=
  {| connections := connections w; created_connections := created_connections w; held := held w; sockets := sockets w;
     availability := availability w; presence := presence w; request_ids := request_ids w; drawn_ids := S (drawn_ids w);
     fate := fate w; attempts := attempts w; sent := sent w |}.
Definition attempt (w : socket_world) (taken : list (nat * ws_frame)) : socket_world :=
  {| connections := connections w; created_connections := created_connections w; held := held w; sockets := sockets w;
     availability := availability w; presence := presence w; request_ids := request_ids w; drawn_ids := drawn_ids w;
     fate := fate w; attempts := S (attempts w); sent := sent w ++ taken |}.

Definition socket_step {S} (state : handler stateE string S) : handler socketE string (socket_world * S) := λ X c s,
  let w := s.1 in
  match c in socketE X return outcome string X * (socket_world * S) with
  | NewConnection c =>
      let i := Datatypes.S (created_connections w) in (Ok i, (with_connections w (<[i := c]> (connections w)) i, s.2))
  | GetConnection i => (expect "no such connection" (connections w !! i), s)
  | SetPending i m => (Ok tt, (change_connection w i (λ c, with_pending c m), s.2))
  | SetActive i b => (Ok tt, (change_connection w i (λ c, with_ws c b), s.2))
  | Lock i => if decide (i ∈ held w) then (Panic forever, s) else (Ok tt, (with_held w ({[i]} ∪ held w), s.2))
  | Unlock i => (Ok tt, (with_held w (held w ∖ {[i]}), s.2))
  | SinkSend i f =>
      match fate w (attempts w) with
      | None => (Ok tt, (attempt w [(i, f)], s.2))
      | Some e => (Err e, (attempt w [], s.2))
      end
  | SinkClose i => (Ok tt, s)
  | Sockets => (Ok (sockets w), s)
  | SetSockets m => (Ok tt, (with_sockets w m, s.2))
  | Listeners => (Ok (availability w), s)
  | SetAvailabilityListeners m => (Ok tt, (with_availability w m, s.2))
  | RequestId => (Ok (request_ids w (drawn_ids w)), (draw_id w, s.2))
  | OnPresence clone c => let '(o, p) := presence_step clone _ c (presence w) in (o, (with_presence w p, s.2))
  | OnState c => let '(o, s2) := state _ c s.2 in (o, (w, s2))
  end.

Lemma socket_sim {S T} (h : handler stateE string S) (ref : handler stateE string T) (view : S → T) :
  sim h ref view → sim (socket_step h) (socket_step ref) (prod_map id view).
Proof.
  intros Hsim X c [w s]. destruct c; cbn [socket_step prod_map fst snd id]; try done.
  - by case_decide.
  - by destruct (fate w (attempts w)).
  - by destruct (presence_step clone X c (presence w)).
  - rewrite (Hsim X c s). by destruct (h X c s).
Qed.

(** ** Runs *)

Section running.
Context `{Bincode, Base64, ServiceIdText, ServerText, SocketText} {S : Type} (state : handler stateE string S).
Abbreviation step := (socket_step state).

Lemma interp_on_state {A} (p : prog stateE string A) w s :
  interp step (on_state p) (w, s) = let '(o, s') := interp state p s in (o, (w, s')).
Proof.
  unfold on_state. rewrite interp_embed. revert s. induction p as [a|e|e|X c k IH]; intros s; try done.
  cbn [interp socket_step fst snd]. destruct (state X c s) as [[x|e|e] s']; [apply IH..|done].
Qed.

Lemma interp_locked {A} i (p : socket_prog A) w s :
  i ∉ held w →
  interp step (locked i p) (w, s) =
  match interp step p (with_held w ({[i]} ∪ held w), s) with
  | (Ok a, (w', s')) => (Ok a, (with_held w' (held w' ∖ {[i]}), s'))
  | (Err e, (w', s')) => (Err e, (with_held w' (held w' ∖ {[i]}), s'))
  | (Panic e, st') => (Panic e, st')
  end.
Proof.
  intros Hi. unfold locked. rewrite interp_op_bind. cbn [socket_step fst snd]. rewrite decide_False by done.
  rewrite interp_bind, interp_try. destruct (interp step p _) as [[a|e|e] [w' s']]; try done;
    rewrite interp_op_bind; done.
Qed.

Lemma interp_locked_held {A} i (p : socket_prog A) w s :
  i ∈ held w → interp step (locked i p) (w, s) = (Panic forever, (w, s)).
Proof. intros Hi. unfold locked. rewrite interp_op_bind. cbn [socket_step fst snd]. by rewrite decide_True. Qed.

(** Sending on an open connection. *)
Lemma send_run self c f w s :
  connections w !! self = Some c → ws_active c = true →
  interp step (Connection.send self f) (w, s) =
  match fate w (attempts w) with
  | None => (Ok tt, (attempt w [(self, f)], s))
  | Some e => (Err e, (attempt w [], s))
  end.
Proof.
  intros Hc Ha. unfold Connection.send. rewrite interp_op_bind. cbn [socket_step fst snd]. rewrite Hc. cbn [expect].
  rewrite Ha, interp_op. done.
Qed.

(** *** Answers *)

Lemma respond_run self c id code body w s :
  connections w !! self = Some c → ws_active c = true → fate w (attempts w) = None → is_Some (canonical_reason code) →
  ∃ response, create_response canonical_reason id code [] body = Ok response ∧
    interp step (Connection.respond self id code body) (w, s) =
      (Ok tt, (attempt w [(self, Binary (encode_message response))], s)).
Proof.
  intros Hc Ha Hf [reason Hr]. unfold Connection.respond, create_response. rewrite Hr.
  cbn [ok_or mbind outcome_bind]. eexists. split; [reflexivity|].
  rewrite interp_bind, interp_lift, (send_run self c) by done. by rewrite Hf.
Qed.
End running.

(** *** Sending queued messages *)

Section sending.
Context `{Bincode, Base64, ServiceIdText, ServerText, SocketText} {D : Type} (database : handler databaseE string D).
Context (chunker : Chunker) (self : nat) (a : ProtocolAddress) (Ha : string_mem ":" (name a) = false).
Abbreviation step := (socket_step (state_step server_step database)).

(** What the device [a] is to be sent: the messages [es], and the payloads in
    [pq], which may be cut into as many pieces as [k]. *)
Record mail (v : world) (es : list Envelope) (pq : rqueue) (k : Z) : Prop := {
  mail_messages : ∃ q, holds (MessageCache.queue a) (redis_db v) q ∧ stamped q es;
  mail_payloads : holds (outbox_keys a) (redis_db v) pq;
  mail_cuttable : cuttable k pq;
  mail_clock : clock_ok v;
  mail_receiver : is_Some (receiver (messages_db v) a);
}.

Lemma mail_separate : separate (MessageCache.queue a) (outbox_keys a) ∧ separate (outbox_keys a) (MessageCache.queue a).
Proof. split; (apply separate_keys; [by repeat constructor..|done|done|by left]). Qed.

(** A connection of the device, as [w] has it. *)
Definition connected (w : socket_world) : Prop :=
  ∃ c, connections w !! self = Some c ∧ ws_active c = true ∧ protocol_address c = a.

(** The frame of a message. *)
Definition message_frame (id now : Z) (dm : DenimMessage f32) : nat * ws_frame :=
  (self, Binary (encode_message (Connection.message_request id now dm))).
Definition carries_message (e : Envelope) (f : nat * ws_frame) (dm : DenimMessage f32) : Prop :=
  regular_payload dm = RegularEnvelope (Connection.outgoing e) ∧ ∃ id now, f = message_frame id now dm.

Definition pending_added (w : socket_world) (guid : string) : socket_world :=
  change_connection (draw_id w) self (λ c, with_pending c (<[request_ids w (drawn_ids w) := guid]> (pending_requests c))).

Lemma pending_added_connected w guid : connected w → connected (pending_added w guid).
Proof.
  intros (c & Hc & Hactive & Hca). eexists. unfold pending_added, change_connection. cbn [connections with_connections draw_id].
  rewrite lookup_alter_eq, Hc. split_and!; [reflexivity|done|done].
Qed.

(** Whatever becomes of the request, its payloads left the queue. *)
Lemma create_message_run w v d e es pq k :
  connected w → mail v es pq (k + 1) → 0 ≤ k → 8 ≤ message_space chunker (Connection.outgoing e) →
  is_Some (env_server_guid e) →
  ∃ v' pq' dm now,
    interp step (Connection.create_message chunker self e) (w, (v, d)) =
      (Ok (Connection.message_request (request_ids w (drawn_ids w)) now dm), (pending_added w (server_guid e), (v', d))) ∧
    regular_payload dm = RegularEnvelope (Connection.outgoing e) ∧
    mail v' es pq' k ∧ same_stream (dm_chunks dm ++ whole (contents pq')) (whole (contents pq)) ∧
    content_bytes pq' ≤ content_bytes pq ∧
    (20 < message_space chunker (Connection.outgoing e) → q_items pq ≠ [] → content_bytes pq' < content_bytes pq) ∧
    messages_db v' = messages_db v.
Proof.
  intros (c & Hc & Hactive & Hca) [(q & Hq & Hst) Hp Hcut Hclock [r Hr]] Hk Hspace [guid Hguid].
  destruct (create_denim_message_run chunker a (Connection.outgoing e) v pq k Hp Hcut Hk Hspace)
    as (dm & v1 & pq' & Hrun & Hp' & Hcut' & Hs & Hstream & Hle & Hlt & Hreg & Hw & _).
  pose proof (Hclock (ticks v1)) as Hnow. rewrite <- (same_clock _ _ Hs) in Hnow.
  exists (tick v1), pq', dm, (clock v1 (ticks v1)). split_and!; [|done| |done|done|done|by apply (same_messages _ _ Hs)].
  - unfold Connection.create_message. rewrite interp_op_bind. cbn [socket_step fst snd].
    rewrite interp_op_bind. cbn [socket_step fst snd]. change (connections (draw_id w)) with (connections w). rewrite Hc. cbn [expect].
    rewrite Hca, interp_bind, interp_try, interp_on_state, interp_managers. cbn [fst snd]. rewrite Hrun. cbn [mbind prog_mbind prog_bind].
    unfold Connection.current_millis. rewrite interp_bind, interp_bind, interp_on_state, interp_managers, interp_op. cbn [server_step fst snd].
    rewrite (proj2 (Z.ltb_ge _ _) Hnow). cbn [interp].
    change (env_server_guid (Connection.outgoing e)) with (env_server_guid e). rewrite interp_bind, interp_lift, Hguid. cbn [expect].
    rewrite interp_op_bind. cbn [socket_step fst snd interp]. unfold pending_added, server_guid, change_connection. rewrite Hguid. cbn [default].
    do 3 f_equal. cbn [connections draw_id]. apply alter_ext. intros c' Hc'. by simplify_eq.
  - destruct mail_separate as [Hsep _]. split.
    + exists q. split; [|done]. by eapply (holds_other _ (outbox_keys a)).
    + done.
    + done.
    + intros i. cbn. rewrite (same_clock _ _ Hs). apply Hclock.
    + cbn. rewrite (same_messages _ _ Hs). by exists r.
Qed.

(** Deleting the message [e] leaves the messages [es']: it is the first one, or
    is not among them, as a stored one. *)
Definition drops (e : Envelope) (es es' : list Envelope) : Prop :=
  es = e :: es' ∨ es' = es ∧ (server_guid e ∉ map server_guid es) ∧ server_guid e ≠ "counter".

Lemma delete_one_run v q e es es' :
  holds (MessageCache.queue a) (redis_db v) q → stamped q es → drops e es es' → is_Some (receiver (messages_db v) a) →
  ∃ v' q' gone, interp server_step (MessagesManager.delete a [server_guid e]) v = (Ok gone, v') ∧
    holds (MessageCache.queue a) (redis_db v') q' ∧ stamped q' es' ∧ stored (messages_db v') a = [] ∧
    persists a v v' ∧ writes (queue_key_list (MessageCache.queue a)) (redis_db v) (redis_db v').
Proof.
  intros Hq Hst [->|(-> & Hg & Hc)] [r Hr].
  - destruct (delete_run a _ v q (e :: es') 1 r Hq Hst Hr) as (v' & q' & Hrun & ?). by eexists v', q', _.
  - destruct (delete_absent_run a _ v q es (server_guid e) r Hq Hst Hg Hc Hr) as (v' & q' & Hrun & ?). by eexists v', q', _.
Qed.

Lemma send_message_run w v d e es es' pq k :
  connected w → mail v es pq (k + 1) → drops e es es' → 0 ≤ k → 8 ≤ message_space chunker (Connection.outgoing e) →
  is_Some (env_server_guid e) →
  ∃ v' pq' f dm,
    carries_message e f dm ∧ same_stream (dm_chunks dm ++ whole (contents pq')) (whole (contents pq)) ∧
    content_bytes pq' ≤ content_bytes pq ∧
    (20 < message_space chunker (Connection.outgoing e) → q_items pq ≠ [] → content_bytes pq' < content_bytes pq) ∧
    match fate w (attempts w) with
    | None =>
        interp step (Connection.send_message chunker self e) (w, (v, d)) =
          (Ok tt, (attempt (pending_added w (server_guid e)) [f], (v', d))) ∧
        mail v' es' pq' k ∧ stored (messages_db v') a = []
    | Some err =>
        interp step (Connection.send_message chunker self e) (w, (v, d)) =
          (Err err, (attempt (pending_added w (server_guid e)) [], (v', d))) ∧
        mail v' es pq' k ∧ messages_db v' = messages_db v
    end.
Proof.
  intros Hw Hm Hdrops Hk Hspace Hguid.
  destruct (create_message_run w v d e es pq k Hw Hm Hk Hspace Hguid)
    as (v1 & pq' & dm & now & Hrun & Hreg & Hm1 & Hstream & Hle & Hlt & Hdb).
  destruct (pending_added_connected w (server_guid e) Hw) as (c & Hc & Hactive & Hca).
  set (f := message_frame (request_ids w (drawn_ids w)) now dm).
  pose proof (send_run (state_step server_step database) self c (snd f) (pending_added w (server_guid e)) (v1, d) Hc Hactive) as Hsend.
  change (fate (pending_added w (server_guid e)) _) with (fate w (attempts w)) in Hsend. cbn [snd f message_frame] in Hsend.
  assert (carries_message e f dm) as Hcarries by (split; [done|by eexists _, _]).
  destruct (fate w (attempts w)) as [err|].
  - exists v1, pq', f, dm. split_and!; try done.
    unfold Connection.send_message. by rewrite interp_bind, Hrun, interp_bind, Hsend.
  - destruct Hm1 as [(q & Hq & Hst) Hp Hcut Hclock Hr].
    destruct (delete_one_run v1 q e es es' Hq Hst Hdrops Hr) as (v2 & q2 & gone & Hdel & Hq2 & Hst2 & Hnone & Hper & Hwr).
    exists v2, pq', f, dm. split_and!; try done.
    + unfold Connection.send_message. rewrite interp_bind, Hrun, interp_bind, Hsend.
      rewrite interp_op_bind. cbn [socket_step fst snd]. change (connections (attempt ?w _)) with (connections w).
      rewrite Hc. cbn [expect]. rewrite Hca, interp_bind, interp_on_state, interp_managers. cbn [fst snd]. by rewrite Hdel.
    + destruct mail_separate as [_ Hsep]. split.
      * by exists q2.
      * by eapply (holds_other _ (MessageCache.queue a)).
      * done.
      * intros i. rewrite (ps_clock _ _ _ Hper). apply Hclock.
      * by rewrite (ps_receiver _ _ _ Hper).
Qed.

Fixpoint drops_all (ms es es' : list Envelope) : Prop :=
  match ms with
  | [] => es = es'
  | e :: ms => ∃ es1, drops e es es1 ∧ drops_all ms es1 es'
  end.

Lemma drops_prefix ms rest : drops_all ms (ms ++ rest) rest.
Proof. induction ms as [|e ms IH]; [done|]. exists (ms ++ rest). split; [by left|done]. Qed.

Lemma drops_absent ms es :
  Forall (λ e, (server_guid e ∉ map server_guid es) ∧ server_guid e ≠ "counter") ms → drops_all ms es es.
Proof. induction 1 as [|e ms He _ IH]; [done|]. exists es. split; [by right|done]. Qed.

Lemma drops_app ms ms' es es1 es2 : drops_all ms es es1 → drops_all ms' es1 es2 → drops_all (ms ++ ms') es es2.
Proof.
  revert es. induction ms as [|e ms IH]; intros es; [by intros <-|]. intros (es0 & He & Hms) Hms'.
  exists es0. split; [done|by apply IH].
Qed.

(** Once the socket fails, the messages of the loop stay unsent. *)
Lemma send_fails_run d es ms : ∀ w v pq k,
  connected w → (∀ n, (attempts w ≤ n)%nat → is_Some (fate w n)) → mail v es pq (len ms + k) → 0 ≤ k →
  Forall (λ e, is_Some (env_server_guid e) ∧ 8 ≤ message_space chunker (Connection.outgoing e)) ms →
  Forall (λ e, ∃ es', drops e es es') ms →
  ∃ w' v',
    interp step (for_each ms tt (λ envelope _, _ ← try_ (Connection.send_message chunker self envelope); Ret tt)) (w, (v, d))
      = (Ok tt, (w', (v', d))) ∧ sent w' = sent w ∧ messages_db v' = messages_db v.
Proof.
  induction ms as [|e ms IH]; intros w v pq k Hw Hbroken Hm Hk Hms Hdrops; [by exists w, v|].
  apply Forall_cons in Hms as [[Hguid Hspace] Hms]. apply Forall_cons in Hdrops as [[es' He] Hdrops].
  pose proof (len_nonneg ms). rewrite len_cons in Hm. replace (1 + len ms + k) with (len ms + k + 1) in Hm by lia.
  destruct (send_message_run w v d e es es' pq (len ms + k) Hw Hm He ltac:(lia) Hspace Hguid)
    as (v1 & pq1 & f & dm & _ & _ & _ & _ & Hrest).
  destruct (Hbroken (attempts w) (le_n _)) as [err Herr]. rewrite Herr in Hrest. destruct Hrest as (Hrun & Hm1 & Hdb).
  destruct (IH (attempt (pending_added w (server_guid e)) []) v1 pq1 k) as (w' & v' & Hrun' & Hsent & Hdb'); [..|done|done|done|].
  - by apply pending_added_connected.
  - intros n Hn. apply Hbroken. cbn in Hn. cbn. lia.
  - done.
  - exists w', v'. cbn [for_each]. rewrite interp_bind, interp_bind, interp_try, Hrun. cbn [interp]. rewrite Hrun'.
    split_and!; [done|by rewrite Hsent; cbn; rewrite app_nil_r|by rewrite Hdb'].
Qed.

(** The socket takes every frame from now on. *)
Definition accepts (w : socket_world) : Prop := ∀ n, (attempts w ≤ n)%nat → fate w n = None.

(** A message that can be sent: it has a name, and leaves room for chunks. *)
Definition sendable_message (e : Envelope) : Prop :=
  is_Some (env_server_guid e) ∧ 20 < message_space chunker (Connection.outgoing e).

Lemma send_each_run d ms : ∀ w v es es' pq k,
  connected w → accepts w → mail v es pq (len ms + k) → drops_all ms es es' → 0 ≤ k → Forall sendable_message ms →
  ∃ w' v' pq' out,
    interp step (for_each ms tt (λ envelope _, _ ← try_ (Connection.send_message chunker self envelope); Ret tt)) (w, (v, d))
      = (Ok tt, (w', (v', d))) ∧
    Forall2 (λ e x, carries_message e x.1 x.2) ms out ∧ sent w' = sent w ++ map fst out ∧
    connected w' ∧ accepts w' ∧ mail v' es' pq' k ∧
    (messages_db v' = messages_db v ∧ ms = [] ∨ stored (messages_db v') a = []) ∧
    same_stream (concat (map (λ x, dm_chunks x.2) out) ++ whole (contents pq')) (whole (contents pq)) ∧
    (q_items pq' = [] ∨ content_bytes pq' + len ms ≤ content_bytes pq).
Proof.
  induction ms as [|e ms IH]; intros w v es es' pq k Hw Hacc Hm Hdrops Hk Hms.
  { cbn in Hdrops. subst. rewrite len_nil, Z.add_0_l in Hm. exists w, v, pq, []. cbn [map concat app]. rewrite app_nil_r.
    split_and!; try done; [by left|right; rewrite len_nil; lia]. }
  destruct Hdrops as (es1 & He & Hdrops). apply Forall_cons in Hms as [[Hguid Hspace] Hms].
  pose proof (len_nonneg ms). rewrite len_cons in Hm. replace (1 + len ms + k) with (len ms + k + 1) in Hm by lia.
  destruct (send_message_run w v d e es es1 pq (len ms + k) Hw Hm He ltac:(lia) ltac:(lia) Hguid)
    as (v1 & pq1 & f & dm & Hf & Hstream & Hle & Hlt & Hrest).
  rewrite (Hacc (attempts w) (le_n _)) in Hrest. destruct Hrest as (Hrun & Hm1 & Hnone).
  destruct (IH (attempt (pending_added w (server_guid e)) [f]) v1 es1 es' pq1 k) as
    (w' & v' & pq' & out & Hrun' & Hout & Hsent & Hw' & Hacc' & Hm' & Hdb & Hstream' & Hprogress); [|..|done|done|].
  - by apply pending_added_connected.
  - intros n Hn. apply Hacc. cbn in Hn. cbn. lia.
  - done.
  - done.
  - exists w', v', pq', ((f, dm) :: out). split_and!; try done.
    + cbn [for_each]. rewrite interp_bind, interp_bind, interp_try, Hrun. exact Hrun'.
    + by constructor.
    + rewrite Hsent. cbn [sent attempt map fst]. by rewrite <- app_assoc.
    + right. by destruct Hdb as [[-> _]|?].
    + cbn [map concat snd]. by rewrite <- app_assoc, Hstream'.
    + rewrite len_cons. destruct Hprogress as [?|?]; [by left|]. destruct (decide (q_items pq = [])) as [Hnil|Hne].
      * left. apply (cuttable_bytes k); [apply Hm'|].
        assert (content_bytes pq = 0) as Hzero by (unfold content_bytes, contents; by rewrite Hnil). lia.
      * right. specialize (Hlt Hspace Hne). lia.
Qed.

Lemma send_available_run d w v es pq (cached_only : bool) :
  let ms := take 100 es ++ (if cached_only then [] else selected (messages_db v) a) in
  connected w → accepts w → mail v es pq (len ms) → Forall sendable_message ms →
  (cached_only = false → Forall (λ e, (server_guid e ∉ map server_guid (drop 100 es)) ∧ server_guid e ≠ "counter") (selected (messages_db v) a)) →
  ∃ w' v' pq' out id now,
    interp step (Connection.send_available self chunker cached_only) (w, (v, d)) = (Ok true, (w', (v', d))) ∧
    Forall2 (λ e x, carries_message e x.1 x.2) ms out ∧
    sent w' = sent w ++ map fst out ++ [(self, Binary (encode_message (Connection.queue_empty_request id now)))] ∧
    connected w' ∧ accepts w' ∧ mail v' (drop 100 es) pq' 0 ∧
    (messages_db v' = messages_db v ∧ ms = [] ∨ stored (messages_db v') a = []) ∧
    same_stream (concat (map (λ x, dm_chunks x.2) out) ++ whole (contents pq')) (whole (contents pq)) ∧
    (q_items pq' = [] ∨ content_bytes pq' + len ms ≤ content_bytes pq).
Proof.
  intros ms Hw Hacc Hm Hms Habsent. pose proof Hw as (c & Hc & Hactive & Hca).
  assert (drops_all ms es (drop 100 es)) as Hdrops.
  { pose proof (drops_prefix (take 100 es) (drop 100 es)) as Hprefix. rewrite take_drop in Hprefix.
    eapply drops_app; [exact Hprefix|].
    destruct cached_only; [done|by apply drops_absent, Habsent]. }
  rewrite <- (Z.add_0_r (len ms)) in Hm. pose proof Hm as [(q & Hq & Hst) _ _ _ _].
  assert (interp server_step (get_messages_for_device a cached_only) v = (Ok ms, v)) as Hget
    by exact (get_messages_for_device_run a None v q es cached_only Hq Hst).
  destruct (send_each_run d ms w v es (drop 100 es) pq 0 Hw Hacc Hm Hdrops ltac:(lia) Hms)
    as (w1 & v1 & pq1 & out & Hrun & Hout & Hsent & Hw1 & Hacc1 & Hm1 & Hdb & Hstream & Hprogress).
  pose proof Hw1 as (c1 & Hc1 & Hactive1 & Hca1).
  exists (attempt (draw_id w1) [(self, Binary (encode_message (Connection.queue_empty_request (request_ids w1 (drawn_ids w1)) (clock v1 (ticks v1)))))]),
    (tick v1), pq1, out, (request_ids w1 (drawn_ids w1)), (clock v1 (ticks v1)). split_and!; try done.
  - unfold Connection.send_available, Connection.is_active. rewrite interp_bind, interp_op_bind. cbn [socket_step fst snd].
    rewrite Hc. cbn [expect interp]. rewrite Hactive. unfold Connection.send_messages.
    rewrite interp_bind, interp_op_bind. cbn [socket_step fst snd]. rewrite Hc. cbn [expect]. rewrite Hca.
    rewrite interp_bind, interp_try, interp_on_state, interp_managers. cbn [fst snd].
    rewrite Hget, interp_bind, Hrun. cbn [interp].
    unfold Connection.send_queue_empty, Connection.current_millis. rewrite interp_op_bind. cbn [socket_step fst snd].
    rewrite interp_bind, interp_try, interp_bind, interp_on_state, interp_managers, interp_op. cbn [server_step fst snd].
    rewrite (proj2 (Z.ltb_ge _ _) (mail_clock _ _ _ _ Hm1 _)). cbn [interp].
    rewrite interp_bind, interp_try, (send_run _ self c1) by done. change (fate (draw_id w1) _) with (fate w1 (attempts w1)).
    by rewrite (Hacc1 _ (le_n _)).
  - cbn [sent attempt draw_id]. by rewrite Hsent, <- app_assoc.
  - intros n Hn. apply Hacc1. cbn in Hn. cbn. lia.
  - destruct Hm1 as [Hmq Hmp Hmc Hmt Hmr]. by split.
Qed.
End sending.

(** *** What leaves the locks and the registrations as they are *)

Section quiet.
Context `{Bincode, Base64, ServiceIdText, ServerText, SocketText} {S : Type} (state : handler stateE string S) (clone : nat).
Abbreviation step := (socket_step state).

Record undisturbed (w w' : socket_world) : Prop := {
  un_held : held w' = held w;
  un_sockets : sockets w' = sockets w;
  un_listeners : handles (presence w') clone = handles (presence w) clone;
  un_who i : (λ c, (identity c, presence_clone c)) <$> connections w' !! i
           = (λ c, (identity c, presence_clone c)) <$> connections w !! i;
}.
#[local] Instance undisturbed_preorder : PreOrder undisturbed.
Proof. split; [done|]. intros w1 w2 w3 [] []. split; intros; congruence. Qed.

(** A program after which, unless it panicked, nothing of these has changed. *)
Definition quiet {A} (p : socket_prog A) : Prop :=
  ∀ w s, match interp step p (w, s) with (Panic _, _) => True | (_, (w', _)) => undisturbed w w' end.

Lemma quiet_undisturbed {A} (p : socket_prog A) w s o w' s' :
  quiet p → interp step p (w, s) = (o, (w', s')) → (∀ e, o ≠ Panic e) → undisturbed w w'.
Proof. intros Hp Hrun Ho. specialize (Hp w s). rewrite Hrun in Hp. destruct o as [x|e|e]; [done..|by destruct (Ho e)]. Qed.

Lemma quiet_ret {A} (x : A) : quiet (Ret x).
Proof. by intros w s. Qed.
Lemma quiet_throw {A} e : quiet (@Throw socketE string A e).
Proof. by intros w s. Qed.
Lemma quiet_crash {A} e : quiet (@Crash socketE string A e).
Proof. by intros w s. Qed.
Lemma quiet_lift {A} (o : outcome string A) : quiet (lift o).
Proof. by destruct o; intros w s. Qed.

Lemma quiet_bind {A B} (p : socket_prog A) (f : A → socket_prog B) : quiet p → (∀ x, quiet (f x)) → quiet (p ≫= f).
Proof.
  intros Hp Hf w s. specialize (Hp w s). rewrite interp_bind.
  destruct (interp step p (w, s)) as [[x|e|e] [w1 s1]]; [|done..]. specialize (Hf x w1 s1).
  destruct (interp step (f x) (w1, s1)) as [[y|e|e] [w2 s2]]; [by etrans..|done].
Qed.

Lemma quiet_try {A} (p : socket_prog A) : quiet p → quiet (try_ p).
Proof.
  intros Hp w s. specialize (Hp w s). rewrite interp_try. by destruct (interp step p (w, s)) as [[x|e|e] [w1 s1]].
Qed.

Lemma quiet_for_each {A B} (l : list A) (acc : B) (body : A → B → socket_prog B) :
  (∀ x acc, quiet (body x acc)) → quiet (for_each l acc body).
Proof. intros Hb. revert acc. induction l as [|x l IH]; intros acc; [apply quiet_ret|]. by apply quiet_bind. Qed.

Lemma quiet_on_state {A} (p : prog stateE string A) : quiet (on_state p).
Proof. intros w s. rewrite interp_on_state. by destruct (interp state p s) as [[x|e|e] s']. Qed.

Lemma quiet_locked {A} i (p : socket_prog A) : quiet p → quiet (locked i p).
Proof.
  intros Hp w s. destruct (decide (i ∈ held w)) as [Hi|Hi]; [by rewrite interp_locked_held|].
  rewrite interp_locked by done. specialize (Hp (with_held w ({[i]} ∪ held w)) s).
  assert (∀ w', undisturbed (with_held w ({[i]} ∪ held w)) w' → undisturbed w (with_held w' (held w' ∖ {[i]}))) as Hkeep.
  { intros w' [Hh Hs Hl Hw]. split; [|done..]. cbn in *. rewrite Hh. set_solver. }
  destruct (interp step p _) as [[x|e|e] [w1 s1]]; [by apply Hkeep..|done].
Qed.

(** The commands that are quiet. *)
Definition quiet_command {X} (c : socketE X) : Prop :=
  match c with
  | GetConnection _ | SetPending _ _ | SetActive _ _ | SinkSend _ _ | SinkClose _ | Sockets | Listeners | SetAvailabilityListeners _
  | RequestId | OnState _ => True
  | OnPresence i _ => i ≠ clone
  | NewConnection _ | Lock _ | Unlock _ | SetSockets _ => False
  end.

Lemma change_undisturbed w i f :
  (∀ c, identity (f c) = identity c ∧ presence_clone (f c) = presence_clone c) → undisturbed w (change_connection w i f).
Proof.
  intros Hf. split; [done..|]. intros j. unfold change_connection. cbn [connections with_connections].
  destruct (decide (i = j)) as [<-|Hne]; [|by rewrite lookup_alter_ne]. rewrite lookup_alter_eq.
  destruct (connections w !! i) as [c|]; [|done]. cbn. by destruct (Hf c) as [-> ->].
Qed.

Lemma presence_step_other i j X (c : presenceE X) w : i ≠ j → handles (presence_step i X c w).2 j = handles w j.
Proof.
  intros Hij. destruct c; cbn; [done| |done| |done].
  - by rewrite decide_False.
  - by destruct (redis_step X c (shared w)) as [[] ].
Qed.

Lemma quiet_op {X} (c : socketE X) : quiet_command c → quiet (op c).
Proof.
  intros Hc w s. rewrite interp_op. destruct c; cbn [socket_step fst snd quiet_command] in *; try done.
  - by destruct (connections w !! i).
  - by apply change_undisturbed.
  - by apply change_undisturbed.
  - by destruct (fate w (attempts w)).
  - pose proof (presence_step_other clone0 clone X c (presence w) Hc) as Hl.
    destruct (presence_step clone0 X c (presence w)) as [[x|e|e] p]; by split.
  - by destruct (state X c s) as [[x|e|e] s'].
Qed.

Lemma quiet_expand {F A} (i : ∀ X, F X → socket_prog X) (p : prog F string A) :
  (∀ X c, quiet (i X c)) → quiet (expand i p).
Proof.
  intros Hi. induction p as [x|e|e|X c k IH]; cbn [expand]; [apply quiet_ret|apply quiet_throw|apply quiet_crash|].
  change (prog_bind ?f ?q) with (q ≫= f). apply quiet_bind; [by apply quiet_try|intros r; apply IH].
Qed.

Ltac quiet :=
  repeat match goal with
    | |- quiet (_ ≫= _) => apply quiet_bind; [|intros ?]
    | |- quiet (try_ _) => apply quiet_try
    | |- quiet (for_each _ _ _) => apply quiet_for_each; intros ? ?
    | |- quiet (on_state _) => apply quiet_on_state
    | |- quiet (locked _ _) => apply quiet_locked
    | |- quiet (lift _) => apply quiet_lift
    | |- quiet (op _) => apply quiet_op; try done
    | |- quiet (Ret _) => apply quiet_ret
    | |- quiet (Throw _) => apply quiet_throw
    | |- quiet (Crash _) => apply quiet_crash
    | |- quiet (match ?x with _ => _ end) => destruct x
    end.

Lemma quiet_send self f : quiet (Connection.send self f).
Proof. unfold Connection.send. quiet. Qed.

Lemma quiet_current_millis : quiet Connection.current_millis.
Proof. unfold Connection.current_millis. quiet. Qed.

Lemma quiet_create_message chunker self e : quiet (Connection.create_message chunker self e).
Proof. unfold Connection.create_message. quiet. apply quiet_current_millis. Qed.

Lemma quiet_send_available chunker self cached_only : quiet (Connection.send_available self chunker cached_only).
Proof.
  unfold Connection.send_available, Connection.is_active, Connection.send_messages, Connection.send_message, Connection.send_queue_empty.
  quiet; apply quiet_create_message || apply quiet_send || apply quiet_current_millis.
Qed.

Lemma quiet_on_presence {A} endpoint (p : presence_prog A) : endpoint ≠ clone → quiet (on_presence endpoint p).
Proof.
  intros Hne. apply quiet_expand. intros X c. destruct c; unfold id; quiet.
  unfold Connection.handle_displacement, Connection.close_reason. quiet; apply quiet_send.
Qed.
End quiet.

(** *** Keepalives *)

Section keepalive.
Context `{Bincode, Base64, ServiceIdText, ServerText, SocketText} {S : Type} (state : handler stateE string S).
Abbreviation step := (socket_step state).

(** A connection that is registered, and whose presence manager does not know
    its address. *)
Record unlisted (clone self : nat) (ad : AuthenticatedDevice) (w : socket_world) : Prop := {
  ul_who : ∃ c, connections w !! self = Some c ∧ identity c = IdentityDevice ad ∧ presence_clone c = clone;
  ul_socket : sockets w !! authenticated_address ad KindAci = Some self;
  ul_listeners : displacement_listeners (handles (presence w) clone)
                   !! get_presence_key (authenticated_address ad KindAci) = None;
}.

Lemma unlisted_undisturbed clone self ad w w' : undisturbed clone w w' → unlisted clone self ad w → unlisted clone self ad w'.
Proof.
  intros [_ Hs Hl Hw] [(c & Hc & Hi & Hp) Hsock Hlist]. split; [|by rewrite Hs|by rewrite Hl].
  specialize (Hw self). rewrite Hc in Hw. destruct (connections w' !! self) as [c'|]; [|done].
  injection Hw as Hi' Hp'. exists c'. split_and!; congruence.
Qed.

Lemma interp_is_locally_present clone a w s :
  interp step (embed (λ X c, OnPresence clone c) (is_locally_present a)) (w, s) =
  (Ok (bool_decide (is_Some (displacement_listeners (handles (presence w) clone) !! get_presence_key a))), (with_presence w (presence w), s)).
Proof. done. Qed.

Lemma keepalive_blocks clone self ad w s :
  unlisted clone self ad w → self ∈ held w →
  (interp step (Connection.handle_keepalive clone ad) (w, s)).1 = Panic forever.
Proof.
  intros [_ Hs Hl] Hheld. unfold Connection.handle_keepalive.
  rewrite interp_bind, interp_is_locally_present, Hl. cbn [bool_decide decide].
  rewrite bool_decide_false by (by intros [? ?]).
  rewrite interp_bind, interp_op_bind. cbn [socket_step fst snd]. change (sockets (with_presence w (presence w))) with (sockets w).
  rewrite Hs, interp_bind, interp_try, interp_locked_held by done. done.
Qed.

Definition is_keepalive (m : WebSocketMessage) : Prop :=
  kind_of m = KindRequest ∧ ∃ r path, ws_request m = Some r ∧ is_Some (ws_request_id r) ∧
    ws_path r = Some path ∧ String.prefix "/v1/keepalive" path = true.

Lemma receive_keepalive_blocks clone self ad m w s :
  is_keepalive m → unlisted clone self ad w → self ∈ held w →
  (interp step (Connection.on_receive self m) (w, s)).1 = Panic forever.
Proof.
  intros (Hkind & r & path & Hr & [id Hid] & Hpath & Hprefix) Hu Hheld. unfold Connection.on_receive.
  rewrite Hkind, Hr. unfold Connection.handle_request. rewrite interp_bind, interp_lift, Hid. cbn [ok_or].
  rewrite interp_bind, interp_lift, Hpath. cbn [ok_or]. rewrite Hprefix, andb_false_r.
  pose proof Hu as [(c & Hc & Hi & Hp) _ _]. rewrite interp_op_bind. cbn [socket_step fst snd]. rewrite Hc. cbn [expect].
  rewrite Hi, Hp, interp_bind. cbn [interp]. rewrite interp_bind.
  pose proof (keepalive_blocks clone self ad w s Hu Hheld) as Hblock.
  destruct (interp step (Connection.handle_keepalive clone ad) (w, s)) as [o st]. cbn [fst] in Hblock. by subst.
Qed.

Lemma keepalive_stalls chunker endpoint clone ad addr w s w1 s1 b m rest :
  let address := authenticated_address ad KindAci in
  endpoint ≠ clone → displacement_listeners (handles (presence w) clone) !! get_presence_key address = None →
  Datatypes.S (created_connections w) ∉ held w → decode_message b = inr m → is_keepalive m →
  interp step (on_upgrade chunker endpoint clone ad addr) (w, s) = (Ok tt, (w1, s1)) →
  (interp step (WebSocketManager.listen_loop address (Datatypes.S (created_connections w)) (inr (Binary b) :: rest)) (w1, s1)).1
    = Panic forever.
Proof.
  intros address Hne Hfresh Hfree Hdecode Hm Hrun. set (self := Datatypes.S (created_connections w)) in *.
  assert (unlisted clone self ad w1 ∧ held w1 = held w) as [Hu Hheld].
  { unfold on_upgrade in Hrun. rewrite interp_op_bind in Hrun. cbn [socket_step fst snd] in Hrun. fold self in Hrun.
    unfold WebSocketManager.register_new_connection in Hrun. rewrite interp_bind, interp_op_bind in Hrun.
    cbn [socket_step fst snd] in Hrun. rewrite interp_op in Hrun. cbn [socket_step fst snd] in Hrun.
    unfold WebSocketManager.get in Hrun. rewrite interp_bind, interp_op_bind in Hrun. cbn [socket_step fst snd interp] in Hrun.
    cbn [sockets with_sockets with_connections protocol_address new_connection identity] in Hrun. fold address in Hrun.
    rewrite lookup_insert_eq in Hrun.
    match type of Hrun with interp step ?p (?w0, _) = _ => set (rest_prog := p) in Hrun; set (w0' := w0) in Hrun end.
    assert (undisturbed clone w0' w1) as Hkeep.
    { refine (quiet_undisturbed state clone rest_prog w0' s _ w1 s1 _ Hrun ltac:(done)). unfold rest_prog.
      apply quiet_bind; [by apply quiet_locked, quiet_send_available|intros _].
      apply quiet_bind; [apply quiet_on_state|intros _].
      apply quiet_bind; [by apply quiet_try, quiet_on_presence|intros _; apply quiet_ret]. }
    split; [|by rewrite (un_held _ _ _ Hkeep)]. eapply unlisted_undisturbed; [exact Hkeep|]. unfold w0'. split.
    - eexists. cbn [connections with_sockets with_connections]. rewrite lookup_insert_eq. split_and!; reflexivity.
    - cbn [sockets with_sockets]. by rewrite lookup_insert_eq.
    - exact Hfresh. }
  cbn [WebSocketManager.listen_loop]. rewrite Hdecode, interp_bind, interp_try, interp_locked by (by rewrite Hheld).
  pose proof (receive_keepalive_blocks clone self ad m (with_held w1 ({[self]} ∪ held w1)) s1 Hm) as Hblock.
  destruct (interp step (Connection.on_receive self m) _) as [o [w2 s2]]. cbn [fst] in Hblock.
  rewrite Hblock; [done| |cbn; set_solver]. by destruct Hu.
Qed.
End keepalive.

(** *** The end of a connection *)

Section ending.
Context `{Bincode, Base64, ServiceIdText, ServerText, SocketText} {S : Type} (state : handler stateE string S).
Abbreviation step := (socket_step state).

Definition closed (w : socket_world) (self : nat) : Prop := ∃ c, connections w !! self = Some c ∧ ws_active c = false.

Lemma close_connection_run address self w s o w' s' :
  interp step (WebSocketManager.close_connection address self) (w, s) = (o, (w', s')) → (∀ e, o ≠ Panic e) →
  o = Ok (sockets w !! address) ∧ closed w' self ∧ sockets w' = delete address (sockets w) ∧ s' = s ∧
  (∀ i, i ≠ self → connections w' !! i = connections w !! i).
Proof.
  intros Hrun Ho. unfold WebSocketManager.close_connection in Hrun. rewrite interp_bind in Hrun.
  destruct (decide (self ∈ held w)) as [Hheld|Hheld].
  { rewrite interp_locked_held in Hrun by done. simplify_eq. by destruct (Ho forever). }
  rewrite interp_locked in Hrun by done. unfold Connection.close in Hrun. rewrite interp_op_bind in Hrun.
  cbn [socket_step fst snd] in Hrun. change (connections (with_held w _)) with (connections w) in Hrun.
  destruct (connections w !! self) as [c|] eqn:Hc; cbn [expect] in Hrun; [|simplify_eq; by destruct (Ho "no such connection")].
  assert (interp step (if ws_active c then _ ← try_ (op (SinkClose self)); Ret tt else Ret tt)
            (with_held w ({[self]} ∪ held w), s) = (Ok tt, (with_held w ({[self]} ∪ held w), s))) as Hsink by by destruct (ws_active c).
  rewrite interp_bind, Hsink, interp_op in Hrun. cbn [socket_step fst snd] in Hrun.
  rewrite interp_op_bind in Hrun. cbn [socket_step fst snd] in Hrun. rewrite interp_op_bind in Hrun. cbn [socket_step fst snd interp] in Hrun.
  injection Hrun as <- <- <-. split_and!; [done| |done|done|].
  - exists (with_ws c false). split; [|done]. cbn. by rewrite lookup_alter_eq, Hc.
  - intros i Hi. cbn. by rewrite lookup_alter_ne.
Qed.

Lemma listen_ends address self received : ∀ w s o w' s',
  interp step (WebSocketManager.listen_loop address self received) (w, s) = (o, (w', s')) → (∀ e, o ≠ Panic e) →
  o = Ok tt ∧ closed w' self ∧ sockets w' !! address = None.
Proof.
  assert (∀ w s o w' s', interp step (_ ← WebSocketManager.close_connection address self; Ret tt) (w, s) = (o, (w', s')) →
    (∀ e, o ≠ Panic e) → o = Ok tt ∧ closed w' self ∧ sockets w' !! address = None) as Hend.
  { intros w s o w' s' Hrun Ho. rewrite interp_bind in Hrun.
    destruct (interp step (WebSocketManager.close_connection address self) (w, s)) as [o1 [w1 s1]] eqn:Hclose.
    destruct (close_connection_run address self w s o1 w1 s1 Hclose) as (-> & Hc & Hs & _).
    { intros e ->. simplify_eq. by destruct (Ho e). }
    cbn [interp] in Hrun. simplify_eq. by rewrite Hs, lookup_delete_eq. }
  induction received as [|[e|[t|b|b|b|f]] received IH]; intros w s o w' s' Hrun Ho; cbn [WebSocketManager.listen_loop] in Hrun.
  - by eapply Hend.
  - rewrite interp_bind in Hrun.
    destruct (interp step (WebSocketManager.close_connection address self) (w, s)) as [[x|x|x] [w1 s1]] eqn:Hclose.
    + by eapply Hend.
    + by destruct (close_connection_run address self w s (Err x) w1 s1 Hclose) as [? _].
    + simplify_eq. by destruct (Ho x).
  - rewrite interp_bind, interp_try in Hrun.
    destruct (interp step (locked _ _) (w, s)) as [[x|x|x] [w1 s1]]; [by eapply IH..|]. simplify_eq. by destruct (Ho x).
  - destruct (decode_message b) as [e|m]; rewrite interp_bind, interp_try in Hrun.
    + destruct (interp step (locked _ _) (w, s)) as [[x|x|x] [w1 s1]]; [by eapply Hend..|]. simplify_eq. by destruct (Ho x).
    + destruct (interp step (locked _ _) (w, s)) as [[x|x|x] [w1 s1]]; cbn [interp] in Hrun; [by eapply IH|..];
        injection Hrun as <- <- <-; exfalso; exact (Ho _ eq_refl).
  - by eapply IH.
  - by eapply IH.
  - by eapply Hend.
Qed.
End ending.

(** ** Properties *)

(** C6: what is announced to a client reaches it: over a server that behaves as
    documented and a socket that takes every frame, the first hundred cached
    messages are sent in their order, and, unless only cached ones are
    announced, then the stored ones in the order in which the database returns
    them: each once, in a request of its own, and after them the notice that
    the queue is empty.  The messages sent have left the cache, where those
    beyond the first hundred still wait; and if any message was sent, the
    database has none left, also when only cached ones were announced and the
    stored ones were not sent.  The chunks in the requests carry the payloads
    that were queued for the client: together with what is left queued they are
    the same stream, and with as many messages as payload bytes nothing is left. *)
Theorem waiting_messages_are_sent `{Bincode, Base64, ServiceIdText, ServerText, SocketText} {S D}
    (h : handler serverE string S) (view : S → world) (database : handler databaseE string D) (chunker : Chunker)
    (self : nat) (a : ProtocolAddress) (w : socket_world) (st : S) (d : D) (es : list Envelope) (pq : rqueue)
    (cached_only : bool) (Hdoc : documented h view) (Ha : string_mem ":" (name a) = false) :
  let ms := take 100 es ++ (if cached_only then [] else selected (messages_db (view st)) a) in
  ∀ (Hw : connected self a w) (Hacc : accepts w) (Hmail : mail a (view st) es pq (len ms))
    (Hms : Forall (sendable_message chunker) ms)
    (Hnames : cached_only = false → Forall (λ e, (server_guid e ∉ map server_guid (drop 100 es)) ∧ server_guid e ≠ "counter")
                                           (selected (messages_db (view st)) a)),
  ∃ w' st' pq' out id now,
    interp (socket_step (state_step h database)) (Connection.send_available self chunker cached_only) (w, (st, d))
      = (Ok true, (w', (st', d))) ∧
    Forall2 (λ e x, carries_message self e x.1 x.2) ms out ∧
    sent w' = sent w ++ map fst out ++ [(self, Binary (encode_message (Connection.queue_empty_request id now)))] ∧
    mail a (view st') (drop 100 es) pq' 0 ∧
    (ms = [] ∨ stored (messages_db (view st')) a = []) ∧
    same_stream (concat (map (λ x, dm_chunks x.2) out) ++ whole (contents pq')) (whole (contents pq)) ∧
    (content_bytes pq ≤ len ms → q_items pq' = []).
Proof.
  intros ms Hw Hacc Hmail Hms Hnames.
  destruct (send_available_run database chunker self a Ha d w (view st) es pq cached_only Hw Hacc Hmail Hms Hnames)
    as (w' & v' & pq' & out & id & now & Hrun & Hout & Hsent & _ & _ & Hmail' & Hdb & Hstream & Hprogress).
  destruct (sim_run _ _ _ _ (w, (st, d)) _ _ (socket_sim _ _ _ (state_sim h server_step view database Hdoc)) Hrun)
    as ([w1 [st' d']] & Hrun' & [= -> <- ->]).
  exists w', st', pq', out, id, now. split_and!; try done.
  - destruct Hdb as [[_ ?]|?]; [by left|by right].
  - intros Hle. unfold ms in Hle. destruct Hprogress as [?|Hprogress]; [done|]. apply (cuttable_bytes 0); [apply Hmail'|lia].
Qed.

(** C39: the pieces of payloads that a message takes along are lost when the
    socket fails: the message stays queued, but the bytes in the chunks it was
    to carry have left the queue of payloads. *)
Theorem failed_send_loses_chunks `{Bincode, Base64, ServiceIdText, ServerText, SocketText} {S D}
    (h : handler serverE string S) (view : S → world) (database : handler databaseE string D) (chunker : Chunker)
    (self : nat) (a : ProtocolAddress) (w : socket_world) (st : S) (d : D) (e : Envelope) (es : list Envelope) (pq : rqueue)
    (k : Z) (err : string) (Hdoc : documented h view) (Ha : string_mem ":" (name a) = false)
    (Hw : connected self a w) (Hfate : fate w (attempts w) = Some err)
    (Hmail : mail a (view st) (e :: es) pq (k + 1)) (Hk : 0 ≤ k) (He : sendable_message chunker e) (Hpq : q_items pq ≠ []) :
  ∃ w' st' pq' lost, lost ≠ [] ∧
    interp (socket_step (state_step h database)) (Connection.send_message chunker self e) (w, (st, d)) = (Err err, (w', (st', d))) ∧
    sent w' = sent w ∧ mail a (view st') (e :: es) pq' k ∧
    same_stream (lost ++ whole (contents pq')) (whole (contents pq)) ∧ content_bytes pq' < content_bytes pq.
Proof.
  destruct He as [Hguid Hspace].
  destruct (send_message_run database chunker self a Ha w (view st) d e (e :: es) es pq k Hw Hmail ltac:(by left) Hk ltac:(lia) Hguid)
    as (v' & pq' & f & dm & _ & Hstream & _ & Hlt & Hrest). rewrite Hfate in Hrest. destruct Hrest as (Hrun & Hmail' & _).
  destruct (sim_run _ _ _ _ (w, (st, d)) _ _ (socket_sim _ _ _ (state_sim h server_step view database Hdoc)) Hrun)
    as ([w1 [st' d']] & Hrun' & [= -> <- ->]).
  specialize (Hlt Hspace Hpq). exists (attempt (pending_added self w (server_guid e)) []), st', pq', (dm_chunks dm).
  split_and!; [|done|by cbn; rewrite app_nil_r|done..].
  intros Hnil. rewrite Hnil in Hstream. cbn [app] in Hstream. specialize (Hstream []). rewrite !absorb_whole in Hstream.
  injection Hstream as Hsame. unfold content_bytes in Hlt. rewrite Hsame in Hlt. lia.
Qed.

(** Stored messages are deleted with the first one that is sent: when the
    socket then fails, the others are gone, sent or not. *)
Theorem unsent_stored_messages_are_deleted `{Bincode, Base64, ServiceIdText, ServerText, SocketText} {S D}
    (h : handler serverE string S) (view : S → world) (database : handler databaseE string D) (chunker : Chunker)
    (self : nat) (a : ProtocolAddress) (w : socket_world) (st : S) (d : D) (e : Envelope) (es : list Envelope) (pq : rqueue)
    (Hdoc : documented h view) (Ha : string_mem ":" (name a) = false)
    (Hw : connected self a w) (Hfirst : fate w (attempts w) = None) (Hbroken : ∀ n, (attempts w < n)%nat → is_Some (fate w n))
    (Hstored : selected (messages_db (view st)) a = e :: es) (Hmail : mail a (view st) [] pq (len (e :: es)))
    (Hms : Forall (sendable_message chunker) (e :: es)) (Hnames : Forall (λ e, server_guid e ≠ "counter") (e :: es)) :
  ∃ w' st' f dm,
    interp (socket_step (state_step h database)) (Connection.send_messages chunker self false) (w, (st, d)) = (Ok true, (w', (st', d))) ∧
    carries_message self e f dm ∧ sent w' = sent w ++ [f] ∧ stored (messages_db (view st')) a = [].
Proof.
  pose proof Hw as (c & Hc & Hactive & Hca). apply Forall_cons in Hms as [[Hguid Hspace] Hms]. apply Forall_cons in Hnames as [Hname Hnames].
  rewrite len_cons in Hmail. replace (1 + len es) with (len es + 0 + 1) in Hmail by lia. pose proof (len_nonneg es).
  assert (∀ x, server_guid x ≠ "counter" → drops x [] []) as Hdrops by (intros x Hx; right; split_and!; [done|by intros ?%elem_of_nil|done]).
  pose proof Hmail as [(q & Hq & Hst) _ _ _ _].
  destruct (send_message_run database chunker self a Ha w (view st) d e [] [] pq (len es + 0) Hw Hmail (Hdrops e Hname) ltac:(lia) ltac:(lia) Hguid)
    as (v1 & pq1 & f & dm & Hf & _ & _ & _ & Hrest). rewrite Hfirst in Hrest. destruct Hrest as (Hrun & Hmail1 & Hnone).
  destruct (send_fails_run database chunker self a Ha d [] es (attempt (pending_added self w (server_guid e)) [f]) v1 pq1 0)
    as (w' & v' & Hrun' & Hsent & Hdb); [by apply pending_added_connected| |done|lia| | |].
  { intros n Hn. apply Hbroken. cbn in Hn. lia. }
  { eapply Forall_impl; [exact Hms|]. intros x [? ?]. split; [done|lia]. }
  { eapply Forall_impl; [exact Hnames|]. intros x Hx. exists []. by apply Hdrops. }
  assert (interp (socket_step (state_step server_step database)) (Connection.send_messages chunker self false) (w, (view st, d))
          = (Ok true, (w', (v', d)))) as Hall.
  { unfold Connection.send_messages. rewrite interp_op_bind. cbn [socket_step fst snd]. rewrite Hc. cbn [expect].
    rewrite Hca, interp_bind, interp_try, interp_on_state, interp_managers. cbn [fst snd].
    rewrite (get_messages_for_device_run a None (view st) q [] false Hq Hst), take_nil, Hstored. cbn [app].
    rewrite interp_bind. cbn [for_each]. rewrite interp_bind, interp_bind, interp_try, Hrun. cbn [interp]. by rewrite Hrun'. }
  destruct (sim_run _ _ _ _ (w, (st, d)) _ _ (socket_sim _ _ _ (state_sim h server_step view database Hdoc)) Hall)
    as ([w1 [st' d']] & Hrun1 & [= -> <- ->]).
  exists w', st', f, dm. split_and!; [done|done|by rewrite Hsent|by rewrite Hdb].
Qed.

(** A keepalive over its own connection stalls the connection.  The
    upgrade registers the client with the presence manager of the request,
    while the connection asks its own copy, which does not list the client; so
    the handler looks the connection up and waits for its lock, which the task
    that reads the keepalive holds. *)
Theorem keepalive_stalls_the_connection `{Bincode, Base64, ServiceIdText, ServerText, SocketText} {S}
    (state : handler stateE string S) (chunker : Chunker) (endpoint clone : nat) (ad : AuthenticatedDevice) (addr : string)
    (w : socket_world) (s : S) (w1 : socket_world) (s1 : S) (b : bytes) (m : WebSocketMessage) (later : list (string + ws_frame)) :
  let address := authenticated_address ad KindAci in
  let connection := Datatypes.S (created_connections w) in
  ∀ (Hclones : endpoint ≠ clone)
    (Hfresh : displacement_listeners (handles (presence w) clone) !! get_presence_key address = None)
    (Hfree : connection ∉ held w) (Hdecode : decode_message b = inr m) (Hm : is_keepalive m)
    (Hup : interp (socket_step state) (on_upgrade chunker endpoint clone ad addr) (w, s) = (Ok tt, (w1, s1))),
  (interp (socket_step state) (WebSocketManager.listen_loop address connection (inr (Binary b) :: later)) (w1, s1)).1
    = Panic forever.
Proof. intros address connection. apply keepalive_stalls. Qed.

(** A request to send messages is answered in a response of its own: 200
    with the handler's answer when the messages were accepted, 500 otherwise;
    the messages are handled as those of an HTTP request. *)
Theorem requests_are_answered `{Bincode, Base64, ServiceIdText, ServerText, SocketText} {S}
    (state : handler stateE string S) (self : nat) (w : socket_world) (s s' : S) (c : WebSocketConnection)
    (ad : AuthenticatedDevice) (request : WebSocketRequestMessage) (id : Z) (path : string) (destination : ServiceId)
    (messages : DenimMessages f32) (result : ApiError + SendMessageResponse)
    (Hc : connections w !! self = Some c) (Hactive : ws_active c = true) (Hwho : identity c = IdentityDevice ad)
    (Hfate : fate w (attempts w) = None)
    (Hid : ws_request_id request = Some id) (Hpath : ws_path request = Some path)
    (Hprefix : String.prefix "/v1/messages" path = true) (Hother : String.prefix "/v1/keepalive" path = false)
    (Hdestination : Connection.destination_in path = Ok destination)
    (Hbody : unpack_messages messages_from_json (ws_request_body request) = Ok messages)
    (Hrun : interp state (handle_put_messages ad destination messages) s = (Ok result, s')) :
  ∃ response r,
    interp (socket_step state) (Connection.handle_request self request) (w, s)
      = (Ok tt, (attempt w [(self, Binary (encode_message response))], s')) ∧
    ws_response response = Some r ∧ ws_id r = Some id ∧
    ws_status r = Some (match result with inr _ => 200 | inl _ => 500 end) ∧
    ws_body r = match result with inr res => Some (as_bytes (response_to_json res)) | inl _ => None end.
Proof.
  pose (code := match result with inr _ => 200 | inl _ => 500 end).
  pose (body := match result with inr res => Some (as_bytes (response_to_json res)) | inl _ => None end).
  destruct (respond_run state self c id code body w s' Hc Hactive Hfate) as (response & Hresponse & Hsend).
  { unfold code. destruct result; [apply reason_internal_server_error|apply reason_ok]. }
  exists response. unfold create_response in Hresponse.
  destruct (canonical_reason code) as [reason|]; [|done]. cbn [ok_or mbind outcome_bind] in Hresponse. injection Hresponse as <-.
  eexists. split_and!; [|reflexivity..]. rewrite <- Hsend. unfold Connection.handle_request.
  rewrite interp_bind, interp_lift, Hid. cbn [ok_or]. rewrite interp_bind, interp_lift, Hpath. cbn [ok_or].
  rewrite Hprefix, Hother. cbn [negb andb]. rewrite interp_op_bind. cbn [socket_step fst snd]. rewrite Hc. cbn [expect].
  rewrite Hwho, interp_bind. cbn [interp]. rewrite interp_bind, interp_lift, Hdestination.
  rewrite interp_bind, interp_lift, Hbody, interp_bind, interp_on_state, Hrun. unfold code, body. by destruct result.
Qed.

(** A message that the connection cannot handle, like a response to a
    request it does not know, ends the task of the connection without closing
    it: the connection stays active and registered, and what arrives later is
    not read. *)
Theorem unknown_response_abandons_the_connection `{Bincode, Base64, ServiceIdText, ServerText, SocketText} {S}
    (state : handler stateE string S) (address : ProtocolAddress) (self : nat) (w : socket_world) (s : S) (c : WebSocketConnection)
    (b : bytes) (m : WebSocketMessage) (response : WebSocketResponseMessage) (id : Z) (later : list (string + ws_frame))
    (Hfree : self ∉ held w) (Hc : connections w !! self = Some c)
    (Hdecode : decode_message b = inr m) (Hkind : kind_of m = KindResponse) (Hresponse : ws_response m = Some response)
    (Hid : ws_id response = Some id) (Hunknown : pending_requests c !! id = None) :
  ∃ why w', interp (socket_step state) (WebSocketManager.listen_loop address self (inr (Binary b) :: later)) (w, s)
              = (Panic why, (w', s)) ∧
    connections w' = connections w ∧ sockets w' = sockets w ∧ sent w' = sent w.
Proof.
  cbn [WebSocketManager.listen_loop]. rewrite Hdecode, interp_bind, interp_try, interp_locked by done.
  unfold Connection.on_receive. rewrite Hkind, Hresponse. unfold Connection.handle_response.
  rewrite interp_bind, interp_lift, Hid. cbn [ok_or]. rewrite interp_op_bind. cbn [socket_step fst snd].
  change (connections (with_held w _)) with (connections w). rewrite Hc. cbn [expect]. rewrite Hunknown.
  eexists _, _. by split.
Qed.

(** The task of a connection that ends, whatever it received, leaves its
    connection closed and its address without a connection, unless it panics
    or waits forever; also when the client has connected again meanwhile, whose
    new connection is then active and not registered. *)
Theorem ended_task_unregisters_the_client `{Bincode, Base64, ServiceIdText, ServerText, SocketText} {S}
    (state : handler stateE string S) (address : ProtocolAddress) (old new : nat) (received : list (string + ws_frame))
    (w w1 : socket_world) (s s1 : S) (c : WebSocketConnection) (o : outcome string unit)
    (Hnew : connections w !! new = Some c) (Hactive : ws_active c = true) (Hne : new ≠ old) (Hfree : old ∉ held w)
    (Hold : is_Some (connections w !! old)) :
  (interp (socket_step state) (WebSocketManager.listen_loop address old received) (w, s) = (o, (w1, s1)) →
   (∀ e, o ≠ Panic e) → o = Ok tt ∧ closed w1 old ∧ sockets w1 !! address = None) ∧
  (∃ w', interp (socket_step state) (_ ← WebSocketManager.register_new_connection address new;
                                     WebSocketManager.listen_loop address old []) (w, s) = (Ok tt, (w', s)) ∧
    sockets w' !! address = None ∧ connections w' !! new = Some c).
Proof.
  split; [apply listen_ends|]. destruct Hold as [co Hco].
  set (w0 := with_sockets w (<[address := new]> (sockets w))).
  destruct (interp (socket_step state) (WebSocketManager.close_connection address old) (w0, s)) as [o1 [w2 s2]] eqn:Hclose.
  assert (∀ e, o1 ≠ Panic e) as Ho1.
  { intros e ->. revert Hclose. unfold WebSocketManager.close_connection. rewrite interp_bind, interp_locked by done.
    unfold Connection.close. rewrite interp_op_bind. cbn [socket_step fst snd].
    change (connections (with_held w0 _)) with (connections w). rewrite Hco. cbn [expect]. by destruct (ws_active co). }
  destruct (close_connection_run state address old w0 s o1 w2 s2 Hclose Ho1) as (-> & _ & Hs & -> & Hothers).
  exists w2. split_and!; [|by rewrite Hs, lookup_delete_eq|by rewrite Hothers].
  unfold WebSocketManager.register_new_connection. rewrite interp_bind, interp_op_bind. cbn [socket_step fst snd].
  rewrite interp_op. cbn [socket_step fst snd WebSocketManager.listen_loop]. fold w0. by rewrite interp_bind, Hclose.
Qed.

(** *** Witnesses *)

Definition demo_reason (code : Z) : option string :=
  if code =? 200 then Some "OK" else if code =? 500 then Some "Internal Server Error" else None.
Program Definition demo_socket_text : SocketText := {|
  socket_protobuf := demo_protobuf;
  serialize_denim_message m := [];
  messages_from_json s := Some (demo_messages [demo_message 7]);
  response_to_json r := if needs_sync r then "{needsSync:true}" else "{needsSync:false}";
  parse_uri s := inr s;
  canonical_reason := demo_reason;
|}.
Next Obligation. by eexists. Qed.
Next Obligation. by eexists. Qed.

#[local] Existing Instances demo_bincode demo_service_ids in_order demo_signatures demo_text demo_socket_text.

Definition demo_connection : WebSocketConnection := new_connection (IdentityDevice sample_authenticated) "127.0.0.1:4043" 1.
Definition demo_sockets (fate : nat → option string) : socket_world :=
  {| connections := {[1%nat := demo_connection]}; created_connections := 1; held := ∅; sockets := ∅; availability := ∅;
     presence := lone_manager; request_ids := Z.of_nat; drawn_ids := 0; fate := fate; attempts := 0; sent := [] |}.
Definition demo_waiting : Envelope := MessageCache.with_guid blank_envelope (uuids empty_world 0).

Lemma demo_connected fate : connected 1 sample_address (demo_sockets fate).
Proof. exists demo_connection. by split_and!. Qed.

Lemma demo_waiting_sendable : sendable_message Chunker_default demo_waiting.
Proof. split; [by eexists|by vm_compute]. Qed.

Lemma sample_name_plain : string_mem ":" (name sample_address) = false.
Proof. done. Qed.

(** A server with a message and a payload for the sample device. *)
Lemma demo_mail k :
  0 ≤ k < 2 ^ 20 → ∃ v pq, mail sample_address v [demo_waiting] pq k ∧ q_items pq ≠ [].
Proof.
  intros Hk. destruct (insert_run sample_address empty_world empty_queue [] blank_envelope (empty_ready _) ltac:(constructor) ltac:(done))
    as (v1 & q1 & _ & Hr1 & Hst1 & _ & Hev1 & _ & Hw1).
  destruct (mail_separate sample_address sample_name_plain) as [Hsep Hsep'].
  pose proof (ready_other _ _ _ _ _ _ Hsep' (empty_ready _) Hev1 Hw1 Hr1) as Hr0.
  destruct (enqueue_each_run (outbox_keys sample_address) (payload_queue_distinct _ _) serialize_payload sample_address [demo_payload]
              v1 empty_queue 0 Hr0 ltac:(done) ltac:(done) ltac:(done)) as (v2 & pq & n & _ & Hr2 & Hev2 & Happ & _ & Hw2).
  pose proof (ready_other _ _ _ _ _ _ Hsep Hr1 Hev2 Hw2 Hr2) as Hr1'.
  exists v2, pq. split.
  - split.
    + exists q1. split; [apply Hr1'|exact Hst1].
    + apply Hr2.
    + apply (appended_cuttable k empty_queue pq _ ltac:(constructor) Happ). constructor; [|constructor].
      split; [by vm_compute|]. assert (len (serialize_payload demo_payload) < 2 ^ 20) by by vm_compute. lia.
    + apply Hr2.
    + rewrite (ev_messages _ _ Hev2), (ev_messages _ _ Hev1). by eexists.
  - destruct Happ as (new & -> & Hd & _). by destruct new.
Qed.

Lemma waiting_messages_are_sent_witness :
  ∃ v w' st' f, interp (socket_step (state_step server_step (postgres (λ _, true))))
      (Connection.send_available 1 Chunker_default true) (demo_sockets (λ _, None), (v, demo_accounts))
    = (Ok true, (w', (st', demo_accounts))) ∧ length (sent w') = 2%nat ∧ sent w' !! 0%nat = Some f ∧ f.1 = 1%nat.
Proof.
  destruct (demo_mail 1 ltac:(lia)) as (v & pq & Hm & _).
  destruct (waiting_messages_are_sent server_step id (postgres (λ _, true)) Chunker_default 1 sample_address
    (demo_sockets (λ _, None)) v demo_accounts [demo_waiting] pq true) as (w' & st' & pq' & out & i & now & Hrun & Hout & Hsent & _).
  - apply sim_refl.
  - apply sample_name_plain.
  - apply demo_connected.
  - by intros n _.
  - exact Hm.
  - constructor; [apply demo_waiting_sendable|constructor].
  - done.
  - cbn [take app] in Hout. apply Forall2_cons_inv_l in Hout as ([f dm] & out' & [_ (i' & now' & Hf)] & ->%Forall2_nil_inv_l & ->).
    exists v, w', st', f. rewrite Hsent. cbn [fst] in Hf. split_and!; [exact Hrun|done|done|by rewrite Hf].
Defined.

Lemma failed_send_loses_chunks_witness :
  ∃ v pq w' st' pq', interp (socket_step (state_step server_step (postgres (λ _, true))))
      (Connection.send_message Chunker_default 1 demo_waiting) (demo_sockets (λ _, Some "broken"), (v, demo_accounts))
    = (Err "broken", (w', (st', demo_accounts))) ∧ content_bytes pq' < content_bytes pq ∧
    mail sample_address v [demo_waiting] pq 1 ∧ mail sample_address st' [demo_waiting] pq' 0.
Proof.
  destruct (demo_mail 1 ltac:(lia)) as (v & pq & Hm & Hpq).
  destruct (failed_send_loses_chunks server_step id (postgres (λ _, true)) Chunker_default 1 sample_address
    (demo_sockets (λ _, Some "broken")) v demo_accounts demo_waiting [] pq 0 "broken") as (w' & st' & pq' & lost & _ & Hrun & _ & Hm' & _ & Hlt).
  - apply sim_refl.
  - apply sample_name_plain.
  - apply demo_connected.
  - done.
  - exact Hm.
  - done.
  - apply demo_waiting_sendable.
  - exact Hpq.
  - exists v, pq, w', st', pq'. split_and!; [exact Hrun|exact Hlt|exact Hm|exact Hm'].
Defined.

(** Two stored messages, and a socket that breaks after the first frame. *)
Definition demo_stored (i : nat) : Envelope := MessageCache.with_guid blank_envelope (uuids empty_world i).
Definition stored_world : world :=
  with_messages empty_world (store (messages_db empty_world) sample_address [demo_stored 0; demo_stored 1]).
Definition breaks_after_one (n : nat) : option string := match n with O => None | _ => Some "broken" end.

Lemma stored_mail k : mail sample_address stored_world [] empty_queue k.
Proof.
  split.
  - exists empty_queue. split; [apply (empty_holds (MessageCache.queue sample_address))|constructor].
  - apply (empty_holds (outbox_keys sample_address)).
  - constructor.
  - intros i. by vm_compute.
  - by eexists.
Qed.

Lemma unsent_stored_messages_are_deleted_witness :
  ∃ w' st' f, interp (socket_step (state_step server_step (postgres (λ _, true))))
      (Connection.send_messages Chunker_default 1 false) (demo_sockets breaks_after_one, (stored_world, demo_accounts))
    = (Ok true, (w', (st', demo_accounts))) ∧ sent w' = [f] ∧ stored (messages_db st') sample_address = [].
Proof.
  destruct (unsent_stored_messages_are_deleted server_step id (postgres (λ _, true)) Chunker_default 1 sample_address
    (demo_sockets breaks_after_one) stored_world demo_accounts (demo_stored 0) [demo_stored 1] empty_queue)
    as (w' & st' & f & dm & Hrun & _ & Hsent & Hnone).
  - apply sim_refl.
  - apply sample_name_plain.
  - apply demo_connected.
  - done.
  - intros [|n] Hn; [cbn in Hn; lia|by eexists].
  - by vm_compute.
  - apply stored_mail.
  - repeat constructor; try (by eexists); by vm_compute.
  - by repeat constructor.
  - exists w', st', f. split_and!; [exact Hrun|exact Hsent|exact Hnone].
Defined.

Definition demo_keepalive : WebSocketMessage := create_request 9 "GET" "/v1/keepalive" [] None.

Lemma keepalive_stalls_the_connection_witness :
  let step := socket_step (state_step server_step (postgres (λ _, true))) in
  let up := interp step (on_upgrade Chunker_default 0 1 sample_authenticated "127.0.0.1:4043")
              (demo_sockets (λ _, None), (empty_world, demo_accounts)) in
  up.1 = Ok tt ∧
  (interp step (WebSocketManager.listen_loop sample_address 2 [inr (Binary (encode_message demo_keepalive))]) up.2).1 = Panic forever.
Proof.
  intros step up. assert (up.1 = Ok tt) as Hok by by vm_compute. split; [exact Hok|].
  destruct up as [o [w1 s1]] eqn:Hup. cbn [fst snd] in *. subst o.
  apply (keepalive_stalls_the_connection (state_step server_step (postgres (λ _, true))) Chunker_default 0 1 sample_authenticated
    "127.0.0.1:4043" (demo_sockets (λ _, None)) (empty_world, demo_accounts) w1 s1 (encode_message demo_keepalive) demo_keepalive []).
  - done.
  - done.
  - by vm_compute.
  - exact (@decode_encode_message demo_protobuf demo_keepalive).
  - split; [done|]. eexists _, _. split_and!; [done|by eexists|done|done].
  - exact Hup.
Defined.

Definition demo_put : WebSocketRequestMessage :=
  {| ws_verb := Some "PUT"; ws_path := Some ("/v1/messages/" +:+ sample_uuid); ws_request_body := Some (as_bytes "{}");
     ws_request_headers := []; ws_request_id := Some 12 |}.
Definition sender_sockets : socket_world :=
  with_connections (demo_sockets (λ _, None)) {[1%nat := new_connection (IdentityDevice demo_sender) "127.0.0.1:4044" 1]} 1.

Lemma requests_are_answered_witness :
  ∃ response r s', interp (socket_step (state_step server_step (postgres (λ _, true)))) (Connection.handle_request 1 demo_put)
      (sender_sockets, (empty_world, demo_accounts))
    = (Ok tt, (attempt sender_sockets [(1%nat, Binary (encode_message response))], s')) ∧
    ws_response response = Some r ∧ ws_status r = Some 200.
Proof.
  destruct (requests_are_answered (state_step server_step (postgres (λ _, true))) 1 sender_sockets (empty_world, demo_accounts)
    (interp (state_step server_step (postgres (λ _, true)))
       (handle_put_messages demo_sender (Aci sample_uuid) (demo_messages [demo_message 7])) (empty_world, demo_accounts)).2
    (new_connection (IdentityDevice demo_sender) "127.0.0.1:4044" 1) demo_sender demo_put 12
    ("/v1/messages/" +:+ sample_uuid) (Aci sample_uuid) (demo_messages [demo_message 7]) (inr {| needs_sync := false |}))
    as (response & r & Hrun & Hr & _ & Hstatus & _).
  - done.
  - done.
  - done.
  - done.
  - done.
  - done.
  - by vm_compute.
  - by vm_compute.
  - by vm_compute.
  - by vm_compute.
  - assert ((interp (state_step server_step (postgres (λ _, true)))
       (handle_put_messages demo_sender (Aci sample_uuid) (demo_messages [demo_message 7])) (empty_world, demo_accounts)).1
       = Ok (inr {| needs_sync := false |})) as <- by by vm_compute. apply surjective_pairing.
  - eexists response, r, _. split_and!; [exact Hrun|exact Hr|exact Hstatus].
Defined.

Lemma ended_task_unregisters_the_client_witness :
  let w := with_connections (demo_sockets (λ _, None)) (<[2%nat := demo_connection]> {[1%nat := demo_connection]}) 2 in
  ∃ w', interp (socket_step (state_step server_step (postgres (λ _, true))))
      (_ ← WebSocketManager.register_new_connection sample_address 2; WebSocketManager.listen_loop sample_address 1 [])
      (w, (empty_world, demo_accounts)) = (Ok tt, (w', (empty_world, demo_accounts))) ∧
    sockets w' !! sample_address = None ∧ connections w' !! 2%nat = Some demo_connection.
Proof.
  intros w. apply (ended_task_unregisters_the_client (state_step server_step (postgres (λ _, true))) sample_address 1 2 [] w w
    (empty_world, demo_accounts) (empty_world, demo_accounts) demo_connection (Ok tt)).
  - done.
  - done.
  - done.
  - by vm_compute.
  - by eexists.
Defined.
