(* ===== verification/ClientReceive.v ===== *)
(** Receiving at the client ([client/src/client.rs],
    [common/src/envelope.rs], [common/src/web_api/mod.rs]): decrypting
    envelopes, putting deniable payloads together, and logging in. *)
From S2P Require Export Client DenimManager.

Local Open Scope Z_scope.

(** ** Definitions *)

Record ProcessedEnvelope := {
  pe_type : option Z;
  pe_source_service_id : option ServiceId;
  pe_source_device : option Z;
  pe_destination_service_id : option ServiceId;
  pe_timestamp : option Z;
  pe_content : option Content;
  pe_server_guid : option string;
  pe_server_timestamp : option Z;
  pe_ephemeral : option bool;
  pe_urgent : option bool;
  pe_updated_pni : option string;
  pe_story : option bool;
  pe_reporting_token : option bytes;
}.

Definition envelope_content (self : ProcessedEnvelope) : outcome SignalError Content :=
  ok_or (DecodeEnvelope "No content in Envelope.") (pe_content self).
Definition content_data_message (self : Content) : outcome SignalError DataMessage :=
  ok_or (DecodeContent "No data message in Content") (data_message self).

Definition try_get_message_as_string (self : ProcessedEnvelope) : outcome SignalError string :=
  content ← envelope_content self;
  data ← content_data_message content;
  ok_or (DecodeDataMessage "Could not decode message body - no message body.") (dm_body data).
Definition try_get_name_as_string (self : ProcessedEnvelope) : outcome SignalError string :=
  content ← envelope_content self;
  data ← content_data_message content;
  contact ← expect "index out of bounds: the len is 0 but the index is 0" (head (dm_contact data));
  name ← ok_or (DecodeDataMessage "Could not decode message contact - no message contact.") contact;
  Ok (default "" name).

(** [Type::try_from(i32)] and [CiphertextMessage::decode]. *)
Definition known_type (t : Z) : bool := bool_decide (t ∈ [0; 1; 2; 3; 5; 6; 8]).
Definition ciphertext_kind (t : Z) : outcome SignalError CiphertextKind :=
  if t =? 1 then Ok SignalCiphertext
  else if t =? 2 then Ok SenderKeyCiphertext
  else if t =? 3 then Ok PreKeySignalCiphertext
  else if t =? 8 then Ok PlaintextCiphertext
  else Err (DecodeEnvelope (if t =? 0 then "Invalid Message type: Unknown"
                            else if t =? 5 then "Invalid Message type: Receipt"
                            else "Invalid Message type: UnidentifiedSender")).

Section receive.
Context `{Libsignal, Base64, ServiceIdText, Bincode, HashOrder, SignalProtocol}.
Context (deserialize_denim_message : bytes → option (DenimMessage f32)).

Definition decode_ciphertext (bytes : bytes) (t : Z) : outcome SignalError CiphertextMessage :=
  kind ← ciphertext_kind t;
  match ciphertext_error kind bytes with
  | None => Ok {| ct_kind := kind; ct_bytes := bytes |}
  | Some e => Err (ProtocolFailed e)
  end.

(** What is read off an envelope before anything is decrypted. *)
Definition open_envelope (self : Envelope) : outcome SignalError (Z * ServiceId * Z * CiphertextMessage) :=
  t ← ok_or (DecodeEnvelope "No message type in envelope.") (env_type self);
  _ ← (if known_type t then Ok tt else Err (DecodeEnvelope "Unknown message type in envelope."));
  service_id ← ok_or (DecodeEnvelope "Missing Service ID.")
    (s ← env_source_service_id self; parse_from_service_id_string s);
  device_id ← ok_or (DecodeEnvelope "Missing Device ID.") (env_source_device self);
  content_bytes ← ok_or (DecodeEnvelope "No content in message.") (env_content self);
  ciphertext ← decode_ciphertext content_bytes t;
  Ok (t, service_id, device_id, ciphertext).

(** [Pni::parse_from_service_id_string] *)
Definition parse_pni (s : string) : option string :=
  match parse_from_service_id_string s with Some (Pni u) => Some u | _ => None end.

(** [Envelope::decrypt] with the stores of a plane. *)
Definition decrypt (p : plane) (self : Envelope) : capp ProcessedEnvelope :=
  or_throw Signal (open_envelope self) (λ '(t, service_id, device_id, ciphertext),
    seed ← op Seed;
    r ← on_stores p (message_decrypt seed ciphertext {| name := service_id_string service_id; device_id := device_id |});
    padded_msg ← sum_throw (λ e, Signal (ProtocolFailed e)) r;
    or_throw (λ _, Signal UnpadFailed) (unpad_message padded_msg) (λ msg,
      or_throw (λ e, Signal (ProstDecode e)) (content_decode msg) (λ content,
        Ret {| pe_type := Some t; pe_source_service_id := Some service_id; pe_source_device := Some device_id;
               pe_destination_service_id := (s ← env_destination_service_id self; parse_from_service_id_string s);
               pe_timestamp := env_timestamp self; pe_content := Some content;
               pe_server_guid := env_server_guid self; pe_server_timestamp := env_server_timestamp self;
               pe_ephemeral := env_ephemeral self; pe_urgent := env_urgent self;
               pe_updated_pni := (s ← env_updated_pni self; parse_pni s);
               pe_story := env_story self; pe_reporting_token := env_reporting_token self |}))).

(** [Vec::<PreKeyBundle>::try_from(PreKeyResponse)] *)
Definition key_or (k : record_kind) (e : string) (bs : bytes) : outcome string bytes :=
  match record_error k bs with None => Ok bs | Some _ => Err e end.
Definition bundle_of_item (identity_key : bytes) (item : PreKeyResponseItem) : outcome string PreKeyBundle :=
  pre_key ← match item_pre_key item with
            | Some pre_key =>
                k ← key_or PublicKey "Failed decoding pre key" (public_key pre_key);
                Ok (Some (key_id pre_key, k))
            | None => Ok None
            end;
  _ ← key_or PublicKey "Failed decoding signed pre key key" (signed_public_key (item_signed_pre_key item));
  _ ← key_or KemPublicKey "Failed decoding kem pre key key" (signed_public_key (item_pq_pre_key item));
  Ok {| bundle_registration_id := item_registration_id item; bundle_device_id := item_device_id item;
        bundle_pre_key := pre_key; bundle_signed_pre_key := item_signed_pre_key item;
        bundle_identity_key := identity_key; bundle_kyber_pre_key := item_pq_pre_key item |}.
Definition bundles_of_response (items : PreKeyResponse) : outcome string (list PreKeyBundle) :=
  identity_key ← key_or IdentityKey "Failed decoding identity key" (response_identity_key items);
  collect (bundle_of_item identity_key) (devices items).

(** The loop of [handle_incoming_chunks]. *)
Fixpoint assemble (chunks : list DenimChunk) (payloads : list DeniablePayload) (new_chunks : list DenimChunk)
    : outcome SignalClientError (list DeniablePayload * list DenimChunk) :=
  match new_chunks with
  | [] => Ok (payloads, chunks)
  | c :: new_chunks =>
      if is_final c then
        let chunks := sort_chunks chunks ++ [c] in
        payload ← expect "Should be deniable payload" (deserialize_payload (concat (map chunk chunks)));
        assemble [] (payloads ++ [payload]) new_chunks
      else assemble (chunks ++ [c]) payloads new_chunks
  end.

Definition handle_incoming_chunks (new_chunks : list DenimChunk) : capp (list DeniablePayload) :=
  chunks ← (if existsb is_final new_chunks then db Get_and_remove_incoming_deniable_chunks else Ret []);
  '(payloads, chunks) ← lift (assemble chunks [] new_chunks);
  _ ← match chunks with [] => Ret tt | _ => db (Store_incoming_deniable_chunks chunks) end;
  Ret payloads.

(** The chunks of a message that are no dummies, if there are any. *)
Definition receive_client_chunks (chunks : list DenimChunk) : capp (list DeniablePayload) :=
  match filter (λ c, ¬ is_dummy c) chunks with
  | [] => Ret []
  | chunks => handle_incoming_chunks chunks
  end.

Definition receive_key_response (pre_key_response : PreKeyResponse) : capp unit :=
  service_id ← lift (expect "Should be service id" (parse_from_service_id_string (response_service_id pre_key_response)));
  or_throw KeyError (bundles_of_response pre_key_response) (λ bundles,
    device_ids ← initialize_sessions_from_bundle service_id bundles true;
    sent ← db (Try_get_key_request_sent (service_id_string service_id));
    alias ← lift (expect "Should contain key request" sent);
    _ ← add_contact alias service_id (Some device_ids);
    _ ← db (Remove_key_request_sent (service_id_string service_id));
    messages ← db (Get_messages_awaiting_encryption alias);
    for_each messages tt (λ message _, send_deniable_message message alias)).

Definition process_payload (payload : DeniablePayload) (processed : list ProcessedEnvelope) : capp (list ProcessedEnvelope) :=
  match payload with
  | DeniableEnvelope envelope => e ← decrypt Deniable envelope; Ret (processed ++ [e])
  | KeyResponse r => _ ← receive_key_response r; Ret processed
  | _ => Crash "not yet implemented"
  end.

Definition receive_message : capp (list ProcessedEnvelope) :=
  request ← api Get_message;
  request ← lift (ok_or NoMessageReceived request);
  denim_msg ← lift (expect "called `Result::unwrap()` on an `Err` value"
                      (deserialize_denim_message (default [] (ws_request_body request))));
  q ← lift (expect "q value should always be populated by server" (dm_q denim_msg));
  self ← op Self;
  _ ← op (SetSelf (with_chunker self (set_q_value (chunker self) q)));
  match regular_payload denim_msg with
  | RegularEnvelope e =>
      processed ← decrypt Regular e;
      _ ← try_ (api (Send_response request 200));
      payloads ← receive_client_chunks (dm_chunks denim_msg);
      for_each payloads [processed] process_payload
  | _ =>
      _ ← api (Send_response request 500);
      Throw EnvelopeDecodeError
  end.

(** [KeyManager::new(signed + 1, kyber + 1, one_time + 1)] on [u32]. *)
Definition u32_add {E} (a b : Z) : outcome E Z :=
  if in_u32 (a + b) then Ok (a + b) else Panic "attempt to add with overflow".
Definition next_key_ids (one_time signed kyber : Z) : outcome SignalClientError KeyManager :=
  signed ← u32_add signed 1;
  kyber ← u32_add kyber 1;
  one_time ← u32_add one_time 1;
  Ok {| km_signed := signed; km_kyber := kyber; km_one_time := one_time |}.

Definition index_contacts (contacts : list Contact) : ContactManager.t :=
  foldl (λ c contact, <[contact_service_id contact := contact]> c) ∅ contacts.

Definition login (alias : string) : capp Client :=
  contacts ← db Load_contacts;
  '(one_time, signed, kyber) ← db Get_key_ids;
  password ← db Get_password;
  aci ← db Get_aci;
  q_value ← api (Connect (service_id_string (Aci aci)) password);
  _ ← api (Create_auth_header aci password 1);
  aci ← db Get_aci;
  pni ← db Get_pni;
  key_manager ← lift (next_key_ids one_time signed kyber);
  q_value ← lift (expect "called `Option::unwrap()` on a `None` value" q_value);
  Ret {| alias := alias; client_aci := aci; client_pni := pni; contact_manager := index_contacts contacts;
         key_manager := key_manager; chunker := Chunker_new q_value |}.
End receive.

(** *** Running a client *)

Record client_world (S : Type) := { cw_db : client_db; cw_self : Client; cw_server : S; cw_seed : Z; cw_now : Z }.
Arguments cw_db {S} _.
Arguments cw_self {S} _.
Arguments cw_server {S} _.
Arguments cw_seed {S} _.
Arguments cw_now {S} _.

Section world.
Context {S : Type}.
Definition with_db (w : client_world S) (d : client_db) : client_world S :=
  {| cw_db := d; cw_self := cw_self w; cw_server := cw_server w; cw_seed := cw_seed w; cw_now := cw_now w |}.
Definition with_self (w : client_world S) (c : Client) : client_world S :=
  {| cw_db := cw_db w; cw_self := c; cw_server := cw_server w; cw_seed := cw_seed w; cw_now := cw_now w |}.
Definition with_server (w : client_world S) (s : S) : client_world S :=
  {| cw_db := cw_db w; cw_self := cw_self w; cw_server := s; cw_seed := cw_seed w; cw_now := cw_now w |}.

(** A client over its database and any server. *)
Definition client_step `{Sqlite, Base64, ServiceIdText, Libsignal, HashOrder}
    (server : handler serverApiE SignalClientError S) : handler appE SignalClientError (client_world S) := λ X c w,
  match c in appE X return outcome SignalClientError X * client_world S with
  | OnDb c => let '(o, d) := device _ c (cw_db w) in (valued o, with_db w d)
  | OnApi c => let '(o, s) := server _ c (cw_server w) in (o, with_server w s)
  | Self => (Ok (cw_self w), w)
  | SetSelf c => (Ok tt, with_self w c)
  | Seed => (Ok (cw_seed w), {| cw_db := cw_db w; cw_self := cw_self w; cw_server := cw_server w;
                                cw_seed := cw_seed w + 1; cw_now := cw_now w |})
  | Time => (Ok (cw_now w), w)
  end.
End world.
