(* ===== verification/ClientKeys.v ===== *)
(** The client's keys and its registration ([client/src/key_manager.rs],
    [Client::register] of [client/src/client.rs]): key ids, generating,
    signing and storing pre-keys, and setting up a new account. *)
From S2P Require Export ClientReceive ClientSpec.

Local Open Scope Z_scope.

(** ** Definitions *)

(** *** What libsignal and the random generator compute

    A key pair is a public and a private part; a record is known by its
    serialization, from which its parts can be read. *)
Class KeyGeneration := {
  generate_identity : Z → bytes * bytes;
  generate_key_pair : Z → bytes * bytes;
  calculate_signature : bytes → bytes → Z → string + bytes;
  new_pre_key : Z → bytes * bytes → bytes;
  new_signed_pre_key : Z → Z → bytes * bytes → bytes → bytes;
  generate_kyber : Z → Z → bytes → string + bytes;
  record_id : record_kind → bytes → option Z;
  record_public_key : record_kind → bytes → option bytes;
  record_signature : record_kind → bytes → option bytes;
  gen_range : Z → Z → Z → Z;
  fill : nat → Z → bytes;
  pre_key_parts i k : record_id PreKey (new_pre_key i k) = Some i ∧ record_public_key PreKey (new_pre_key i k) = Some k.1;
  signed_pre_key_parts i t k s :
    record_id SignedPreKey (new_signed_pre_key i t k s) = Some i ∧
    record_public_key SignedPreKey (new_signed_pre_key i t k s) = Some k.1 ∧
    record_signature SignedPreKey (new_signed_pre_key i t k s) = Some s;
  kyber_parts seed i private record : generate_kyber seed i private = inr record →
    record_id KyberPreKey record = Some i ∧ is_Some (record_public_key KyberPreKey record) ∧
    is_Some (record_signature KyberPreKey record);
  gen_range_within low high seed : low < high → low ≤ gen_range low high seed < high;
  fill_length n seed : length (fill n seed) = n;
}.

(** *** The key manager *)

Definition KeyManager_default : KeyManager := {| km_signed := 1; km_kyber := 1; km_one_time := 1 |}.
Definition KeyManager_new (signed kyber one_time : Z) : KeyManager :=
  {| km_signed := signed; km_kyber := kyber; km_one_time := one_time |}.

Definition next_of (t : PreKeyType) (self : KeyManager) : Z :=
  match t with SignedType => km_signed self | KyberType => km_kyber self | OneTimeType => km_one_time self end.
Definition with_next (t : PreKeyType) (i : Z) (self : KeyManager) : KeyManager :=
  match t with
  | SignedType => KeyManager_new i (km_kyber self) (km_one_time self)
  | KyberType => KeyManager_new (km_signed self) i (km_one_time self)
  | OneTimeType => KeyManager_new (km_signed self) (km_kyber self) i
  end.

(** What a client that is being set up works with: its database, the server,
    the key manager, random seeds and the clock. *)
Inductive setupE : Type → Type :=
| OnDevice {X} (c : clientE X) : setupE (string + X)
| OnServerApi {X} (c : serverApiE X) : setupE (SignalClientError + X)
| Manager : setupE KeyManager
| SetManager (m : KeyManager) : setupE unit
| Random : setupE Z
| Clock : setupE Z.

Abbreviation setup := (prog setupE SignalClientError).

Definition get_new_key_id (key_type : PreKeyType) : setup Z :=
  self ← op Manager;
  let id := next_of key_type self in
  next ← lift (u32_add id 1);
  _ ← op (SetManager (with_next key_type next self));
  Ret id.

(** [.map_err(|error| KeyManagerError { .. })?] *)
Definition key_error_as {A} (t : KeyType) (e : KeyManagerErrorType) (r : string + A) : setup A :=
  match r with
  | inl error => Throw (KeyManagerFailed {| err_type := e; key_type := t; key_error := error |})
  | inr a => Ret a
  end.

(** [UploadPreKey::from] and [UploadSignedPreKey::from] *)
Section uploads.
Context `{KeyGeneration}.

Definition upload_pre_key (value : bytes) : setup UploadPreKey :=
  id ← lift (expect "Can get ID" (record_id PreKey value));
  key ← lift (expect "Can get public_key" (record_public_key PreKey value));
  Ret {| key_id := id; public_key := key |}.
Definition upload_signed_pre_key (k : record_kind) (value : bytes) : setup UploadSignedPreKey :=
  id ← lift (expect "Can get ID" (record_id k value));
  key ← lift (expect "Can get public_key" (record_public_key k value));
  signature ← lift (expect "Can get signature" (record_signature k value));
  Ret {| signed_key_id := id; signed_public_key := key; signature := signature |}.
End uploads.

Section keys.
Context `{Libsignal, KeyGeneration}.

Definition regular {A} (p : prog clientE string A) : setup (string + A) := as_value (λ X c, OnDevice c) p.

(** [common::utils::time_now] *)
Definition time_now : setup Z :=
  now ← op Clock;
  if now <? 0 then Crash "Now is later than epoch"
  else if in_u64 now then Ret now else Crash "Living in the future is not allowed".

Definition generate_pre_key : setup bytes :=
  id ← get_new_key_id OneTimeType;
  seed ← op Random;
  let record := new_pre_key id (generate_key_pair seed) in
  r ← regular (device_pre_key_store _ (PK_save_pre_key id record));
  _ ← key_error_as (PreKeyOf OneTimeType) StoreFailed r;
  Ret record.

Definition generate_signed_pre_key : setup bytes :=
  id ← get_new_key_id SignedType;
  seed ← op Random;
  let signed_pre_key_pair := generate_key_pair seed in
  r ← regular (device_identity_key_store _ IK_get_identity_key_pair);
  identity ← key_error_as (PreKeyOf SignedType) GetFailed r;
  seed ← op Random;
  signature ← key_error_as (PreKeyOf SignedType) SignatureFailed (calculate_signature identity.2 signed_pre_key_pair.1 seed);
  now ← time_now;
  let record := new_signed_pre_key id now signed_pre_key_pair signature in
  r ← regular (device_signed_pre_key_store _ (SPK_save_signed_pre_key id record));
  _ ← key_error_as (PreKeyOf SignedType) StoreFailed r;
  Ret record.

Definition generate_kyber_pre_key : setup bytes :=
  id ← get_new_key_id KyberType;
  r ← regular (device_identity_key_store _ IK_get_identity_key_pair);
  identity ← key_error_as IdentityKeyType GetFailed r;
  seed ← op Random;
  record ← key_error_as (PreKeyOf KyberType) GenerateFailed (generate_kyber seed id identity.2);
  r ← regular (device_kyber_pre_key_store _ (KPK_save_kyber_pre_key id record));
  _ ← key_error_as (PreKeyOf KyberType) StoreFailed r;
  Ret record.

(** One round of the loop of [generate_key_bundle]. *)
Definition generate_one_time_keys (_ : nat) (keys : list UploadPreKey * list UploadSignedPreKey)
    : setup (list UploadPreKey * list UploadSignedPreKey) :=
  pre_key ← generate_pre_key;
  pre_key ← upload_pre_key pre_key;
  kyber ← generate_kyber_pre_key;
  kyber ← upload_signed_pre_key KyberPreKey kyber;
  Ret (keys.1 ++ [pre_key], keys.2 ++ [kyber]).

Definition generate_key_bundle : setup SetKeyRequest :=
  '(pre_keys, pq_signed_pre_keys) ← for_each (seq 0 100) ([], []) generate_one_time_keys;
  signed_pre_key ← generate_signed_pre_key;
  pq_last_resort_pre_key ← generate_kyber_pre_key;
  signed_pre_key ← upload_signed_pre_key SignedPreKey signed_pre_key;
  pq_last_resort_pre_key ← upload_signed_pre_key KyberPreKey pq_last_resort_pre_key;
  Ret {| set_pre_key := Some pre_keys; set_signed_pre_key := Some signed_pre_key;
         set_pq_pre_key := Some pq_signed_pre_keys; set_pq_last_resort_pre_key := Some pq_last_resort_pre_key |}.
End keys.

(** *** Registration *)

Definition PASSWORD_LENGTH : nat := 16.
Definition ACCESS_KEY_LENGTH : nat := 16.

Section registration.
Context `{Libsignal, KeyGeneration, Base64, ServiceIdText}.

(** [c().await.map_err(DatabaseError::from)?] and [c().await?] *)
Definition on_client_db {X} (c : clientE X) : setup X :=
  r ← op (OnDevice c); match r with inl e => Throw (DatabaseError e) | inr x => Ret x end.
Definition server_api {X} (c : serverApiE X) : setup X :=
  r ← op (OnServerApi c); match r with inl e => Throw e | inr x => Ret x end.

(** The base64 text of 16 random bytes without its padding. *)
Definition new_password : setup string :=
  seed ← op Random;
  let password := b64_encode (fill PASSWORD_LENGTH seed) in
  length ← lift (usize_sub (Z.of_nat (String.length password)) 2);
  Ret (String.substring 0 (Z.to_nat length) password).

Definition registration_request (name : string) (aci_registration_id pni_registration_id : Z) (aci_id_key_pair pni_id_key_pair : bytes * bytes)
    (aci_signed_pk pni_signed_pk aci_pq_last_resort pni_pq_last_resort : UploadSignedPreKey) : RegistrationRequest :=
  {| reg_session_id := ""; reg_recovery_password := "";
     reg_account_attributes :=
       {| aa_name := name; fetches_messages := true; aa_registration_id := aci_registration_id;
          aa_pni_registration_id := pni_registration_id; capabilities := [];
          unidentified_access_key := zeroes ACCESS_KEY_LENGTH |};
     reg_require_atomic := true; reg_skip_device_transfer := true;
     reg_aci_identity_key := aci_id_key_pair.1; reg_pni_identity_key := pni_id_key_pair.1;
     reg_aci_signed_pre_key := aci_signed_pk; reg_pni_signed_pre_key := pni_signed_pk;
     reg_aci_pq_last_resort_pre_key := aci_pq_last_resort; reg_pni_pq_last_resort_pre_key := pni_pq_last_resort;
     reg_apn_token := None; reg_gcm_token := None |}.

(** The database is new, the key manager is [KeyManager::default()], and the
    server is not connected.  The profile key and the master key are drawn and
    not used. *)
Definition register (name phone_number alias : string) : setup Client :=
  seed ← op Random;
  let aci_registration_id := gen_range 1 16383 seed in
  seed ← op Random;
  let pni_registration_id := gen_range 1 16383 seed in
  seed ← op Random;
  let aci_id_key_pair := generate_identity seed in
  seed ← op Random;
  let pni_id_key_pair := generate_identity seed in
  r ← op (OnDevice (Insert_account_key_information aci_id_key_pair aci_registration_id));
  _ ← lift (match r with inl _ => Panic "called `Result::unwrap()` on an `Err` value" | inr x => Ok x end);
  _ ← op (SetManager KeyManager_default);
  aci_signed_pk ← generate_signed_pre_key;
  pni_signed_pk ← generate_signed_pre_key;
  aci_pq_last_resort ← generate_kyber_pre_key;
  pni_pq_last_resort ← generate_kyber_pre_key;
  password ← new_password;
  _ ← op Random;
  _ ← op Random;
  aci_signed_pk ← upload_signed_pre_key SignedPreKey aci_signed_pk;
  pni_signed_pk ← upload_signed_pre_key SignedPreKey pni_signed_pk;
  aci_pq_last_resort ← upload_signed_pre_key KyberPreKey aci_pq_last_resort;
  pni_pq_last_resort ← upload_signed_pre_key KyberPreKey pni_pq_last_resort;
  response ← server_api (Register_client phone_number password
    (registration_request name aci_registration_id pni_registration_id aci_id_key_pair pni_id_key_pair
       aci_signed_pk pni_signed_pk aci_pq_last_resort pni_pq_last_resort));
  let aci := air_uuid response in
  let pni := air_pni response in
  _ ← server_api (Create_auth_header aci password 1);
  _ ← on_client_db (Insert_account_information aci pni password);
  key_bundle ← generate_key_bundle;
  _ ← server_api (Publish_pre_key_bundle key_bundle);
  q_value ← server_api (Connect (service_id_string (Aci aci)) password);
  q_value ← lift (expect "called `Option::unwrap()` on a `None` value" q_value);
  key_manager ← op Manager;
  Ret {| alias := alias; client_aci := aci; client_pni := pni; contact_manager := ∅;
         key_manager := key_manager; chunker := Chunker_new q_value |}.
End registration.

(** *** Running a client that is set up *)

Record setup_world (S : Type) := { su_db : client_db; su_manager : KeyManager; su_server : S; su_seed : Z; su_clock : Z }.
Arguments su_db {S} _.
Arguments su_manager {S} _.
Arguments su_server {S} _.
Arguments su_seed {S} _.
Arguments su_clock {S} _.

Section world.
Context {S : Type}.
Definition put_db (w : setup_world S) (d : client_db) : setup_world S :=
  {| su_db := d; su_manager := su_manager w; su_server := su_server w; su_seed := su_seed w; su_clock := su_clock w |}.
Definition put_manager (w : setup_world S) (m : KeyManager) : setup_world S :=
  {| su_db := su_db w; su_manager := m; su_server := su_server w; su_seed := su_seed w; su_clock := su_clock w |}.
Definition put_server (w : setup_world S) (s : S) : setup_world S :=
  {| su_db := su_db w; su_manager := su_manager w; su_server := s; su_seed := su_seed w; su_clock := su_clock w |}.
Definition next_seed (w : setup_world S) : setup_world S :=
  {| su_db := su_db w; su_manager := su_manager w; su_server := su_server w; su_seed := su_seed w + 1; su_clock := su_clock w |}.

(** Over a database and any server. *)
Definition setup_step `{Sqlite, Base64, ServiceIdText, Libsignal, HashOrder}
    (server : handler serverApiE SignalClientError S) : handler setupE SignalClientError (setup_world S) := λ X c w,
  match c in setupE X return outcome SignalClientError X * setup_world S with
  | OnDevice c => let '(o, d) := device _ c (su_db w) in (valued o, put_db w d)
  | OnServerApi c => let '(o, s) := server _ c (su_server w) in (valued o, put_server w s)
  | Manager => (Ok (su_manager w), w)
  | SetManager m => (Ok tt, put_manager w m)
  | Random => (Ok (su_seed w), next_seed w)
  | Clock => (Ok (su_clock w), w)
  end.
End world.

(** ** What generating keys leaves behind *)

Definition type_of (t : id_table) : PreKeyType :=
  match t with
  | DevicePreKeyStore => OneTimeType
  | DeviceSignedPreKeyStore => SignedType
  | DeviceKyberPreKeyStore => KyberType
  end.
Definition next_in (t : id_table) (m : KeyManager) : Z := next_of (type_of t) m.

(** The ids and the records of a table, in the order they were stored. *)
Definition stored_keys (t : id_table) (d : client_db) : list (Z * string) :=
  map (λ x, (n_id x.2, n_record x.2)) (d (Numbered t)).

Lemma next_in_with t t' i m : next_in t' (with_next (type_of t) i m) = if decide (t = t') then i else next_in t' m.
Proof. by destruct t, t', m. Qed.

Section storing.
Context `{Sqlite, Libsignal, Base64}.

Lemma upsert_record_new t id record d :
  client_ok d → room (Numbered t) 1 d → id ∉ map fst (stored_keys t d) →
  ∃ d', upsert_record t id record d = (Ok tt, d') ∧ client_ok d' ∧
    stored_keys t d' = stored_keys t d ++ [(id, record)] ∧
    (∀ r, r ≠ Numbered t → d' r = d r) ∧ (∀ n, room (Numbered t) (n + 1) d → room (Numbered t) n d').
Proof.
  intros Hd Hroom Hid.
  assert (∃ d', c_upsert (Numbered t) (λ y, n_id y =? id) {| n_id := id; n_record := record |}
      (λ y, {| n_id := n_id y; n_record := record |}) d = Ok d' ∧
    d' = set_rows row (Numbered t) (d (Numbered t) ++ [(1 + largest (map fst (d (Numbered t))), {| n_id := id; n_record := record |})]) d)
    as (d' & Hrun & Heq).
  { assert (existsb (λ y : Z * row (Numbered t), n_id y.2 =? id) (d (Numbered t)) = false) as Hno.
    { apply not_true_is_false. intros (x & Hx & Hk%Z.eqb_eq)%existsb_exists. apply Hid. unfold stored_keys.
      rewrite map_map. apply list_elem_of_fmap. exists x. split; [done|by apply list_elem_of_In]. }
    unfold upsert_row, insert_row. cbn [clash n_id]. rewrite !Hno. unfold room in Hroom. rewrite new_rowid_next by lia.
    by eexists. }
  exists d'. unfold upsert_record, execute, run. rewrite Hrun. cbn. split_and!; [done|by eapply upsert_row_ok| | |].
  - unfold stored_keys. by rewrite Heq, set_rows_eq, map_app.
  - intros r Hr. rewrite Heq. by apply set_rows_ne.
  - intros n Hn. unfold room in *. rewrite Heq, set_rows_eq, largest_snoc. lia.
Qed.

(** A record that was stored is read back. *)
Lemma select_record_run t id record d :
  client_ok d → (id, record) ∈ stored_keys t d → select_record t id d = (Ok record, d).
Proof.
  intros Hd Hin. unfold stored_keys in Hin. apply list_elem_of_fmap in Hin as (x & [= -> ->] & Hx).
  unfold select_record, query.
  assert (length (filter (λ y, n_id y.2 = n_id x.2) (d (Numbered t))) ≤ 1)%nat as Hl.
  { apply (unique_filter (clash (Numbered t))); [|apply (Hd (Numbered t))]. intros y z Hy Hz. cbn. apply Z.eqb_eq. congruence. }
  rewrite head_scan by done.
  assert (x ∈ filter (λ y, n_id y.2 = n_id x.2) (d (Numbered t))) as Hf by by apply list_elem_of_filter.
  destruct (filter _ _) as [|y [|z l]]; [by apply elem_of_nil in Hf| |cbn in Hl; lia].
  apply list_elem_of_singleton in Hf as <-. done.
Qed.
End storing.

Section generating.
Context `{Sqlite, Base64, ServiceIdText, Libsignal, HashOrder, KeyGeneration}.
Context {S : Type} (server : handler serverApiE SignalClientError S).
Abbreviation step := (setup_step server).

(** A client that can generate [k t] more keys of each kind: its key manager is
    ahead of the ids that are stored, there is room, and its identity can be
    read. *)
Record ready (k : id_table → Z) (identity : bytes * bytes) (w : setup_world S) : Prop := {
  ready_ok : client_ok (su_db w);
  ready_room t : room (Numbered t) (k t) (su_db w);
  ready_ids t : Forall (λ x, x.1 < next_in t (su_manager w)) (stored_keys t (su_db w));
  ready_width t : 0 ≤ next_in t (su_manager w) ∧ next_in t (su_manager w) + k t ≤ 2 ^ 32 - 1;
  ready_identity : get_identity_key_pair (su_db w) = (Ok identity, su_db w);
  ready_clock : in_u64 (su_clock w) = true;
}.

(** [new] was generated and stored, under ids in sequence, and nothing else. *)
Record grown (new : id_table → list (Z * bytes)) (w w' : setup_world S) : Prop := {
  grown_keys t : stored_keys t (su_db w') = stored_keys t (su_db w) ++ map (λ x, (x.1, b64_encode x.2)) (new t);
  grown_others r : (∀ t, r ≠ Numbered t) → su_db w' r = su_db w r;
  grown_ids t : map fst (new t) = seqZ (next_in t (su_manager w)) (len (new t));
  grown_next t : next_in t (su_manager w') = next_in t (su_manager w) + len (new t);
  grown_server : su_server w' = su_server w;
  grown_clock : su_clock w' = su_clock w;
}.

Definition one (t : id_table) (x : Z * bytes) : id_table → list (Z * bytes) := λ t', if decide (t = t') then [x] else [].
Definition more (new new' : id_table → list (Z * bytes)) : id_table → list (Z * bytes) := λ t, new t ++ new' t.
Definition spend (new : id_table → list (Z * bytes)) (k : id_table → Z) : id_table → Z := λ t, k t - len (new t).

Lemma grown_trans new new' w1 w2 w3 : grown new w1 w2 → grown new' w2 w3 → grown (more new new') w1 w3.
Proof.
  intros [K1 O1 I1 N1 S1 C1] [K2 O2 I2 N2 S2 C2]. unfold more. split; [| | | |congruence..].
  - intros t. by rewrite K2, K1, map_app, app_assoc.
  - intros r Hr. by rewrite O2, O1.
  - intros t. rewrite map_app, I1, I2, N1, len_app. pose proof (len_nonneg (new t)). pose proof (len_nonneg (new' t)).
    rewrite seqZ_app by lia. done.
  - intros t. rewrite N2, N1, len_app. lia.
Qed.

Lemma identity_unchanged (d d' : client_db) identity :
  (∀ r, (∀ t, r ≠ Numbered t) → d' r = d r) →
  get_identity_key_pair d = (Ok identity, d) → get_identity_key_pair d' = (Ok identity, d').
Proof.
  intros Hd. unfold get_identity_key_pair, query. cbv beta. rewrite (Hd IdentityKeys) by done. intros Heq. apply (f_equal fst) in Heq. cbn [fst] in Heq. by rewrite Heq.
Qed.

Lemma interp_regular {A} (p : prog clientE string A) w :
  interp step (regular p) w = (valued (interp device p (su_db w)).1, put_db w (interp device p (su_db w)).2).
Proof.
  apply (interp_as_value _ _ device su_db put_db); [|done|done|by intros []].
  intros X c w'. cbn. by destruct (device _ c (su_db w')) as [[]].
Qed.

Lemma regular_ok {A B} (p : prog clientE string A) a d' (f : string + A → setup B) w :
  interp device p (su_db w) = (Ok a, d') → interp step (regular p ≫= f) w = interp step (f (inr a)) (put_db w d').
Proof. intros Hp. rewrite interp_bind, interp_regular, Hp. done. Qed.

Lemma key_error_ok {A B} t e (a : A) (f : A → setup B) w :
  interp step (key_error_as t e (inr a) ≫= f) w = interp step (f a) w.
Proof. done. Qed.

Lemma random_ok {B} (f : Z → setup B) w : interp step (op Random ≫= f) w = interp step (f (su_seed w)) (next_seed w).
Proof. by rewrite interp_op_bind. Qed.

Lemma in_u32_true z : 0 ≤ z ≤ 2 ^ 32 - 1 → in_u32 z = true.
Proof. intros [? ?]. unfold in_u32. apply andb_true_iff. split; by apply Z.leb_le. Qed.

Lemma new_id_run t w :
  0 ≤ next_in t (su_manager w) → next_in t (su_manager w) + 1 ≤ 2 ^ 32 - 1 →
  interp step (get_new_key_id (type_of t)) w =
    (Ok (next_in t (su_manager w)), put_manager w (with_next (type_of t) (next_in t (su_manager w) + 1) (su_manager w))).
Proof.
  intros Hlo Hhi. unfold get_new_key_id, u32_add. istep. cbn [setup_step]. fold (next_in t (su_manager w)).
  rewrite interp_bind, interp_lift, in_u32_true by lia. done.
Qed.

Lemma identity_ok {B} identity (f : string + bytes * bytes → setup B) w :
  get_identity_key_pair (su_db w) = (Ok identity, su_db w) →
  interp step (regular (device_identity_key_store _ IK_get_identity_key_pair) ≫= f) w = interp step (f (inr identity)) w.
Proof.
  intros Hw. rewrite (regular_ok _ identity (su_db w)); [by destruct w|].
  cbn [device_identity_key_store on_db interp device]. by rewrite Hw.
Qed.

Lemma save_ok {B} (c : clientE unit) t id record d' (f : string + unit → setup B) w :
  device _ c = upsert_record t id record → upsert_record t id record (su_db w) = (Ok tt, d') →
  interp step (regular (on_db c) ≫= f) w = interp step (f (inr tt)) (put_db w d').
Proof. intros Hc Hrun. apply regular_ok. cbn [on_db interp]. by rewrite Hc, Hrun. Qed.

(** Storing the record of a new id, in a world [w1] after [w] drew it. *)
Lemma save_grown k identity t record w w1 :
  ready k identity w → 1 ≤ k t → su_db w1 = su_db w → su_server w1 = su_server w → su_clock w1 = su_clock w →
  su_manager w1 = with_next (type_of t) (next_in t (su_manager w) + 1) (su_manager w) →
  let new := one t (next_in t (su_manager w), record) in
  ∃ d', upsert_record t (next_in t (su_manager w)) (b64_encode record) (su_db w1) = (Ok tt, d') ∧
    grown new w (put_db w1 d') ∧ ready (spend new k) identity (put_db w1 d').
Proof.
  intros [Hok Hroom Hids Hwidth Hi Hclock] Hk Hdb Hs Hc Hm new.
  destruct (upsert_record_new t (next_in t (su_manager w)) (b64_encode record) (su_db w1)) as (d' & Hrun & Hok' & Hkeys & Ho & Hr').
  { by rewrite Hdb. }
  { rewrite Hdb. specialize (Hroom t). unfold room in *. lia. }
  { rewrite Hdb. intros ([i r] & Heq & Hx)%list_elem_of_fmap. specialize (Hids t). rewrite Forall_forall in Hids.
    specialize (Hids _ Hx). cbn in *. lia. }
  assert (∀ t', stored_keys t' d' = stored_keys t' (su_db w) ++ map (λ x, (x.1, b64_encode x.2)) (new t')) as Hst.
  { intros t'. unfold new, one. destruct (decide (t = t')) as [<-|Hne]; [by rewrite Hkeys, Hdb|].
    cbn. rewrite app_nil_r. unfold stored_keys. by rewrite Ho, Hdb by congruence. }
  assert (∀ t', next_in t' (su_manager w1) = next_in t' (su_manager w) + len (new t')) as Hnext.
  { intros t'. rewrite Hm, next_in_with. unfold new, one. destruct (decide (t = t')) as [<-|]; unfold len; cbn [length]; lia. }
  assert (∀ r, (∀ t', r ≠ Numbered t') → d' r = su_db w r) as Hothers by (intros r Hr; rewrite Ho by done; by rewrite Hdb).
  exists d'. split; [done|]. split; split; cbn [put_db su_db su_manager su_server su_clock]; try done.
  - intros t'. unfold new, one. destruct (decide (t = t')) as [<-|]; [|done]. unfold seqZ. cbn. f_equal; lia.
  - intros t'. unfold spend, new, one. destruct (decide (t = t')) as [<-|Hne].
    + apply Hr'. rewrite Hdb. specialize (Hroom t). unfold room in *. unfold len. cbn [length]. lia.
    + specialize (Hroom t'). unfold room in *. rewrite Ho, Hdb by congruence. unfold len. cbn [length]. lia.
  - intros t'. rewrite Hst, Hnext. apply Forall_app. split.
    + eapply Forall_impl; [apply Hids|]. intros x ?. pose proof (len_nonneg (new t')). cbn in *. lia.
    + unfold new, one. destruct (decide (t = t')) as [<-|]; [|constructor]. apply Forall_singleton. unfold len. cbn [length fst]. lia.
  - intros t'. rewrite Hnext. unfold spend. pose proof (Hwidth t'). pose proof (len_nonneg (new t')). lia.
  - by eapply identity_unchanged.
  - by rewrite Hc.
Qed.

Lemma clock_ok {B} (f : Z → setup B) w :
  in_u64 (su_clock w) = true → interp step (time_now ≫= f) w = interp step (f (su_clock w)) w.
Proof.
  intros Hc. pose proof Hc as [Hlo%Z.leb_le _]%andb_true_iff. rewrite interp_bind. unfold time_now. istep. cbn [setup_step].
  by rewrite (proj2 (Z.ltb_ge _ _)), Hc by lia.
Qed.

(** The keys that an identity makes. *)
Inductive made (identity : bytes * bytes) : id_table → Z * bytes → Prop :=
| made_pre_key i seed : made identity DevicePreKeyStore (i, new_pre_key i (generate_key_pair seed))
| made_signed i t pair seed s : calculate_signature identity.2 pair.1 seed = inr s →
    made identity DeviceSignedPreKeyStore (i, new_signed_pre_key i t pair s)
| made_kyber i seed r : generate_kyber seed i identity.2 = inr r → made identity DeviceKyberPreKeyStore (i, r).

(** An identity that libsignal can sign with. *)
Record can_sign (identity : bytes * bytes) : Prop := {
  can_sign_keys m seed : ∃ s, calculate_signature identity.2 m seed = inr s;
  can_sign_kyber seed i : ∃ r, generate_kyber seed i identity.2 = inr r;
}.

Lemma generate_pre_key_run k identity w :
  ready k identity w → 1 ≤ k DevicePreKeyStore →
  ∃ id record w', interp step generate_pre_key w = (Ok record, w') ∧ made identity DevicePreKeyStore (id, record) ∧
    grown (one DevicePreKeyStore (id, record)) w w' ∧ ready (spend (one DevicePreKeyStore (id, record)) k) identity w'.
Proof.
  intros Hw Hk. pose proof (ready_width _ _ _ Hw DevicePreKeyStore) as Hwidth.
  set (id := next_in DevicePreKeyStore (su_manager w)).
  set (w1 := next_seed (put_manager w (with_next OneTimeType (id + 1) (su_manager w)))).
  set (record := new_pre_key id (generate_key_pair (su_seed w))).
  destruct (save_grown k identity DevicePreKeyStore record w w1 Hw Hk eq_refl eq_refl eq_refl eq_refl) as (d' & Hrun & Hg & Hr).
  exists id, record, (put_db w1 d'). split_and!; [|constructor|done|done].
  unfold generate_pre_key. rewrite interp_bind, (new_id_run DevicePreKeyStore) by lia. rewrite random_ok.
  cbn [device_pre_key_store]. by rewrite (save_ok _ _ _ _ d') by done.
Qed.

Lemma generate_signed_pre_key_run k identity w :
  ready k identity w → 1 ≤ k DeviceSignedPreKeyStore → can_sign identity →
  ∃ id record w', interp step generate_signed_pre_key w = (Ok record, w') ∧
    made identity DeviceSignedPreKeyStore (id, record) ∧
    grown (one DeviceSignedPreKeyStore (id, record)) w w' ∧
    ready (spend (one DeviceSignedPreKeyStore (id, record)) k) identity w'.
Proof.
  intros Hw Hk Hsign. pose proof (ready_width _ _ _ Hw DeviceSignedPreKeyStore) as Hwidth.
  set (id := next_in DeviceSignedPreKeyStore (su_manager w)).
  set (pair := generate_key_pair (su_seed w)).
  destruct (can_sign_keys _ Hsign pair.1 (su_seed w + 1)) as [s Hs].
  set (w1 := next_seed (next_seed (put_manager w (with_next SignedType (id + 1) (su_manager w))))).
  set (record := new_signed_pre_key id (su_clock w) pair s).
  destruct (save_grown k identity DeviceSignedPreKeyStore record w w1 Hw Hk eq_refl eq_refl eq_refl eq_refl) as (d' & Hrun & Hg & Hr).
  exists id, record, (put_db w1 d'). split_and!; [|by econstructor|done|done].
  unfold generate_signed_pre_key. rewrite interp_bind, (new_id_run DeviceSignedPreKeyStore) by lia. fold id. rewrite random_ok.
  rewrite (identity_ok identity), key_error_ok, random_ok by exact (ready_identity _ _ _ Hw). cbn [put_manager next_seed su_seed].
  fold pair. rewrite Hs, key_error_ok, clock_ok by exact (ready_clock _ _ _ Hw). cbn [device_signed_pre_key_store].
  by rewrite (save_ok _ _ _ _ d') by done.
Qed.

Lemma generate_kyber_pre_key_run k identity w :
  ready k identity w → 1 ≤ k DeviceKyberPreKeyStore → can_sign identity →
  ∃ id record w', interp step generate_kyber_pre_key w = (Ok record, w') ∧
    made identity DeviceKyberPreKeyStore (id, record) ∧
    grown (one DeviceKyberPreKeyStore (id, record)) w w' ∧
    ready (spend (one DeviceKyberPreKeyStore (id, record)) k) identity w'.
Proof.
  intros Hw Hk Hsign. pose proof (ready_width _ _ _ Hw DeviceKyberPreKeyStore) as Hwidth.
  set (id := next_in DeviceKyberPreKeyStore (su_manager w)).
  destruct (can_sign_kyber _ Hsign (su_seed w) id) as [record Hrec].
  set (w1 := next_seed (put_manager w (with_next KyberType (id + 1) (su_manager w)))).
  destruct (save_grown k identity DeviceKyberPreKeyStore record w w1 Hw Hk eq_refl eq_refl eq_refl eq_refl) as (d' & Hrun & Hg & Hr).
  exists id, record, (put_db w1 d'). split_and!; [|by econstructor|done|done].
  unfold generate_kyber_pre_key. rewrite interp_bind, (new_id_run DeviceKyberPreKeyStore) by lia. fold id.
  rewrite (identity_ok identity), key_error_ok, random_ok by exact (ready_identity _ _ _ Hw). cbn [put_manager su_seed].
  rewrite Hrec, key_error_ok. cbn [device_kyber_pre_key_store]. by rewrite (save_ok _ _ _ _ d') by done.
Qed.

(** What is uploaded of a record: its id and its public parts. *)
Definition uploads_key (x : Z * bytes) (u : UploadPreKey) : Prop :=
  key_id u = x.1 ∧ record_public_key PreKey x.2 = Some (public_key u).
Definition uploads_signed (kind : record_kind) (x : Z * bytes) (u : UploadSignedPreKey) : Prop :=
  signed_key_id u = x.1 ∧ record_public_key kind x.2 = Some (signed_public_key u) ∧ record_signature kind x.2 = Some (signature u).

Lemma upload_pre_key_ok identity x :
  made identity DevicePreKeyStore x → ∃ u, upload_pre_key x.2 = Ret u ∧ uploads_key x u.
Proof.
  inversion 1 as [i seed| |]; subst. destruct (pre_key_parts i (generate_key_pair seed)) as [Hid Hkey].
  exists {| key_id := i; public_key := (generate_key_pair seed).1 |}. unfold upload_pre_key. cbn [snd].
  by rewrite Hid, Hkey.
Qed.

Lemma upload_signed_ok identity x :
  made identity DeviceSignedPreKeyStore x → ∃ u, upload_signed_pre_key SignedPreKey x.2 = Ret u ∧ uploads_signed SignedPreKey x u.
Proof.
  inversion 1 as [|i t pair seed s Hs|]; subst. destruct (signed_pre_key_parts i t pair s) as (Hid & Hkey & Hsig).
  exists {| signed_key_id := i; signed_public_key := pair.1; signature := s |}. unfold upload_signed_pre_key. cbn [snd].
  by rewrite Hid, Hkey, Hsig.
Qed.

Lemma upload_kyber_ok identity x :
  made identity DeviceKyberPreKeyStore x → ∃ u, upload_signed_pre_key KyberPreKey x.2 = Ret u ∧ uploads_signed KyberPreKey x u.
Proof.
  inversion 1 as [| |i seed r Hr]; subst. destruct (kyber_parts seed i identity.2 r Hr) as (Hid & [key Hkey] & [s Hsig]).
  exists {| signed_key_id := i; signed_public_key := key; signature := s |}. unfold upload_signed_pre_key. cbn [snd].
  by rewrite Hid, Hkey, Hsig.
Qed.

Lemma ready_ext k k' identity w : (∀ t, k t = k' t) → ready k identity w → ready k' identity w.
Proof. intros Hk []. by split; intros; rewrite <- ?Hk. Qed.

Lemma made_one identity t x : made identity t x → ∀ t', Forall (made identity t') (one t x t').
Proof. intros Hx t'. unfold one. destruct (decide (t = t')) as [<-|]; [by apply Forall_singleton|done]. Qed.

Lemma made_more identity new new' :
  (∀ t, Forall (made identity t) (new t)) → (∀ t, Forall (made identity t) (new' t)) →
  ∀ t, Forall (made identity t) (more new new' t).
Proof. intros Hn Hn' t. by apply Forall_app. Qed.

Lemma spend_more new new' k t : spend (more new new') k t = spend new' (spend new k) t.
Proof. unfold spend, more. rewrite len_app. lia. Qed.

Lemma ready_more k identity new new' w :
  ready (spend new' (spend new k)) identity w → ready (spend (more new new') k) identity w.
Proof. apply ready_ext. intros t. by rewrite spend_more. Qed.

Lemma spend_one t x k t' : spend (one t x) k t' = if decide (t = t') then k t' - 1 else k t'.
Proof. unfold spend, one. case_decide; [done|]. change (len []) with 0. lia. Qed.

Lemma generate_round_run k identity w n keys :
  ready k identity w → 1 ≤ k DevicePreKeyStore → 1 ≤ k DeviceKyberPreKeyStore → can_sign identity →
  ∃ x y p q w', interp step (generate_one_time_keys n keys) w = (Ok (keys.1 ++ [p], keys.2 ++ [q]), w') ∧
    made identity DevicePreKeyStore x ∧ made identity DeviceKyberPreKeyStore y ∧
    uploads_key x p ∧ uploads_signed KyberPreKey y q ∧
    let new := more (one DevicePreKeyStore x) (one DeviceKyberPreKeyStore y) in
    grown new w w' ∧ ready (spend new k) identity w'.
Proof.
  intros Hw H1k H2k Hsign.
  destruct (generate_pre_key_run k identity w Hw H1k) as (i & r & w1 & Hrun1 & Hm1 & Hg1 & Hw1).
  destruct (upload_pre_key_ok identity _ Hm1) as (p & Hup1 & Hp).
  destruct (generate_kyber_pre_key_run _ identity w1 Hw1) as (j & r' & w2 & Hrun2 & Hm2 & Hg2 & Hw2);
    [rewrite spend_one; case_decide; [done|lia]|done|].
  destruct (upload_kyber_ok identity _ Hm2) as (q & Hup2 & Hq). cbn [snd] in Hup1, Hup2.
  exists (i, r), (j, r'), p, q, w2. cbv zeta. split_and!; try done; [|by eapply grown_trans|by apply ready_more].
  unfold generate_one_time_keys. rewrite interp_bind, Hrun1, interp_bind, Hup1. cbn [interp].
  by rewrite interp_bind, Hrun2, interp_bind, Hup2.
Qed.

Lemma generate_loop_run identity l : can_sign identity → ∀ k w keys,
  ready k identity w → len l ≤ k DevicePreKeyStore → len l ≤ k DeviceKyberPreKeyStore →
  ∃ new ps qs w', interp step (for_each l keys generate_one_time_keys) w = (Ok (keys.1 ++ ps, keys.2 ++ qs), w') ∧
    (∀ t, Forall (made identity t) (new t)) ∧ new DeviceSignedPreKeyStore = [] ∧
    Forall2 uploads_key (new DevicePreKeyStore) ps ∧ Forall2 (uploads_signed KyberPreKey) (new DeviceKyberPreKeyStore) qs ∧
    length ps = length l ∧ length qs = length l ∧ grown new w w' ∧ ready (spend new k) identity w'.
Proof.
  intros Hsign. induction l as [|n l IH]; intros k w [ks1 ks2] Hw H1k H2k.
  { exists (λ _, []), [], [], w. cbn. rewrite !app_nil_r. split_and!; try done.
    - split; try done; intros t; cbn; by rewrite ?app_nil_r, ?Z.add_0_r.
    - apply (ready_ext k); [|done]. intros t. unfold spend. change (len []) with 0. lia. }
  rewrite len_cons in H1k, H2k. pose proof (len_nonneg l).
  destruct (generate_round_run k identity w n (ks1, ks2) Hw ltac:(lia) ltac:(lia) Hsign)
    as (x & y & p & q & w1 & Hrun1 & Hx & Hy & Hp & Hq & Hg1 & Hw1).
  destruct (IH _ w1 (ks1 ++ [p], ks2 ++ [q]) Hw1) as (new & ps & qs & w' & Hrun & Hmade & Hs & Hps & Hqs & Hlp & Hlq & Hg & Hr);
    [rewrite spend_more, !spend_one; repeat case_decide; try done; lia..|].
  exists (more (more (one DevicePreKeyStore x) (one DeviceKyberPreKeyStore y)) new), (p :: ps), (q :: qs), w'. split_and!.
  - cbn [for_each]. rewrite interp_bind, Hrun1. cbn [fst snd]. rewrite Hrun. cbn [fst snd]. by rewrite <- !app_assoc.
  - apply made_more; [|done]. by apply made_more; apply made_one.
  - unfold more, one. cbn. done.
  - unfold more, one. cbn. by constructor.
  - unfold more, one. cbn. by constructor.
  - cbn. by rewrite Hlp.
  - cbn. by rewrite Hlq.
  - by eapply grown_trans.
  - by apply ready_more.
Qed.

Lemma generate_bundle_run k identity w :
  ready k identity w → 100 ≤ k DevicePreKeyStore → 1 ≤ k DeviceSignedPreKeyStore → 101 ≤ k DeviceKyberPreKeyStore →
  can_sign identity →
  ∃ new ps s qs l w', interp step generate_key_bundle w =
      (Ok {| set_pre_key := Some ps; set_signed_pre_key := Some s; set_pq_pre_key := Some qs;
             set_pq_last_resort_pre_key := Some l |}, w') ∧
    (∀ t, Forall (made identity t) (new t)) ∧ grown new w w' ∧ ready (spend new k) identity w' ∧
    Forall2 uploads_key (new DevicePreKeyStore) ps ∧ Forall2 (uploads_signed SignedPreKey) (new DeviceSignedPreKeyStore) [s] ∧
    Forall2 (uploads_signed KyberPreKey) (new DeviceKyberPreKeyStore) (qs ++ [l]) ∧ length ps = 100%nat ∧ length qs = 100%nat.
Proof.
  intros Hw H1k H2k H3k Hsign.
  destruct (generate_loop_run identity (seq 0 100) Hsign k w ([], []) Hw) as
    (new & ps & qs & w1 & Hrun & Hmade & Hs & Hps & Hqs & Hlp & Hlq & Hg & Hw1); [unfold len; rewrite length_seq; lia..|].
  apply Forall2_length in Hps as Hlen1, Hqs as Hlen2. rewrite length_seq in Hlp, Hlq.
  destruct (generate_signed_pre_key_run _ identity w1 Hw1) as (i & r & w2 & Hrun2 & Hm2 & Hg2 & Hw2);
    [unfold spend; rewrite Hs; change (len []) with 0; lia|done|].
  destruct (upload_signed_ok identity _ Hm2) as (s & Hup2 & Hu2).
  destruct (generate_kyber_pre_key_run _ identity w2 Hw2) as (j & r' & w3 & Hrun3 & Hm3 & Hg3 & Hw3);
    [rewrite spend_one; case_decide; [done|]; unfold spend, len; lia|done|].
  destruct (upload_kyber_ok identity _ Hm3) as (l & Hup3 & Hu3). cbn [snd] in Hup2, Hup3.
  exists (more new (more (one DeviceSignedPreKeyStore (i, r)) (one DeviceKyberPreKeyStore (j, r')))), ps, s, qs, l, w3.
  split_and!; [| | |by apply ready_more, ready_more| | | |done|done].
  - unfold generate_key_bundle. rewrite interp_bind, Hrun. cbn [fst snd app]. rewrite interp_bind, Hrun2, interp_bind, Hrun3.
    by rewrite interp_bind, Hup2; cbn [interp]; rewrite interp_bind, Hup3.
  - by apply made_more; [|apply made_more; apply made_one].
  - eapply grown_trans; [done|]. by eapply grown_trans.
  - unfold more, one. cbn. by rewrite app_nil_r.
  - unfold more, one. cbn. rewrite Hs. by constructor.
  - unfold more, one. cbn. apply Forall2_app; [done|by constructor].
Qed.

(** *** What was uploaded can be read back *)

Definition kind_in (t : id_table) : record_kind :=
  match t with DevicePreKeyStore => PreKey | DeviceSignedPreKeyStore => SignedPreKey | DeviceKyberPreKeyStore => KyberPreKey end.
Definition get_record (t : id_table) : Z → cstm bytes :=
  match t with
  | DevicePreKeyStore => get_pre_key
  | DeviceSignedPreKeyStore => get_signed_pre_key
  | DeviceKyberPreKeyStore => get_kyber_pre_key
  end.

(** libsignal reads the records and the identity keys that it makes. *)
Definition readable (identity : bytes * bytes) : Prop :=
  record_error IdentityKey identity.1 = None ∧ record_error PrivateKey identity.2 = None ∧
  ∀ t x, made identity t x → record_error (kind_in t) x.2 = None.

Definition kept (d : client_db) (t : id_table) (id : Z) (key : bytes) : Prop :=
  ∃ record, get_record t id d = (Ok record, d) ∧ record_id (kind_in t) record = Some id ∧
    record_public_key (kind_in t) record = Some key.

Lemma get_record_run t id record d :
  client_ok d → (id, b64_encode record) ∈ stored_keys t d → record_error (kind_in t) record = None →
  get_record t id d = (Ok record, d).
Proof.
  intros Hd Hin Hr. pose proof (select_record_run t id _ d Hd Hin) as Hrun.
  assert (decode (b64_encode record) = Ok record) as Hdec by (unfold decode; by rewrite b64_decode_encode).
  assert (deserialize (kind_in t) record = Ok record) as Hdes by (unfold deserialize; by rewrite Hr).
  destruct t; cbn [get_record]; [unfold get_pre_key|unfold get_signed_pre_key|unfold get_kyber_pre_key];
    rewrite (stm_bind_ok _ _ _ _ _ Hrun), Hdec; cbn [mbind outcome_bind kind_in] in *; unfold pure_, query; by rewrite Hdes.
Qed.

Definition holds (new : id_table → list (Z * bytes)) (d : client_db) : Prop :=
  ∀ t x, x ∈ new t → (x.1, b64_encode x.2) ∈ stored_keys t d.

Lemma grown_holds new w w' : grown new w w' → holds new (su_db w').
Proof.
  intros Hg t x Hx. rewrite (grown_keys _ _ _ Hg). apply elem_of_app. right.
  apply list_elem_of_fmap. by exists x.
Qed.

Lemma holds_grown new new' w w' : grown new' w w' → holds new (su_db w) → holds new (su_db w').
Proof. intros Hg Hn t x Hx. rewrite (grown_keys _ _ _ Hg). apply elem_of_app. left. by apply Hn. Qed.

Lemma made_parts identity t x : made identity t x → record_id (kind_in t) x.2 = Some x.1 ∧ is_Some (record_public_key (kind_in t) x.2).
Proof.
  destruct 1 as [i seed|i t pair seed s Hs|i seed r Hr]; cbn.
  - by destruct (pre_key_parts i (generate_key_pair seed)) as [-> ->].
  - by destruct (signed_pre_key_parts i t pair s) as (-> & -> & _).
  - by destruct (kyber_parts seed i identity.2 r Hr) as (-> & ? & _).
Qed.

Lemma kept_of identity new d t x key :
  readable identity → client_ok d → holds new d → (∀ t, Forall (made identity t) (new t)) → x ∈ new t →
  record_public_key (kind_in t) x.2 = Some key → kept d t x.1 key.
Proof.
  intros (_ & _ & Hread) Hd Hh Hmade Hx Hkey. specialize (Hmade t). rewrite Forall_forall in Hmade. specialize (Hmade x Hx).
  destruct (made_parts _ _ _ Hmade) as [Hid _]. exists x.2. split_and!; [|done|done].
  apply get_record_run; [done|by apply Hh|by apply Hread].
Qed.

Lemma kept_keys identity new d ps :
  readable identity → client_ok d → holds new d → (∀ t, Forall (made identity t) (new t)) →
  Forall2 uploads_key (new DevicePreKeyStore) ps → Forall (λ u, kept d DevicePreKeyStore (key_id u) (public_key u)) ps.
Proof.
  intros Hr Hd Hh Hm Hps. apply Forall_forall. intros u Hu. apply list_elem_of_lookup in Hu as [i Hi].
  destruct (Forall2_lookup_r _ _ _ _ _ Hps Hi) as (x & Hx & -> & Hkey). apply list_elem_of_lookup_2 in Hx.
  by eapply (kept_of _ new).
Qed.

Lemma kept_signed identity new d t us :
  readable identity → client_ok d → holds new d → (∀ t, Forall (made identity t) (new t)) →
  Forall2 (uploads_signed (kind_in t)) (new t) us → Forall (λ u, kept d t (signed_key_id u) (signed_public_key u)) us.
Proof.
  intros Hr Hd Hh Hm Hps. apply Forall_forall. intros u Hu. apply list_elem_of_lookup in Hu as [i Hi].
  destruct (Forall2_lookup_r _ _ _ _ _ Hps Hi) as (x & Hx & -> & Hkey & _). apply list_elem_of_lookup_2 in Hx.
  by eapply (kept_of _ new).
Qed.

Lemma uploaded_ids xs ps : Forall2 uploads_key xs ps → map key_id ps = map fst xs.
Proof. induction 1 as [|x u xs ps [Hid _] _ IH]; [done|]. cbn. by rewrite Hid, IH. Qed.
Lemma uploaded_signed_ids kind xs us : Forall2 (uploads_signed kind) xs us → map signed_key_id us = map fst xs.
Proof. induction 1 as [|x u xs us [Hid _] _ IH]; [done|]. cbn. by rewrite Hid, IH. Qed.

(** A bundle with fresh keys, all of which the client keeps. *)
Record bundle_kept (next : id_table → Z) (bundle : SetKeyRequest) (d : client_db) : Prop := {
  bundle_one_time : ∃ ps, set_pre_key bundle = Some ps ∧ map key_id ps = seqZ (next DevicePreKeyStore) 100 ∧
    Forall (λ u, kept d DevicePreKeyStore (key_id u) (public_key u)) ps;
  bundle_signed : ∃ s, set_signed_pre_key bundle = Some s ∧ signed_key_id s = next DeviceSignedPreKeyStore ∧
    kept d DeviceSignedPreKeyStore (signed_key_id s) (signed_public_key s);
  bundle_kyber : ∃ qs l, set_pq_pre_key bundle = Some qs ∧ set_pq_last_resort_pre_key bundle = Some l ∧
    map signed_key_id (qs ++ [l]) = seqZ (next DeviceKyberPreKeyStore) 101 ∧
    Forall (λ u, kept d DeviceKyberPreKeyStore (signed_key_id u) (signed_public_key u)) (qs ++ [l]);
}.

(** Who signed the keys. *)
Definition signed_with (identity : bytes * bytes) (u : UploadSignedPreKey) : Prop :=
  ∃ seed, calculate_signature identity.2 (signed_public_key u) seed = inr (signature u).
Definition kyber_with (identity : bytes * bytes) (u : UploadSignedPreKey) : Prop :=
  ∃ seed r, generate_kyber seed (signed_key_id u) identity.2 = inr r ∧
    record_public_key KyberPreKey r = Some (signed_public_key u) ∧ record_signature KyberPreKey r = Some (signature u).
Definition bundle_signed_with (identity : bytes * bytes) (bundle : SetKeyRequest) : Prop :=
  (∀ u, set_signed_pre_key bundle = Some u → signed_with identity u) ∧
  (∀ u, set_pq_last_resort_pre_key bundle = Some u → kyber_with identity u) ∧
  (∀ us, set_pq_pre_key bundle = Some us → Forall (kyber_with identity) us).

Lemma signed_with_made identity x u :
  made identity DeviceSignedPreKeyStore x → uploads_signed SignedPreKey x u → signed_with identity u.
Proof.
  inversion 1 as [|i t pair seed s Hs|]; subst. intros (_ & Hkey & Hsig). cbn [snd] in *.
  destruct (signed_pre_key_parts i t pair s) as (_ & Hk & Hs'). exists seed. congruence.
Qed.

Lemma kyber_with_made identity x u :
  made identity DeviceKyberPreKeyStore x → uploads_signed KyberPreKey x u → kyber_with identity u.
Proof. inversion 1 as [| |i seed r Hr]; subst. intros (Hid & Hkey & Hsig). cbn in *. exists seed, r. by rewrite Hid. Qed.

Lemma bundle_kept_ext next next' bundle d : (∀ t, next t = next' t) → bundle_kept next bundle d → bundle_kept next' bundle d.
Proof. intros Hn []. by split; rewrite <- ?Hn. Qed.

Lemma bundle_run k identity w :
  ready k identity w → 100 ≤ k DevicePreKeyStore → 1 ≤ k DeviceSignedPreKeyStore → 101 ≤ k DeviceKyberPreKeyStore →
  can_sign identity → readable identity →
  ∃ bundle new w', interp step generate_key_bundle w = (Ok bundle, w') ∧ grown new w w' ∧ ready (spend new k) identity w' ∧
    (∀ t, Forall (made identity t) (new t)) ∧
    bundle_kept (λ t, next_in t (su_manager w)) bundle (su_db w') ∧ bundle_signed_with identity bundle.
Proof.
  intros Hw H1k H2k H3k Hsign Hread.
  destruct (generate_bundle_run k identity w Hw H1k H2k H3k Hsign)
    as (new & ps & s & qs & l & w' & Hrun & Hmade & Hg & Hw' & Hps & Hs & Hqs & Hlp & Hlq).
  pose proof (ready_ok _ _ _ Hw') as Hok. pose proof (grown_holds _ _ _ Hg) as Hh.
  pose proof (Forall2_length _ _ _ Hps) as Hl1. pose proof (Forall2_length _ _ _ Hs) as Hl2. pose proof (Forall2_length _ _ _ Hqs) as Hl3.
  eexists _, new, w'. split_and!; [done..| |].
  - split; cbn.
    + exists ps. split_and!; [done| |by eapply kept_keys].
      rewrite (uploaded_ids _ _ Hps), (grown_ids _ _ _ Hg). f_equal. unfold len. lia.
    + exists s. pose proof (kept_signed _ _ _ DeviceSignedPreKeyStore [s] Hread Hok Hh Hmade Hs) as Hk.
      rewrite Forall_singleton in Hk. split_and!; [done| |done].
      pose proof (uploaded_signed_ids _ _ _ Hs) as Hid. rewrite (grown_ids _ _ _ Hg) in Hid. unfold len in Hid.
      rewrite Hl2 in Hid. unfold seqZ in Hid. cbn in Hid. injection Hid as ->. lia.
    + exists qs, l. split_and!; [done|done| |by eapply (kept_signed _ new _ DeviceKyberPreKeyStore)].
      rewrite (uploaded_signed_ids _ _ _ Hqs), (grown_ids _ _ _ Hg). f_equal. unfold len. rewrite Hl3, length_app. cbn. lia.
  - assert (Forall (kyber_with identity) (qs ++ [l])) as Hk.
    { apply Forall_forall. intros u (i & Hi)%list_elem_of_lookup.
      destruct (Forall2_lookup_r _ _ _ _ _ Hqs Hi) as (x & Hx%list_elem_of_lookup_2 & Hu). eapply kyber_with_made; [|done].
      specialize (Hmade DeviceKyberPreKeyStore). by rewrite Forall_forall in Hmade; apply Hmade. }
    apply Forall_app in Hk as [Hk Hkl]. rewrite Forall_singleton in Hkl. split_and!; cbn.
    + intros u [= <-]. specialize (Hmade DeviceSignedPreKeyStore).
      destruct (new DeviceSignedPreKeyStore) as [|x [|]]; [by inversion Hs| |apply Forall2_cons in Hs as [_ Hs]; by inversion Hs].
      rewrite Forall_singleton in Hmade. apply Forall2_cons in Hs as [Hs _]. by eapply signed_with_made.
    + by intros u [= <-].
    + by intros us [= <-].
Qed.
(** The keys of the account are drawn before it exists. *)
Lemma account_keys_run k identity w :
  ready k identity w → 2 ≤ k DeviceSignedPreKeyStore → 2 ≤ k DeviceKyberPreKeyStore → can_sign identity →
  ∃ a b c d new w',
    (∀ B (f : bytes → bytes → bytes → bytes → setup B),
      interp step (a ← generate_signed_pre_key; b ← generate_signed_pre_key; c ← generate_kyber_pre_key;
                   d ← generate_kyber_pre_key; f a b c d) w = interp step (f a.2 b.2 c.2 d.2) w') ∧
    grown new w w' ∧ ready (spend new k) identity w' ∧ (∀ t, Forall (made identity t) (new t)) ∧
    new DevicePreKeyStore = [] ∧ new DeviceSignedPreKeyStore = [a; b] ∧ new DeviceKyberPreKeyStore = [c; d].
Proof.
  intros Hw H1k H2k Hsign.
  destruct (generate_signed_pre_key_run k identity w Hw ltac:(lia) Hsign) as (i1 & r1 & w1 & Hrun1 & Hm1 & Hg1 & Hw1).
  destruct (generate_signed_pre_key_run _ identity w1 Hw1) as (i2 & r2 & w2 & Hrun2 & Hm2 & Hg2 & Hw2);
    [rewrite spend_one; case_decide; [lia|done]|done|].
  destruct (generate_kyber_pre_key_run _ identity w2 Hw2) as (i3 & r3 & w3 & Hrun3 & Hm3 & Hg3 & Hw3);
    [rewrite !spend_one; repeat case_decide; try done; lia|done|].
  destruct (generate_kyber_pre_key_run _ identity w3 Hw3) as (i4 & r4 & w4 & Hrun4 & Hm4 & Hg4 & Hw4);
    [rewrite !spend_one; repeat case_decide; try done; lia|done|].
  exists (i1, r1), (i2, r2), (i3, r3), (i4, r4),
    (more (one DeviceSignedPreKeyStore (i1, r1)) (more (one DeviceSignedPreKeyStore (i2, r2))
      (more (one DeviceKyberPreKeyStore (i3, r3)) (one DeviceKyberPreKeyStore (i4, r4))))), w4. split_and!.
  - intros B f. rewrite interp_bind, Hrun1, interp_bind, Hrun2, interp_bind, Hrun3, interp_bind, Hrun4. done.
  - do 3 (eapply grown_trans; [done|]). done.
  - by do 3 apply ready_more.
  - repeat apply made_more; by apply made_one.
  - done.
  - done.
  - done.
Qed.

Lemma password_run {B} (f : string → setup B) w :
  2 ≤ Z.of_nat (String.length (b64_encode (fill PASSWORD_LENGTH (su_seed w)))) →
  let password := b64_encode (fill PASSWORD_LENGTH (su_seed w)) in
  interp step (new_password ≫= f) w = interp step (f (String.substring 0 (String.length password - 2) password)) (next_seed w).
Proof.
  intros Hl password. rewrite interp_bind. unfold new_password. rewrite random_ok. cbn [next_seed]. rewrite interp_bind, interp_lift.
  rewrite usize_sub_ok by done. cbn [mbind interp lift interp_bind]. by rewrite (Z2Nat.inj_sub _ 2), Nat2Z.id by lia.
Qed.

Lemma ret_run {A B} (a : A) (f : A → setup B) w : interp step (Ret a ≫= f) w = interp step (f a) w.
Proof. done. Qed.

Lemma server_api_run {X B} (c : serverApiE X) (f : X → setup B) w x s :
  server _ c (su_server w) = (Ok x, s) → interp step (server_api c ≫= f) w = interp step (f x) (put_server w s).
Proof. intros Hc. rewrite interp_bind. unfold server_api. rewrite interp_op_bind. cbn [setup_step]. by rewrite Hc. Qed.

Lemma on_client_db_run {X B} (c : clientE X) (f : X → setup B) w x d :
  device _ c (su_db w) = (Ok x, d) → interp step (on_client_db c ≫= f) w = interp step (f x) (put_db w d).
Proof. intros Hc. rewrite interp_bind. unfold on_client_db. rewrite interp_op_bind. cbn [setup_step]. by rewrite Hc. Qed.

Lemma manager_run {B} (f : KeyManager → setup B) w : interp step (op Manager ≫= f) w = interp step (f (su_manager w)) w.
Proof. by rewrite interp_op_bind. Qed.
End generating.

Section registering.
Context `{Sqlite, Base64, ServiceIdText, Libsignal, HashOrder, KeyGeneration}.

Context {S : Type} (server : handler serverApiE SignalClientError S).
Abbreviation step := (setup_step server).

Lemma keys_ready_same k identity (w w' : setup_world S) :
  su_db w' = su_db w → su_manager w' = su_manager w → su_clock w' = su_clock w → ready k identity w → ready k identity w'.
Proof. intros Hd Hm Hc []. split; by rewrite ?Hd, ?Hm, ?Hc. Qed.

(** Rows of the account do not matter for keys. *)
Lemma ready_identity_row k identity (w : setup_world S) d' :
  client_ok d' → (∀ r, r ≠ Identity → d' r = su_db w r) → ready k identity w → ready k identity (put_db w d').
Proof.
  intros Hd' Ho [Hok Hroom Hids Hwidth Hi Hc]. split; cbn [put_db su_db su_manager su_clock]; try done.
  - intros t. unfold room. rewrite Ho by done. apply Hroom.
  - intros t. unfold stored_keys. rewrite Ho by done. apply Hids.
  - unfold get_identity_key_pair, query in *. rewrite (Ho IdentityKeys) by done.
    apply (f_equal fst) in Hi. cbn [fst] in Hi. by rewrite Hi.
Qed.

(** A client whose identity was just stored. *)
Definition first_db (identity : bytes * bytes) (registration_id : Z) : client_db :=
  set_rows row IdentityKeys
    [(1, {| ik_public := b64_encode identity.1; ik_private := b64_encode identity.2; ik_registration_id := registration_id |})]
    empty_client_db.

Lemma insert_first identity registration_id :
  insert_account_key_information identity registration_id empty_client_db = (Ok tt, first_db identity registration_id).
Proof.
  unfold insert_account_key_information, execute, run, insert_row. cbn [empty_client_db existsb].
  rewrite new_rowid_next by (vm_compute; reflexivity). done.
Qed.

Lemma rowids_scan_one {A} (x : Z * A) : rowids_scan [x] = [x].
Proof. apply Permutation_singleton_r. apply rowids_scan_perm. Qed.

Lemma first_ready identity registration_id (w : setup_world S) :
  readable identity → in_u64 (su_clock w) = true → su_db w = first_db identity registration_id →
  su_manager w = KeyManager_default → ready (λ _, 1000) identity w.
Proof.
  intros (Hpub & Hpriv & _) Hc Hd Hm. split.
  - rewrite Hd. apply set_rows_ok; [apply empty_client_ok|]. split; cbn; [apply NoDup_singleton|by repeat constructor|done].
  - intros t. rewrite Hd. unfold first_db, room. rewrite set_rows_ne by done. vm_compute. discriminate.
  - intros t. rewrite Hd. unfold first_db, stored_keys. rewrite set_rows_ne by done. constructor.
  - intros t. rewrite Hm. destruct t; vm_compute; split; discriminate.
  - rewrite Hd. unfold get_identity_key_pair, query, first_db. rewrite set_rows_eq, rowids_scan_one. cbn.
    unfold decode, deserialize. rewrite !b64_decode_encode. cbn. rewrite Hpub. cbn. rewrite Hpriv. by destruct identity.
  - done.
Qed.

Lemma stored_nothing identity registration_id t : stored_keys t (first_db identity registration_id) = [].
Proof. unfold stored_keys, first_db. by rewrite set_rows_ne by done. Qed.


(** *** A client that has registered *)

(** What the server gets: keys with ids in sequence, signed by the account's
    identity. *)
Record good_request (identity : bytes * bytes) (request : RegistrationRequest) : Prop := {
  gr_identity : reg_aci_identity_key request = identity.1;
  gr_pni_identity : ∃ seed, reg_pni_identity_key request = (generate_identity seed).1;
  gr_attributes : let attributes := reg_account_attributes request in
    1 ≤ aa_registration_id attributes < 16383 ∧ 1 ≤ aa_pni_registration_id attributes < 16383 ∧ capabilities attributes = [];
  gr_signed : let us := [reg_aci_signed_pre_key request; reg_pni_signed_pre_key request] in
    map signed_key_id us = [1; 2] ∧ Forall (signed_with identity) us;
  gr_kyber : let us := [reg_aci_pq_last_resort_pre_key request; reg_pni_pq_last_resort_pre_key request] in
    map signed_key_id us = [1; 2] ∧ Forall (kyber_with identity) us;
}.
Record good_bundle (identity : bytes * bytes) (bundle : SetKeyRequest) : Prop := {
  gb_one_time : ∃ ps, set_pre_key bundle = Some ps ∧ map key_id ps = seqZ 1 100;
  gb_signed : ∃ s, set_signed_pre_key bundle = Some s ∧ signed_key_id s = 3;
  gb_kyber : ∃ qs l, set_pq_pre_key bundle = Some qs ∧ set_pq_last_resort_pre_key bundle = Some l ∧
    map signed_key_id (qs ++ [l]) = seqZ 3 101;
  gb_by : bundle_signed_with identity bundle;
}.

(** The text of a password. *)
Definition password_of (bs : bytes) : string := String.substring 0 (String.length (b64_encode bs) - 2) (b64_encode bs).

(** A server that accepts the account and its keys, after which [published]
    holds of what it got. *)
Definition accepts (response : AccountIdentityResponse) (q_value : f32) (phone_number : string) (identity : bytes * bytes) (s0 : S)
    (published : string → RegistrationRequest → SetKeyRequest → S → Prop) : Prop :=
  ∀ seed request, good_request identity request →
    let password := password_of (fill PASSWORD_LENGTH seed) in
    ∃ s1 s2, server _ (Register_client phone_number password request) s0 = (Ok response, s1) ∧
      server _ (Create_auth_header (air_uuid response) password 1) s1 = (Ok tt, s2) ∧
      ∀ bundle, good_bundle identity bundle →
        ∃ s3 s4, server _ (Publish_pre_key_bundle bundle) s2 = (Ok tt, s3) ∧
          server _ (Connect (service_id_string (Aci (air_uuid response))) password) s3 = (Ok (Some q_value), s4) ∧
          published password request bundle s4.

(** The client keeps what it sent. *)
Record has_registered (response : AccountIdentityResponse) (q_value : f32) (identity : bytes * bytes) (c : Client) (password : string)
    (request : RegistrationRequest) (bundle : SetKeyRequest) (w : setup_world S) : Prop := {
  hr_client : client_aci c = air_uuid response ∧ client_pni c = air_pni response ∧ key_manager c = su_manager w ∧
    chunker c = Chunker_new q_value;
  hr_account : get_aci (su_db w) = (Ok (air_uuid response), su_db w) ∧ get_password (su_db w) = (Ok password, su_db w);
  hr_identity : get_identity_key_pair (su_db w) = (Ok identity, su_db w);
  hr_request : good_request identity request;
  hr_signed : Forall (λ u, kept (su_db w) DeviceSignedPreKeyStore (signed_key_id u) (signed_public_key u))
    [reg_aci_signed_pre_key request; reg_pni_signed_pre_key request];
  hr_kyber : Forall (λ u, kept (su_db w) DeviceKyberPreKeyStore (signed_key_id u) (signed_public_key u))
    [reg_aci_pq_last_resort_pre_key request; reg_pni_pq_last_resort_pre_key request];
  hr_bundle : good_bundle identity bundle ∧ bundle_kept (λ t, if decide (t = DevicePreKeyStore) then 1 else 3) bundle (su_db w);
}.

Lemma Forall2_uploads {A} (P : Z * bytes → A → Prop) (Q : A → Prop) (R : Z * bytes → Prop) xs us :
  (∀ x u, R x → P x u → Q u) → Forall R xs → Forall2 P xs us → Forall Q us.
Proof. intros HQ HR. induction 1 as [|x u xs us Hx _ IH]; [done|]. inversion_clear HR. constructor; eauto. Qed.

Lemma account_uploads identity new a b c d :
  (∀ t, Forall (made identity t) (new t)) → new DeviceSignedPreKeyStore = [a; b] → new DeviceKyberPreKeyStore = [c; d] →
  ∃ ua ub uc ud,
    (upload_signed_pre_key SignedPreKey a.2 = Ret ua ∧ upload_signed_pre_key SignedPreKey b.2 = Ret ub ∧
     upload_signed_pre_key KyberPreKey c.2 = Ret uc ∧ upload_signed_pre_key KyberPreKey d.2 = Ret ud) ∧
    Forall2 (uploads_signed SignedPreKey) (new DeviceSignedPreKeyStore) [ua; ub] ∧
    Forall2 (uploads_signed KyberPreKey) (new DeviceKyberPreKeyStore) [uc; ud] ∧
    Forall (signed_with identity) [ua; ub] ∧ Forall (kyber_with identity) [uc; ud].
Proof.
  intros Hmade Hs Hk. pose proof (Hmade DeviceSignedPreKeyStore) as Hms. pose proof (Hmade DeviceKyberPreKeyStore) as Hmk.
  rewrite Hs in *. rewrite Hk in *. apply Forall_cons in Hms as [Hma Hmb], Hmk as [Hmc Hmd]. rewrite Forall_singleton in Hmb, Hmd.
  destruct (upload_signed_ok identity a Hma) as (ua & Hua & Hupa), (upload_signed_ok identity b Hmb) as (ub & Hub & Hupb).
  destruct (upload_kyber_ok identity c Hmc) as (uc & Huc & Hupc), (upload_kyber_ok identity d Hmd) as (ud & Hud & Hupd).
  exists ua, ub, uc, ud. split_and!; try done.
  - by constructor; [|constructor].
  - by constructor; [|constructor].
  - eauto using Forall_cons_2, Forall_nil_2, signed_with_made.
  - eauto using Forall_cons_2, Forall_nil_2, kyber_with_made.
Qed.

(** The account that the server returned is stored beside the keys. *)
Lemma store_account response password (w : setup_world S) k identity :
  ready k identity w → su_db w Identity = [] → is_uuid (air_uuid response) = true →
  ∃ d', device _ (Insert_account_information (air_uuid response) (air_pni response) password) (su_db w) = (Ok tt, d') ∧
    ready k identity (put_db w d') ∧ (∀ r, r ≠ Identity → d' r = su_db w r) ∧
    ∀ d : client_db, d Identity = d' Identity → get_aci d = (Ok (air_uuid response), d) ∧ get_password d = (Ok password, d).
Proof.
  intros Hw Hempty Hid.
  set (x := {| i_aci := service_id_string (Aci (air_uuid response)); i_pni := service_id_string (Pni (air_pni response)); i_password := password |}).
  assert (c_insert Identity x (su_db w) = Ok (set_rows row Identity [(1, x)] (su_db w))) as Hrun.
  { unfold insert_row. rewrite Hempty. cbn [existsb]. rewrite new_rowid_next by (vm_compute; reflexivity). done. }
  exists (set_rows row Identity [(1, x)] (su_db w)). split_and!.
  - cbn [device]. unfold insert_account_information, execute, run. fold x. by rewrite Hrun.
  - apply ready_identity_row; [|intros r Hr; by apply set_rows_ne|done].
    eapply (insert_row_ok row clash Identity x (su_db w)); [by apply (ready_ok k identity)|done].
  - intros r Hr. by apply set_rows_ne.
  - rewrite set_rows_eq. intros d Hd. unfold get_password, get_aci, identity_column, query.
    rewrite Hd, rowids_scan_one. cbn. split; [|done]. unfold mbind, stm_bind, query. cbn. rewrite Hd, rowids_scan_one. cbn.
    pose proof (parse_service_id_string (Aci (air_uuid response)) Hid) as Hparse. cbn in Hparse. by rewrite Hparse.
Qed.

(** The end of [register], once the server has answered. *)
Definition set_up (response : AccountIdentityResponse) (alias password : string) : setup Client :=
  _ ← server_api (Create_auth_header (air_uuid response) password 1);
  _ ← on_client_db (Insert_account_information (air_uuid response) (air_pni response) password);
  key_bundle ← generate_key_bundle;
  _ ← server_api (Publish_pre_key_bundle key_bundle);
  q_value ← server_api (Connect (service_id_string (Aci (air_uuid response))) password);
  q_value ← lift (expect "called `Option::unwrap()` on a `None` value" q_value);
  key_manager ← op Manager;
  Ret {| alias := alias; client_aci := air_uuid response; client_pni := air_pni response; contact_manager := ∅;
         key_manager := key_manager; chunker := Chunker_new q_value |}.

Lemma set_up_run response q_value alias password identity k w s2 published :
  ready k identity w → 100 ≤ k DevicePreKeyStore → 1 ≤ k DeviceSignedPreKeyStore → 101 ≤ k DeviceKyberPreKeyStore →
  can_sign identity → readable identity → su_db w Identity = [] → is_uuid (air_uuid response) = true →
  server _ (Create_auth_header (air_uuid response) password 1) (su_server w) = (Ok tt, s2) →
  (∀ bundle d, bundle_kept (λ t, next_in t (su_manager w)) bundle d → bundle_signed_with identity bundle →
     ∃ s3 s4, server _ (Publish_pre_key_bundle bundle) s2 = (Ok tt, s3) ∧
       server _ (Connect (service_id_string (Aci (air_uuid response))) password) s3 = (Ok (Some q_value), s4) ∧
       published bundle s4) →
  ∃ c bundle w', interp step (set_up response alias password) w = (Ok c, w') ∧ published bundle (su_server w') ∧
    (client_aci c = air_uuid response ∧ client_pni c = air_pni response ∧ key_manager c = su_manager w' ∧
     chunker c = Chunker_new q_value) ∧
    (get_aci (su_db w') = (Ok (air_uuid response), su_db w') ∧ get_password (su_db w') = (Ok password, su_db w')) ∧
    client_ok (su_db w') ∧ get_identity_key_pair (su_db w') = (Ok identity, su_db w') ∧
    (∀ new, holds new (su_db w) → holds new (su_db w')) ∧
    bundle_kept (λ t, next_in t (su_manager w)) bundle (su_db w') ∧ bundle_signed_with identity bundle.
Proof.
  intros Hw H1k H2k H3k Hsign Hread Hempty Huuid Hauth Hpublish. set (w4 := put_server w s2).
  assert (ready k identity w4) as Hw4 by (by apply (keys_ready_same _ _ w)).
  destruct (store_account response password w4 _ identity Hw4 Hempty Huuid) as (d5 & Hstore & Hw5 & Ho5 & Haccount).
  destruct (bundle_run server _ identity (put_db w4 d5) Hw5 H1k H2k H3k Hsign Hread)
    as (bundle & new' & w6 & Hbundle & Hg' & Hw6 & Hmade' & Hkept & Hby).
  destruct (Hpublish bundle _ Hkept Hby) as (s3 & s4 & Hpub & Hconn & Hp).
  assert (su_server w6 = s2) as Hs6 by exact (grown_server _ _ _ Hg').
  eexists _, bundle, (put_server w6 s4). split_and!.
  - unfold set_up. rewrite (server_api_run _ _ _ _ tt s2) by done.
    rewrite (on_client_db_run _ _ _ _ tt d5) by exact Hstore.
    change (put_db _ d5) with (put_db w4 d5). rewrite interp_bind, Hbundle.
    rewrite (server_api_run _ _ _ _ tt s3) by by rewrite Hs6.
    rewrite (server_api_run _ _ _ _ (Some q_value) s4) by done.
    rewrite interp_bind, interp_lift. cbn [expect]. rewrite manager_run. reflexivity.
  - done.
  - done.
  - done.
  - done.
  - done.
  - apply Haccount. change (su_db w6 Identity = d5 Identity). by rewrite (grown_others _ _ _ Hg').
  - apply Haccount. change (su_db w6 Identity = d5 Identity). by rewrite (grown_others _ _ _ Hg').
  - exact (ready_ok _ _ _ Hw6).
  - exact (ready_identity _ _ _ Hw6).
  - intros new Hnew. apply (holds_grown _ _ _ _ Hg'). intros t x Hx. specialize (Hnew t x Hx).
    unfold stored_keys in *. cbn [put_db su_db]. by rewrite Ho5.
  - exact Hkept.
  - exact Hby.
Qed.

(** The beginning of [register]: the identity is stored, the keys of the
    account are drawn, and the server is asked. *)
Definition with_identity (w : setup_world S) : setup_world S :=
  put_manager (put_db (next_seed (next_seed (next_seed (next_seed w))))
    (first_db (generate_identity (su_seed w + 2)) (gen_range 1 16383 (su_seed w)))) KeyManager_default.
Definition request_in (name : string) (w : setup_world S) (ua ub uc ud : UploadSignedPreKey) : RegistrationRequest :=
  registration_request name (gen_range 1 16383 (su_seed w)) (gen_range 1 16383 (su_seed w + 1))
    (generate_identity (su_seed w + 2)) (generate_identity (su_seed w + 3)) ua ub uc ud.

Lemma register_client_set_up name phone_number alias response w w2 (a b c d : Z * bytes) ua ub uc ud s1 :
  su_db w = empty_client_db →
  2 ≤ Z.of_nat (String.length (b64_encode (fill PASSWORD_LENGTH (su_seed w2)))) →
  (∀ B (f : bytes → bytes → bytes → bytes → setup B),
     interp step (a ← generate_signed_pre_key; b ← generate_signed_pre_key; c ← generate_kyber_pre_key;
                  d ← generate_kyber_pre_key; f a b c d) (with_identity w) = interp step (f a.2 b.2 c.2 d.2) w2) →
  (upload_signed_pre_key SignedPreKey a.2 = Ret ua ∧ upload_signed_pre_key SignedPreKey b.2 = Ret ub ∧
   upload_signed_pre_key KyberPreKey c.2 = Ret uc ∧ upload_signed_pre_key KyberPreKey d.2 = Ret ud) →
  let password := password_of (fill PASSWORD_LENGTH (su_seed w2)) in
  server _ (Register_client phone_number password (request_in name w ua ub uc ud)) (su_server w2) = (Ok response, s1) →
  interp step (register name phone_number alias) w =
  interp step (set_up response alias password) (put_server (next_seed (next_seed (next_seed w2))) s1).
Proof.
  intros Hdb Hpadded Hkeys (Hua & Hub & Huc & Hud) password Hregister.
  unfold register. rewrite !random_ok, interp_op_bind.
  replace (generate_identity (su_seed (next_seed (next_seed w)))) with (generate_identity (su_seed w + 2)) by (f_equal; cbn; lia).
  replace (su_seed (next_seed (next_seed (next_seed w)))) with (su_seed w + 3) by (cbn; lia).
  cbn [setup_step device]. cbn [next_seed su_db]. rewrite Hdb, insert_first. cbn [valued]. rewrite interp_bind, interp_lift.
  rewrite interp_op_bind. cbn [setup_step]. cbv iota.
  match goal with |- interp _ _ ?x = _ => change x with (with_identity w) end. rewrite Hkeys.
  rewrite password_run by done. rewrite !random_ok. fold (password_of (fill PASSWORD_LENGTH (su_seed w2))). fold password.
  rewrite Hua, Hub, Huc, Hud, !ret_run.
  by rewrite (server_api_run _ _ _ _ response s1) by exact Hregister.
Qed.

Lemma kept_good identity bundle d :
  bundle_kept (λ t, if decide (t = DevicePreKeyStore) then 1 else 3) bundle d → bundle_signed_with identity bundle →
  good_bundle identity bundle.
Proof.
  intros [(ps & Hps & Hids & _) (s & Hs & Hid & _) (qs & l & Hqs & Hl & Hidsq & _)] Hby.
  split; [by exists ps|by exists s|by exists qs, l|done].
Qed.
End registering.

(** The whole of [register]. *)
Lemma registration_run `{Sqlite, Base64, ServiceIdText, Libsignal, HashOrder, KeyGeneration}
    {S} (server : handler serverApiE SignalClientError S) (response : AccountIdentityResponse) (q_value : f32)
    (name phone_number alias : string) (w : setup_world S) (published : string → RegistrationRequest → SetKeyRequest → S → Prop)
    (Hdb : su_db w = empty_client_db) (Hclock : in_u64 (su_clock w) = true) (Huuid : is_uuid (air_uuid response) = true)
    (Hpadded : ∀ bs, length bs = PASSWORD_LENGTH → 2 ≤ Z.of_nat (String.length (b64_encode bs)))
    (Hsign : can_sign (generate_identity (su_seed w + 2))) (Hread : readable (generate_identity (su_seed w + 2)))
    (Haccepts : accepts server response q_value phone_number (generate_identity (su_seed w + 2)) (su_server w) published) :
  ∃ c w' password request bundle,
    interp (setup_step server) (register name phone_number alias) w = (Ok c, w') ∧
    published password request bundle (su_server w') ∧
    has_registered response q_value (generate_identity (su_seed w + 2)) c password request bundle w'.
Proof.
  set (identity := generate_identity (su_seed w + 2)) in *.
  set (w1 := with_identity w).
  assert (ready (λ _, 1000) identity w1) as Hw1 by (apply (first_ready _ (gen_range 1 16383 (su_seed w))); done).
  destruct (account_keys_run server _ identity w1 Hw1 ltac:(lia) ltac:(lia) Hsign)
    as (a & b & c & d & new & w2 & Hkeys & Hg & Hw2 & Hmade & Hpre & Hsigned & Hkyber).
  set (w3 := next_seed (next_seed (next_seed w2))). set (password := password_of (fill PASSWORD_LENGTH (su_seed w2))).
  destruct (account_uploads identity new a b c d Hmade Hsigned Hkyber)
    as (ua & ub & uc & ud & Huploads & H2s & H2k & Hbys & Hbyk).
  set (request := request_in name w ua ub uc ud).
  assert (∀ t, map fst (new t) = seqZ 1 (len (new t))) as Hids by (intros t; rewrite (grown_ids _ _ _ Hg); by destruct t).
  assert (good_request identity request) as Hgood.
  { split; [done|by eexists|split_and!; try apply gen_range_within; done| |]; (split; [|done]).
    - change [reg_aci_signed_pre_key _; _] with [ua; ub]. by rewrite (uploaded_signed_ids _ _ _ H2s), Hids, Hsigned.
    - change [reg_aci_pq_last_resort_pre_key _; _] with [uc; ud]. by rewrite (uploaded_signed_ids _ _ _ H2k), Hids, Hkyber. }
  destruct (Haccepts (su_seed w2) request Hgood) as (s1 & s2 & Hregister & Hauth & Hpublish).
  assert (∀ t, next_in t (su_manager (put_server w3 s1)) = if decide (t = DevicePreKeyStore) then 1 else 3) as Hnext.
  { intros t. cbn [put_server su_manager w3 next_seed]. rewrite (grown_next _ _ _ Hg).
    destruct t; rewrite ?Hpre, ?Hsigned, ?Hkyber; reflexivity. }
  destruct (set_up_run server response q_value alias password identity (spend new (λ _, 1000)) (put_server w3 s1) s2
    (published password request)) as (client & bundle & w5 & Hrun & Hp & Hclient & Haccount & Hok & Hidentity & Hholds & Hkept & Hby);
    try done; [by apply (keys_ready_same _ _ w2)|unfold spend; rewrite ?Hpre, ?Hsigned, ?Hkyber; unfold len; cbn [length]; lia..| | |].
  { change (su_db w2 Identity = []). rewrite (grown_others _ _ _ Hg) by done. cbn. unfold first_db. by rewrite set_rows_ne by done. }
  { intros bundle d' Hkept Hby. apply Hpublish. eapply kept_good; [|done]. eapply bundle_kept_ext; [exact Hnext|exact Hkept]. }
  apply (bundle_kept_ext _ _ _ _ Hnext) in Hkept. exists client, w5, password, request, bundle. split_and!; [|done|].
  - rewrite <- Hrun. apply (register_client_set_up _ _ _ _ _ _ w2 a b c d ua ub uc ud s1);
      [done|by apply Hpadded, fill_length|exact Hkeys|done|]. rewrite (grown_server _ _ _ Hg). exact Hregister.
  - pose proof (Hholds new (grown_holds _ _ _ Hg)) as Hh.
    split; try done; [by eapply (kept_signed _ new _ DeviceSignedPreKeyStore)|by eapply (kept_signed _ new _ DeviceKyberPreKeyStore)|].
    split; [by eapply kept_good|done].
Qed.

(** ** Properties *)

(** C12: registering a new client works with every server that accepts it, and
    the client keeps every key that it sends: the account, its password and its
    identity are stored as the server got them, and each uploaded key is found
    under its id, which no other key of its kind has; all keys are signed by
    the account's identity, also those that are sent as keys of the phone
    number; and the client cuts its messages with the q value that the server
    gave it when it connected. *)
Theorem registration_keeps_what_it_uploads `{Sqlite, Base64, ServiceIdText, Libsignal, HashOrder, KeyGeneration}
    {S} (server : handler serverApiE SignalClientError S) (response : AccountIdentityResponse) (q_value : f32)
    (name phone_number alias : string) (w : setup_world S) (published : string → RegistrationRequest → SetKeyRequest → S → Prop)
    (Hdb : su_db w = empty_client_db) (Hclock : in_u64 (su_clock w) = true) (Huuid : is_uuid (air_uuid response) = true)
    (Hpadded : ∀ bs, length bs = PASSWORD_LENGTH → 2 ≤ Z.of_nat (String.length (b64_encode bs)))
    (Hsign : can_sign (generate_identity (su_seed w + 2))) (Hread : readable (generate_identity (su_seed w + 2)))
    (Haccepts : accepts server response q_value phone_number (generate_identity (su_seed w + 2)) (su_server w) published) :
  ∃ c w' password request bundle,
    interp (setup_step server) (register name phone_number alias) w = (Ok c, w') ∧
    published password request bundle (su_server w') ∧
    has_registered response q_value (generate_identity (su_seed w + 2)) c password request bundle w'.
Proof.
  destruct (registration_run server response q_value name phone_number alias w published) as (c & w' & password & request & bundle & Hrun & Hp & Hc); [done..|].
  by exists c, w', password, request, bundle.
Qed.

(** ** Witnesses *)

(** A server that accepts an account and notes what it is sent. *)
Inductive noted :=
| Registered (phone_number password : string) (request : RegistrationRequest)
| Authorized (aci password : string) (device_id : Z)
| Published (bundle : SetKeyRequest)
| Connected (username password : string).
Definition accepting (response : AccountIdentityResponse) (q_value : f32) : handler serverApiE SignalClientError (list noted) :=
  λ X c s, match c in serverApiE X return outcome SignalClientError X * list noted with
  | Register_client phone_number password request => (Ok response, s ++ [Registered phone_number password request])
  | Create_auth_header aci password device_id => (Ok tt, s ++ [Authorized aci password device_id])
  | Publish_pre_key_bundle bundle => (Ok tt, s ++ [Published bundle])
  | Connect username password => (Ok (Some q_value), s ++ [Connected username password])
  | _ => (Panic "not sent while registering", s)
  end.

(** Keys whose records are written out, and signatures that repeat the message. *)
Definition demo_record (i : Z) (public signature : bytes) : bytes := enc (i, public, signature).
Definition demo_parts (bs : bytes) : option (Z * bytes * bytes) := dec bs.
Program Definition demo_key_generation : KeyGeneration := {|
  generate_identity seed := ([x05], [x06]);
  generate_key_pair seed := ([x07; x08], [x09]);
  calculate_signature _ m _ := inr m;
  new_pre_key i k := demo_record i k.1 [];
  new_signed_pre_key i _ k s := demo_record i k.1 s;
  generate_kyber _ i _ := inr (demo_record i [x0a] [x0a]);
  record_id _ bs := (λ x, x.1.1) <$> demo_parts bs;
  record_public_key _ bs := (λ x, x.1.2) <$> demo_parts bs;
  record_signature _ bs := (λ x, x.2) <$> demo_parts bs;
  gen_range low _ _ := low;
  fill n _ := repeat x00 n;
|}.
Next Obligation. intros. unfold demo_parts, demo_record. by rewrite dec_enc. Qed.
Next Obligation. intros. unfold demo_parts, demo_record. by rewrite dec_enc. Qed.
Next Obligation. intros ???? [= <-]. cbn. unfold demo_parts, demo_record. rewrite dec_enc. by repeat split; eexists. Qed.
Next Obligation. cbn. lia. Qed.
Next Obligation. intros. apply repeat_length. Qed.

#[local] Existing Instances plain_sqlite demo_service_ids demo_libsignal demo_hash_order demo_key_generation.

Definition demo_response : AccountIdentityResponse :=
  {| air_uuid := "aaaaaaaa-aaaa-4aaa-8aaa-aaaaaaaaaaaa"; air_number := "+4512345678";
     air_pni := "bbbbbbbb-bbbb-4bbb-8bbb-bbbbbbbbbbbb"; air_username_hash := None; air_storage_capable := false |}.
Definition demo_new_client : setup_world (list noted) :=
  {| su_db := empty_client_db; su_manager := KeyManager_default; su_server := []; su_seed := 0; su_clock := 1700000000 |}.
Definition demo_notes (password : string) (request : RegistrationRequest) (bundle : SetKeyRequest) (s : list noted) : Prop :=
  s = [Registered "+4512345678" password request; Authorized (air_uuid demo_response) password 1;
       Published bundle; Connected (service_id_string (Aci (air_uuid demo_response))) password].

Lemma registration_keeps_what_it_uploads_witness :
  ∃ c w' password request bundle,
    interp (setup_step (accepting demo_response f32_0_6)) (register "Alice" "+4512345678" "alice") demo_new_client = (Ok c, w') ∧
    demo_notes password request bundle (su_server w') ∧
    has_registered demo_response f32_0_6 (generate_identity 2) c password request bundle w'.
Proof.
  apply (registration_keeps_what_it_uploads (accepting demo_response f32_0_6) demo_response f32_0_6 "Alice" "+4512345678" "alice"
    demo_new_client demo_notes).
  - reflexivity.
  - reflexivity.
  - vm_compute. reflexivity.
  - intros bs Hl. change (2 <= Z.of_nat (String.length (hex_encode bs))).
    destruct bs as [|x bs]; [discriminate Hl|]. rewrite hex_encode_cons. cbn -[Z.of_nat]. lia.
  - split; intros; by eexists.
  - split_and!; done.
  - intros seed request _. eexists _, _. split; [reflexivity|]. split; [reflexivity|]. intros bundle _. eexists _, _. by split_and!.
Defined.
