(* ===== verification/KeyExchange.v ===== *)
(** Keys from one client to another: what a client uploads is accepted and
    handed out by the server, so that the client can use what others fetch.
    This file puts the client's key manager ([ClientKeys]) and the server's key
    handlers ([KeyManager], [Registration]) together. *)
From S2P Require Export ClientKeys.
From S2P Require Export Registration.

Local Open Scope Z_scope.
Local Open Scope denim_scope.

(** ** Storing one-time keys *)

Section one_time.
Context `{ScanOrder}.

Definition same (r : Postgres.relation) (d d' : pg) : Prop := rows (d' r) = rows (d r) ∧ next_id (d' r) = next_id (d r).

Lemma insert_select_same r q xs : ∀ d d', pg_insert_select r xs d = Ok d' → r ≠ q → same q d d'.
Proof.
  induction xs as [|x xs IH]; intros d d'; cbn; [by intros [= <-]|]. intros Hrun Hne. split_binds.
  match goal with Hi : pg_insert r x d = Ok ?d1, Hs : pg_insert_select r xs ?d1 = Ok _ |- _ =>
    destruct (IH d1 d' Hs Hne) as [Hr Hn]; apply insert_Ok in Hi as (-> & _) end.
  unfold same. by rewrite Hr, Hn, !set_table_ne.
Qed.

Definition leaf (r : Postgres.relation) : Prop := match r with Accounts | Devices | SignedPreKeys _ => False | _ => True end.

Lemma delete_same r q p d : leaf r → pg_wf d → r ≠ q → same q d (pg_delete r p d).
Proof.
  intros Hl Hwf Hne. split; [|by rewrite (proj1 (delete_shrinks row refs depth r p d q))].
  rewrite (delete_leaf row clash refs depth r p d); [by rewrite set_table_ne| |done].
  intros q' x i. by apply refs_leaf.
Qed.

Lemma same_trans r d1 d2 d3 : same r d1 d2 → same r d2 d3 → same r d1 d3.
Proof. unfold same. intuition congruence. Qed.

Ltac same_steps Hwf Hl :=
  each_statement ltac:(idtac;
    lazymatch goal with
    | H : pg_wf ?d ∧ _ |- pg_wf (pg_delete _ _ ?d) ∧ _ =>
        destruct H as [Hwf Hl]; split; [by apply pg_delete_wf|eapply same_trans; [exact Hl|by apply delete_same]]
    | H : pg_wf ?d ∧ _, Hi : pg_insert_select _ _ ?d = Ok _ |- _ =>
        destruct H as [Hwf Hl]; split; [by eapply insert_select_wf|eapply same_trans; [exact Hl|by eapply insert_select_same]]
    end).

Lemma store_one_time_ec_same r ks a d :
  pg_wf d → r ≠ OneTimeEcPreKeys → same r d (store_one_time_ec_pre_keys ks a d).2.
Proof.
  intros Hwf Hr. assert (keeps (λ d', pg_wf d' ∧ same r d d') (store_one_time_ec_pre_keys ks a)) as Hk by (same_steps Hw Hs).
  by apply Hk.
Qed.

Lemma store_one_time_pq_same r ks a d :
  pg_wf d → r ≠ OneTimePqPreKeys → same r d (store_one_time_pq_pre_keys ks a d).2.
Proof.
  intros Hwf Hr. assert (keeps (λ d', pg_wf d' ∧ same r d d') (store_one_time_pq_pre_keys ks a)) as Hk by (same_steps Hw Hs).
  by apply Hk.
Qed.

Lemma get_one_time_ec_same r a d : pg_wf d → r ≠ OneTimeEcPreKeys → same r d (get_one_time_ec_pre_key a d).2.
Proof.
  intros Hwf Hr. assert (keeps (λ d', pg_wf d' ∧ same r d d') (get_one_time_ec_pre_key a)) as Hk by (same_steps Hw Hs).
  by apply Hk.
Qed.

(** The device [x] has at most the post-quantum keys [used]. *)
Record pq_used (a : ProtocolAddress) (x : Z * device_row) (used : list UploadSignedPreKey) (d : pg) : Prop := {
  pq_wf : pg_wf d;
  pq_names : names_typed d;
  pq_found : device_found a d = Some x;
  pq_rows y : y ∈ rows (d OneTimePqPreKeys) → p_owner y.2 = x.1 → ∃ k, k ∈ used ∧ p_key_id y.2 = show (signed_key_id k);
}.

Definition pq_insert (a : ProtocolAddress) (k : UploadSignedPreKey) : stm unit := execute (λ d,
  l ← device_at a d;
  pg_insert_select OneTimePqPreKeys
    (map (λ x, {| p_owner := x.1; p_key_id := show (signed_key_id k);
                  p_public_key := signed_public_key k; p_signature := Some (signature k) |}) l) d).

Lemma pq_insert_run a x used k d :
  pq_used a x used d → signed_key_id k ∉ map signed_key_id used → next_id (d OneTimePqPreKeys) ≤ i32_max →
  ∃ d', pq_insert a k d = (Ok tt, d') ∧ pq_used a x (used ++ [k]) d' ∧
    next_id (d' OneTimePqPreKeys) = next_id (d OneTimePqPreKeys) + 1.
Proof.
  intros [Hwf Hn Hf Hrows] Hnew Hnext.
  set (r := {| p_owner := x.1; p_key_id := show (signed_key_id k); p_public_key := signed_public_key k; p_signature := Some (signature k) |}).
  set (d' := set_table row OneTimePqPreKeys {| next_id := next_id (d OneTimePqPreKeys) + 1;
    rows := rows (d OneTimePqPreKeys) ++ [(next_id (d OneTimePqPreKeys), r)] |} d).
  assert (pg_insert OneTimePqPreKeys r d = Ok d') as Hins.
  { unfold Sql.insert.
    assert (existsb (λ y, clash OneTimePqPreKeys y.2 r) (rows (d OneTimePqPreKeys)) = false) as ->.
    { apply not_true_iff_false. intros (y & Hy%list_elem_of_In & Hc)%existsb_exists. cbn in Hc.
      apply andb_true_iff in Hc as [Hown%Z.eqb_eq Hkey%bool_decide_eq_true].
      destruct (Hrows y Hy Hown) as (k' & Hk' & Hid). apply Hnew. apply list_elem_of_fmap. exists k'.
      split; [apply show_inj; congruence|done]. }
    assert (refs_ok row refs d OneTimePqPreKeys r = true) as ->.
    { unfold refs_ok, ref_ok. cbn. rewrite bool_decide_true; [done|]. apply (list_elem_of_fmap_2 fst). by eapply device_found_in. }
    cbn [negb]. by rewrite (proj2 (Z.ltb_ge _ _)). }
  exists d'. split_and!; [| |unfold d'; by rewrite set_table_eq].
  - apply execute_Ok. rewrite device_at_found, Hf by done. by apply insert_select_one.
  - split; [by eapply insert_wf|unfold names_typed, d'; by rewrite set_table_ne| |].
    + unfold device_found, d'. by rewrite (device_at_ext d) by by rewrite set_table_ne.
    + unfold d'. rewrite set_table_eq. cbn [rows]. intros y [Hy|Hy]%elem_of_app Hown.
      * destruct (Hrows y Hy Hown) as (k' & Hk' & Hid). exists k'. split; [apply elem_of_app; by left|done].
      * apply list_elem_of_singleton in Hy as ->. exists k. split; [apply elem_of_app; right; left|done].
Qed.

Lemma pq_insert_each_run a x new : ∀ used d,
  pq_used a x used d → NoDup (map signed_key_id (used ++ new)) → next_id (d OneTimePqPreKeys) + len new ≤ i32_max + 1 →
  ∃ d', stm_each new (pq_insert a) d = (Ok tt, d').
Proof.
  induction new as [|k new IH]; intros used d Hd Hnd Hn; [by exists d|].
  rewrite len_cons in Hn. pose proof (len_nonneg new).
  assert (signed_key_id k ∉ map signed_key_id used) as Hnew.
  { rewrite map_app in Hnd. apply NoDup_app in Hnd as (_ & Hd' & _). intros Hin. apply (Hd' _ Hin). by left. }
  destruct (pq_insert_run a x used k d Hd Hnew ltac:(lia)) as (d1 & Hrun & Hd1 & Hn1).
  destruct (IH (used ++ [k]) d1 Hd1) as (d2 & Hrun2); [by rewrite <- app_assoc|lia|].
  exists d2. cbn [stm_each]. by rewrite (stm_bind_ok _ _ _ _ _ Hrun).
Qed.

Lemma store_one_time_pq_run a x ks d :
  pg_wf d → names_typed d → device_found a d = Some x → NoDup (map signed_key_id ks) →
  next_id (d OneTimePqPreKeys) + len ks ≤ i32_max + 1 →
  ∃ d', store_one_time_pq_pre_keys ks a d = (Ok tt, d') ∧ pg_wf d' ∧ (∀ r, r ≠ OneTimePqPreKeys → same r d d').
Proof.
  intros Hwf Hn Hf Hnd Hnext. set (d1 := pg_delete OneTimePqPreKeys (λ y, p_owner y.2 =? x.1) d).
  assert (∀ r, OneTimePqPreKeys ≠ r → same r d d1) as Hsame by (intros r Hr; by apply delete_same).
  assert (execute (λ d, l ← device_at a d; o ← scalar_subquery (map fst l);
      Ok (pg_delete OneTimePqPreKeys
            (λ x, match o with Some i => p_owner x.2 =? i | None => false end) d)) d = (Ok tt, d1)) as Hdel.
  { apply execute_Ok. by rewrite device_at_found, Hf. }
  assert (pq_used a x [] d1) as Hd1.
  { split; [by apply pg_delete_wf|unfold names_typed; by rewrite (proj1 (Hsame Accounts ltac:(done)))| |].
    - unfold device_found. by rewrite (device_at_ext d d1) by by apply Hsame.
    - unfold d1. rewrite (delete_leaf row clash refs depth OneTimePqPreKeys _ d);
        [|intros q y i; by apply (refs_leaf OneTimePqPreKeys)|done].
      rewrite set_table_eq. cbn [rows]. intros y [Hy _]%list_elem_of_filter Hown. exfalso. apply Hy.
      by apply Is_true_true, Z.eqb_eq. }
  destruct (pq_insert_each_run a x ks [] d1 Hd1 Hnd) as (d2 & Hrun).
  { unfold d1. by rewrite (proj1 (delete_shrinks row refs depth _ _ _ OneTimePqPreKeys)). }
  assert (store_one_time_pq_pre_keys ks a d = (Ok tt, d2)) as Hstore.
  { unfold store_one_time_pq_pre_keys, transaction. rewrite (stm_bind_ok _ _ _ _ _ Hdel).
    change (stm_each ks _ d1) with (stm_each ks (pq_insert a) d1). by rewrite Hrun. }
  exists d2. split_and!; [done| |].
  - assert (keeps pg_wf (store_one_time_pq_pre_keys ks a)) as Hkeep
      by (each_statement ltac:(eauto using pg_delete_wf, insert_select_wf)).
    specialize (Hkeep d Hwf). by rewrite Hstore in Hkeep.
  - intros r Hr. pose proof (store_one_time_pq_same r ks a d Hwf Hr) as Hk. by rewrite Hstore in Hk.
Qed.
End one_time.

(** ** An account that can be reached *)

Definition main_address (u : string) : ProtocolAddress := {| name := service_id_string (Aci u); device_id := 1 |}.

Section reach.
Context `{Bincode, ServiceIdText, ScanOrder, Signatures} (public_key_ok : bytes → bool).
Abbreviation db := (postgres public_key_ok).

Lemma get_account_devices s c d : get_account public_key_ok s d = (Ok c, d) → get_all_devices s d = (Ok (acc_devices c), d).
Proof.
  unfold get_account. assert ((get_all_devices s d).2 = d) as Hd.
  { assert (keeps (λ d', d' = d) (get_all_devices s)) as Hk by (each_statement ltac:(done)). by apply Hk. }
  unfold mbind, stm_bind. destruct (get_all_devices s d) as [[l|e|e] d1]; cbn in Hd; subst d1; [|done..].
  unfold query. destruct (fetch_one _) as [x|e|e]; cbn; [|done..]. unfold account_of_row. intros [= Hc].
  split_binds. by simplify_eq.
Qed.

(** The account [c] has the device [v], its row [x], the bundle [b] and the
    one-time keys [ks]. *)
Record reachable (c : Account) (v : Device) (x : Z * device_row) (b : DevicePreKeyBundle) (ks : list UploadPreKey) (d : pg) : Prop := {
  re_bundle : has_bundle (main_address (aci c)) x b d;
  re_keys : ec_keys (main_address (aci c)) x ks d;
  re_caps : no_capabilities d;
  re_account : get_account public_key_ok (Aci (aci c)) d = (Ok c, d);
  re_devices : acc_devices c = [v];
  re_id : dev_id v = 1;
}.

Lemma account_same s c d d' :
  same Accounts d d' → same Devices d d' → same DeviceCapabilities d d' →
  get_account public_key_ok s d = (Ok c, d) → get_account public_key_ok s d' = (Ok c, d').
Proof. intros [Ha _] [Hd _] [Hc _] Hget. by rewrite (get_account_ext public_key_ok s d d'), Hget. Qed.

Lemma caps_same d d' : same DeviceCapabilities d d' → no_capabilities d → no_capabilities d'.
Proof. unfold no_capabilities. by intros [-> _]. Qed.

Lemma ec_keys_same a x ks d d' :
  pg_wf d' → same Accounts d d' → same Devices d d' → same OneTimeEcPreKeys d d' → ec_keys a x ks d → ec_keys a x ks d'.
Proof.
  intros Hwf' [Ha _] [Hd _] [He _] [Hwf Hn Hf Hrows Hids]. split; [done| | | |done].
  - unfold names_typed. by rewrite Ha.
  - unfold device_found. by rewrite (device_at_ext d d').
  - unfold ec_keys_of in *. by rewrite He.
Qed.

Lemma reachable_same c v x b ks d d' :
  has_bundle (main_address (aci c)) x b d' → (∀ r, r ∈ [Accounts; Devices; DeviceCapabilities; OneTimeEcPreKeys] → same r d d') →
  reachable c v x b ks d → reachable c v x b ks d'.
Proof.
  intros Hb Hs [_ Hk Hc Ha Hd Hi]. split; try done.
  - eapply ec_keys_same; [by eapply hb_wf|..|exact Hk]; apply Hs; set_solver.
  - eapply caps_same; [|done]. apply Hs; set_solver.
  - eapply account_same; [..|done]; apply Hs; set_solver.
Qed.

Lemma add_signed_same s k o d r : r ≠ SignedPreKeys s → same r d (add_signed s k o d).
Proof. intros Hr. unfold same. by rewrite add_signed_ne. Qed.

(** The steps of an upload. *)
Lemma put_one_time_run c v x b ks ps d :
  reachable c v x b ks d → NoDup (map key_id ps) → Forall (λ k, in_u32 (key_id k) = true) ps →
  next_id (d OneTimeEcPreKeys) + len ps ≤ i32_max + 1 →
  ∃ d', store_one_time_ec_pre_keys ps (main_address (aci c)) d = (Ok tt, d') ∧ reachable c v x b ps d' ∧
    ∀ r, r ≠ OneTimeEcPreKeys → same r d d'.
Proof.
  intros [Hb Hk Hc Ha Hd Hi] Hnd Hids Hn. pose proof Hb as [Hwf Hnames Hf _ _].
  destruct (store_one_time_ec_run _ x ps d Hwf Hnames Hf Hnd Hids Hn) as (d1 & Hrun & Hk1).
  assert (∀ r, r ≠ OneTimeEcPreKeys → same r d d1) as Hs.
  { intros r Hr. pose proof (store_one_time_ec_same r ps (main_address (aci c)) d Hwf Hr) as Hs. by rewrite Hrun in Hs. }
  exists d1. split_and!; [done| |done]. split; try done.
  - pose proof (store_one_time_ec_keeps_bundle _ x b ps (main_address (aci c)) d Hb) as Hb1. by rewrite Hrun in Hb1.
  - eapply caps_same; [|done]. by apply Hs.
  - eapply account_same; [..|done]; by apply Hs.
Qed.

Lemma put_pq_run c v x b ks qs d :
  reachable c v x b ks d → NoDup (map signed_key_id qs) → next_id (d OneTimePqPreKeys) + len qs ≤ i32_max + 1 →
  ∃ d', store_one_time_pq_pre_keys qs (main_address (aci c)) d = (Ok tt, d') ∧ reachable c v x b ks d' ∧
    ∀ r, r ≠ OneTimePqPreKeys → same r d d'.
Proof.
  intros Hd Hnd Hn. pose proof (re_bundle _ _ _ _ _ _ Hd) as Hb. pose proof Hb as [Hwf Hnames Hf _ _].
  destruct (store_one_time_pq_run _ x qs d Hwf Hnames Hf Hnd Hn) as (d1 & Hrun & Hwf1 & Hs).
  exists d1. split_and!; [done| |done]. eapply reachable_same; [..|exact Hd].
  - eapply has_bundle_ext; [exact Hb|done|]. intros r Hr. apply Hs. by intros ->.
  - intros r Hr. apply Hs. set_solver.
Qed.

Lemma put_signed_run c v x b ks s k d :
  reachable c v x b ks d → new_key s k x.1 d → next_id (d (SignedPreKeys s)) ≤ i32_max →
  store_in s k (main_address (aci c)) d = (Ok tt, add_signed s k x.1 d) ∧ reachable c v x b ks (add_signed s k x.1 d).
Proof.
  intros Hd Hnew Hn. pose proof (re_bundle _ _ _ _ _ _ Hd) as Hb. pose proof Hb as [Hwf Hnames Hf _ _].
  destruct (store_in_run s k _ x d Hwf Hnames Hf Hnew Hn) as [Hrun Hwf1].
  split; [done|]. eapply reachable_same; [by apply has_bundle_add|intros r Hr; apply add_signed_same; set_solver|done].
Qed.

Lemma store_signed_aci k c d : is_uuid (aci c) = true →
  store_signed_pre_key k (main_address (aci c)) d = store_in AciSigned k (main_address (aci c)) d.
Proof.
  intros Hu. unfold store_signed_pre_key. cbn [main_address name]. rewrite parse_service_id_string by done.
  by rewrite (stm_bind_ok _ _ d _ d) by done.
Qed.
Lemma store_last_resort_aci k c d : is_uuid (aci c) = true →
  store_pq_signed_pre_key k (main_address (aci c)) d = store_in AciPqLastResort k (main_address (aci c)) d.
Proof.
  intros Hu. unfold store_pq_signed_pre_key. cbn [main_address name]. rewrite parse_service_id_string by done.
  by rewrite (stm_bind_ok _ _ d _ d) by done.
Qed.

(** Room for an upload to the device [i], whose signed keys have new ids. *)
Record room_for_bundle (i : Z) (ps : list UploadPreKey) (s : UploadSignedPreKey) (qs : list UploadSignedPreKey)
    (l : UploadSignedPreKey) (d : pg) : Prop := {
  rb_one_time : next_id (d OneTimeEcPreKeys) + len ps ≤ i32_max + 1;
  rb_pq : next_id (d OneTimePqPreKeys) + len qs ≤ i32_max + 1;
  rb_signed : next_id (d (SignedPreKeys AciSigned)) ≤ i32_max ∧ new_key AciSigned s i d;
  rb_last : next_id (d (SignedPreKeys AciPqLastResort)) ≤ i32_max ∧ new_key AciPqLastResort l i d;
}.

Lemma new_key_same s k o d d' : same (SignedPreKeys s) d d' → new_key s k o d → new_key s k o d'.
Proof. unfold new_key, signed_of. by intros [-> _]. Qed.

Lemma put_bundle_run ad c v x b ks ps s qs l d :
  reachable c v x b ks d → authenticated_address ad KindAci = main_address (aci c) → is_uuid (aci c) = true →
  let bundle := {| set_pre_key := Some ps; set_signed_pre_key := Some s; set_pq_pre_key := Some qs;
                   set_pq_last_resort_pre_key := Some l |} in
  verify_bundle (identity_key ad KindAci) bundle = Ok tt →
  NoDup (map key_id ps) → Forall (λ k, in_u32 (key_id k) = true) ps → NoDup (map signed_key_id qs) →
  room_for_bundle x.1 ps s qs l d →
  ∃ d', interp db (handle_put_keys ad bundle KindAci) d = (Ok (inr tt), d') ∧ reachable c v x b ps d'.
Proof.
  intros Hd Ha Hu bundle Hv Hnd Hids Hndq [Hr1 Hr2 [Hr3 Hr3k] [Hr4 Hr4k]].
  destruct (put_one_time_run c v x b ks ps d Hd Hnd Hids Hr1) as (d1 & Hrun1 & Hd1 & Hs1).
  destruct (put_signed_run c v x b ps AciSigned s d1 Hd1) as [Hrun2 Hd2];
    [by apply (new_key_same _ _ _ d); [apply Hs1|]|by rewrite (proj2 (Hs1 (SignedPreKeys AciSigned) ltac:(done)))|].
  set (d2 := add_signed AciSigned s x.1 d1) in *.
  assert (∀ r, r ≠ SignedPreKeys AciSigned → same r d1 d2) as Hs2 by (intros r Hr; by apply add_signed_same).
  destruct (put_pq_run c v x b ps qs d2 Hd2 Hndq) as (d3 & Hrun3 & Hd3 & Hs3);
    [by rewrite (proj2 (Hs2 OneTimePqPreKeys ltac:(done))), (proj2 (Hs1 OneTimePqPreKeys ltac:(done)))|].
  assert (same (SignedPreKeys AciPqLastResort) d d3) as Hs
    by (eapply same_trans; [by apply Hs1|]; eapply same_trans; [by apply Hs2|by apply Hs3]).
  destruct (put_signed_run c v x b ps AciPqLastResort l d3 Hd3) as [Hrun4 Hd4];
    [by apply (new_key_same _ _ _ d)|by rewrite (proj2 Hs)|].
  exists (add_signed AciPqLastResort l x.1 d3). split; [|done]. unfold handle_put_keys. rewrite Ha, api_lift_bind, Hv.
  cbn [set_signed_pre_key set_pq_last_resort_pre_key set_pq_pre_key set_pre_key when_some bundle].
  rewrite (api_bind_ok _ _ _ d tt d1) by by apply map_err_ok.
  rewrite (api_bind_ok _ _ _ d1 tt d2) by (apply map_err_ok; cbn [postgres]; by rewrite store_signed_aci).
  rewrite (api_bind_ok _ _ _ d2 tt d3) by by apply map_err_ok.
  apply map_err_ok. cbn [postgres]. by rewrite store_last_resort_aci.
Qed.

(** ** Fetching the keys *)

(** Fetching the keys of all devices of an account that can be reached. *)
Lemma fetch_all_run ad c v x b ks d requester :
  reachable c v x b ks d → get_account public_key_ok (Aci (aci (ad_account ad))) d = (Ok requester, d) →
  ∃ key ks' d', interp db (handle_get_keys_id_device_id ad (Aci (aci c)) "*") d =
      (Ok (inr {| response_service_id := service_id_string (Aci (aci c)); response_identity_key := aci_identity_key c;
                  devices := [{| item_device_id := 1; item_registration_id := registration_id v; item_pre_key := key;
                                 item_pq_pre_key := aci_pq_pre_key b; item_signed_pre_key := aci_signed_pre_key b |}] |}), d') ∧
    handed_out key ks ks' ∧ reachable c v x b ks' d'.
Proof.
  intros Hd Hreq. pose proof Hd as [Hb Hk Hc Ha Hdev Hi].
  destruct (get_key_run public_key_ok (Aci (aci c)) _ x b ks (registration_id v) d Hb Hk) as (key & ks' & d' & Hrun & Hh & Hb' & Hk' & _).
  assert (∀ r, r ≠ OneTimeEcPreKeys → same r d d') as Hs.
  { intros r Hr. pose proof (get_one_time_ec_same r (main_address (aci c)) d (hb_wf _ _ _ _ Hb) Hr) as Hs.
    unfold get_key in Hrun. rewrite (api_bind_ok _ _ _ d b d) in Hrun by by apply map_err_ok, (get_key_bundle_run _ x).
    rewrite api_bind_run, map_err_run in Hrun. cbn [postgres] in Hrun.
    destruct (get_one_time_ec_pre_key _ d) as [[k|e|e] d1]; cbn in Hrun; apply (f_equal snd) in Hrun; cbn in *; by subst. }
  exists key, ks', d'. split_and!; [|done|].
  - unfold handle_get_keys_id_device_id.
    rewrite (api_bind_ok _ _ _ d requester d) by by apply map_err_ok.
    rewrite (api_bind_ok _ _ _ d c d) by by apply map_err_ok.
    rewrite (api_bind_ok _ _ _ d [v] d).
    2:{ unfold target_devices. change (parse_u32 "*") with (@None Z). rewrite bool_decide_true by done.
        apply map_err_ok. cbn [postgres]. by rewrite (get_account_devices _ c d Ha), Hdev. }
    cbn [get_keys]. rewrite Hi. fold (main_address (aci c)).
    rewrite (api_bind_ok _ _ _ d [{| item_device_id := 1; item_registration_id := registration_id v; item_pre_key := key;
      item_pq_pre_key := aci_pq_pre_key b; item_signed_pre_key := aci_signed_pre_key b |}] d'); [reflexivity|].
    by rewrite (api_bind_ok _ _ _ _ _ _ Hrun).
  - split; try done.
    + eapply caps_same; [|done]. by apply Hs.
    + eapply account_same; [..|done]; by apply Hs.
Qed.
End reach.

(** ** Registration and upload *)

(** libsignal verifies what it signs. *)
Class SigningKeys `{KeyGeneration, Signatures} : Prop := {
  signatures_verify seed m r s :
    calculate_signature (generate_identity seed).2 m r = inr s → verify_signature (generate_identity seed).1 m s = Some true;
  kyber_verifies seed r i record k s :
    generate_kyber r i (generate_identity seed).2 = inr record →
    record_public_key KyberPreKey record = Some k → record_signature KyberPreKey record = Some s →
    verify_signature (generate_identity seed).1 k s = Some true;
}.

Section verified.
Context `{SigningKeys}.

Lemma signed_verifies seed u : signed_with (generate_identity seed) u → verify_key (generate_identity seed).1 u = Ok tt.
Proof. intros [r Hr]. unfold verify_key. by rewrite (signatures_verify _ _ _ _ Hr). Qed.

Lemma kyber_key_verifies seed u : kyber_with (generate_identity seed) u → verify_key (generate_identity seed).1 u = Ok tt.
Proof. intros (r & record & Hr & Hk & Hs). unfold verify_key. by rewrite (kyber_verifies _ _ _ _ _ _ Hr Hk Hs). Qed.

Lemma good_bundle_verifies seed bundle :
  good_bundle (generate_identity seed) bundle → verify_bundle (generate_identity seed).1 bundle = Ok tt.
Proof.
  intros [_ (s & Hs & _) (qs & l & Hqs & Hl & _) (Hbs & Hbl & Hbq)]. unfold verify_bundle. rewrite Hs, Hqs, Hl. cbn [verify_opt].
  rewrite (signed_verifies seed s) by by apply Hbs. cbn [mbind outcome_bind]. rewrite (kyber_key_verifies seed l) by by apply Hbl.
  cbn [mbind outcome_bind]. unfold verify_all. specialize (Hbq qs Hqs).
  assert (∃ ts, collect (verify_key (generate_identity seed).1) qs = Ok ts) as [ts ->]; [|done].
  clear - Hbq H H0 H1. induction Hbq as [|u us Hu _ [ts IH]]; [by exists []|]. exists (tt :: ts).
  cbn [collect]. rewrite (kyber_key_verifies seed u) by done. cbn. by rewrite IH.
Qed.
End verified.

Section upload.
Context `{Bincode, ServiceIdText, ScanOrder, Kdf, Signatures} (public_key_ok : bytes → bool).

(** An account that has just registered can be reached, without one-time keys. *)
Lemma registered_reachable d clock new_aci new_pni header registration hash d' :
  let v := new_device 1 (reg_account_attributes registration) (clock / 10 ^ 6) hash in
  let c := registered_account new_aci new_pni registration (username header) (clock / 10 ^ 6) hash in
  let x := (next_id (d Devices), row_of_device v (next_id (d Accounts))) in
  pg_wf d → no_capabilities d →
  has_bundle (main_address new_aci) x (device_pre_key_bundle registration) d' →
  get_account public_key_ok (Aci new_aci) d' = (Ok c, d') →
  (∀ r, r ≠ Accounts → r ≠ Devices → ¬ holds_keys r → d' r = d r) →
  reachable public_key_ok c (as_stored v) x (device_pre_key_bundle registration) [] d'.
Proof.
  intros v c x Hwf Hcaps Hb Hget Hrest. split; try done.
  - split; try apply Hb; [|constructor]. unfold ec_keys_of. rewrite Hrest by (try done; by intros []).
    rewrite filter_none; [done|]. intros y Hy Ho. cbn in Ho.
    pose proof (ref_in_range d OneTimeEcPreKeys y Devices (e_owner y.2) Hwf Hy ltac:(left)) as Hlt. rewrite Ho in Hlt. exact (Z.lt_irrefl _ Hlt).
  - unfold no_capabilities. by rewrite Hrest by (try done; by intros []).
Qed.

(** Ids of keys that a new account uploads next. *)
Lemma new_ids (i : Z) (b : DevicePreKeyBundle) s k n (d : pg) :
  signed_of s i d = [(n, signed_row_of (key_in s b) i)] → signed_key_id (key_in s b) ≠ signed_key_id k → new_key s k i d.
Proof.
  intros Hs Hne. unfold new_key. rewrite Hs. apply Forall_singleton. cbn. intros Heq. apply Hne. by apply show_inj.
Qed.

Lemma seqZ_u32 m n : 0 ≤ m → 0 ≤ n → m + n ≤ 2 ^ 32 → Forall (λ i, in_u32 i = true) (seqZ m n).
Proof. intros Hm Hn Hmn. apply Forall_seqZ. intros i Hi. apply in_u32_true. lia. Qed.

Lemma one_time_in_u32 ps n : map key_id ps = seqZ 1 n → 0 ≤ n → n < 2 ^ 32 → Forall (λ k, in_u32 (key_id k) = true) ps.
Proof. intros Hids Hn Hlt. apply (Forall_map key_id (λ i, in_u32 i = true)). rewrite Hids. apply seqZ_u32; lia. Qed.

(** The upload of a client that has registered is accepted. *)
Lemma first_upload_run `{KeyGeneration, !SigningKeys} seed ad c v x d request bundle :
  reachable public_key_ok c v x (device_pre_key_bundle request) [] d →
  authenticated_address ad KindAci = main_address (aci c) → is_uuid (aci c) = true →
  identity_key ad KindAci = (generate_identity seed).1 →
  good_request (generate_identity seed) request → good_bundle (generate_identity seed) bundle →
  (∀ s, ∃ n, signed_of s x.1 d = [(n, signed_row_of (key_in s (device_pre_key_bundle request)) x.1)]) →
  next_id (d OneTimeEcPreKeys) + 100 ≤ i32_max + 1 → next_id (d OneTimePqPreKeys) + 100 ≤ i32_max + 1 →
  (∀ s, next_id (d (SignedPreKeys s)) ≤ i32_max) →
  ∃ ps d', set_pre_key bundle = Some ps ∧ length ps = 100%nat ∧
    interp (postgres public_key_ok) (handle_put_keys ad bundle KindAci) d = (Ok (inr tt), d') ∧
    reachable public_key_ok c v x (device_pre_key_bundle request) ps d'.
Proof.
  intros Hd Ha Hu Hi Hreq Hb Hstored He Hp Hs. pose proof (good_bundle_verifies seed bundle Hb) as Hv.
  destruct Hb as [(ps & Hps & Hids) (s & Hsk & Hsid) (qs & l & Hqs & Hl & Hqids) _].
  destruct Hreq as [_ _ _ [Hsids _] [Hkids _]]. cbn in Hsids, Hkids. injection Hsids as Has _. injection Hkids as Hak _.
  rewrite map_app in Hqids. pose proof (NoDup_seqZ 3 101) as Hnd. rewrite <- Hqids in Hnd. apply NoDup_app in Hnd as (Hnd & _ & _).
  assert (length ps = 100%nat) as Hlen by (rewrite <- (length_map key_id), Hids, length_seqZ; done).
  assert (length qs = 100%nat) as Hlenq.
  { apply (f_equal length) in Hqids. rewrite length_app, !length_map, length_seqZ in Hqids. cbn in Hqids. lia. }
  assert (signed_key_id l = 103) as Hlid.
  { change (seqZ 3 101) with (seqZ 3 100 ++ [103]) in Hqids. by apply app_inj_tail in Hqids as [_ [= ?]]. }
  destruct (Hstored AciSigned) as [n1 Hn1], (Hstored AciPqLastResort) as [n2 Hn2].
  destruct bundle as [ps' s' qs' l']; cbn in *; subst.
  destruct (put_bundle_run public_key_ok ad c v x (device_pre_key_bundle request) [] ps s qs l d) as (d' & Hrun & Hd'); try done.
  - by rewrite (Hi : identity_key ad KindAci = _).
  - rewrite Hids. apply NoDup_seqZ.
  - by eapply one_time_in_u32.
  - split; [unfold len; rewrite Hlen; exact He|unfold len; rewrite Hlenq; exact Hp| |].
    + split; [done|]. apply (new_ids x.1 (device_pre_key_bundle request) _ _ n1); [exact Hn1|]. cbn. lia.
    + split; [done|]. apply (new_ids x.1 (device_pre_key_bundle request) _ _ n2); [exact Hn2|]. cbn. lia.
  - by exists ps, d'.
Qed.
End upload.
