(* ===== verification/ClientServer.v ===== *)
(** The client's transport ([client/src/server.rs], and [signal_ws_connect] of
    [client/src/socket_manager.rs]): the HTTP requests with their middleware,
    the socket, and the trait [SignalServerAPI] over them. *)
From S2P Require Export ClientReceive SocketManager.

Local Open Scope Z_scope.

(** ** Definitions *)

Definition REGISTER_URI : string := "v1/registration".
Definition GET_SERVICE_ID_URI : string := "v1/identifier".
Definition MSG_URI : string := "/v1/messages".
Definition KEY_BUNDLE_URI : string := "/v2/keys".

(** *** The libraries

    [serde_json], the text of a body and of a status, gzip, and the parsers of
    URIs, header values and numbers.  A body of a request is a JSON value; a
    body of a response is bytes, or the error of reading them. *)
Class WebLibraries := {
  json : Type;
  json_of_keys : SetKeyRequest → json;
  json_of_registration : RegistrationRequest → json;
  messages_to_json : DenimMessages f32 → bytes;
  body_from_json : json → string + json;
  pre_keys_of_json : bytes → string + PreKeyResponse;
  account_of_json : bytes → string + AccountIdentityResponse;
  body_text : bytes → string + string;
  gunzip : bytes → string + bytes;
  show_status : Z → string;
  debug_text : string + string → string;
  status_reason : Z → option string;
  uri_parts : string → option (option string * option Z);
  header_value_ok : string → bool;
  parse_f32 : string → option f32;
}.

Inductive http_method := MethodGet | MethodPost | MethodPut | MethodDelete.

Section transport.
Context `{WebLibraries, Base64, ServiceIdText, Libsignal}.

Record web_request := {
  rq_method : http_method; rq_uri : string; rq_headers : list (string * string); rq_body : option json }.
(** A header that is not visible ASCII has no text. *)
Record web_response := { rs_status : Z; rs_headers : list (string * option string); rs_body : string + bytes }.

(** [HttpSend] is the HTTP client with its base URL; the socket is the socket
    manager of [SocketManager], its queue the [PersistentReceiver]. *)
Inductive transportE : Type → Type :=
| AuthHeader : transportE (option BasicAuthorizationHeader)
| SetAuthHeader (h : BasicAuthorizationHeader) : transportE unit
| HttpSend (r : web_request) : transportE (string + web_response)
| TcpConnect (host : string) (port : Z) : transportE (string + unit)
| SetKeepalive : transportE bool
| RustlsCfg (ca_file_path : string) : transportE (string + unit)
| Handshake (url : string) (headers : list (string * string)) : transportE (option (list (string * option string)))
| SocketActive : transportE bool
| SetStream : transportE (string + unit)
| SocketClose : transportE unit
| SocketNextId : transportE Z
| SocketSend (id : Z) (message : WebSocketMessage) : transportE (string + WebSocketMessage)
| SocketSendResponse (message : WebSocketMessage) : transportE (string + unit)
| QueueEmpty : transportE bool
| QueueRecv : transportE (option WebSocketMessage).

Abbreviation transport := (prog transportE SignalClientError).

(** *** HTTP *)

Definition with_body (res : web_response) (body : bytes) : web_response :=
  {| rs_status := rs_status res; rs_headers := rs_headers res; rs_body := inr body |}.
(** Reading a body empties it. *)
Definition body_bytes (res : web_response) : (string + bytes) * web_response := (rs_body res, with_body res []).
Definition body_string (res : web_response) : (string + string) * web_response :=
  (match rs_body res with inl e => inl e | inr bs => body_text bs end, with_body res []).

(** [res.header(name)]; names are in lower case. *)
Definition header_values (name : string) (headers : list (string * option string)) : list (option string) :=
  map snd (filter (λ h, h.1 = name) headers).

(** [SignalLayer::handle] *)
Definition signal_layer (req : web_request) : transport (string + web_response) :=
  let req := {| rq_method := rq_method req; rq_uri := rq_uri req; rq_body := rq_body req;
                rq_headers := rq_headers req ++
                  [("user-agent", "Signal Client Clone"); ("x-signal-agent", "OWA"); ("accept-encoding", "gzip")] |} in
  r ← op (HttpSend req);
  match r with
  | inl e => Ret (inl e)
  | inr res =>
      match header_values "content-encoding" (rs_headers res) with
      | [] => Ret (inr res)
      | encoding =>
          if forallb (λ x, bool_decide (x = Some "gzip")) encoding then
            let '(body, res) := body_bytes res in
            match body with
            | inl e => Ret (inl e)
            | inr body =>
                match gunzip body with
                | inl e => Ret (inl e)
                | inr decompressed_body => Ret (inr (with_body res decompressed_body))
                end
            end
          else Ret (inr res)
      end
  end.

Inductive ReqType := Get | Post (payload : json) | Put (payload : json) | Delete (payload : json).

Inductive ServerRequestError :=
| StatusCodeError (code : Z) (body : string)
| BodyDecodeError (err : string)
| TransmissionError (err : string)
| NoAuthDevice.

Definition show_request_error (e : ServerRequestError) : string :=
  match e with
  | StatusCodeError code body => "Response was " +:+ show_status code +:+ ": " +:+ body
  | BodyDecodeError err => "Could not decode response body: " +:+ err
  | TransmissionError err => "HTTP communication with server failed: " +:+ err
  | NoAuthDevice => "You cannot make requests without an authentication device."
  end.

Definition request_of (req_type : ReqType) (uri : string) (header : BasicAuthorizationHeader) : string + web_request :=
  let request method body :=
    {| rq_method := method; rq_uri := uri; rq_headers := [("Authorization", header_encode header)]; rq_body := body |} in
  let with_json method payload :=
    match body_from_json payload with inl e => inl e | inr body => inr (request method (Some body)) end in
  match req_type with
  | Get => inr (request MethodGet None)
  | Post payload => with_json MethodPost payload
  | Put payload => with_json MethodPut payload
  | Delete payload => with_json MethodDelete payload
  end.

(** What comes of a response: its text is read for the log, and again. *)
Definition checked (res : web_response) : outcome SignalClientError (ServerRequestError + web_response) :=
  if rs_status res =? 200 then Ok (inr res)
  else
    let '(text, res) := body_string res in
    match text with
    | inl _ => Panic "called `Result::unwrap()` on an `Err` value"
    | inr _ =>
        let '(text, res) := body_string res in
        Ok (inl (StatusCodeError (rs_status res) (match text with inl _ => "" | inr text => text end)))
    end.

Definition make_request (req_type : ReqType) (uri : string) : transport (ServerRequestError + web_response) :=
  header ← op AuthHeader;
  match header with
  | None => Ret (inl NoAuthDevice)
  | Some header =>
      match request_of req_type uri header with
      | inl err => Ret (inl (BodyDecodeError err))
      | inr request =>
          r ← signal_layer request;
          match r with
          | inl err => Ret (inl (TransmissionError err))
          | inr res => lift (checked res)
          end
      end
  end.

(** [.map_err(|err| SignalClientError::KeyError(err.to_string()))?] *)
Definition key_error {A} (r : ServerRequestError + A) : transport A :=
  match r with inl err => Throw (KeyError (show_request_error err)) | inr a => Ret a end.

Definition publish_pre_key_bundle (pre_key_bundle : SetKeyRequest) : transport unit :=
  r ← make_request (Put (json_of_keys pre_key_bundle)) (KEY_BUNDLE_URI +:+ "?identity=aci");
  _ ← key_error r;
  Ret tt.

Definition fetch_pre_key_bundles (service_id : ServiceId) : transport (list PreKeyBundle) :=
  r ← make_request Get (KEY_BUNDLE_URI +:+ "/" +:+ service_id_string service_id +:+ "/*");
  res ← key_error r;
  let '(body, _) := body_bytes res in
  match body with
  | inl err => Throw (KeyError err)
  | inr body =>
      match pre_keys_of_json body with
      | inl err => Throw (KeyError err)
      | inr pre_key_res =>
          match bundles_of_response pre_key_res with
          | Ok bundle => Ret bundle
          | Err err => Throw (KeyError err)
          | Panic w => Crash w
          end
      end
  end.

Definition is_success (status : Z) : bool := (200 <=? status) && (status <=? 299).
(** [format!("Received {}: {:?}", res.status(), res.body_string().await)] *)
Definition received_text (res : web_response) : string :=
  "Received " +:+ show_status (rs_status res) +:+ ": " +:+ debug_text (body_string res).1.

Definition register_client (phone_number password : string) (registration_request : RegistrationRequest)
    : transport AccountIdentityResponse :=
  let auth_header := {| username := phone_number; header_device_id := 1; password := password |} in
  r ← signal_layer {| rq_method := MethodPost; rq_uri := REGISTER_URI; rq_headers := [("Authorization", header_encode auth_header)];
                      rq_body := Some (json_of_registration registration_request) |};
  match r with
  | inl _ => Throw (RegistrationFailed NoRegistrationResponse)
  | inr res =>
      if is_success (rs_status res) then
        match rs_body res with
        | inl err => Throw (RegistrationFailed (BadRegistration err))
        | inr body =>
            match account_of_json body with
            | inl err => Throw (RegistrationFailed (BadRegistration err))
            | inr response => Ret response
            end
        end
      else Throw (RegistrationFailed (BadRegistration (received_text res)))
  end.

Definition get_service_id_from_server (phone_number : string) : transport ServiceId :=
  header ← op AuthHeader;
  match header with
  | None => Throw NoSession
  | Some header =>
      r ← signal_layer {| rq_method := MethodGet; rq_uri := GET_SERVICE_ID_URI +:+ "/" +:+ phone_number;
                          rq_headers := [("Authorization", header_encode header)]; rq_body := None |};
      match r with
      | inl _ => Throw (IdentifierFailed NoIdentifierResponse)
      | inr res =>
          if is_success (rs_status res) then
            match (body_string res).1 with
            | inl err => Throw (IdentifierFailed (BadIdentifier err))
            | inr text => lift (expect "Will be uuid" (parse_from_service_id_string text))
            end
          else Throw (IdentifierFailed (BadIdentifier (received_text res)))
      end
  end.

Definition create_auth_header (aci password : string) (device_id : Z) : transport unit :=
  op (SetAuthHeader {| username := service_id_string (Aci aci); header_device_id := device_id; password := password |}).

(** *** The socket *)

Definition send_error {A} (r : string + A) : transport A :=
  match r with inl e => Throw (SendMessageFailed (SocketError e)) | inr a => Ret a end.

Definition send_msg (messages : DenimMessages f32) (recipient : ServiceId) : transport unit :=
  let payload := messages_to_json messages in
  let uri := MSG_URI +:+ "/" +:+ service_id_string recipient +:+ "?story=false" in
  id ← op SocketNextId;
  r ← op (SocketSend id (create_request id "PUT" uri ["content-type:application/json"] (Some payload)));
  _ ← send_error r;
  Ret tt.

Definition send_response (request : WebSocketRequestMessage) (status_code : Z) : transport unit :=
  id ← lift (expect "This is always some" (ws_request_id request));
  response ← lift (match create_response status_reason id status_code [] None with
                   | Ok response => Ok response
                   | Err _ => Panic "This always goes well"
                   | Panic w => Panic w
                   end);
  r ← op (SocketSendResponse response);
  _ ← send_error r;
  Ret tt.

Definition has_message : transport bool := empty ← op QueueEmpty; Ret (negb empty).
Definition get_message : transport (option WebSocketRequestMessage) := m ← op QueueRecv; Ret (m ≫= ws_request).

(** [str::replace], for a pattern that is not empty. *)
Fixpoint replace_from (skip : nat) (pattern new s : string) : string :=
  match s with
  | EmptyString => ""
  | String c rest =>
      match skip with
      | S skip => replace_from skip pattern new rest
      | O =>
          if String.prefix pattern s then new +:+ replace_from (String.length pattern - 1) pattern new rest
          else String c (replace_from 0 pattern new rest)
      end
  end.
Definition replace : string → string → string → string := replace_from 0.

Definition connect_headers (username password : string) : list (string * string) :=
  [("Authorization", "Basic " +:+ b64_encode (as_bytes (username +:+ ":" +:+ password)));
   ("Accept-Encoding", "gzip");
   ("user-agent", "Signal Clone Client");
   ("x-signal-agent", "OWA");
   ("sec-websocket-extensions", "permessage-deflate");
   ("x-signal-receive-stories", "false")].

Definition ws_error {A} (r : string + A) : transport A :=
  match r with inl e => Throw (WebSocketError e) | inr a => Ret a end.
Definition or_ws_error {A} (e : string) (o : option A) : transport A :=
  match o with Some a => Ret a | None => Throw (WebSocketError e) end.

Definition signal_ws_connect (tls_cert : option string) (url username password : string) : transport f32 :=
  let url := replace "http" "ws" url +:+ "/v1/websocket" in
  uri ← or_ws_error "Failed to convert to client request" (uri_parts url);
  let headers := connect_headers username password in
  _ ← match find (λ h, negb (header_value_ok h.2)) headers with
      | Some h => Throw (WebSocketError ("failed to add " +:+ h.1 +:+ " header"))
      | None => Ret tt
      end;
  addr ← or_ws_error "No Host" uri.1;
  port ← or_ws_error "No Port" uri.2;
  stream ← op (TcpConnect addr port);
  _ ← ws_error stream;
  keepalive ← op SetKeepalive;
  _ ← (if keepalive : bool then Ret tt else Throw (WebSocketError "Failed to set keepalive"));
  _ ← match tls_cert with
      | Some path => tls_cfg ← op (RustlsCfg path); ws_error tls_cfg
      | None => Ret tt
      end;
  res ← op (Handshake url headers);
  response ← or_ws_error "Failed to connect to server" res;
  let unwrap {A} (o : option A) : transport A := lift (expect "called `Option::unwrap()` on a `None` value" o) in
  value ← unwrap (head (header_values "q-value" response));
  text ← unwrap value;
  unwrap (parse_f32 text).

Definition connect (username password url : string) (tls_path : option string) : transport (option f32) :=
  active ← op SocketActive;
  if (active : bool) then Ret None
  else
    q_value ← signal_ws_connect tls_path url username password;
    r ← op SetStream;
    _ ← ws_error r;
    Ret (Some q_value).

Definition disconnect : transport unit := op SocketClose.

(** [impl SignalServerAPI for SignalServer], for a server at [server_url]. *)
Definition signal_server (server_url : string) (cert_path : option string) {X} (c : serverApiE X) : transport X :=
  match c with
  | Publish_pre_key_bundle bundle => publish_pre_key_bundle bundle
  | Register_client phone_number password request => register_client phone_number password request
  | Send_msg messages service_id => send_msg messages service_id
  | Fetch_pre_key_bundles service_id => fetch_pre_key_bundles service_id
  | Get_message => get_message
  | Send_response request status_code => send_response request status_code
  | Has_message => has_message
  | Connect username password => connect username password server_url cert_path
  | Create_auth_header aci password device_id => create_auth_header aci password device_id
  | Get_service_id_from_server phone_number => get_service_id_from_server phone_number
  | Disconnect => disconnect
  end.
End transport.
