(* ===== verification/ClientHttp.v ===== *)
(** The client's HTTP requests at the server: the router of
    [server/src/server/server.rs] with the extractors of its endpoints, and the
    requests of [client/src/server.rs] that arrive there. *)
From S2P Require Export ClientServer KeyExchange.
From S2P Require Export Endpoints.

Local Open Scope Z_scope.
Local Open Scope denim_scope.

(** ** Definitions *)

(** Characters that URLs and forms take as they are. *)
Definition plain_char (c : ascii) : bool :=
  uuid_char c || let n := N_of_ascii c in
    ((97 <=? n)%N && (n <=? 122)%N) || ((65 <=? n)%N && (n <=? 90)%N) || existsb (Ascii.eqb c) ["/"; ":"; "+"; "*"; "?"; "="]%char.
Definition plain : string → bool := string_all plain_char.

(** Texts that a form encodes as they are. *)
Definition lower_case (c : ascii) : bool := let n := N_of_ascii c in (97 <=? n)%N && (n <=? 122)%N.

(** The libraries between the two programs: URLs and forms, the headers of
    [axum_extra], [serde_json] on the server's side, and compression.  The two
    sides agree. *)
Class HttpLibraries `{WebLibraries, Base64, ServiceIdText} := {
  resolve : string → string;
  percent_decode : string → option string;
  form_params : string → list (string * string);
  basic_of_header : string → basic_header;
  read_keys : json → string + SetKeyRequest;
  read_registration : json → string + RegistrationRequest;
  read_messages : json → string + DenimMessages f32;
  read_check_keys : json → string + CheckKeysRequest;
  read_link_device : json → string + LinkDeviceRequest;
  reply_body : http_reply → bytes;
  rejection : web_request → web_response;
  compresses : bytes → bool;
  gzip : bytes → bytes;
  resolve_absolute p : plain p = true → String.prefix "/" p = false → resolve ("/" +:+ p) = "/" +:+ p;
  resolve_relative p : plain p = true → resolve ("v1/" +:+ p) = "/v1/" +:+ p;
  percent_decode_plain s : plain s = true → percent_decode s = Some s;
  form_params_one k v : string_all lower_case k = true → string_all lower_case v = true → form_params (k +:+ "=" +:+ v) = [(k, v)];
  basic_of_credentials user pw : string_mem ":" user = false → utf8_valid (as_bytes (user +:+ ":" +:+ pw)) = true →
    basic_of_header ("Basic " +:+ b64_encode (as_bytes (user +:+ ":" +:+ pw))) = Basic user pw;
  body_of_json_value j : body_from_json j = inr j;
  read_written_keys k : read_keys (json_of_keys k) = inr k;
  read_written_registration r : read_registration (json_of_registration r) = inr r;
  read_written_pre_keys r : pre_keys_of_json (reply_body (Keys r)) = inr r;
  read_written_account r : account_of_json (reply_body (Registered r)) = inr r;
  identifier_body s : reply_body (Identifier s) = as_bytes s;
  body_text_utf8 s : utf8_valid (as_bytes s) = true → body_text (as_bytes s) = inr s;
  gunzip_gzip bs : gunzip (gzip bs) = inr bs;
}.

Section router.
Context `{HttpLibraries}.

Definition header_of (req : web_request) : option string :=
  snd <$> find (λ h, bool_decide (h.1 = "Authorization")) (rq_headers req).
(** [TypedHeader<Authorization<Basic>>] and the header of a [HeaderMap]. *)
Definition basic_auth (req : web_request) : basic_header :=
  match header_of req with Some h => basic_of_header h | None => HeaderMissing end.
Definition text_auth (req : web_request) : header_text :=
  match header_of req with Some h => HeaderText h | None => NoHeader end.

Inductive segment := Static (s : string) | Param.
Fixpoint match_path (pattern : list segment) (path : list string) : option (list string) :=
  match pattern, path with
  | [], [] => Some []
  | Static s :: pattern, x :: path => if bool_decide (s = x) then match_path pattern path else None
  | Param :: pattern, x :: path => if bool_decide (x = "") then None else ps ← match_path pattern path; Some (x :: ps)
  | _, _ => None
  end.

(** [Path(..)] and [Json(..)] *)
Definition param (i : nat) (params : list string) : option string := params !! i ≫= percent_decode.
Definition json_body {A} (read : json → string + A) (req : web_request) : option A :=
  b ← rq_body req; match read b with inr a => Some a | inl _ => None end.

(** A method of a route, and the request its endpoint gets: the parameters of
    the path, the query and the request are given. *)
Definition endpoint_builder : Type := list string → string → web_request → option http_request.

Definition to_endpoint (f : web_request → option http_request) : endpoint_builder := λ _ _ req, f req.

Definition routes : list (list segment * list (http_method * endpoint_builder)) :=
  [([Static ""], [(MethodGet, to_endpoint (λ _, Some GetRoot))]);
   ([Static "v1"; Static "identifier"; Param],
     [(MethodGet, λ ps _ req, p ← param 0 ps; Some (GetIdentifier (basic_auth req) p))]);
   ([Static "v1"; Static "messages"; Param],
     [(MethodPut, λ ps _ req, p ← param 0 ps; m ← json_body read_messages req; Some (PutMessages (basic_auth req) p m))]);
   ([Static "v1"; Static "registration"],
     [(MethodPost, to_endpoint (λ req, r ← json_body read_registration req; Some (PostRegistration (text_auth req) r)))]);
   ([Static "v2"; Static "keys"; Param; Param],
     [(MethodGet, λ ps _ req, i ← param 0 ps; d ← param 1 ps; Some (GetKeysIdDeviceId (basic_auth req) i d))]);
   ([Static "v2"; Static "keys"],
     [(MethodGet, to_endpoint (λ req, Some (GetKeys (basic_auth req))));
      (MethodPut, λ _ query req, k ← json_body read_keys req;
         let params : gmap string string := list_to_map (reverse (form_params query)) in
         Some (PutKeys (basic_auth req) (params !! "identity") k))]);
   ([Static "v2"; Static "keys"; Static "check"],
     [(MethodPost, to_endpoint (λ req, c ← json_body read_check_keys req; Some (PostKeycheck (basic_auth req) c)))]);
   ([Static "v1"; Static "accounts"; Static "me"],
     [(MethodDelete, to_endpoint (λ req, Some (DeleteAccount (basic_auth req))))]);
   ([Static "v1"; Static "devices"; Static "provisioning"; Static "code"],
     [(MethodGet, to_endpoint (λ req, Some (GetLinkDeviceToken (basic_auth req))))]);
   ([Static "v1"; Static "devices"; Static "link"],
     [(MethodPost, to_endpoint (λ req, r ← json_body read_link_device req;
         match basic_auth req with Basic _ password => Some (PostLinkDevice password r) | _ => None end))]);
   ([Static "v1"; Static "devices"; Param],
     [(MethodDelete, λ ps _ req, p ← param 0 ps; i ← parse_u32 p; Some (DeleteDevice (basic_auth req) i))])].

#[global] Instance http_method_eq : EqDecision http_method.
Proof. solve_decision. Defined.

Definition find_method (m : http_method) (l : list (http_method * endpoint_builder)) : option endpoint_builder :=
  snd <$> find (λ x, bool_decide (x.1 = m)) l.

(** The first route that the path matches decides. *)
Fixpoint route_in (table : list (list segment * list (http_method * endpoint_builder))) (path : list string) (query : string)
    (req : web_request) : option http_request :=
  match table with
  | [] => None
  | (pattern, methods) :: table =>
      match match_path pattern path with
      | Some params => f ← find_method (rq_method req) methods; f params query req
      | None => route_in table path query req
      end
  end.

Definition route (req : web_request) : option http_request :=
  let uri := resolve (rq_uri req) in
  let '(path, query) := match split_first "?" uri with Some (p, q) => (p, q) | None => (uri, "") end in
  match split_on "/" path with
  | root :: path => if bool_decide (root = "") then route_in routes path query req else None
  | [] => None
  end.

(** [IntoResponse], with the [CompressionLayer]; a task that panics closes the
    connection. *)
Definition response (status : Z) (body : bytes) : web_response :=
  if compresses body
  then {| rs_status := status; rs_headers := [("content-encoding", Some "gzip")]; rs_body := inr (gzip body) |}
  else {| rs_status := status; rs_headers := []; rs_body := inr body |}.
Definition answer_http (o : outcome string (ApiError + http_reply)) : string + web_response :=
  match o with
  | Ok (inr reply) => inr (response 200 (reply_body reply))
  | Ok (inl e) => inr (response (status_code e) (as_bytes (error_body e)))
  | Err _ | Panic _ => inl "connection closed before message completed"
  end.
End router.

(** *** A client at the server

    The client's credentials, the number of requests so far, the server with
    its database, and what else the client is connected to. *)
Record web_world (S O : Type) := { ww_auth : option BasicAuthorizationHeader; ww_count : nat; ww_server : S * pg; ww_socket : O }.
Arguments ww_auth {S O} _.
Arguments ww_count {S O} _.
Arguments ww_server {S O} _.
Arguments ww_socket {S O} _.

Section web.
Context `{HttpLibraries, Libsignal, Bincode, ServerText, ScanOrder, Kdf, Signatures, LinkCodes}.
Context {S O : Type} (env : nat → environment) (server : handler serverE string S) (public_key_ok : bytes → bool)
  (socket : handler transportE SignalClientError O).

(** A request at the server. *)
Definition serve_http (n : nat) (q : http_request) (sd : S * pg) : outcome string (ApiError + http_reply) * (S * pg) :=
  interp (state_step server (postgres public_key_ok)) (serve (env n) q) sd.

Definition after_request (w : web_world S O) (sd : S * pg) : web_world S O :=
  {| ww_auth := ww_auth w; ww_count := Datatypes.S (ww_count w); ww_server := sd; ww_socket := ww_socket w |}.

Definition web_step : handler transportE SignalClientError (web_world S O) := λ X c w,
  match c in transportE X return outcome SignalClientError X * web_world S O with
  | AuthHeader => (Ok (ww_auth w), w)
  | SetAuthHeader h =>
      (Ok tt, {| ww_auth := Some h; ww_count := ww_count w; ww_server := ww_server w; ww_socket := ww_socket w |})
  | HttpSend req =>
      match route req with
      | Some q => let '(o, sd) := serve_http (ww_count w) q (ww_server w) in (Ok (answer_http o), after_request w sd)
      | None => (Ok (inr (rejection req)), after_request w (ww_server w))
      end
  | c =>
      let '(o, s) := socket _ c (ww_socket w) in
      (o, {| ww_auth := ww_auth w; ww_count := ww_count w; ww_server := ww_server w; ww_socket := s |})
  end.

(** ** A request arrives *)

Lemma plain_app s t : plain (s +:+ t) = plain s && plain t.
Proof. unfold plain. induction s as [|c s IH]; [done|]. rewrite append_cons. cbn. by rewrite IH, andb_assoc. Qed.

Lemma plain_uuid_chars s : string_all uuid_char s = true → plain s = true.
Proof.
  unfold plain. induction s as [|c s IH]; [done|]. cbn. intros [Hc Hs]%andb_true_iff.
  apply andb_true_iff. split; [|auto]. unfold plain_char. by rewrite Hc.
Qed.

Lemma plain_service_id s : is_uuid (uuid_of s) = true → plain (service_id_string s) = true.
Proof.
  intros [_ Hu]%andb_true_iff. apply plain_uuid_chars in Hu. destruct s as [u|u]; [done|].
  cbn [uuid_of] in Hu. change (plain ("PNI:" +:+ u) = true). by rewrite plain_app, Hu.
Qed.

Lemma signal_layer_run req res w sd :
  (∀ r, rq_method r = rq_method req → rq_uri r = rq_uri req → rq_body r = rq_body req →
     rq_headers r = rq_headers req ++ [("user-agent", "Signal Client Clone"); ("x-signal-agent", "OWA"); ("accept-encoding", "gzip")] →
     ∃ q, route r = Some q ∧ serve_http (ww_count w) q (ww_server w) = (res, sd)) →
  interp web_step (signal_layer req) w =
    (Ok match res with
        | Ok (inr reply) => inr {| rs_status := 200; rs_headers := rs_headers (response 200 (reply_body reply)); rs_body := inr (reply_body reply) |}
        | Ok (inl e) => inr {| rs_status := status_code e; rs_headers := rs_headers (response (status_code e) (as_bytes (error_body e)));
                               rs_body := inr (as_bytes (error_body e)) |}
        | _ => inl "connection closed before message completed"
        end, after_request w sd).
Proof.
  intros Hreq. unfold signal_layer. set (r := {| rq_method := _; rq_uri := _; rq_headers := _; rq_body := _ |}).
  destruct (Hreq r) as (q & Hq & Hrun); [done..|].
  rewrite interp_op_bind. cbn [web_step]. rewrite Hq, Hrun. cbn [answer_http].
  assert (∀ status body, interp web_step (
      match header_values "content-encoding" (rs_headers (response status body)) with
      | [] => Ret (inr (response status body))
      | encoding =>
          if forallb (λ x, bool_decide (x = Some "gzip")) encoding then
            let '(body, res) := body_bytes (response status body) in
            match body with
            | inl e => Ret (inl e)
            | inr body => match gunzip body with inl e => Ret (inl e) | inr d => Ret (inr (with_body res d)) end
            end
          else Ret (inr (response status body))
      end : prog transportE SignalClientError (string + web_response)) (after_request w sd) =
    (Ok (inr {| rs_status := status; rs_headers := rs_headers (response status body); rs_body := inr body |}), after_request w sd)) as Hdec.
  { intros status body. unfold response. destruct (compresses body); [|done]. cbn. by rewrite gunzip_gzip. }
  destruct res as [[e|reply]|e|e]; cbn [answer_http]; [apply Hdec|apply Hdec|done..].
Qed.

(** *** Where the requests go *)

(** The credentials that a header carries. *)
Definition credentials_of (h : BasicAuthorizationHeader) : basic_header :=
  Basic (username h +:+ "." +:+ show (header_device_id h)) (password h).

Record good_header (h : BasicAuthorizationHeader) : Prop := {
  gh_user : string_mem ":" (username h) = false;
  gh_username : utf8_valid (as_bytes (username h)) = true;
  gh_password : utf8_valid (as_bytes (password h)) = true;
}.

Lemma basic_of_encoded h : good_header h → basic_of_header (header_encode h) = credentials_of h.
Proof.
  intros [Hc Hu Hp]. unfold header_encode, credentials_of.
  replace (username h +:+ "." +:+ show (header_device_id h) +:+ ":" +:+ password h)
    with ((username h +:+ "." +:+ show (header_device_id h)) +:+ ":" +:+ password h) by by rewrite !append_assoc'.
  apply basic_of_credentials.
  - rewrite !string_mem_app, Hc. cbn. by apply string_mem_show.
  - rewrite !append_assoc', utf8_valid_text, (utf8_valid_text "."), utf8_valid_text, (utf8_valid_text ":") by
      first [done | apply utf8_ascii, show_ascii]. done.
Qed.

Lemma header_of_authorized r v l :
  rq_headers r = ("Authorization", v) :: l → header_of r = Some v.
Proof. unfold header_of. intros ->. reflexivity. Qed.

Lemma service_id_free c s :
  is_uuid (uuid_of s) = true → uuid_char c = false → string_mem c "PNI:" = false → string_mem c (service_id_string s) = false.
Proof.
  intros Hu Hc Hp. pose proof (uuid_free c _ Hu Hc) as Hfree. destruct s as [u|u]; [done|].
  cbn [uuid_of] in Hfree. change (service_id_string (Pni u)) with ("PNI:" +:+ u). by rewrite string_mem_app, Hp, Hfree.
Qed.

(** Evaluates the table of routes on a path. *)
Ltac take_route :=
  unfold routes; cbn [route_in match_path];
  repeat (first [rewrite bool_decide_true by done | rewrite bool_decide_false by done]; cbn [route_in match_path]).
Ltac take_method Hm :=
  unfold find_method; rewrite Hm; cbn [find fst];
  repeat (first [rewrite bool_decide_true by done | rewrite bool_decide_false by done]; cbn [find fst]);
  cbn [fmap option_fmap option_map snd mbind option_bind].

Lemma plain_free s c : plain s = true → plain_char c = false → string_mem c s = false.
Proof. apply string_all_free. Qed.

Lemma route_publish r h keys l :
  good_header h → rq_method r = MethodPut → rq_uri r = KEY_BUNDLE_URI +:+ "?identity=aci" → rq_body r = Some (json_of_keys keys) →
  rq_headers r = ("Authorization", header_encode h) :: l →
  route r = Some (PutKeys (credentials_of h) (Some "aci") keys).
Proof.
  intros Hh Hm Hu Hb Hr. unfold route. rewrite Hu. change (KEY_BUNDLE_URI +:+ "?identity=aci") with ("/" +:+ "v2/keys?identity=aci").
  rewrite resolve_absolute by (vm_compute; reflexivity).
  change (split_first "?" ("/" +:+ "v2/keys?identity=aci")) with (Some ("/v2/keys", "identity=aci")). cbv iota beta.
  change (split_on "/" "/v2/keys") with [""; "v2"; "keys"]. cbv iota beta. rewrite bool_decide_true by done.
  take_route. take_method Hm. unfold json_body. rewrite Hb. cbn [mbind option_bind]. rewrite read_written_keys.
  change "identity=aci" with ("identity" +:+ "=" +:+ "aci"). rewrite form_params_one by (vm_compute; reflexivity).
  unfold basic_auth. rewrite (header_of_authorized _ _ _ Hr), basic_of_encoded by done. reflexivity.
Qed.

Lemma route_fetch r h s l :
  good_header h → is_uuid (uuid_of s) = true → rq_method r = MethodGet →
  rq_uri r = KEY_BUNDLE_URI +:+ "/" +:+ service_id_string s +:+ "/*" →
  rq_headers r = ("Authorization", header_encode h) :: l →
  route r = Some (GetKeysIdDeviceId (credentials_of h) (service_id_string s) "*").
Proof.
  intros Hh Hs Hm Hu Hr. unfold route. rewrite Hu.
  change (KEY_BUNDLE_URI +:+ "/" +:+ service_id_string s +:+ "/*") with ("/" +:+ ("v2/keys/" +:+ (service_id_string s +:+ "/*"))).
  pose proof (plain_service_id s Hs) as Hp.
  assert (plain ("v2/keys/" +:+ (service_id_string s +:+ "/*")) = true) as Hplain by by rewrite !plain_app, Hp.
  rewrite resolve_absolute by done.
  rewrite split_first_free by (change ("/" +:+ ("v2/keys/" +:+ (service_id_string s +:+ "/*")))
    with ("/v2/keys/" +:+ (service_id_string s +:+ "/*")); rewrite !string_mem_app, service_id_free by done; done).
  change ("/" +:+ ("v2/keys/" +:+ (service_id_string s +:+ "/*"))) with
    ("" +:+ String "/" ("v2" +:+ String "/" ("keys" +:+ String "/" (service_id_string s +:+ String "/" "*")))).
  rewrite !split_on_app by first [done | by apply service_id_free]. change (split_on "/" "*") with ["*"].
  cbv iota beta. rewrite bool_decide_true by done.
  assert (service_id_string s ≠ "") as Hne by (intros He; by destruct s as [u|u]; cbn in He; subst).
  take_route. take_method Hm. unfold param. cbn [lookup list_lookup mbind option_bind].
  rewrite !percent_decode_plain by done. cbn [mbind option_bind].
  unfold basic_auth. rewrite (header_of_authorized _ _ _ Hr), basic_of_encoded by done. reflexivity.
Qed.

Lemma route_register r h registration l :
  rq_method r = MethodPost → rq_uri r = REGISTER_URI → rq_body r = Some (json_of_registration registration) →
  rq_headers r = ("Authorization", header_encode h) :: l →
  route r = Some (PostRegistration (HeaderText (header_encode h)) registration).
Proof.
  intros Hm Hu Hb Hr. unfold route. rewrite Hu. change REGISTER_URI with ("v1/" +:+ "registration").
  rewrite resolve_relative by (vm_compute; reflexivity).
  change (split_first "?" ("/v1/" +:+ "registration")) with (@None (string * string)). cbv iota beta.
  change (split_on "/" ("/v1/" +:+ "registration")) with [""; "v1"; "registration"]. cbv iota beta. rewrite bool_decide_true by done.
  take_route. take_method Hm. unfold to_endpoint, json_body. rewrite Hb. cbn [mbind option_bind]. rewrite read_written_registration.
  unfold text_auth. by rewrite (header_of_authorized _ _ _ Hr).
Qed.

Lemma route_identifier r h phone l :
  good_header h → plain phone = true → string_mem "/" phone = false → string_mem "?" phone = false → phone ≠ "" →
  rq_method r = MethodGet → rq_uri r = GET_SERVICE_ID_URI +:+ "/" +:+ phone →
  rq_headers r = ("Authorization", header_encode h) :: l →
  route r = Some (GetIdentifier (credentials_of h) phone).
Proof.
  intros Hh Hp Hslash Hquery Hne Hm Hu Hr. unfold route. rewrite Hu.
  change (GET_SERVICE_ID_URI +:+ "/" +:+ phone) with ("v1/" +:+ ("identifier/" +:+ phone)).
  rewrite resolve_relative by by rewrite plain_app, Hp.
  rewrite split_first_free by by rewrite !string_mem_app, Hquery.
  change ("/v1/" +:+ ("identifier/" +:+ phone)) with
    ("" +:+ String "/" ("v1" +:+ String "/" ("identifier" +:+ String "/" phone))).
  rewrite !split_on_app, (split_on_free _ phone) by done.
  cbv iota beta. rewrite bool_decide_true by done.
  take_route. take_method Hm. unfold param. cbn [lookup list_lookup mbind option_bind].
  rewrite !percent_decode_plain by done. cbn [mbind option_bind].
  unfold basic_auth. rewrite (header_of_authorized _ _ _ Hr), basic_of_encoded by done. reflexivity.
Qed.

(** *** What the client makes of the answers *)

(** A refusal has a status of its own and a text. *)
Definition fair (res : outcome string (ApiError + http_reply)) : Prop :=
  ∀ e, res = Ok (inl e) → is_success (status_code e) = false ∧ utf8_valid (as_bytes (error_body e)) = true.

Definition closed : string := "connection closed before message completed".

(** The outcome of a request that publishes or fetches keys. *)
Definition keys_outcome {A} (accepted : http_reply → outcome SignalClientError A) (res : outcome string (ApiError + http_reply))
    : outcome SignalClientError A :=
  match res with
  | Ok (inr reply) => accepted reply
  | Ok (inl e) => Err (KeyError (show_request_error (StatusCodeError (status_code e) "")))
  | _ => Err (KeyError (show_request_error (TransmissionError closed)))
  end.
Definition fetched (reply : http_reply) : outcome SignalClientError (list PreKeyBundle) :=
  match pre_keys_of_json (reply_body reply) with
  | inl err => Err (KeyError err)
  | inr r => match bundles_of_response r with Ok b => Ok b | Err e => Err (KeyError e) | Panic e => Panic e end
  end.

Definition registered (res : outcome string (ApiError + http_reply)) : outcome SignalClientError AccountIdentityResponse :=
  match res with
  | Ok (inr reply) =>
      match account_of_json (reply_body reply) with
      | inl err => Err (RegistrationFailed (BadRegistration err))
      | inr account => Ok account
      end
  | Ok (inl e) =>
      Err (RegistrationFailed (BadRegistration
        ("Received " +:+ show_status (status_code e) +:+ ": " +:+ debug_text (inr (error_body e)))))
  | _ => Err (RegistrationFailed NoRegistrationResponse)
  end.

Definition identified (res : outcome string (ApiError + http_reply)) : outcome SignalClientError ServiceId :=
  match res with
  | Ok (inr reply) =>
      match body_text (reply_body reply) with
      | inl err => Err (IdentifierFailed (BadIdentifier err))
      | inr text => expect "Will be uuid" (parse_from_service_id_string text)
      end
  | Ok (inl e) =>
      Err (IdentifierFailed (BadIdentifier
        ("Received " +:+ show_status (status_code e) +:+ ": " +:+ debug_text (inr (error_body e)))))
  | _ => Err (IdentifierFailed NoIdentifierResponse)
  end.

Lemma not_success_200 status : is_success status = false → (status =? 200) = false.
Proof. unfold is_success. intros Hs. apply not_true_is_false. intros ->%Z.eqb_eq. done. Qed.

Lemma make_request_run req_type uri h request res w sd :
  ww_auth w = Some h → request_of req_type uri h = inr request → fair res →
  interp web_step (signal_layer request) w =
    (Ok match res with
        | Ok (inr reply) => inr {| rs_status := 200; rs_headers := rs_headers (response 200 (reply_body reply)); rs_body := inr (reply_body reply) |}
        | Ok (inl e) => inr {| rs_status := status_code e; rs_headers := rs_headers (response (status_code e) (as_bytes (error_body e)));
                               rs_body := inr (as_bytes (error_body e)) |}
        | _ => inl closed
        end, after_request w sd) →
  interp web_step (make_request req_type uri) w =
    (Ok match res with
        | Ok (inr reply) => inr {| rs_status := 200; rs_headers := rs_headers (response 200 (reply_body reply)); rs_body := inr (reply_body reply) |}
        | Ok (inl e) => inl (StatusCodeError (status_code e) "")
        | _ => inl (TransmissionError closed)
        end, after_request w sd).
Proof.
  intros Ha Hreq Hfair Hrun. unfold make_request. rewrite interp_op_bind. cbn [web_step]. rewrite Ha, Hreq, interp_bind, Hrun.
  destruct res as [[e|reply]|e|e]; [| |done..].
  - destruct (Hfair e eq_refl) as [Hs Hu]. unfold checked. cbn [rs_status rs_body body_string]. rewrite not_success_200 by done.
    rewrite body_text_utf8 by done. cbn [body_string with_body rs_body].
    by rewrite (body_text_utf8 "") by done.
  - done.
Qed.

Lemma publish_run h bundle w :
  ww_auth w = Some h → good_header h →
  let q := PutKeys (credentials_of h) (Some "aci") bundle in
  let '(res, sd) := serve_http (ww_count w) q (ww_server w) in
  fair res → interp web_step (publish_pre_key_bundle bundle) w = (keys_outcome (λ _, Ok tt) res, after_request w sd).
Proof.
  intros Ha Hh q. destruct (serve_http _ q _) as [res sd] eqn:Hrun. intros Hfair.
  unfold publish_pre_key_bundle. rewrite interp_bind. erewrite make_request_run; [|done| |done|].
  - by destruct res as [[e|reply]|e|e].
  - cbn [request_of]. by rewrite body_of_json_value.
  - apply signal_layer_run. intros r Hm Hu Hb Hr. exists q. split; [|done].
    cbn [rq_method rq_uri rq_body rq_headers app] in *. by eapply route_publish.
Qed.

Lemma fetch_run h s w :
  ww_auth w = Some h → good_header h → is_uuid (uuid_of s) = true →
  let q := GetKeysIdDeviceId (credentials_of h) (service_id_string s) "*" in
  let '(res, sd) := serve_http (ww_count w) q (ww_server w) in
  fair res → interp web_step (fetch_pre_key_bundles s) w = (keys_outcome fetched res, after_request w sd).
Proof.
  intros Ha Hh Hs q. destruct (serve_http _ q _) as [res sd] eqn:Hrun. intros Hfair.
  unfold fetch_pre_key_bundles. rewrite interp_bind. erewrite make_request_run; [|done|done|done|].
  - destruct res as [[e|reply]|e|e]; try done. cbn. unfold fetched.
    destruct (pre_keys_of_json _) as [e|r]; [done|]. by destruct (bundles_of_response r).
  - apply signal_layer_run. intros r Hm Hu Hb Hr. exists q. split; [|done].
    cbn [rq_method rq_uri rq_body rq_headers app] in *. by eapply route_fetch.
Qed.

Lemma register_client_run phone pw registration w :
  let h := {| username := phone; header_device_id := 1; password := pw |} in
  let q := PostRegistration (HeaderText (header_encode h)) registration in
  let '(res, sd) := serve_http (ww_count w) q (ww_server w) in
  fair res → interp web_step (register_client phone pw registration) w = (registered res, after_request w sd).
Proof.
  intros h q. destruct (serve_http _ q _) as [res sd] eqn:Hrun. intros Hfair.
  unfold register_client. rewrite interp_bind. rewrite (signal_layer_run _ res w sd).
  - destruct res as [[e|reply]|e|e]; try done.
    + destruct (Hfair e eq_refl) as [Hs Hu]. cbv iota beta. cbn [rs_status]. rewrite Hs. unfold received_text.
      cbn [body_string rs_body rs_status fst]. by rewrite body_text_utf8.
    + cbn. by destruct (account_of_json _).
  - intros r Hm Hu Hb Hr. exists q. split; [|done].
    cbn [rq_method rq_uri rq_body rq_headers app] in *. by eapply route_register.
Qed.

Lemma identifier_run h phone w :
  ww_auth w = Some h → good_header h →
  plain phone = true → string_mem "/" phone = false → string_mem "?" phone = false → phone ≠ "" →
  let q := GetIdentifier (credentials_of h) phone in
  let '(res, sd) := serve_http (ww_count w) q (ww_server w) in
  fair res → interp web_step (get_service_id_from_server phone) w = (identified res, after_request w sd).
Proof.
  intros Ha Hh Hp Hslash Hquery Hne q. destruct (serve_http _ q _) as [res sd] eqn:Hrun. intros Hfair.
  unfold get_service_id_from_server. rewrite interp_op_bind. cbn [web_step]. rewrite Ha, interp_bind. rewrite (signal_layer_run _ res w sd).
  - destruct res as [[e|reply]|e|e]; try done.
    + destruct (Hfair e eq_refl) as [Hs Hu]. cbv iota beta. cbn [rs_status]. rewrite Hs. unfold received_text.
      cbn [body_string rs_body rs_status fst]. by rewrite body_text_utf8.
    + cbn. destruct (body_text _) as [err|text]; [done|]. by rewrite interp_lift.
  - intros r Hm Hu Hb Hr. exists q. split; [|done].
    cbn [rq_method rq_uri rq_body rq_headers app] in *. by eapply route_identifier.
Qed.

(** What the client's request [m] comes to when it arrives as [q]. *)
Definition answered {A} (q : http_request) (m : prog transportE SignalClientError A)
    (outcome_of : outcome string (ApiError + http_reply) → outcome SignalClientError A) (w : web_world S O) : Prop :=
  let '(res, sd) := serve_http (ww_count w) q (ww_server w) in
  fair res → interp web_step m w = (outcome_of res, after_request w sd).

(** ** Properties *)

(** C11: four requests of a client that has put its credentials — publishing
    keys, fetching keys, registering, and asking for an identifier — arrive at
    the endpoint that they are meant for, with the client's credentials, the
    path, the query and the body that the client put in, and the client returns
    what it makes of the handler's answer, whether the handler accepts, refuses
    or panics; the server's state is the handler's.  The credentials are UTF-8
    with no colon in the user name, the account asked for has a UUID, the phone
    number is a URL segment of plain characters, and a refusal has an error
    status and a UTF-8 body. *)
Theorem client_requests_reach_the_server (h : BasicAuthorizationHeader) (w : web_world S O)
    (Hauth : ww_auth w = Some h) (Hheader : good_header h) :
  (∀ bundle, answered (PutKeys (credentials_of h) (Some "aci") bundle) (publish_pre_key_bundle bundle) (keys_outcome (λ _, Ok tt)) w) ∧
  (∀ s, is_uuid (uuid_of s) = true →
     answered (GetKeysIdDeviceId (credentials_of h) (service_id_string s) "*") (fetch_pre_key_bundles s) (keys_outcome fetched) w) ∧
  (∀ phone pw registration,
     let from := {| username := phone; header_device_id := 1; password := pw |} in
     answered (PostRegistration (HeaderText (header_encode from)) registration) (register_client phone pw registration) registered w) ∧
  (∀ phone, plain phone = true → string_mem "/" phone = false → string_mem "?" phone = false → phone ≠ "" →
     answered (GetIdentifier (credentials_of h) phone) (get_service_id_from_server phone) identified w).
Proof.
  split_and!; intros.
  - by apply publish_run.
  - by apply fetch_run.
  - apply register_client_run.
  - by apply identifier_run.
Qed.
End web.

(** ** Witnesses *)

(** Libraries to compute with: bodies are values, texts are written out. *)
Global Instance AccountIdentityResponse_eq : EqDecision AccountIdentityResponse.
Proof. solve_decision. Defined.
Global Program Instance AccountIdentityResponse_countable : Countable AccountIdentityResponse :=
  inj_countable' (λ r, (air_uuid r, air_number r, air_pni r, air_username_hash r, air_storage_capable r))
    (λ '(a, b, c, d, e), {| air_uuid := a; air_number := b; air_pni := c; air_username_hash := d; air_storage_capable := e |}) _.
Next Obligation. by intros []. Qed.

Definition read_with {A} (d : option A) : string + A := match d with Some a => inr a | None => inl "invalid" end.

Definition demo_web_libraries : WebLibraries := {|
  json := SetKeyRequest + RegistrationRequest;
  json_of_keys := inl;
  json_of_registration := inr;
  messages_to_json _ := [];
  body_from_json := inr;
  pre_keys_of_json bs := read_with (dec bs);
  account_of_json bs := read_with (dec bs);
  body_text bs := match from_utf8 bs with Ok s => inr s | _ => inl "decode error" end;
  gunzip bs := match bs with _ :: bs => inr bs | [] => inl "unexpected end of file" end;
  show_status := show;
  debug_text t := match t with inl s | inr s => s end;
  status_reason _ := None;
  uri_parts _ := Some (Some "localhost", Some 443);
  header_value_ok _ := true;
  parse_f32 _ := Some f32_0_6;
|}.

Definition demo_basic (s : string) : basic_header :=
  match split_first " " s ≫= λ x, b64_decode x.2 with
  | Some bs =>
      match from_utf8 bs with
      | Ok text => match split_first ":" text with Some (user, pw) => Basic user pw | None => HeaderInvalid end
      | _ => HeaderInvalid
      end
  | None => HeaderInvalid
  end.

Lemma demo_basic_of user pw :
  string_mem ":" user = false → utf8_valid (as_bytes (user +:+ ":" +:+ pw)) = true →
  demo_basic ("Basic " +:+ b64_encode (as_bytes (user +:+ ":" +:+ pw))) = Basic user pw.
Proof.
  intros Hu Hv. unfold demo_basic. change ("Basic " +:+ ?t) with ("Basic" +:+ String " " t). rewrite split_first_app by done.
  cbn [mbind option_bind snd]. rewrite b64_decode_encode. unfold from_utf8. rewrite Hv.
  rewrite String.string_of_list_byte_of_string. change (":" +:+ pw) with (String ":" pw). by rewrite split_first_app.
Qed.

(** A URL that does not start with a slash is taken below the root. *)
Definition demo_resolve (uri : string) : string := if String.prefix "/" uri then uri else "/" +:+ uri.

Definition demo_form (s : string) : list (string * string) := omap (split_first "=") (split_on "&" s).
Lemma demo_form_one k v :
  string_all lower_case k = true → string_all lower_case v = true → demo_form (k +:+ "=" +:+ v) = [(k, v)].
Proof.
  intros Hk Hv. unfold demo_form. change (k +:+ "=" +:+ v) with (k +:+ String "=" v).
  assert (∀ c t, string_all lower_case t = true → lower_case c = false → string_mem c t = false) as Hfree by (intros c t; apply string_all_free).
  rewrite split_on_free; [unfold omap; cbn [list_omap]; pose proof (split_first_app "=" k v (Hfree "="%char k Hk eq_refl)) as ->; done|].
  change (String "=" v) with ("=" +:+ v). rewrite !string_mem_app.
  by rewrite (Hfree "&"%char k), (Hfree "&"%char v).
Qed.

Lemma demo_body_text s : utf8_valid (as_bytes s) = true → body_text (WebLibraries := demo_web_libraries) (as_bytes s) = inr s.
Proof. intros Hv. cbn. unfold from_utf8. by rewrite Hv, String.string_of_list_byte_of_string. Qed.

Definition demo_reply_body (r : http_reply) : bytes :=
  match r with Keys k => enc k | Registered a => enc a | Identifier s => as_bytes s | _ => [] end.
Definition demo_read_keys (j : SetKeyRequest + RegistrationRequest) : string + SetKeyRequest :=
  match j with inl k => inr k | inr _ => inl "invalid type" end.
Definition demo_read_registration (j : SetKeyRequest + RegistrationRequest) : string + RegistrationRequest :=
  match j with inr r => inr r | inl _ => inl "invalid type" end.

Program Definition demo_http : @HttpLibraries demo_web_libraries hex_base64 demo_service_ids := {|
  resolve := demo_resolve;
  percent_decode := Some;
  form_params := demo_form;
  basic_of_header := demo_basic;
  read_keys := demo_read_keys;
  read_registration := demo_read_registration;
  read_messages _ := inl "invalid type";
  read_check_keys _ := inl "invalid type";
  read_link_device _ := inl "invalid type";
  reply_body := demo_reply_body;
  rejection _ := {| rs_status := 400; rs_headers := []; rs_body := inr [] |};
  compresses bs := (32 <=? length bs)%nat;
  gzip bs := x1f :: bs;
  form_params_one := demo_form_one;
  basic_of_credentials := demo_basic_of;
  body_text_utf8 := demo_body_text;
|}.
Next Obligation. intros [|a p] _ _; reflexivity. Qed.
Next Obligation. by intros. Qed.
Next Obligation. by intros. Qed.
Next Obligation. by intros. Qed.
Next Obligation. by intros. Qed.
Next Obligation. by intros. Qed.
Next Obligation. intros. exact (f_equal read_with (dec_enc _)). Qed.
Next Obligation. intros. exact (f_equal read_with (dec_enc _)). Qed.
Next Obligation. by intros. Qed.
Next Obligation. by intros. Qed.

#[local] Existing Instances demo_bincode demo_service_ids demo_libsignal in_order demo_kdf demo_signatures demo_codes demo_text
  demo_web_libraries demo_http.

Definition demo_environment (n : nat) : environment :=
  {| env_clock := 10 ^ 18 + Z.of_nat n; env_random := [x03]; env_new_aci := sample_uuid; env_new_pni := pni sample_account;
     env_link_secret := Some "secret"; env_constraint _ := None |}.
(** No other part of the server is asked, and no socket. *)
Definition demo_idle : handler serverE string unit := λ _ _ s, (Err "not asked", s).
Definition demo_no_socket : handler transportE SignalClientError unit := λ _ _ s, (Panic "not asked", s).
(** The client of the account that [demo_register] makes. *)
Definition demo_web (auth : option BasicAuthorizationHeader) (d : pg) : web_world unit unit :=
  {| ww_auth := auth; ww_count := 0; ww_server := (tt, d); ww_socket := tt |}.
Definition demo_credentials : BasicAuthorizationHeader := {| username := sample_uuid; header_device_id := 1; password := "pw" |}.

Lemma client_requests_reach_the_server_witness :
  ∃ w', interp (web_step demo_environment demo_idle (λ _, true) demo_no_socket) (get_service_id_from_server "+4512345678")
          (demo_web (Some demo_credentials) demo_accounts) = (Ok (Aci sample_uuid), w').
Proof.
  destruct (client_requests_reach_the_server demo_environment demo_idle (λ _, true) demo_no_socket demo_credentials
    (demo_web (Some demo_credentials) demo_accounts) eq_refl) as (_ & _ & _ & Hid); [by split; vm_compute|].
  specialize (Hid "+4512345678" eq_refl eq_refl eq_refl ltac:(done)). unfold answered in Hid.
  destruct (serve_http _ _ _ _ _ _) as [res sd] eqn:Hserve.
  assert (res = Ok (inr (Identifier sample_uuid))) as -> by (apply (f_equal fst) in Hserve; cbn [fst] in Hserve; rewrite <- Hserve; by vm_compute).
  eexists. rewrite Hid by (intros e [=]). by vm_compute.
Defined.
