(* ===== verification/EndToEnd.v ===== *)
(** A new client from its registration to the first message that it can be
    sent: [register] of [client/src/client.rs] runs against the endpoints of
    the server, and whoever asks the server for the keys of the new client
    gets keys that the new client holds. *)
From S2P Require Export ClientHttp.

Local Open Scope Z_scope.
Local Open Scope denim_scope.

(** libsignal reads the public keys of the records that it makes. *)
Class PublicKeys `{Libsignal, KeyGeneration} : Prop := {
  public_key_read k record key : k ≠ KyberPreKey → record_public_key k record = Some key → record_error PublicKey key = None;
  kem_key_read record key : record_public_key KyberPreKey record = Some key → record_error KemPublicKey key = None;
}.

Section end_to_end.
Context `{Sqlite, HashOrder, HttpLibraries, Libsignal, Bincode, ServerText, ScanOrder, Kdf, Signatures, LinkCodes, KeyGeneration, !SigningKeys, !PublicKeys}.
Context {S O : Type} (env : nat → environment) (server : handler serverE string S) (public_key_ok : bytes → bool)
  (socket : handler transportE SignalClientError O).
Abbreviation db := (postgres public_key_ok).
Abbreviation step := (web_step env server public_key_ok socket).

(** What the server answers the operations of its clients. *)
Definition served_by (server_url : string) (cert_path : option string) : handler serverApiE SignalClientError (web_world S O) :=
  λ X c w, interp step (signal_server server_url cert_path c) w.

(** A database that takes another account, with all its keys. *)
Record takes_account (e : environment) (phone_number : string) (d : pg) : Prop := {
  ta_wf : pg_wf d;
  ta_names : names_typed d;
  ta_caps : no_capabilities d;
  ta_room : room_for_account d;
  ta_one_time : next_id (d OneTimeEcPreKeys) + 100 ≤ i32_max + 1;
  ta_pq : next_id (d OneTimePqPreKeys) + 100 ≤ i32_max + 1;
  ta_signed : ∀ s, next_id (d (SignedPreKeys s)) < i32_max;
  ta_new : ∀ key pni_key v, account_new_in (account_new (env_new_aci e) (env_new_pni e) key pni_key v phone_number) d = true;
  ta_clock : 0 ≤ env_clock e;
  ta_aci : is_uuid (env_new_aci e) = true;
  ta_pni : is_uuid (env_new_pni e) = true;
}.

(** A phone number that can be the user name of a header. *)
Record good_phone (phone_number : string) : Prop := {
  gp_text : utf8_valid (as_bytes phone_number) = true;
  gp_dot : string_mem "." phone_number = false;
  gp_colon : string_mem ":" phone_number = false;
}.

Definition main_header (u pw : string) : BasicAuthorizationHeader :=
  {| username := service_id_string (Aci u); header_device_id := 1; password := pw |}.

Lemma string_all_impl f g s : (∀ c, f c = true → g c = true) → string_all f s = true → string_all g s = true.
Proof. intros Hfg. induction s as [|c s IH]; [done|]. cbn. intros [Hc Hs]%andb_true_iff. by rewrite (Hfg _ Hc), IH. Qed.

Lemma uuid_ascii u : is_uuid u = true → utf8_valid (as_bytes u) = true.
Proof.
  intros [_ Hu]%andb_true_iff. apply utf8_ascii. revert Hu. apply string_all_impl. intros c.
  by destruct c as [[] [] [] [] [] [] [] []]; vm_compute.
Qed.

Lemma main_header_good u pw : is_uuid u = true → utf8_valid (as_bytes pw) = true → good_header (main_header u pw).
Proof. intros Hu Hp. split; [by apply (uuid_free ":"%char u)|by apply uuid_ascii|done]. Qed.

Lemma range_u32 i : 1 ≤ i < 16383 → in_u32 i = true.
Proof. intros Hi. apply in_u32_true. lia. Qed.

Lemma good_request_bundle identity request : good_request identity request → bundle_ok (device_pre_key_bundle request) = true.
Proof.
  intros [_ _ _ [Hs _] [Hk _]]. injection Hs as Hs1 Hs2. injection Hk as Hk1 Hk2.
  unfold bundle_ok. cbn. by rewrite Hs1, Hs2, Hk1, Hk2.
Qed.

(** *** Registration *)

Definition answer_to (e : environment) (phone_number : string) : AccountIdentityResponse :=
  {| air_uuid := env_new_aci e; air_number := phone_number; air_pni := env_new_pni e; air_username_hash := None;
     air_storage_capable := true |}.

(** The account of the client, with what its device logs in with. *)
Definition client_account (e : environment) (phone_number : string) (request : RegistrationRequest) (hash : SaltedTokenHash) : Account :=
  registered_account (env_new_aci e) (env_new_pni e) request phone_number (env_clock e / 10 ^ 6) hash.
Definition client_device (e : environment) (request : RegistrationRequest) (hash : SaltedTokenHash) : Device :=
  as_stored (new_device 1 (reg_account_attributes request) (env_clock e / 10 ^ 6) hash).

Record has_account (e : environment) (phone_number password : string) (request : RegistrationRequest) (ps : list UploadPreKey)
    (hash : SaltedTokenHash) (x : Z * device_row) (d : pg) : Prop := {
  ha_hash : calculate (hash_salt hash) password = Ok (Api.hash hash);
  ha_reachable : reachable public_key_ok (client_account e phone_number request hash) (client_device e request hash) x
    (device_pre_key_bundle request) ps d;
}.

(** Room for the keys that a new client uploads. *)
Record takes_bundle (x : Z * device_row) (b : DevicePreKeyBundle) (d : pg) : Prop := {
  tb_one_time : next_id (d OneTimeEcPreKeys) + 100 ≤ i32_max + 1;
  tb_pq : next_id (d OneTimePqPreKeys) + 100 ≤ i32_max + 1;
  tb_signed : ∀ s, next_id (d (SignedPreKeys s)) ≤ i32_max;
  tb_stored : ∀ s, ∃ n, signed_of s x.1 d = [(n, signed_row_of (key_in s b) x.1)];
}.

Lemma registering_run seed phone_number pw request (w : web_world S O) :
  let e := env (ww_count w) in
  takes_account e phone_number (ww_server w).2 → good_phone phone_number → utf8_valid (as_bytes pw) = true →
  (∀ seed, public_key_ok (generate_identity seed).1 = true) → good_request (generate_identity seed) request →
  ∃ hash x d', interp step (register_client phone_number pw request) w =
      (Ok (answer_to e phone_number), after_request w ((ww_server w).1, d')) ∧
    has_account e phone_number pw request [] hash x d' ∧ takes_bundle x (device_pre_key_bundle request) d'.
Proof.
  intros e [Hwf Hnames Hcaps Hroom He Hp Hs Hnew Hclock Haci Hpni] [Htext Hdot Hcolon] Hpw Hok Hreq.
  destruct w as [auth n [st d] so]. cbn [ww_server ww_count snd fst] in *.
  set (h := {| username := phone_number; header_device_id := 1; password := pw |}).
  pose proof Hreq as [Hid [seed' Hpid] (Hr1 & Hr2 & _) _ _].
  destruct (post_registration_run public_key_ok d (env_clock e) (env_random e) (env_constraint e) (env_new_aci e) (env_new_pni e) h request)
    as (hash & d' & [_ Hhash] & Hrun & Hb & Hget & Hsigned & Hrest); try done.
  { by rewrite Hid, Hpid, !Hok. }
  { split; by apply range_u32. }
  { by eapply good_request_bundle. }
  pose proof (register_client_run env server public_key_ok socket phone_number pw request
    {| ww_auth := auth; ww_count := n; ww_server := (st, d); ww_socket := so |}) as Hreg. cbv zeta in Hreg. fold h in Hreg.
  assert (serve_http env server public_key_ok n (PostRegistration (HeaderText (header_encode h)) request) (st, d) =
    (Ok (inr (Registered (answer_to e phone_number))), (st, d'))) as Hserve.
  { unfold serve_http. cbn [serve]. unfold post_registration_endpoint, registration_header. cbn [mbind outcome_bind].
    rewrite header_is_read_back by done. rewrite api_lift_bind. unfold handler_of.
    rewrite (api_bind_ok _ _ _ _ (answer_to e phone_number) (st, d')); [done|].
    rewrite interp_on_database. cbn [snd fst]. fold e. by rewrite Hrun. }
  cbn [ww_count ww_server] in Hreg. rewrite Hserve in Hreg.
  eexists hash, _, d'. split_and!; [|split; [exact Hhash|]|].
  - rewrite Hreg by (intros err [=]). unfold registered. by rewrite read_written_account.
  - apply (registered_reachable public_key_ok d (env_clock e) (env_new_aci e) (env_new_pni e) h request hash d'); try done.
    by apply Hget; left.
  - assert (∀ r, r ≠ Accounts → r ≠ Devices → ¬ holds_keys r → next_id (d' r) = next_id (d r)) as Hn by (intros; by rewrite Hrest).
    split.
    + by rewrite Hn by (done || intros []).
    + by rewrite Hn by (done || intros []).
    + intros s. destruct (Hsigned s) as [_ ->]. specialize (Hs s). lia.
    + intros s. eexists. apply Hsigned.
Qed.

(** *** Upload *)

(** The client's requests are made by its device. *)
Lemma client_authenticates e phone_number pw request ps hash x d :
  is_uuid (env_new_aci e) = true → has_account e phone_number pw request ps hash x d →
  interp db (from_request_parts (credentials_of (main_header (env_new_aci e) pw))) d =
    (Ok (inr {| ad_account := client_account e phone_number request hash; ad_device := client_device e request hash |}), d).
Proof.
  intros Haci [Hhash [_ _ _ Hget _ _]]. unfold credentials_of, main_header. cbn [username header_device_id password].
  rewrite (from_request_parts_device public_key_ok _ (Aci (env_new_aci e)) 1); [|done|done|by left].
  rewrite (authenticate_device_run public_key_ok (Aci (env_new_aci e)) 1 pw (client_account e phone_number request hash)
    (client_device e request hash) (Api.hash hash)); [by rewrite bool_decide_true|exact Hget|done|exact Hhash].
Qed.

Lemma uploading_run seed e phone_number pw request hash x bundle (w : web_world S O) :
  has_account e phone_number pw request [] hash x (ww_server w).2 → takes_bundle x (device_pre_key_bundle request) (ww_server w).2 →
  ww_auth w = Some (main_header (env_new_aci e) pw) → is_uuid (env_new_aci e) = true → utf8_valid (as_bytes pw) = true →
  good_request (generate_identity seed) request → good_bundle (generate_identity seed) bundle →
  ∃ ps d', interp step (publish_pre_key_bundle bundle) w = (Ok tt, after_request w ((ww_server w).1, d')) ∧
    set_pre_key bundle = Some ps ∧ has_account e phone_number pw request ps hash x d'.
Proof.
  intros Hd [He Hp Hs Hstored] Hauth Haci Hpw Hreq Hb. destruct w as [auth n [st d] so]. cbn [ww_server ww_count ww_auth snd fst] in *.
  set (ad := {| ad_account := client_account e phone_number request hash; ad_device := client_device e request hash |}).
  destruct (first_upload_run public_key_ok seed ad (client_account e phone_number request hash) (client_device e request hash) x d
    request bundle) as (ps & d' & Hps & _ & Hrun & Hd'); try done; [by apply Hd|by apply Hreq|].
  set (h := main_header (env_new_aci e) pw) in *. exists ps, d'.
  assert (serve_http env server public_key_ok n (PutKeys (credentials_of h) (Some "aci") bundle) (st, d) = (Ok (inr Empty), (st, d'))) as Hserve.
  { unfold serve_http. cbn [serve]. rewrite authenticated_run. unfold h.
    rewrite (client_authenticates e phone_number pw request [] hash x d) by done. cbn [fst]. fold ad. cbv iota beta.
    unfold put_keys_endpoint. rewrite api_lift_bind. cbn [expect mbind outcome_bind].
    change (get_kind "aci") with (Ok KindAci : outcome ApiError ServiceIdKind). cbv iota beta. unfold handler_of.
    rewrite (api_bind_ok _ _ _ _ tt (st, d')); [done|]. rewrite interp_on_database. cbn [snd fst]. by rewrite Hrun. }
  pose proof (publish_run env server public_key_ok socket h bundle {| ww_auth := auth; ww_count := n; ww_server := (st, d); ww_socket := so |}
    Hauth (main_header_good _ _ Haci Hpw)) as Hpub. cbv zeta in Hpub. cbn [ww_count ww_server] in Hpub. rewrite Hserve in Hpub.
  split_and!; [|done|split; [by apply Hd|done]]. by rewrite Hpub by (intros err [=]).
Qed.

(** *** Fetching *)

(** A bundle of keys that the holder of [identity] can use: its database [d]
    has every one of them. *)
Record usable (identity : bytes) (b : PreKeyBundle) (d : client_db) : Prop := {
  us_device : bundle_device_id b = 1;
  us_identity : bundle_identity_key b = identity;
  us_signed : kept d DeviceSignedPreKeyStore (signed_key_id (bundle_signed_pre_key b)) (signed_public_key (bundle_signed_pre_key b));
  us_kyber : kept d DeviceKyberPreKeyStore (signed_key_id (bundle_kyber_pre_key b)) (signed_public_key (bundle_kyber_pre_key b));
  us_one_time : ∃ k, bundle_pre_key b = Some k ∧ kept d DevicePreKeyStore k.1 k.2;
  us_signatures : verify_key identity (bundle_signed_pre_key b) = Ok tt ∧ verify_key identity (bundle_kyber_pre_key b) = Ok tt;
}.

Lemma kept_read d t id key :
  kept d t id key → record_error (if decide (t = DeviceKyberPreKeyStore) then KemPublicKey else PublicKey) key = None.
Proof.
  intros (record & _ & _ & Hk). case_decide as Ht; [subst; by apply (kem_key_read record)|].
  apply (public_key_read (kind_in t) record); [by destruct t|done].
Qed.

(** The response about an account with one device is one bundle. *)
Lemma one_bundle s identity registration_id key (qk sk : UploadSignedPreKey) d :
  record_error IdentityKey identity = None →
  kept d DevicePreKeyStore (key_id key) (public_key key) →
  kept d DeviceSignedPreKeyStore (signed_key_id sk) (signed_public_key sk) →
  kept d DeviceKyberPreKeyStore (signed_key_id qk) (signed_public_key qk) →
  bundles_of_response {| response_service_id := s; response_identity_key := identity;
    devices := [{| item_device_id := 1; item_registration_id := registration_id; item_pre_key := Some key;
                   item_pq_pre_key := qk; item_signed_pre_key := sk |}] |} =
  Ok [{| bundle_registration_id := registration_id; bundle_device_id := 1; bundle_pre_key := Some (key_id key, public_key key);
         bundle_signed_pre_key := sk; bundle_identity_key := identity; bundle_kyber_pre_key := qk |}].
Proof.
  intros Hid Hk%kept_read Hs%kept_read Hq%kept_read. rewrite decide_False in Hk by done.
  rewrite decide_False in Hs by done. rewrite decide_True in Hq by done.
  unfold bundles_of_response, key_or.
  cbn [response_identity_key devices collect]. rewrite Hid. cbn [mbind outcome_bind].
  unfold bundle_of_item, key_or. cbn [item_pre_key item_signed_pre_key item_pq_pre_key]. rewrite Hk. cbn [mbind outcome_bind].
  rewrite Hs. cbn [mbind outcome_bind]. by rewrite Hq.
Qed.

(** The answer to whoever asks for the keys of the client. *)
Lemma fetching_run seed e phone_number pw request ps hash x h ad requester (v : web_world S O) (d : client_db) :
  has_account e phone_number pw request ps hash x (ww_server v).2 → ps ≠ [] → is_uuid (env_new_aci e) = true →
  good_header h → ww_auth v = Some h →
  interp db (from_request_parts (credentials_of h)) (ww_server v).2 = (Ok (inr ad), (ww_server v).2) →
  Postgres.get_account public_key_ok (Aci (aci (ad_account ad))) (ww_server v).2 = (Ok requester, (ww_server v).2) →
  good_request (generate_identity seed) request → readable (generate_identity seed) →
  Forall (λ u, kept d DevicePreKeyStore (key_id u) (public_key u)) ps →
  kept d DeviceSignedPreKeyStore (signed_key_id (reg_aci_signed_pre_key request)) (signed_public_key (reg_aci_signed_pre_key request)) →
  kept d DeviceKyberPreKeyStore (signed_key_id (reg_aci_pq_last_resort_pre_key request))
    (signed_public_key (reg_aci_pq_last_resort_pre_key request)) →
  ∃ b v', interp step (fetch_pre_key_bundles (Aci (env_new_aci e))) v = (Ok [b], v') ∧ usable (generate_identity seed).1 b d.
Proof.
  intros Hd Hps Haci Hh Hauth Had Hreq Hgood (Hid & _) Hks Hsk Hqk.
  destruct v as [auth n [st dd] so]. cbn [ww_server ww_count ww_auth snd fst] in *.
  destruct (fetch_all_run public_key_ok ad (client_account e phone_number request hash) (client_device e request hash) x
    (device_pre_key_bundle request) ps dd requester) as (key & ks' & d' & Hrun & Hout & _); [apply Hd|done|].
  change (aci (client_account e phone_number request hash)) with (env_new_aci e) in Hrun.
  destruct key as [key|]; [|by destruct Hout].
  assert (kept d DevicePreKeyStore (key_id key) (public_key key)) as Hk.
  { rewrite Forall_forall in Hks. apply Hks. cbn in Hout. rewrite Hout. by left. }
  assert (serve_http env server public_key_ok n (GetKeysIdDeviceId (credentials_of h) (service_id_string (Aci (env_new_aci e))) "*") (st, dd) =
    (Ok (inr (Keys {| response_service_id := service_id_string (Aci (env_new_aci e));
       response_identity_key := (generate_identity seed).1;
       devices := [{| item_device_id := 1; item_registration_id := registration_id (client_device e request hash); item_pre_key := Some key;
                      item_pq_pre_key := reg_aci_pq_last_resort_pre_key request;
                      item_signed_pre_key := reg_aci_signed_pre_key request |}] |})), (st, d'))) as Hserve.
  { unfold serve_http. cbn [serve]. rewrite authenticated_run, Had. cbn [fst]. cbv iota beta.
    unfold get_keys_id_device_id. rewrite (parse_service_id_string (Aci (env_new_aci e))) by done.
    rewrite api_lift_bind. cbn [ok_or]. unfold handler_of.
    erewrite api_bind_ok; [|rewrite interp_on_database; cbn [snd fst]; by rewrite Hrun].
    rewrite <- (gr_identity _ _ Hgood). reflexivity. }
  pose proof (fetch_run env server public_key_ok socket h (Aci (env_new_aci e))
    {| ww_auth := auth; ww_count := n; ww_server := (st, dd); ww_socket := so |} Hauth Hh Haci) as Hfetch.
  cbv zeta in Hfetch. cbn [ww_count ww_server] in Hfetch. rewrite Hserve in Hfetch.
  specialize (Hfetch ltac:(intros err [=])). unfold keys_outcome, fetched in Hfetch. rewrite read_written_pre_keys in Hfetch.
  rewrite (one_bundle _ _ _ _ _ _ d Hid Hk Hsk Hqk) in Hfetch.
  eexists _, _. split; [exact Hfetch|]. destruct Hgood as [_ _ _ [_ Hbs] [_ Hbk]].
  apply Forall_cons in Hbs as [Hbs _], Hbk as [Hbk _].
  split; cbn; [done|done|done|done|by eexists|]. split; [by apply signed_verifies|by apply kyber_key_verifies].
Qed.

(** *** The whole registration *)

Definition ascii_text : string → bool := string_all (λ c, (N_of_ascii c <? 128)%N).

Lemma string_all_substring f n k s : string_all f s = true → string_all f (String.substring n k s) = true.
Proof.
  revert n k. induction s as [|c s IH]; intros [|n] [|k]; cbn; try done; intros [Hc Hs]%andb_true_iff; [|by apply IH..].
  rewrite Hc. by apply IH.
Qed.

Lemma password_text bs : ascii_text (b64_encode bs) = true → utf8_valid (as_bytes (password_of bs)) = true.
Proof. intros Hb. apply utf8_ascii. by apply string_all_substring. Qed.

(** A socket that connects to the server at [server_url]. *)
Definition socket_connects (server_url : string) (cert_path : option string) (q_value : f32) (so : O) : Prop :=
  ∀ username password auth n sd, ∃ so',
    interp step (connect username password server_url cert_path) {| ww_auth := auth; ww_count := n; ww_server := sd; ww_socket := so |} =
      (Ok (Some q_value), {| ww_auth := auth; ww_count := n; ww_server := sd; ww_socket := so' |}).

Definition can_be_contacted (e : environment) (phone_number password : string) (request : RegistrationRequest) (bundle : SetKeyRequest)
    (v : web_world S O) : Prop :=
  ∃ ps hash x, set_pre_key bundle = Some ps ∧ has_account e phone_number password request ps hash x (ww_server v).2.

Lemma server_accepts seed server_url cert_path q_value phone_number (v : web_world S O) :
  let e := env (ww_count v) in
  takes_account e phone_number (ww_server v).2 → good_phone phone_number →
  (∀ seed, public_key_ok (generate_identity seed).1 = true) → (∀ bs, ascii_text (b64_encode bs) = true) →
  socket_connects server_url cert_path q_value (ww_socket v) →
  accepts (served_by server_url cert_path) (answer_to e phone_number) q_value phone_number (generate_identity seed) v
    (can_be_contacted e phone_number).
Proof.
  intros e Hd Hphone Hok Hascii Hconnects pwseed request Hreq. set (pw := password_of _).
  assert (utf8_valid (as_bytes pw) = true) as Hpw by by apply password_text.
  destruct (registering_run seed phone_number pw request v Hd Hphone Hpw Hok Hreq) as (hash & x & d' & Hrun & Haccount & Hroom).
  eexists _, _. split; [exact Hrun|]. split; [reflexivity|]. intros bundle Hb.
  match goal with |- context [served_by _ _ _ (Publish_pre_key_bundle _) ?v0] => set (v1 := v0) end.
  destruct (uploading_run seed e phone_number pw request hash x bundle v1 Haccount Hroom eq_refl (ta_aci _ _ _ Hd) Hpw Hreq Hb)
    as (ps & d2 & Hup & Hps & Haccount2).
  destruct (Hconnects (service_id_string (Aci (env_new_aci e))) pw (ww_auth v1) (Datatypes.S (ww_count v1)) ((ww_server v1).1, d2)) as [so' Hconn].
  eexists _, _. split; [exact Hup|]. split; [exact Hconn|]. by exists ps, hash, x.
Qed.
End end_to_end.

(** ** Properties *)

(** C9: a client that has just registered can be contacted: registering at the
    server's endpoints succeeds, with a new account for a phone number that is
    not taken, on a database with room for its keys; and the first client that
    asks the server, as the registration left it, for the keys of that account
    — any client that logs in with the credentials of an account — gets exactly
    one bundle, whose identity is the new client's, whose signatures that
    identity verifies, and whose signed, kyber and one-time keys are all in the
    new client's own database. *)
Theorem new_client_can_be_contacted `{Sqlite, HashOrder, HttpLibraries, Libsignal, Bincode, ServerText, ScanOrder, Kdf, Signatures,
      LinkCodes, KeyGeneration, !SigningKeys, !PublicKeys} {S O : Type}
    (env : nat → environment) (server : handler serverE string S) (public_key_ok : bytes → bool)
    (socket : handler transportE SignalClientError O) (server_url : string) (cert_path : option string) (q_value : f32)
    (name phone_number alias : string) (w : setup_world (web_world S O))
    (Hdb : su_db w = empty_client_db) (Hclock : in_u64 (su_clock w) = true)
    (Hserver : takes_account (env (ww_count (su_server w))) phone_number (ww_server (su_server w)).2) (Hphone : good_phone phone_number)
    (Hvalid : ∀ seed, public_key_ok (generate_identity seed).1 = true)
    (Hascii : ∀ bs, ascii_text (b64_encode bs) = true)
    (Hpadded : ∀ bs, length bs = PASSWORD_LENGTH → 2 ≤ Z.of_nat (String.length (b64_encode bs)))
    (Hsign : can_sign (generate_identity (su_seed w + 2))) (Hread : readable (generate_identity (su_seed w + 2)))
    (Hconnects : socket_connects env server public_key_ok socket server_url cert_path q_value (ww_socket (su_server w))) :
  let step := web_step env server public_key_ok socket in
  let identity := generate_identity (su_seed w + 2) in
  ∃ c w', interp (setup_step (served_by env server public_key_ok socket server_url cert_path)) (register name phone_number alias) w = (Ok c, w') ∧
    client_aci c = env_new_aci (env (ww_count (su_server w))) ∧
    get_identity_key_pair (su_db w') = (Ok identity, su_db w') ∧
    ∀ h ad requester v, good_header h → ww_auth v = Some h → ww_server v = ww_server (su_server w') →
      interp (postgres public_key_ok) (from_request_parts (credentials_of h)) (ww_server v).2 = (Ok (inr ad), (ww_server v).2) →
      Postgres.get_account public_key_ok (Aci (aci (ad_account ad))) (ww_server v).2 = (Ok requester, (ww_server v).2) →
      ∃ b v', interp step (fetch_pre_key_bundles (Aci (client_aci c))) v = (Ok [b], v') ∧ usable identity.1 b (su_db w').
Proof.
  intros step identity. set (e := env _) in *.
  destruct (registration_run (served_by env server public_key_ok socket server_url cert_path) (answer_to e phone_number) q_value
    name phone_number alias w (can_be_contacted public_key_ok e phone_number)) as (c & w' & pw & request & bundle & Hrun & Hcontact & Hc);
    [done|done|by apply Hserver|done..|by apply server_accepts|].
  destruct Hc as [(Haci & _) _ Hid Hreq Hsigned Hkyber [Hgood Hkept]].
  destruct Hcontact as (ps & hash & x & Hps & Haccount). exists c, w'. split_and!; [done|done|done|].
  intros h ad requester v Hh Hauth Hv Had Hrequester. rewrite Haci. cbn [air_uuid answer_to].
  destruct (bundle_one_time _ _ _ Hkept) as (ps' & Hps' & Hids & Hks). rewrite Hps in Hps'. injection Hps' as <-.
  apply Forall_cons in Hsigned as [Hsk _], Hkyber as [Hqk _].
  apply (fetching_run env server public_key_ok socket (su_seed w + 2) e phone_number pw request ps hash x h ad requester v); try done.
  - by rewrite Hv.
  - by intros ->.
  - by apply Hserver.
Qed.

(** ** Witness *)

(** Signatures that [demo_signatures] verifies. *)
Program Definition demo_signer : KeyGeneration := {|
  generate_identity seed := ([x05], [x05]);
  generate_key_pair seed := ([x07; x08], [x09]);
  calculate_signature key m _ := inr (key ++ m);
  new_pre_key i k := demo_record i k.1 [];
  new_signed_pre_key i _ k s := demo_record i k.1 s;
  generate_kyber _ i key := inr (demo_record i [x0a] (key ++ [x0a]));
  record_id _ bs := (λ x, x.1.1) <$> demo_parts bs;
  record_public_key _ bs := (λ x, x.1.2) <$> demo_parts bs;
  record_signature _ bs := (λ x, x.2) <$> demo_parts bs;
  gen_range low _ _ := low;
  fill n _ := repeat x00 n;
|}.
Next Obligation. intros. unfold demo_parts, demo_record. by rewrite dec_enc. Qed.
Next Obligation. intros. unfold demo_parts, demo_record. by rewrite dec_enc. Qed.
Next Obligation. intros ???? [= <-]. cbn. unfold demo_parts, demo_record. rewrite dec_enc. by repeat split; eexists. Qed.
Next Obligation. cbn. lia. Qed.
Next Obligation. intros. apply repeat_length. Qed.

#[local] Existing Instances plain_sqlite demo_service_ids demo_libsignal demo_hash_order demo_bincode in_order demo_kdf demo_signatures
  demo_codes demo_text demo_web_libraries demo_http demo_signer.

#[local] Instance demo_signing : SigningKeys.
Proof.
  split.
  - intros seed m r s [= <-]. cbn. by rewrite bool_decide_true.
  - intros seed r i record k s [= <-]. cbn. unfold demo_parts, demo_record. rewrite dec_enc. intros [= <-] [= <-]. cbn. by rewrite bool_decide_true.
Qed.
#[local] Instance demo_public_keys : PublicKeys.
Proof. by split. Qed.

(** A socket that connects. *)
Definition demo_socket : handler transportE SignalClientError unit := λ X c s,
  match c in transportE X return outcome SignalClientError X * unit with
  | SocketActive => (Ok false, s)
  | TcpConnect _ _ => (Ok (inr tt), s)
  | SetKeepalive => (Ok true, s)
  | Handshake _ _ => (Ok (Some [("q-value", Some "0.6")]), s)
  | SetStream => (Ok (inr tt), s)
  | _ => (Panic "not asked", s)
  end.

(** The server has an account already, that of [demo_credentials]. *)
Definition demo_second (n : nat) : environment :=
  {| env_clock := 10 ^ 18 + Z.of_nat n; env_random := [x03]; env_new_aci := "cccccccc-cccc-4ccc-8ccc-cccccccccccc";
     env_new_pni := "dddddddd-dddd-4ddd-8ddd-dddddddddddd"; env_link_secret := Some "secret"; env_constraint _ := None |}.
Definition demo_visitor : setup_world (web_world unit unit) :=
  {| su_db := empty_client_db; su_manager := KeyManager_default; su_server := demo_web None demo_accounts; su_seed := 0;
     su_clock := 1700000000 |}.
Definition demo_server : handler serverApiE SignalClientError (web_world unit unit) :=
  served_by demo_second demo_idle (λ _, true) demo_socket "https://localhost:443" None.
Definition demo_registered : setup_world (web_world unit unit) :=
  (interp (setup_step demo_server) (register "Bob" "+4587654321" "bob") demo_visitor).2.

Lemma demo_takes_account : takes_account (demo_second 0) "+4587654321" demo_accounts.
Proof.
  split.
  - unfold demo_accounts. apply interp_invariant; [|apply empty_pg_wf]. intros X c d'. apply methods_keep_wf.
  - apply (Forall_map (λ x, (a_aci x.2, a_pni x.2)) (λ y, is_uuid y.1 = true ∧ ∃ u, is_uuid u = true ∧ y.2 = service_id_string (Pni u))).
    replace (map _ _) with [(sample_uuid, service_id_string (Pni (pni sample_account)))] by by vm_compute.
    constructor; [|constructor]. split; [by vm_compute|]. exists (pni sample_account). by split; vm_compute.
  - by vm_compute.
  - intros r Hr. repeat (apply elem_of_cons in Hr as [->|Hr]; [by vm_compute|]). by apply elem_of_nil in Hr.
  - by vm_compute.
  - by vm_compute.
  - intros s. by destruct s; vm_compute.
  - intros key pni_key v. by vm_compute.
  - done.
  - by vm_compute.
  - by vm_compute.
Qed.

Definition demo_asking (sd : unit * pg) : web_world unit unit :=
  {| ww_auth := Some demo_credentials; ww_count := 7; ww_server := sd; ww_socket := tt |}.

Lemma demo_socket_connects :
  socket_connects demo_second demo_idle (λ _, true) demo_socket "https://localhost:443" None f32_0_6 tt.
Proof. intros user pw auth n sd. by exists tt. Qed.

Lemma hex_ascii bs : ascii_text (hex_encode bs) = true.
Proof.
  induction bs as [|x bs IH]; [done|]. rewrite hex_encode_cons. unfold ascii_text in *. cbn [string_all]. rewrite IH. by destruct x.
Qed.

(** The account of [demo_credentials] is still there. *)
Definition demo_known (d : pg) : bool :=
  match (interp demo_postgres (from_request_parts (credentials_of demo_credentials)) d).1 with
  | Ok (inr ad) => match (Postgres.get_account (λ _, true) (Aci (aci (ad_account ad))) d).1 with Ok _ => true | _ => false end
  | _ => false
  end.
Lemma demo_known_as d :
  demo_known d = true → ∃ ad c, interp demo_postgres (from_request_parts (credentials_of demo_credentials)) d = (Ok (inr ad), d) ∧
    Postgres.get_account (λ _, true) (Aci (aci (ad_account ad))) d = (Ok c, d).
Proof.
  unfold demo_known. pose proof (from_request_parts_keeps (λ _, true) (credentials_of demo_credentials) d) as Hd. fold demo_postgres in Hd.
  destruct (interp demo_postgres _ d) as [[[e|ad]|e|e] d1]; cbn [fst snd] in *; intros Ho; try discriminate Ho. subst d1.
  pose proof (get_account_keeps (λ _, true) (Aci (aci (ad_account ad))) d d eq_refl) as Hc.
  destruct (Postgres.get_account _ _ d) as [[c|e|e] d1] eqn:Hget; cbn [fst snd] in *; try discriminate Ho. subst d1. exists ad, c. by split.
Qed.
Lemma demo_still_known : demo_known (ww_server (su_server demo_registered)).2 = true.
Proof. vm_compute. reflexivity. Qed.

Lemma new_client_can_be_contacted_witness :
  ∃ c b v', interp (setup_step demo_server) (register "Bob" "+4587654321" "bob") demo_visitor = (Ok c, demo_registered) ∧
    interp (web_step demo_second demo_idle (λ _, true) demo_socket) (fetch_pre_key_bundles (Aci (client_aci c))) (demo_asking (ww_server (su_server demo_registered))) = (Ok [b], v') ∧
    usable [x05] b (su_db demo_registered).
Proof.
  destruct (new_client_can_be_contacted demo_second demo_idle (λ _, true) demo_socket "https://localhost:443" None f32_0_6
    "Bob" "+4587654321" "bob" demo_visitor) as (c & w' & Hrun & _ & _ & Hcontact).
  - reflexivity.
  - vm_compute. reflexivity.
  - exact demo_takes_account.
  - split; vm_compute; reflexivity.
  - reflexivity.
  - exact hex_ascii.
  - intros bs Hl. change (2 <= Z.of_nat (String.length (hex_encode bs))).
    destruct bs as [|x bs]; [discriminate Hl|]. rewrite hex_encode_cons. cbn -[Z.of_nat]. lia.
  - split; intros; by eexists.
  - split_and!; done.
  - exact demo_socket_connects.
  - assert (w' = demo_registered) as -> by (unfold demo_registered, demo_server; by rewrite Hrun).
    assert (∀ sd, sd = ww_server (su_server demo_registered) → demo_known sd.2 = true → ∃ b v',
      interp (web_step demo_second demo_idle (λ _, true) demo_socket) (fetch_pre_key_bundles (Aci (client_aci c))) (demo_asking sd) =
        (Ok [b], v') ∧ usable [x05] b (su_db demo_registered)) as Hany.
    { intros sd Hsd Hk. destruct (demo_known_as _ Hk) as (ad & requester & Had & Hrequester).
      apply (Hcontact demo_credentials ad requester (demo_asking sd)); [split; vm_compute; reflexivity|reflexivity|exact Hsd|exact Had|exact Hrequester]. }
    destruct (Hany _ eq_refl demo_still_known) as (b & v' & Hfetch & Hb). exists c, b, v'. split; [exact Hrun|]. split; [exact Hfetch|exact Hb].
Defined.
