(* ===== verification/ClientReassembly.v ===== *)
(** The client puts its deniable payloads together: over its database, message
    by message, it is the in-order receiver of Chunk.v. *)
From S2P Require Export ClientReceive ClientSpec DenimIncoming.

Local Open Scope Z_scope.

(** ** The table of incoming chunks *)

(** The table holds the chunks, under rowids up to [n]. *)
Record incoming (n : Z) (d : client_db) (pend : list DenimChunk) : Prop := {
  in_sorted : by_rowid (d IncomingDeniableChunk);
  in_ids : Forall (λ i, in_u32 i = true) (map fst (d IncomingDeniableChunk));
  in_rows : pend = map snd (d IncomingDeniableChunk);
  in_largest : largest (map fst (d IncomingDeniableChunk)) ≤ n;
}.

(** Nothing but this table has changed. *)
Definition only_incoming (d d' : client_db) : Prop := ∀ r, r ≠ IncomingDeniableChunk → d' r = d r.

Lemma only_incoming_trans d1 d2 d3 : only_incoming d1 d2 → only_incoming d2 d3 → only_incoming d1 d3.
Proof. intros H1 H2 r Hr. by rewrite H2, H1. Qed.

Lemma empty_incoming n (d : client_db) : 0 ≤ n → d IncomingDeniableChunk = [] → incoming n d [].
Proof. intros Hn Hd. split; rewrite Hd; [constructor|constructor|done|done]. Qed.

Section table.
Context `{Sqlite, Libsignal}.

Lemma take_chunks_run (l : list (Z * DenimChunk)) : ∀ d : client_db,
  d IncomingDeniableChunk = l → by_rowid l → Forall (λ i, in_u32 i = true) (map fst l) →
  ∃ d', take_chunks l d = (Ok (map snd l), d') ∧ d' IncomingDeniableChunk = [] ∧ only_incoming d d'.
Proof.
  induction l as [|[i c] l IH]; intros d Hd Hs Hi; cbn [take_chunks].
  { exists d. by split_and!. }
  inversion_clear Hi as [|?? Hi1 Hi2].
  assert (d IncomingDeniableChunk = (i, c) :: l) as Hrows by done.
  set (d1 := c_delete IncomingDeniableChunk (λ y, y.1 =? i) d).
  assert (d1 IncomingDeniableChunk = l) as Hd1.
  { unfold d1, delete_rows. rewrite set_rows_eq, Hrows.
    rewrite filter_cons_False by (cbn; rewrite Z.eqb_refl; cbn; tauto).
    pose proof (by_rowid_nodup _ Hs) as Hnd. cbn in Hnd. apply NoDup_cons in Hnd as [Hni _].
    clear -Hni. induction l as [|x l IH]; [done|]. cbn in Hni. apply not_elem_of_cons in Hni as [Hx Hni].
    rewrite filter_cons_True; [by rewrite IH|]. rewrite (proj2 (Z.eqb_neq _ _)) by done. cbn. tauto. }
  destruct (IH d1 Hd1) as (d2 & Hrun & He & Ho); [by inversion Hs|done|].
  exists d2. split_and!; [|done|].
  - cbn [fst]. unfold get_u32. cbn in Hi1. rewrite Hi1. rewrite (stm_bind_ok _ _ d i d) by done.
    rewrite (stm_bind_ok _ _ d tt d1) by by apply execute_Ok.
    by rewrite (stm_bind_ok _ _ _ _ _ Hrun).
  - apply (only_incoming_trans _ d1); [|done]. intros r Hr. unfold d1, delete_rows. by rewrite set_rows_ne.
Qed.

Lemma take_incoming_run n d pend :
  scans_by_rowid → incoming n d pend →
  ∃ d', get_and_remove_incoming_deniable_chunks d = (Ok pend, d') ∧ incoming n d' [] ∧ only_incoming d d'.
Proof.
  intros Hscan [Hs Hi -> Hl].
  destruct (take_chunks_run (d IncomingDeniableChunk) d eq_refl Hs Hi) as (d' & Hrun & He & Ho).
  exists d'. split_and!; [| |done].
  - unfold get_and_remove_incoming_deniable_chunks, transaction.
    rewrite (stm_bind_ok _ _ d (d IncomingDeniableChunk) d) by (unfold Sql.query; by rewrite Hscan). by rewrite Hrun.
  - apply empty_incoming; [|done]. pose proof (largest_nonneg (map fst (d IncomingDeniableChunk))). lia.
Qed.

Lemma store_incoming_each cs : ∀ n d pend,
  incoming n d pend → n + len cs ≤ 2 ^ 32 - 1 →
  ∃ d', stm_each cs (λ c : DenimChunk, execute (λ d, arg (c_insert IncomingDeniableChunk c d))) d = (Ok tt, d') ∧
        incoming (n + len cs) d' (pend ++ cs) ∧ only_incoming d d'.
Proof.
  induction cs as [|c cs IH]; intros n d pend Hd Hroom; cbn [stm_each].
  { exists d. rewrite app_nil_r. change (len []) with 0. by rewrite Z.add_0_r. }
  rewrite len_cons in Hroom. pose proof (len_nonneg cs). destruct Hd as [Hs Hi -> Hl].
  set (l := d IncomingDeniableChunk) in *. set (i := 1 + largest (map fst l)).
  assert (1 ≤ i ≤ n + 1) as Hi1 by (unfold i; pose proof (largest_nonneg (map fst l)); lia).
  set (d1 := set_rows row IncomingDeniableChunk (l ++ [(i, c)]) d).
  assert (execute (λ d, arg (c_insert IncomingDeniableChunk c d)) d = (Ok tt, d1)) as Hrun1.
  { apply execute_Ok. unfold insert_row. rewrite existsb_never by done. fold l.
    rewrite new_rowid_next; [done|]. unfold max_rowid. lia. }
  assert (incoming (n + 1) d1 (map snd l ++ [c])) as Hd1.
  { split; unfold d1; rewrite set_rows_eq.
    - apply by_rowid_snoc; [done|]. unfold i. lia.
    - rewrite map_app. apply Forall_app. split; [done|]. repeat constructor. unfold in_u32. cbn [fst].
      apply andb_true_iff. split; apply Z.leb_le; lia.
    - by rewrite map_app.
    - etrans; [apply Z.eq_le_incl, largest_snoc|]. fold i. lia. }
  destruct (IH (n + 1) d1 _ Hd1 ltac:(lia)) as (d2 & Hrun2 & Hd2 & Ho). exists d2. split_and!.
  - by rewrite (stm_bind_ok _ _ _ _ _ Hrun1).
  - rewrite <- app_assoc in Hd2. rewrite len_cons. by replace (n + (1 + len cs)) with (n + 1 + len cs) by lia.
  - apply (only_incoming_trans _ d1); [|done]. intros r Hr. unfold d1. by rewrite set_rows_ne.
Qed.

Lemma store_incoming_run cs n d pend :
  incoming n d pend → n + len cs ≤ 2 ^ 32 - 1 →
  ∃ d', store_incoming_deniable_chunks cs d = (Ok tt, d') ∧ incoming (n + len cs) d' (pend ++ cs) ∧ only_incoming d d'.
Proof.
  intros Hd Hroom. destruct (store_incoming_each cs n d pend Hd Hroom) as (d' & Hrun & Hd').
  exists d'. split; [|done]. unfold store_incoming_deniable_chunks, transaction. by rewrite Hrun.
Qed.
End table.

(** ** One message *)

Section reassembly.
Context `{Bincode}.

(** On well-flagged chunks the client's loop is the server's. *)
Lemma assemble_is_create cs : ∀ b pend payloads r,
  b ≤ 0 → well_flagged b cs → no_dummies cs = cs →
  create_deniable_payloads_from payloads pend cs = Ok r → assemble pend payloads cs = Ok r.
Proof.
  induction cs as [|c cs IH]; intros b pend payloads r Hb Hf Hnd Hrun; [by cbn in *; simplify_eq|].
  unfold no_dummies in Hnd. rewrite filter_cons in Hnd. case_decide as Hd.
  2: { exfalso. assert (c ∈ c :: cs) as Hin by left. rewrite <- Hnd in Hin.
       apply list_elem_of_filter in Hin as [? _]. done. }
  injection Hnd as Hnd. cbn [well_flagged create_deniable_payloads_from assemble] in *.
  unfold is_dummy, is_final in *. unfold ChunkType.from_i32 in Hrun.
  rewrite (proj2 (Z.eqb_neq _ _)) in Hf, Hrun by done. destruct (flags c =? 2) eqn:H2.
  - cbn [mbind outcome_bind] in Hrun. rewrite map_app, concat_app. cbn [map concat]. rewrite app_nil_r.
    destruct (deserialize_payload _) as [p|]; [|done]. cbn in Hrun |- *. by apply (IH 0).
  - destruct Hf as [Hfc Hf]. rewrite (proj2 (Z.leb_le (flags c) 0)) in Hrun by lia.
    cbn [mbind outcome_bind] in Hrun. eapply (IH (flags c)); [lia|done|done|exact Hrun].
Qed.

Lemma assemble_no_final cs : ∀ pend payloads,
  has_final cs = false → assemble pend payloads cs = Ok (payloads, pend ++ cs).
Proof.
  induction cs as [|c cs IH]; intros pend payloads Hn; cbn in *; [by rewrite app_nil_r|].
  apply orb_false_iff in Hn as [-> Hn]. by rewrite IH, <- app_assoc.
Qed.

(** The chunks that stay after the loop are among those that came in. *)
Lemma assemble_rest cs : ∀ pend payloads ps rest,
  assemble pend payloads cs = Ok (ps, rest) → len rest ≤ len pend + len cs ∧ (has_final cs = true → len rest ≤ len cs).
Proof.
  induction cs as [|c cs IH]; intros pend payloads ps rest Hrun; cbn in Hrun.
  { simplify_eq. rewrite len_nil. split; [lia|done]. }
  rewrite len_cons. cbn [has_final existsb]. pose proof (len_nonneg pend). destruct (is_final c) eqn:Hc; cbn [orb].
  - destruct (deserialize_payload _); [|done]. cbn in Hrun. apply IH in Hrun as [Hr _].
    rewrite len_nil in Hr. lia.
  - apply IH in Hrun as [Hr Hr']. rewrite len_app, len_cons, len_nil in Hr. split; [lia|]. intros Hf. specialize (Hr' Hf). lia.
Qed.
End reassembly.

Section client.
Context `{Sqlite, Base64, ServiceIdText, Libsignal, HashOrder, Bincode} {S : Type}.
Context (server : handler serverApiE SignalClientError S).

Lemma interp_db {X A} (c : clientE X) (k : X → capp A) (w : client_world S) x d :
  device X c (cw_db w) = (Ok x, d) →
  interp (client_step server) (db c ≫= k) w = interp (client_step server) (k x) (with_db w d).
Proof. intros Hc. unfold db. rewrite !interp_bind, interp_op. cbn [client_step]. by rewrite Hc. Qed.

Definition received (n : Z) (w : client_world S) (pend : list DenimChunk) : Prop := incoming n (cw_db w) pend.
(** Only the table of incoming chunks has changed. *)
Definition only_received (w w' : client_world S) : Prop :=
  ∃ d, w' = with_db w d ∧ only_incoming (cw_db w) d.

Lemma only_received_refl w : only_received w w.
Proof. exists (cw_db w). split; [by destruct w|done]. Qed.
Lemma only_received_db w d : only_incoming (cw_db w) d → only_received w (with_db w d).
Proof. by exists d. Qed.
Lemma only_received_trans w1 w2 w3 : only_received w1 w2 → only_received w2 w3 → only_received w1 w3.
Proof.
  intros (d1 & -> & Ho1) (d2 & -> & Ho2). exists d2. split; [done|]. by eapply only_incoming_trans.
Qed.

Lemma store_rest_run n rest pend w :
  received n w pend → n + len rest ≤ 2 ^ 32 - 1 →
  ∃ w', interp (client_step server)
      (match rest with [] => Ret tt | _ => db (Store_incoming_deniable_chunks rest) end) w = (Ok tt, w') ∧
    received (n + len rest) w' (pend ++ rest) ∧ only_received w w'.
Proof.
  intros Hw Hroom. destruct rest as [|c rest].
  - exists w. rewrite app_nil_r. change (len []) with 0. rewrite Z.add_0_r. split_and!; [done|done|apply only_received_refl].
  - destruct (store_incoming_run (c :: rest) n (cw_db w) pend Hw Hroom) as (d & Hrun & Hd & Ho).
    exists (with_db w d). split_and!; [|done|by apply only_received_db].
    unfold db. rewrite interp_bind, interp_op. cbn [client_step device]. by rewrite Hrun.
Qed.

Lemma filter_no_dummies cs : filter (λ c, ¬ is_dummy c) cs = no_dummies cs.
Proof.
  unfold no_dummies. induction cs as [|c cs IH]; [done|]. rewrite !filter_cons. unfold is_dummy.
  destruct (flags c =? 1) eqn:Hc; zbool.
  - rewrite decide_False by (cbn; tauto). by rewrite decide_False by tauto.
  - rewrite decide_True by (cbn; tauto). rewrite decide_True by done. by f_equal.
Qed.

Lemma handle_run n w pend b cs ds acc ps :
  scans_by_rowid → received n w pend → pending_ok b pend → b ≤ 0 → well_flagged b cs → no_dummies cs = cs →
  absorb (joined pend) cs = (ds, acc) → payloads_of ds ps → n + len cs ≤ 2 ^ 32 - 1 →
  ∃ w' b' pend', interp (client_step server) (handle_incoming_chunks cs) w = (Ok ps, w') ∧
    received (n + len cs) w' pend' ∧ joined pend' = acc ∧ b' ≤ 0 ∧ pending_ok b' pend' ∧
    (∀ es, well_flagged b (cs ++ es) → well_flagged b' es) ∧ only_received w w'.
Proof.
  intros Hscan Hw Hp Hb Hf Hnd Ha Hps Hroom. unfold handle_incoming_chunks. fold (has_final cs).
  destruct (has_final cs) eqn:Hfinal.
  - destruct (take_incoming_run n (cw_db w) pend Hscan Hw) as (d1 & Hrun1 & Hd1 & Ho1).
    rewrite (interp_db _ _ w pend d1) by done.
    destruct (create_from_absorb cs b pend [] ds acc ps Hb Hp Hf Ha Hps) as (pend' & b' & Hc & Hj & Hb' & Hp' & Hes).
    apply (assemble_is_create cs b) in Hc; [|done..].
    destruct (assemble_rest _ _ _ _ _ Hc) as [_ Hrest]. specialize (Hrest Hfinal).
    rewrite interp_bind, interp_lift, Hc.
    destruct (store_rest_run n pend' [] (with_db w d1) Hd1 ltac:(lia)) as (w2 & Hrun2 & Hw2 & Ho2).
    rewrite (interp_bind_ok _ _ _ _ _ _ Hrun2). exists w2, b', pend'. split_and!; try done.
    + destruct Hw2 as [Hs Hi Hr Hl]. split; [done..|]. lia.
    + eapply only_received_trans; [by apply only_received_db|done].
  - cbn [mbind prog_mbind prog_bind interp]. rewrite assemble_no_final by done. cbn [lift interp app].
    pose proof (absorb_no_final _ _ _ _ Hfinal Ha) as ->. inversion Hps; subst.
    destruct (pending_extend b pend cs Hb Hp Hf Hnd Hfinal) as (b' & Hb' & Hp' & Hes).
    destruct (store_rest_run n cs pend w Hw Hroom) as (w2 & Hrun2 & Hw2 & Ho2).
    rewrite interp_bind. cbn [interp]. rewrite (interp_bind_ok _ _ _ _ _ _ Hrun2).
    exists w2, b', (pend ++ cs). split_and!; try done.
    destruct (create_from_absorb cs b pend [] [] acc [] Hb Hp Hf Ha ltac:(constructor)) as (pend2 & b2 & Hc & Hj & _).
    apply (assemble_is_create cs b) in Hc; [|done..]. rewrite assemble_no_final in Hc by done. by injection Hc as <-.
Qed.

Lemma receive_run n w pend b cs ds acc ps :
  scans_by_rowid → received n w pend → pending_ok b pend → b ≤ 0 → well_flagged b cs →
  absorb (joined pend) cs = (ds, acc) → payloads_of ds ps → n + len cs ≤ 2 ^ 32 - 1 →
  ∃ w' b' pend', interp (client_step server) (receive_client_chunks cs) w = (Ok ps, w') ∧
    received (n + len cs) w' pend' ∧ joined pend' = acc ∧ b' ≤ 0 ∧ pending_ok b' pend' ∧
    (∀ es, well_flagged b (cs ++ es) → well_flagged b' es) ∧ only_received w w'.
Proof.
  intros Hscan Hw Hp Hb Hf Ha Hps Hroom. unfold receive_client_chunks. rewrite filter_no_dummies.
  rewrite <- absorb_no_dummies in Ha.
  assert (len (no_dummies cs) ≤ len cs) as Hlen by (unfold len, no_dummies; pose proof (length_filter (λ c, flags c ≠ 1) cs); lia).
  pose proof (λ es, well_flagged_no_dummies b cs es) as Hfd.
  assert (well_flagged b (no_dummies cs)) as Hf' by (rewrite <- (app_nil_r (no_dummies cs)); apply Hfd; by rewrite app_nil_r).
  destruct (no_dummies cs) as [|c cs'] eqn:Hcs.
  - cbn in Ha. simplify_eq. inversion Hps; subst. exists w, b, pend. split_and!; try done; try apply Hp.
    + destruct Hw as [Hs Hi Hr Hl]. split; [done..|]. pose proof (len_nonneg cs). lia.
    + apply only_received_refl.
  - destruct (handle_run n w pend b (c :: cs') ds acc ps) as (w' & b' & pend' & Hrun & Hw' & Hj & Hb' & Hp' & Hes & Ho);
      try done; [by rewrite <- Hcs, no_dummies_idemp|lia|].
    exists w', b', pend'. split_and!; try done; try apply Hp'.
    + destruct Hw' as [Hs Hi Hr Hl]. split; [done..|]. lia.
    + intros es Hwf. by apply Hes, Hfd.
Qed.

(** Message after message. *)
Definition receive_messages (batches : list (list DenimChunk)) : capp (list DeniablePayload) :=
  for_each batches [] (λ batch out, ps ← receive_client_chunks batch; Ret (out ++ ps)).

Lemma receive_messages_run batches : ∀ n w pend b ds acc ps out,
  scans_by_rowid → received n w pend → pending_ok b pend → b ≤ 0 → well_flagged b (concat batches) →
  absorb (joined pend) (concat batches) = (ds, acc) → payloads_of ds ps → n + len (concat batches) ≤ 2 ^ 32 - 1 →
  ∃ w' pend', interp (client_step server)
      (for_each batches out (λ batch out, ps ← receive_client_chunks batch; Ret (out ++ ps))) w = (Ok (out ++ ps), w') ∧
    received (n + len (concat batches)) w' pend' ∧ joined pend' = acc ∧ only_received w w'.
Proof.
  induction batches as [|cs batches IH]; intros n w pend b ds acc ps out Hscan Hw Hp Hb Hf Ha Hps Hroom.
  { cbn in Ha. simplify_eq. inversion Hps; subst. exists w, pend. rewrite app_nil_r. change (len (concat [])) with 0.
    rewrite Z.add_0_r. split_and!; [done|done|done|apply only_received_refl]. }
  cbn [concat for_each] in *. rewrite len_app in *. pose proof (len_nonneg cs). pose proof (len_nonneg (concat batches)).
  apply absorb_app_inv in Ha as (ds1 & acc1 & ds2 & Ha1 & Ha2 & ->).
  apply Forall2_app_inv_l in Hps as (ps1 & ps2 & Hps1 & Hps2 & ->).
  destruct (receive_run n w pend b cs ds1 acc1 ps1 Hscan Hw Hp Hb (well_flagged_app_l _ _ _ Hf) Ha1 Hps1 ltac:(lia))
    as (w1 & b1 & pend1 & Hrun & Hw1 & Hj & Hb1 & Hp1 & Hes & Ho1).
  rewrite interp_bind, interp_bind, Hrun. cbn [interp].
  destruct (IH (n + len cs) w1 pend1 b1 ds2 acc ps2 (out ++ ps1)) as (w2 & pend2 & Hrun2 & Hw2 & Hj2 & Ho2);
    [done|done|done|done|by apply Hes|by rewrite Hj|done|lia|].
  exists w2, pend2. rewrite Hrun2, <- app_assoc. split_and!; [done| |done|by eapply only_received_trans].
  by replace (n + (len cs + len (concat batches))) with (n + len cs + len (concat batches)) by lia.
Qed.
End client.

(** ** Properties *)

(** C8: a client gets the deniable payloads it is sent: whatever the server
    does otherwise, receiving the chunks of some messages, with dummies among
    them, gives exactly the payloads an in-order receiver reads from the whole
    stream, message by message and each once; the bytes of a payload that is
    not finished are in the table of incoming chunks, and nothing else of the
    client has changed.  The database is taken to return the rows of this table
    in the order of their ids, which the statement does not ask for. *)
Theorem client_assembles_payloads `{Sqlite, Base64, ServiceIdText, Libsignal, HashOrder, Bincode} {S}
    (server : handler serverApiE SignalClientError S) (w : client_world S)
    (batches : list (list DenimChunk)) (ps : list DeniablePayload) (acc : bytes)
    (Hscan : scans_by_rowid) (Hempty : cw_db w IncomingDeniableChunk = [])
    (Hflags : well_flagged 0 (concat batches))
    (Hstream : absorb [] (concat batches) = (map serialize_payload ps, acc))
    (Hroom : len (concat batches) ≤ 2 ^ 32 - 1) :
  ∃ w', interp (client_step server) (receive_messages batches) w = (Ok ps, w') ∧
    joined (map snd (cw_db w' IncomingDeniableChunk)) = acc ∧ only_received w w'.
Proof.
  destruct (receive_messages_run server batches 0 w [] 0 (map serialize_payload ps) acc ps [] Hscan) as (w' & pend' & Hrun & Hw' & Hj & Ho);
    [by apply empty_incoming|apply pending_ok_nil|done|done|done|apply payloads_of_serialized|lia|].
  exists w'. split_and!; [done| |done]. destruct Hw' as [_ _ <- _]. done.
Qed.

Definition no_server : handler serverApiE SignalClientError unit := λ X _ s, (Err (WebSocketError "no server"), s).
Definition demo_client : Client :=
  {| alias := "bob"; client_aci := ""; client_pni := ""; contact_manager := ∅;
     key_manager := {| km_signed := 1; km_kyber := 1; km_one_time := 1 |}; chunker := Chunker_default |}.
Definition demo_world : client_world unit :=
  {| cw_db := empty_client_db; cw_self := demo_client; cw_server := tt; cw_seed := 0; cw_now := 0 |}.
Definition demo_client_step : handler appE SignalClientError (client_world unit) :=
  client_step (H := plain_sqlite) (H1 := demo_service_ids) (H2 := demo_libsignal) (H3 := demo_hash_order) no_server.

Definition demo_batches : list (list DenimChunk) :=
  let bs := serialize_payload demo_payload in
  [[{| chunk := take 3 bs; flags := 0 |}; {| chunk := [x00]; flags := 1 |}];
   [{| chunk := take 4 (drop 3 bs); flags := -1 |}];
   [{| chunk := drop 7 bs; flags := 2 |}; {| chunk := take 5 bs; flags := 0 |}]].

Lemma client_assembles_payloads_witness :
  ∃ w', interp demo_client_step (receive_messages demo_batches) demo_world = (Ok [demo_payload], w') ∧
    joined (map snd (cw_db w' IncomingDeniableChunk)) = take 5 (serialize_payload demo_payload).
Proof.
  destruct (client_assembles_payloads (H := plain_sqlite) (H1 := demo_service_ids) (H2 := demo_libsignal) (H3 := demo_hash_order)
    no_server demo_world demo_batches [demo_payload] (take 5 (serialize_payload demo_payload))) as (w' & Hrun & Hj & _).
  - by intros A l _.
  - done.
  - vm_compute. repeat split; discriminate.
  - vm_compute. reflexivity.
  - vm_compute. discriminate.
  - by exists w'.
Defined.
