(* ===== verification/ClientContacts.v ===== *)
(** The client's contacts: the map it keeps in memory and the table it keeps
    them in say the same, so that a client that logs in again has the
    contacts it had. *)
From S2P Require Export ClientReassembly.

Local Open Scope Z_scope.

(** ** Device ids as text *)

Lemma split_on_join c l :
  l ≠ [] → Forall (λ s, string_mem c s = false) l → split_on c (ClientDb.join (String c "") l) = l.
Proof.
  intros Hne Hl. induction Hl as [|s l Hs Hl IH]; [done|]. destruct l as [|s' l].
  - by apply split_on_free.
  - change (ClientDb.join (String c "") (s :: s' :: l)) with (s +:+ String c (ClientDb.join (String c "") (s' :: l))).
    rewrite split_on_app by done. by rewrite IH.
Qed.

Lemma show_not_empty z : in_u32 z = true → show z ≠ "".
Proof. intros Hz He. pose proof (parse_u32_show z Hz) as Hp. by rewrite He in Hp. Qed.

Lemma join_not_empty sep s l : s ≠ "" → ClientDb.join sep (s :: l) ≠ "".
Proof. intros Hs. destruct l; cbn [ClientDb.join]; [done|]. destruct s as [|a s]; [done|]. by rewrite append_cons. Qed.

Lemma collect_shown {E} (e : E) l :
  Forall (λ i, in_u32 i = true) l → collect (λ id, ok_or e (parse_u32 id)) (map show l) = Ok l.
Proof.
  induction 1 as [|i l Hi Hl IH]; [done|]. cbn [map collect]. rewrite parse_u32_show by done.
  cbn. by rewrite IH.
Qed.

Section texts.
Context `{Libsignal, HashOrder}.

Definition contact_text (ids : gset Z) : string := ClientDb.join "," (map show (hash_iter ids)).

Lemma contact_text_read ids :
  (∀ i, i ∈ ids → in_u32 i = true) → parse_device_ids (contact_text ids) = Ok ids.
Proof.
  intros Hids. pose proof (hash_iter_perm ids) as Hp. unfold contact_text, parse_device_ids.
  assert (Forall (λ i, in_u32 i = true) (hash_iter ids)) as Hf.
  { rewrite Hp. apply Forall_forall. intros i Hi. apply Hids. by apply elem_of_elements. }
  assert (list_to_set (hash_iter ids) = ids) as Hset by (rewrite (list_to_set_perm_L _ _ Hp); apply list_to_set_elements_L).
  destruct (hash_iter ids) as [|i l] eqn:Hl; [cbn in *; by subst|].
  inversion_clear Hf as [|?? Hi Hf']. rewrite decide_False by (cbn [map]; by apply join_not_empty, show_not_empty).
  change "," with (String "," "") at 1. rewrite split_on_join; [|done|].
  - rewrite collect_shown by by constructor. cbn [mbind outcome_bind]. by rewrite Hset.
  - apply Forall_map, Forall_forall. intros j _. by apply string_mem_show.
Qed.
End texts.

(** ** The map and the table *)

Definition contact_ok (s : ServiceId) (c : Contact) : Prop :=
  contact_service_id c = s ∧ is_uuid (uuid_of s) = true ∧ ∀ i, i ∈ device_ids c → in_u32 i = true.

Record synced `{Libsignal} (d : client_db) (m : ContactManager.t) : Prop := {
  sy_ok : client_ok d;
  sy_contacts s c : m !! s = Some c → contact_ok s c;
  sy_stored s c : m !! s = Some c → ∃ text,
    text_at Contacts (service_id_string s) d = Some text ∧ parse_device_ids text = Ok (device_ids c);
  sy_only key text : text_at Contacts key d = Some text → ∃ s c, key = service_id_string s ∧ m !! s = Some c;
}.

Lemma service_id_string_inj `{ServiceIdText} s s' :
  is_uuid (uuid_of s) = true → is_uuid (uuid_of s') = true → service_id_string s = service_id_string s' → s = s'.
Proof.
  intros Hs Hs' Heq. apply (f_equal parse_from_service_id_string) in Heq.
  rewrite !parse_service_id_string in Heq by done. by injection Heq.
Qed.

Lemma empty_synced `{Libsignal} d : client_ok d → d (Text Contacts) = [] → synced d ∅.
Proof.
  intros Hd He. split; [done|intros s c; by rewrite lookup_empty..|].
  intros key text. unfold text_at. by rewrite He.
Qed.

(** The other tables do not matter. *)
Lemma synced_other `{Libsignal} d d' m :
  synced d m → client_ok d' → d' (Text Contacts) = d (Text Contacts) → synced d' m.
Proof.
  intros [Hok Hc Hs Ho] Hd' Heq. split; [done|done|..]; unfold text_at; rewrite Heq; [apply Hs|apply Ho].
Qed.

(** *** Loading *)

Lemma row_text_at (d : client_db) t x :
  client_ok d → x ∈ d (Text t) → text_at t (t_key x.2) d = Some (t_text x.2).
Proof.
  intros Hd Hx. unfold text_at.
  assert (x ∈ filter (λ y, t_key y.2 = t_key x.2) (d (Text t))) as Hf by by apply list_elem_of_filter.
  assert (length (filter (λ y, t_key y.2 = t_key x.2) (d (Text t))) ≤ 1)%nat as Hl.
  { apply (unique_filter (clash (Text t))); [|apply (Hd (Text t))].
    intros y z Hy Hz. cbn. apply bool_decide_eq_true. congruence. }
  destruct (filter _ _) as [|y [|z l]]; [by apply elem_of_nil in Hf| |cbn in Hl; lia].
  apply list_elem_of_singleton in Hf. by subst.
Qed.

Lemma text_at_row (d : client_db) t key text :
  text_at t key d = Some text → ∃ x, x ∈ d (Text t) ∧ t_key x.2 = key ∧ t_text x.2 = text.
Proof.
  unfold text_at. destruct (filter _ _) as [|x l] eqn:Hf; [done|]. cbn. intros [= <-]. exists x.
  assert (x ∈ filter (λ x, t_key x.2 = key) (d (Text t))) as Hx by (rewrite Hf; left).
  apply list_elem_of_filter in Hx. tauto.
Qed.

Lemma collect_Forall {E A B} (f : A → outcome E B) l :
  Forall (λ x, ∃ y, f x = Ok y) l → ∃ ys, collect f l = Ok ys ∧ Forall2 (λ x y, f x = Ok y) l ys.
Proof.
  induction 1 as [|x l (y & Hy) _ (ys & Hys & Hf)]; [by exists []|]. exists (y :: ys). cbn. rewrite Hy. cbn.
  rewrite Hys. split; [done|by constructor].
Qed.

Lemma index_contacts_eq (m : ContactManager.t) cs :
  (∀ c, c ∈ cs → m !! contact_service_id c = Some c) → (∀ s c, m !! s = Some c → c ∈ cs ∧ contact_service_id c = s) →
  index_contacts cs = m.
Proof.
  intros Hcs Hm. unfold index_contacts.
  assert (∀ acc, acc ⊆ m →
    foldl (λ c contact, <[contact_service_id contact := contact]> c) acc cs ⊆ m ∧
    acc ⊆ foldl (λ c contact, <[contact_service_id contact := contact]> c) acc cs ∧
    ∀ c, c ∈ cs → foldl (λ c contact, <[contact_service_id contact := contact]> c) acc cs !! contact_service_id c = Some c) as Hf.
  { clear Hm. induction cs as [|c cs IH]; intros acc Hacc; cbn [foldl].
    { split_and!; [done..|]. intros c Hc. by apply elem_of_nil in Hc. }
    pose proof (Hcs c ltac:(left)) as Hc.
    assert (<[contact_service_id c := c]> acc ⊆ m) as Hacc' by (by apply insert_subseteq_l).
    assert (acc ⊆ <[contact_service_id c := c]> acc) as Hsub.
    { apply map_subseteq_spec. intros s c' Hs. destruct (decide (contact_service_id c = s)) as [<-|Hne];
        [|by rewrite lookup_insert_ne]. rewrite lookup_insert_eq.
      rewrite map_subseteq_spec in Hacc. specialize (Hacc _ _ Hs). congruence. }
    destruct (IH ltac:(intros c' Hc'; apply Hcs; by right) _ Hacc') as (H1 & H2 & H3).
    split_and!; [done|by etrans|]. intros c' [->|Hc']%elem_of_cons; [|by apply H3].
    rewrite map_subseteq_spec in H2. apply H2. apply lookup_insert_eq. }
  destruct (Hf ∅ (map_empty_subseteq m)) as (H1 & _ & H3).
  apply (anti_symm (⊆)); [done|]. apply map_subseteq_spec. intros s c Hs.
  destruct (Hm s c Hs) as [Hc <-]. by apply H3.
Qed.

Lemma load_synced `{Sqlite, ServiceIdText, Libsignal} d m :
  synced d m → ∃ cs, load_contacts d = (Ok cs, d) ∧ index_contacts cs = m.
Proof.
  intros [Hok Hc Hs Ho].
  assert (∀ x, x ∈ d (Text Contacts) → ∃ c, contact_of_row x = Ok c ∧ m !! contact_service_id c = Some c) as Hrow.
  { intros x Hx. pose proof (row_text_at d Contacts x Hok Hx) as Hat.
    destruct (Ho _ _ Hat) as (s & c & Hkey & Hm). destruct (Hs s c Hm) as (text & Hat' & Hp).
    destruct (Hc s c Hm) as (Hid & Huuid & _). exists c. rewrite Hid. split; [|done].
    rewrite Hkey in Hat. rewrite Hat in Hat'. injection Hat' as <-.
    unfold contact_of_row. rewrite Hp, Hkey. cbn. rewrite parse_service_id_string by done. cbn.
    f_equal. destruct c. cbn in *. by subst. }
  pose proof (rowids_scan_perm (d (Text Contacts))) as Hperm.
  destruct (collect_Forall contact_of_row (rowids_scan (d (Text Contacts)))) as (cs & Hrun & Hcs).
  { rewrite Hperm. apply Forall_forall. intros x Hx. destruct (Hrow x Hx) as (c & Hcr & _). by exists c. }
  exists cs. split; [unfold load_contacts, Sql.query; by rewrite Hrun|].
  apply index_contacts_eq.
  - intros c Hin. apply list_elem_of_lookup in Hin as [i Hi].
    destruct (Forall2_lookup_r _ _ _ _ _ Hcs Hi) as (x & Hx & Hcr).
    assert (x ∈ d (Text Contacts)) as Hxd by (rewrite <- Hperm; by eapply list_elem_of_lookup_2).
    destruct (Hrow x Hxd) as (c' & Hcr' & Hm). congruence.
  - intros s c Hm. destruct (Hc s c Hm) as (Hid & _). split; [|done].
    destruct (Hs s c Hm) as (text & Hat & _). apply text_at_row in Hat as (x & Hx & Hkey & _).
    destruct (Hrow x Hx) as (c' & Hcr & Hm').
    assert (x ∈ rowids_scan (d (Text Contacts))) as Hxs by by rewrite Hperm.
    apply list_elem_of_lookup in Hxs as [i Hi].
    destruct (Forall2_lookup_l _ _ _ _ _ Hcs Hi) as (c2 & Hi2 & Hcr2).
    assert (c2 = c') as -> by congruence.
    assert (c' = c) as <-; [|by eapply list_elem_of_lookup_2].
    unfold contact_of_row in Hcr. rewrite Hkey in Hcr. destruct (Hc s c Hm) as (_ & Huuid & _).
    rewrite parse_service_id_string in Hcr by done. destruct (parse_device_ids _); [|done..]. cbn in Hcr.
    injection Hcr as <-. cbn in Hm'. congruence.
Qed.

(** *** Storing and removing *)

Section storing.
Context `{Sqlite, ServiceIdText, Libsignal, HashOrder}.

Lemma unknown_text d m s :
  synced d m → is_uuid (uuid_of s) = true → m !! s = None → text_at Contacts (service_id_string s) d = None.
Proof.
  intros [_ Hc _ Ho] Hs Hm. destruct (text_at _ _ _) as [text|] eqn:Hat; [|done].
  destruct (Ho _ _ Hat) as (s' & c & Heq & Hm'). destruct (Hc _ _ Hm') as (_ & Hs' & _).
  apply service_id_string_inj in Heq; [congruence|done|done].
Qed.

Lemma store_contact_run d m s c n :
  synced d m → contact_ok s c → (m !! s = None → room (Text Contacts) (n + 1) d) → room (Text Contacts) n d → 0 ≤ n →
  ∃ d', store_contact c d = (Ok tt, d') ∧ synced d' (<[s := c]> m) ∧ room (Text Contacts) n d' ∧
        ∀ r, r ≠ Text Contacts → d' r = d r.
Proof.
  intros Hd Hc Hroom Hn Hpos. pose proof Hd as [Hok Hcs Hst Ho]. destruct Hc as (Hid & Huuid & Hids).
  assert (text_at Contacts (service_id_string s) d = None → room (Text Contacts) (n + 1) d) as Hroom'.
  { intros Hat. apply Hroom. destruct (m !! s) as [c'|] eqn:Hm; [|done]. destruct (Hst s c' Hm) as (? & ? & _). congruence. }
  destruct (upsert_text_run Contacts (service_id_string s) (contact_text (device_ids c)) d Hok) as (d' & Hrun & Hok' & Hat & Hr & Hl).
  { intros Hnone. specialize (Hroom' Hnone). unfold room in *. lia. }
  exists d'. split_and!; [|split| |done].
  - unfold store_contact. by rewrite Hid.
  - done.
  - intros s' c'. destruct (decide (s' = s)) as [->|Hne]; [|rewrite lookup_insert_ne by done; apply Hcs].
    rewrite lookup_insert_eq. intros [= <-]. done.
  - intros s' c'. destruct (decide (s' = s)) as [->|Hne].
    + rewrite lookup_insert_eq. intros [= <-]. exists (contact_text (device_ids c)).
      rewrite Hat, decide_True by done. split; [done|by apply contact_text_read].
    + rewrite lookup_insert_ne by done. intros Hm. destruct (Hst s' c' Hm) as (text & Hat' & Hp). exists text.
      destruct (Hcs s' c' Hm) as (_ & Huuid' & _).
      rewrite Hat, decide_False; [done|]. intros Heq. by apply service_id_string_inj in Heq.
  - intros key text. rewrite Hat. case_decide as Hkey.
    + intros _. exists s, c. by rewrite lookup_insert_eq.
    + intros Hk. destruct (Ho key text Hk) as (s' & c' & -> & Hm). exists s', c'. split; [done|].
      rewrite lookup_insert_ne; [done|]. congruence.
  - destruct (text_at Contacts (service_id_string s) d) eqn:Hs; [|by apply Hl, Hroom'].
    assert (map fst (d' (Text Contacts)) = map fst (d (Text Contacts))) as Heq; [|unfold room in *; by rewrite Heq].
    revert Hrun. unfold upsert_text, execute, run, upsert_row.
    rewrite existsb_key, Hs, bool_decide_true by done. unfold update_rows. rewrite update_text_rows.
    destruct (clashes _ _); [done|]. cbn. intros [= <-]. rewrite set_rows_eq, map_map. done.
Qed.

Lemma remove_contact_run d m s c n :
  synced d m → m !! s = Some c → room (Text Contacts) n d →
  ∃ d', ClientDb.remove_contact s d = (Ok tt, d') ∧ synced d' (delete s m) ∧ room (Text Contacts) n d' ∧
        ∀ r, r ≠ Text Contacts → d' r = d r.
Proof.
  intros [Hok Hcs Hst Ho] Hm Hroom. destruct (Hcs s c Hm) as (_ & Huuid & _).
  destruct (delete_text_run Contacts (service_id_string s) d Hok) as (d' & Hrun & Hok' & Hat & Hr).
  exists d'. split_and!; [done|split|..|done].
  - done.
  - intros s' c' Hs'. apply lookup_delete_Some in Hs' as [_ Hs']. by apply Hcs.
  - intros s' c' Hs'. apply lookup_delete_Some in Hs' as [Hne Hs']. destruct (Hst s' c' Hs') as (text & Hat' & Hp).
    exists text. destruct (Hcs s' c' Hs') as (_ & Huuid' & _).
    rewrite Hat, decide_False; [done|]. intros Heq. by apply service_id_string_inj in Heq.
  - intros key text. rewrite Hat. case_decide as Hkey; [done|]. intros Hk.
    destruct (Ho key text Hk) as (s' & c' & -> & Hm'). exists s', c'. split; [done|].
    rewrite lookup_delete_ne; [done|]. congruence.
  - revert Hrun. unfold ClientDb.remove_contact, delete_text, execute, run. cbn. intros [= <-].
    unfold room, delete_rows in *. rewrite set_rows_eq.
    assert (∀ l : list (Z * text_row), largest (map fst (filter (λ x, ¬ bool_decide (t_key x.2 = service_id_string s)) l)) ≤ largest (map fst l)) as Hle.
    { induction l as [|x l IH]; [done|]. rewrite filter_cons. cbn [map]. rewrite largest_cons.
      case_decide; [cbn [map]; rewrite largest_cons|]; lia. }
    specialize (Hle (d (Text Contacts))). etrans; [apply Z.add_le_mono_r, Hle|done].
Qed.
End storing.

(** ** The client's operations *)

Section operations.
Context `{Sqlite, Base64, ServiceIdText, Libsignal, HashOrder, SignalProtocol} {S : Type}.
Context (server : handler serverApiE SignalClientError S).

(** The server's bundles carry device ids, which are [u32]s. *)
Definition typed_server : Prop := ∀ s st bundles st',
  server _ (Fetch_pre_key_bundles s) st = (Ok bundles, st') →
  Forall (λ b, in_u32 (bundle_device_id b) = true) bundles.

Definition contacts_ok (n : Z) (w : client_world S) : Prop :=
  synced (cw_db w) (contact_manager (cw_self w)) ∧ room (Text Contacts) n (cw_db w).

Lemma contacts_ok_room n n' w : contacts_ok n w → n' ≤ n → contacts_ok n' w.
Proof. intros [Hs Hr] Hn. split; [done|]. unfold room in *. lia. Qed.

(** Commands that leave the contacts alone. *)
Definition leaves_contacts X (c : clientE X) : Prop :=
  ∀ d, (device X c d).2 (Text Contacts) = d (Text Contacts).
Definition quiet X (c : appE X) : Prop :=
  match c with SetSelf _ => False | OnDb c => leaves_contacts _ c | _ => True end.

Lemma contacts_ok_db n w d :
  contacts_ok n w → client_ok d → d (Text Contacts) = cw_db w (Text Contacts) → contacts_ok n (with_db w d).
Proof.
  intros [Hs Hr] Hd Heq. split; [by eapply synced_other|]. unfold room in *. cbn. by rewrite Heq.
Qed.

Lemma quiet_keeps n X (c : appE X) w : quiet X c → contacts_ok n w → contacts_ok n (client_step server X c w).2.
Proof.
  intros Hc Hw. destruct c as [X c|X c| |self| |]; cbn [client_step]; try done.
  - destruct (device X c (cw_db w)) as [o d] eqn:Hrun. pose proof (Hc (cw_db w)) as Hd. rewrite Hrun in Hd.
    apply contacts_ok_db; [done| |done].
    pose proof (device_keeps_ok X c (cw_db w) ltac:(apply Hw)) as Hok. by rewrite Hrun in Hok.
  - by destruct (server X c (cw_server w)).
Qed.

Lemma quiet_run n {A} (p : capp A) w :
  calls quiet p → contacts_ok n w → contacts_ok n (interp (client_step server) p w).2.
Proof. intros Hp. apply (interp_invariant_on quiet); [|done]. intros X c s. apply quiet_keeps. Qed.

Lemma on_db_prog_quiet {A} (p : prog clientE string A) : calls leaves_contacts p → calls quiet (on_db_prog p).
Proof.
  unfold on_db_prog. induction p as [a|e|w|X c k IH]; cbn; [done..|]. intros [Hc Hk]. split; [done|].
  intros [e|r]; [done|]. apply IH, Hk.
Qed.

Lemma on_db_leaves X (c : clientE X) : leaves_contacts X c → calls leaves_contacts (on_db c).
Proof. intros Hc. split; [done|]. by intros []. Qed.

Lemma stores_leave p X (c : storesE X) : calls leaves_contacts (stores p X c).
Proof.
  assert (∀ X (c : clientE X), confined row (seen_by p) (device X c) → leaves_contacts X c) as Hconf.
  { intros Y c' Hc d. destruct (Hc d d) as (_ & _ & Hr); [done|]. apply Hr. unfold seen_by.
    destruct p; apply (bool_decide_unpack _); by vm_compute. }
  destruct c as [X c|X c|X c|X c|X c], c; cbn [stores]; destruct p; try done; apply on_db_leaves, Hconf;
    cbn [device]; split_confined ltac:(unfold seen_by; cbn; set_solver).
Qed.

Lemma on_stores_quiet {A} p (q : prog storesE string A) : calls quiet (on_stores p q).
Proof. apply on_db_prog_quiet, calls_expand. intros X c. apply stores_leave. Qed.

Lemma initialize_quiet s bundles deniable : calls quiet (initialize_sessions_from_bundle s bundles deniable).
Proof.
  unfold initialize_sessions_from_bundle. apply calls_bind; [by apply calls_op|intros now].
  apply calls_for_each. intros b ids. apply calls_bind; [by apply calls_op|intros seed].
  apply calls_bind; [apply on_stores_quiet|intros [e|u]]; [done|]. by apply calls_bind.
Qed.

(** The ids it returns are those of the bundles. *)
Lemma initialize_returns s bundles deniable :
  returns (λ ids, ids = map bundle_device_id bundles) (initialize_sessions_from_bundle s bundles deniable).
Proof.
  unfold initialize_sessions_from_bundle. apply returns_skip. intros now.
  assert (∀ acc, returns (λ ids, ids = acc ++ map bundle_device_id bundles)
    (for_each bundles acc (λ bundle ids,
      let device_id := bundle_device_id bundle in
      let ids := ids ++ [device_id] in
      seed ← op Seed;
      r ← on_stores (if deniable then Deniable else Regular)
            (process_prekey_bundle seed {| name := service_id_string s; device_id := device_id |} bundle now);
      _ ← sum_throw ProcessPreKeyBundle r;
      Ret ids))) as Hall; [|exact (Hall [])].
  induction bundles as [|b bundles IH]; intros acc; cbn [for_each]; [by rewrite app_nil_r|].
  apply returns_bind. apply returns_skip. intros seed. apply returns_skip. intros r. apply returns_skip. intros [].
  cbn [returns map]. replace (acc ++ bundle_device_id b :: map bundle_device_id bundles)
    with ((acc ++ [bundle_device_id b]) ++ map bundle_device_id bundles) by by rewrite <- app_assoc. apply IH.
Qed.

Lemma interp_db_any {X A} (c : clientE X) (k : X → capp A) (w : client_world S) :
  interp (client_step server) (db c ≫= k) w =
  match device X c (cw_db w) with
  | (Ok x, d) => interp (client_step server) (k x) (with_db w d)
  | (Err e, d) => (Err (DatabaseError e), with_db w d)
  | (Panic m, d) => (Panic m, with_db w d)
  end.
Proof.
  unfold db. rewrite interp_bind, interp_bind, interp_op. cbn [client_step].
  by destruct (device X c (cw_db w)) as [[x|e|m] d].
Qed.

Lemma interp_change {A} f (k : unit → capp A) (w : client_world S) :
  interp (client_step server) (change_contacts f ≫= k) w =
  match f (contact_manager (cw_self w)) with
  | Ok m => interp (client_step server) (k tt) (with_self w (with_contacts (cw_self w) m))
  | Err e => (Err (ContactError e), w)
  | Panic x => (Panic x, w)
  end.
Proof.
  unfold change_contacts. rewrite interp_bind, interp_op_bind. cbn [client_step].
  by destruct (f (contact_manager (cw_self w))).
Qed.

Lemma interp_contact {A} s (k : Contact → capp A) (w : client_world S) c :
  contact_manager (cw_self w) !! s = Some c →
  interp (client_step server) (contact_of s ≫= k) w = interp (client_step server) (k c) w.
Proof.
  intros Hs. unfold contact_of. rewrite interp_bind, interp_op_bind. cbn [client_step].
  unfold ContactManager.get_contact. by rewrite Hs.
Qed.

(** The contact is put into the map and then into the table. *)
Lemma store_after_change n s c {A} (k : unit → capp A) (w : client_world S) :
  contacts_ok n w → contact_ok s c → 0 ≤ n →
  (contact_manager (cw_self w) !! s = None → room (Text Contacts) (n + 1) (cw_db w)) →
  let w1 := with_self w (with_contacts (cw_self w) (<[s := c]> (contact_manager (cw_self w)))) in
  ∃ w2, interp (client_step server) (contact ← contact_of s; db (Store_contact contact) ≫= k) w1 =
        interp (client_step server) (k tt) w2 ∧ contacts_ok n w2 ∧ cw_server w2 = cw_server w ∧
        cw_self w2 = cw_self w1 ∧ ∀ r, r ≠ Text Contacts → cw_db w2 r = cw_db w r.
Proof.
  intros [Hs Hr] Hc Hn Hroom w1.
  destruct (store_contact_run (cw_db w) _ s c n Hs Hc Hroom Hr Hn) as (d' & Hrun & Hs' & Hr' & Ho).
  exists (with_db w1 d'). split_and!; try done.
  rewrite (interp_contact s _ w1 c) by apply lookup_insert_eq.
  rewrite interp_db_any. cbn [device]. cbn [cw_db with_self w1]. by rewrite Hrun.
Qed.

Lemma get_nickname_reads name d : (get_service_id_by_nickname name d).2 = d.
Proof. done. Qed.

Lemma update_contact_keeps n name ids w :
  contacts_ok n w → 0 ≤ n → Forall (λ i, in_u32 i = true) ids →
  contacts_ok n (interp (client_step server) (update_contact name ids) w).2.
Proof.
  intros Hw Hn Hids. unfold update_contact. rewrite interp_db_any. cbn [device].
  pose proof (get_nickname_reads name (cw_db w)) as Hd.
  destruct (get_service_id_by_nickname name (cw_db w)) as [[s|e|m] d]; cbn in Hd; subst d; try by destruct w.
  replace (with_db w (cw_db w)) with w by by destruct w.
  rewrite interp_change. unfold ContactManager.update_contact, ContactManager.get_contact.
  destruct (contact_manager (cw_self w) !! s) as [c|] eqn:Hc; [|done]. cbn [ok_or mbind outcome_bind].
  destruct Hw as [Hsync Hroom]. destruct (sy_contacts _ _ Hsync s c Hc) as (Hid & Huuid & Hu).
  set (c' := {| contact_service_id := contact_service_id c; device_ids := device_ids c ∪ list_to_set ids |}).
  destruct (store_after_change n s c' (λ _, Ret tt) w) as (w2 & Hrun & Hw2 & _); [done| |done|congruence|].
  { split_and!; [done|done|]. cbn. intros i. rewrite elem_of_union, elem_of_list_to_set. rewrite Forall_forall in Hids.
    intros [Hi|Hi]; [by apply Hu|by apply Hids]. }
  match type of Hrun with interp _ ?p ?w1 = _ =>
    assert (interp (client_step server) (contact ← contact_of s; db (Store_contact contact)) w1 = interp (client_step server) p w1) as -> end.
  { rewrite (interp_bind _ (contact_of s)), (interp_bind _ (contact_of s)).
    destruct (interp _ (contact_of s) _) as [[c2|e|m] w2']; [|done..].
    rewrite (interp_bind _ (db (Store_contact c2))). by destruct (interp (client_step server) (db (Store_contact c2)) w2') as [[[]|e|m] ?]. }
  by rewrite Hrun.
Qed.

Lemma insert_nickname_quiet name s : quiet _ (OnDb (Insert_service_id_for_nickname name s)).
Proof.
  intros d. cbn [device]. unfold insert_service_id_for_nickname, execute, run, insert_row.
  destruct (existsb _ _); [done|]. destruct (new_rowid _); [|done]. done.
Qed.

Lemma add_contact_keeps n name s ids w :
  typed_server → contacts_ok (n + 1) w → 0 ≤ n → is_uuid (uuid_of s) = true →
  (∀ l, ids = Some l → Forall (λ i, in_u32 i = true) l) →
  contacts_ok n (interp (client_step server) (add_contact name s ids) w).2.
Proof.
  intros Htyped Hw Hn Huuid Hids. unfold add_contact. rewrite interp_op_bind. cbn [client_step].
  unfold ContactManager.get_contact. destruct (contact_manager (cw_self w) !! s) as [c|] eqn:Hc; cbn [ok_or is_ok].
  { eapply contacts_ok_room; [exact Hw|lia]. }
  rewrite interp_change. unfold ContactManager.add_contact at 1. rewrite Hc.
  set (k := λ _ : unit, (_ ← db (Insert_service_id_for_nickname name s);
       new_device_ids ← match ids with Some ids => Ret ids | None => get_new_device_ids s end;
       update_contact name new_device_ids)).
  destruct (store_after_change n s (ContactManager.new_contact s) k w) as (w2 & Hrun & Hw2 & _).
  { eapply contacts_ok_room; [exact Hw|lia]. }
  { split_and!; [done|done|]. intros i Hi. by apply elem_of_empty in Hi. }
  { done. }
  { intros _. apply Hw. }
  rewrite Hrun. unfold k. clear Hrun k. rewrite interp_bind.
  pose proof (quiet_run n (db (Insert_service_id_for_nickname name s)) w2) as Hq.
  destruct (interp (client_step server) (db _) w2) as [[u|e|m] w3]; cbn [snd] in Hq |- *.
  2, 3: apply Hq; [|done]; split; [apply insert_nickname_quiet|by intros [?|[?|?]]].
  assert (contacts_ok n w3) as Hw3.
  { apply Hq; [|done]. split; [apply insert_nickname_quiet|by intros [?|[?|?]]]. }
  destruct ids as [l|].
  { cbn [mbind prog_mbind prog_bind]. apply update_contact_keeps; [done|done|by apply Hids]. }
  rewrite interp_bind. unfold get_new_device_ids. rewrite interp_bind. unfold api. rewrite interp_op.
  cbn [client_step]. destruct (server _ (Fetch_pre_key_bundles s) (cw_server w3)) as [[bundles|e|m] st] eqn:Hserver; [|done..].
  pose proof (Htyped _ _ _ _ Hserver) as Hb.
  pose proof (quiet_run n (initialize_sessions_from_bundle s bundles false) (with_server w3 st) (initialize_quiet s bundles false) Hw3) as Hq4.
  destruct (interp (client_step server) (initialize_sessions_from_bundle s bundles false) (with_server w3 st)) as [[new|e|m] w4] eqn:Hinit;
    cbn [snd] in Hq4; [|done..].
  apply (returns_sound _ _ _ _ _ _ (initialize_returns s bundles false)) in Hinit as ->.
  apply update_contact_keeps; [done|done|]. by apply Forall_map.
Qed.

Lemma remove_contact_runs n name s c w :
  contacts_ok n w → get_service_id_by_nickname name (cw_db w) = (Ok s, cw_db w) →
  contact_manager (cw_self w) !! s = Some c →
  ∃ w', interp (client_step server) (Client.remove_contact name) w = (Ok tt, w') ∧ contacts_ok n w' ∧
    contact_manager (cw_self w') = delete s (contact_manager (cw_self w)) ∧
    ∀ r, r ≠ Text Contacts → cw_db w' r = cw_db w r.
Proof.
  intros [Hsync Hroom] Hname Hc. destruct (remove_contact_run (cw_db w) _ s c n Hsync Hc Hroom) as (d' & Hrun & Hs' & Hr' & Ho).
  exists (with_db (with_self w (with_contacts (cw_self w) (delete s (contact_manager (cw_self w))))) d').
  split; [|split; [|split; [|exact Ho]]].
  - unfold Client.remove_contact. rewrite interp_db_any. cbn [device]. rewrite Hname.
    replace (with_db w (cw_db w)) with w by by destruct w.
    rewrite interp_change. unfold ContactManager.remove_contact. rewrite Hc.
    unfold db. rewrite interp_op_bind. cbn [client_step device cw_db with_self]. by rewrite Hrun.
  - done.
  - done.
Qed.

Lemma remove_unknown name s w :
  get_service_id_by_nickname name (cw_db w) = (Ok s, cw_db w) → contact_manager (cw_self w) !! s = None →
  interp (client_step server) (Client.remove_contact name) w = (Err (ContactError (ServiceIDNotFound s)), w).
Proof.
  intros Hname Hc. unfold Client.remove_contact. rewrite interp_db_any. cbn [device]. rewrite Hname.
  replace (with_db w (cw_db w)) with w by by destruct w.
  rewrite interp_change. unfold ContactManager.remove_contact. by rewrite Hc.
Qed.

Lemma remove_contact_keeps n name w :
  contacts_ok n w → contacts_ok n (interp (client_step server) (Client.remove_contact name) w).2.
Proof.
  intros Hw. pose proof (get_nickname_reads name (cw_db w)) as Hd.
  destruct (get_service_id_by_nickname name (cw_db w)) as [[s|e|m] d] eqn:Hname; cbn in Hd; subst d.
  2, 3: unfold Client.remove_contact; rewrite interp_db_any; cbn [device]; rewrite Hname; by destruct w.
  destruct (contact_manager (cw_self w) !! s) as [c|] eqn:Hc.
  - by destruct (remove_contact_runs n name s c w Hw Hname Hc) as (w' & -> & Hw' & _).
  - by rewrite (remove_unknown name s w).
Qed.

(** The nickname of a service id is inserted once. *)
Lemma nickname_taken name s x d :
  x ∈ d Nicknames → nick_service_id x.2 = service_id_string s →
  insert_service_id_for_nickname name s d = (Err (invalid_argument "UNIQUE constraint failed"), d).
Proof.
  intros Hx Hs. unfold insert_service_id_for_nickname, execute, run, insert_row.
  assert (existsb (λ y : Z * row Nicknames, clash Nicknames y.2
    {| nick_name := name; nick_service_id := service_id_string s |}) (d Nicknames) = true) as ->; [|done].
  apply existsb_exists. exists x. split; [by apply list_elem_of_In|]. cbn. by apply bool_decide_eq_true.
Qed.

Lemma add_known alias s c ids w :
  contact_manager (cw_self w) !! s = Some c → interp (client_step server) (add_contact alias s ids) w = (Ok tt, w).
Proof.
  intros Hc. unfold add_contact. rewrite interp_op_bind. cbn [client_step].
  unfold ContactManager.get_contact. by rewrite Hc.
Qed.
End operations.


(** *** Sequences of operations *)

Inductive contact_op :=
| AddContact (alias : string) (service_id : ServiceId) (device_ids : option (list Z))
| RemoveContact (alias : string)
| UpdateContact (alias : string) (device_ids : list Z).

Section contact_ops.
Context `{Sqlite, Base64, ServiceIdText, Libsignal, HashOrder, SignalProtocol}.

Definition contact_op_run (o : contact_op) : capp unit :=
  match o with
  | AddContact alias service_id device_ids => add_contact alias service_id device_ids
  | RemoveContact alias => Client.remove_contact alias
  | UpdateContact alias device_ids => update_contact alias device_ids
  end.

(** What the caller passes is a UUID and [u32]s. *)
Definition typed_op (o : contact_op) : Prop :=
  match o with
  | AddContact _ s ids => is_uuid (uuid_of s) = true ∧ ∀ l, ids = Some l → Forall (λ i, in_u32 i = true) l
  | RemoveContact _ => True
  | UpdateContact _ ids => Forall (λ i, in_u32 i = true) ids
  end.

(** The operations one after the other, whether they fail or not. *)
Definition contact_ops_run (ops : list contact_op) : capp unit :=
  for_each ops tt (λ o _, _ ← try_ (contact_op_run o); Ret tt).

Context {S : Type} (server : handler serverApiE SignalClientError S).

Lemma contact_op_keeps n o w :
  typed_server server → typed_op o → contacts_ok (n + 1) w → 0 ≤ n →
  contacts_ok n (interp (client_step server) (contact_op_run o) w).2.
Proof.
  intros Hserver Ho Hw Hn. assert (contacts_ok n w) as Hw' by (eapply contacts_ok_room; [exact Hw|lia]).
  destruct o as [alias s ids|alias|alias ids]; cbn [contact_op_run typed_op] in *.
  - destruct Ho. by apply add_contact_keeps.
  - by apply remove_contact_keeps.
  - by apply update_contact_keeps.
Qed.

Lemma contact_ops_keep ops : ∀ w,
  typed_server server → Forall typed_op ops → contacts_ok (len ops) w →
  contacts_ok 0 (interp (client_step server) (contact_ops_run ops) w).2.
Proof.
  unfold contact_ops_run. induction ops as [|o ops IH]; intros w Hserver Hops Hw; [done|].
  apply Forall_cons in Hops as [Ho Hops]. cbn [for_each]. rewrite len_cons in Hw.
  pose proof (len_nonneg ops) as Hpos.
  assert (contacts_ok (len ops) (interp (client_step server) (contact_op_run o) w).2) as Hw1.
  { apply contact_op_keeps; [done|done| |done]. by rewrite Z.add_comm. }
  rewrite interp_bind, interp_bind, interp_try.
  destruct (interp (client_step server) (contact_op_run o) w) as [[u|e|m] w1]; cbn [snd] in Hw1; cbn [interp];
    [by apply IH..|].
  eapply contacts_ok_room; [exact Hw1|lia].
Qed.
End contact_ops.

(** ** Properties *)

(** C25: contacts survive a new login: after any sequence of additions, removals
    and updates, whatever the server answers and whichever of them fail, the
    table of contacts is read back without an error, and the map that [login]
    builds from it is the map the client had in memory. *)
Theorem contacts_survive_login `{Sqlite, Base64, ServiceIdText, Libsignal, HashOrder, SignalProtocol} {S}
    (server : handler serverApiE SignalClientError S) (ops : list contact_op) (w : client_world S)
    (Hserver : typed_server server) (Hops : Forall typed_op ops)
    (Hdb : client_ok (cw_db w)) (Hempty : cw_db w (Text Contacts) = [])
    (Hnone : contact_manager (cw_self w) = ∅) (Hmany : len ops < 2 ^ 63) :
  let w' := (interp (client_step server) (contact_ops_run ops) w).2 in
  (∃ contacts, load_contacts (cw_db w') = (Ok contacts, cw_db w') ∧
     index_contacts contacts = contact_manager (cw_self w')) ∧
  ∀ alias self w2, interp (client_step server) (login alias) w' = (Ok self, w2) →
    contact_manager self = contact_manager (cw_self w').
Proof.
  intros w'. assert (contacts_ok 0 w') as [Hs _].
  { apply contact_ops_keep; [done|done|]. split; [rewrite Hnone; by apply empty_synced|].
    unfold room. rewrite Hempty. change (largest _) with 0. unfold max_rowid. lia. }
  destruct (load_synced _ _ Hs) as (cs & Hload & Hindex). split; [by exists cs|].
  intros alias self w2. unfold login. rewrite interp_db_any. cbn [device]. rewrite Hload.
  intros Hrun. rewrite <- Hindex. revert Hrun.
  apply (returns_sound _ (λ self, contact_manager self = index_contacts cs)).
  apply returns_skip. intros [[one_time signed] kyber]. do 6 (apply returns_skip; intros ?).
  apply returns_skip. intros manager. apply returns_skip. intros q. done.
Qed.

(** A contact that was removed cannot be added again: the removal leaves
    the nickname, and a service id has one nickname at most, so that adding it
    under any alias fails; what stays in memory and in the table is a contact
    without devices, to which nothing is sent, and adding it once more does
    nothing. *)
Theorem removed_contact_cannot_be_added_again `{Sqlite, Base64, ServiceIdText, Libsignal, HashOrder, SignalProtocol} {S}
    (server : handler serverApiE SignalClientError S) (w w1 : client_world S) (s : ServiceId)
    (alias alias' : string) (ids ids' : option (list Z))
    (Hw : contacts_ok 1 w) (Huuid : is_uuid (uuid_of s) = true)
    (Hnick : ∃ x, x ∈ cw_db w Nicknames ∧ nick_service_id x.2 = service_id_string s)
    (Halias : get_service_id_by_nickname alias (cw_db w) = (Ok s, cw_db w))
    (Hremove : interp (client_step server) (Client.remove_contact alias) w = (Ok tt, w1)) :
  ∃ e w2, interp (client_step server) (add_contact alias' s ids) w1 = (Err (DatabaseError e), w2) ∧
    contact_manager (cw_self w2) !! s = Some (ContactManager.new_contact s) ∧
    (∃ text, text_at Contacts (service_id_string s) (cw_db w2) = Some text ∧ parse_device_ids text = Ok ∅) ∧
    interp (client_step server) (add_contact alias' s ids') w2 = (Ok tt, w2).
Proof.
  destruct (contact_manager (cw_self w) !! s) as [c|] eqn:Hc; [|by rewrite (remove_unknown server alias s w) in Hremove].
  destruct (remove_contact_runs server 1 alias s c w Hw Halias Hc) as (w' & Hrun & Hw' & Hm & Ho).
  rewrite Hremove in Hrun. injection Hrun as <-. destruct Hnick as (x & Hx & Hxs).
  assert (contact_manager (cw_self w1) !! s = None) as Hnone by (rewrite Hm; apply lookup_delete_eq).
  pose (k := λ _ : unit, (_ ← db (Insert_service_id_for_nickname alias' s);
       new_device_ids ← match ids with Some ids => Ret ids | None => get_new_device_ids s end;
       update_contact alias' new_device_ids)).
  destruct (store_after_change server 0 s (ContactManager.new_contact s) k w1) as (w2 & Hrun & Hw2 & _ & Hself & Ho2);
    [eapply contacts_ok_room; [exact Hw'|lia]| |done|intros _; apply Hw'|].
  { split_and!; [done|done|]. intros i Hi. by apply elem_of_empty in Hi. }
  assert (contact_manager (cw_self w2) !! s = Some (ContactManager.new_contact s)) as Hc2
    by (rewrite Hself; apply lookup_insert_eq).
  exists (invalid_argument "UNIQUE constraint failed"), w2. split_and!.
  - unfold add_contact. rewrite interp_op_bind. cbn [client_step]. unfold ContactManager.get_contact at 1.
    rewrite Hnone. cbn [ok_or is_ok]. rewrite interp_change. unfold ContactManager.add_contact. rewrite Hnone.
    change (interp (client_step server) (contact ← contact_of s; db (Store_contact contact) ≫= k)
      (with_self w1 (with_contacts (cw_self w1) (<[s:=ContactManager.new_contact s]> (contact_manager (cw_self w1))))) = 
      (Err (DatabaseError (invalid_argument "UNIQUE constraint failed")), w2)).
    rewrite Hrun. unfold k. rewrite interp_db_any. cbn [device].
    rewrite (nickname_taken alias' s x); [by destruct w2|by rewrite Ho2, Ho|done].
  - done.
  - destruct Hw2 as [Hs2 _]. by destruct (sy_stored _ _ Hs2 s _ Hc2) as (text & Hat & Hp); exists text.
  - by eapply add_known.
Qed.

(** A protocol that does not encrypt. *)
Definition demo_protocol : SignalProtocol := {|
  process_prekey_bundle _ _ _ _ := Ret tt;
  message_encrypt msg _ _ := Ret {| ct_kind := SignalCiphertext; ct_bytes := msg |};
  message_decrypt _ msg _ := Ret (ct_bytes msg);
  remote_registration_id _ := Ok 1;
  ciphertext_error _ _ := None;
  content_encode _ := [x01];
  content_decode _ := Ok {| data_message := None |} |}.
#[local] Existing Instances plain_sqlite demo_service_ids demo_libsignal demo_hash_order demo_protocol.

Definition carol : ServiceId := Aci "9d0652a3-dcc3-4d11-975f-74d61598733f".
Definition dave : ServiceId := Pni "796abedb-ca4e-4f18-8803-1fde5b921f9f".

Definition demo_contact_ops : list contact_op :=
  [AddContact "carol" carol (Some [1; 4294967295]); AddContact "dave" dave None; UpdateContact "carol" [7];
   RemoveContact "dave"; RemoveContact "erin"; AddContact "dave" dave (Some [2])].

Lemma contacts_survive_login_witness :
  let w' := (interp demo_client_step (contact_ops_run demo_contact_ops) demo_world).2 in
  ∃ contacts, load_contacts (cw_db w') = (Ok contacts, cw_db w') ∧
    index_contacts contacts = contact_manager (cw_self w').
Proof.
  apply (contacts_survive_login no_server demo_contact_ops demo_world).
  - by intros s st bundles st' [=].
  - repeat constructor; try done. all: by intros ? [= <-]; repeat constructor.
  - apply empty_client_ok.
  - done.
  - done.
  - done.
Defined.

(** A client that knows carol. *)
Definition demo_known : client_world unit :=
  (interp demo_client_step (add_contact "carol" carol (Some [1])) demo_world).2.

Lemma removed_contact_cannot_be_added_again_witness :
  ∃ e w2, interp demo_client_step (add_contact "caroline" carol (Some [1]))
      (interp demo_client_step (Client.remove_contact "carol") demo_known).2 =
    (Err (DatabaseError e), w2) ∧
    contact_manager (cw_self w2) !! carol = Some (ContactManager.new_contact carol).
Proof.
  destruct (removed_contact_cannot_be_added_again no_server demo_known
    (interp demo_client_step (Client.remove_contact "carol") demo_known).2
    carol "carol" "caroline" (Some [1]) None) as (e & w2 & Hrun & Hc & _ & _).
  - apply (contact_op_keeps no_server 1 (AddContact "carol" carol (Some [1])) demo_world).
    + by intros s st bundles st' [=].
    + split; [done|]. by intros ? [= <-]; repeat constructor.
    + split; [by apply empty_synced, eq_refl; apply empty_client_ok|]. by vm_compute.
    + done.
  - done.
  - by exists (1, {| nick_name := "carol"; nick_service_id := service_id_string carol |}); split; [left|].
  - by vm_compute.
  - by vm_compute.
  - by exists e, w2.
Defined.
