(* ===== verification/Service.v ===== *)
(** What runs around the handlers: the server's managers
    ([server/src/managers/manager.rs], [managers/state.rs],
    [account_manager.rs]), the task of the message persister
    ([server/src/persisters/persister.rs], [message_persister.rs]), the upgrade
    endpoint, the time header and the redirect of
    [server/src/server/server.rs], and the last operations of
    [client/src/client.rs]; and that a client and the server agree on the q
    value. *)
From S2P Require Export ClientContacts EndToEnd WebSocket.

Local Open Scope Z_scope.
Local Open Scope denim_scope.

(** ** Definitions *)

(** *** Managers *)

(** [AccountManager]: one call of the database each. *)
Module AccountManager.
Abbreviation database A := (prog databaseE string A).
Definition get_account (service_id : ServiceId) : database Account := op (Db_get_account service_id).
Definition get_account_from_phonenumber_without_devices (phone_number : string) : database Account :=
  op (Db_get_account_from_phonenumber phone_number).
Definition update_account_aci (service_id : ServiceId) (new_aci : string) : database unit := op (Db_update_account_aci service_id new_aci).
Definition update_account_pni (service_id : ServiceId) (new_pni : string) : database unit := op (Db_update_account_pni service_id new_pni).
Definition delete_account (service_id : ServiceId) : database unit := op (Db_delete_account service_id).
Definition add_device (service_id : ServiceId) (device : Device) : database unit := op (Db_add_device service_id device).
Definition get_all_devices (service_id : ServiceId) : database (list Device) := op (Db_get_all_devices service_id).
Definition get_device (address : ProtocolAddress) : database Device := op (Db_get_device address).
Definition delete_device (address : ProtocolAddress) : database unit := op (Db_delete_device address).
Definition store_key_bundle (data : DevicePreKeyBundle) (address : ProtocolAddress) : database unit := op (Db_store_key_bundle data address).
End AccountManager.

(** [Box<dyn Manager>]: what [downcast_ref] tells apart.  The managers are
    handles of shared services; [A], [B] and [C] are their types. *)
Inductive manager (A B C : Type) :=
| IsMessagesManager (m : A)
| IsMessageCache (m : B)
| IsAccountManager (m : C).
Arguments IsMessagesManager {A B C} m.
Arguments IsMessageCache {A B C} m.
Arguments IsAccountManager {A B C} m.

Definition as_messages_manager {A B C} (m : manager A B C) : option A := match m with IsMessagesManager m => Some m | _ => None end.
Definition as_message_cache {A B C} (m : manager A B C) : option B := match m with IsMessageCache m => Some m | _ => None end.
Definition as_account_manager {A B C} (m : manager A B C) : option C := match m with IsAccountManager m => Some m | _ => None end.

(** [manager::get]: [find_map] *)
Fixpoint get_manager {M T} (downcast_ref : M → option T) (managers : list M) : option T :=
  match managers with
  | [] => None
  | m :: managers => match downcast_ref m with Some t => Some t | None => get_manager downcast_ref managers end
  end.

(** *** The persister's task *)

(** The run flag is an [Arc<AtomicBool>] that the task and its owner share; it
    is the state behind [persisterE], and up when [listen] returns. *)
Record MessagePersister (A B C D : Type) := {
  persister_cache : B; persister_messages : A; persister_accounts : C; persister_db : D }.
Arguments persister_cache {A B C D}.
Arguments persister_messages {A B C D}.
Arguments persister_accounts {A B C D}.
Arguments persister_db {A B C D}.

(** [MessagePersister::listen], up to the task that it spawns. *)
Definition listen {A B C D} (db : D) (managers : list (manager A B C)) : outcome string (MessagePersister A B C D) :=
  let unwrap {T} (o : option T) : outcome string T := expect "called `Option::unwrap()` on a `None` value" o in
  messages_manager ← unwrap (get_manager as_messages_manager managers);
  account_manager ← unwrap (get_manager as_account_manager managers);
  message_cache ← unwrap (get_manager as_message_cache managers);
  Ok {| persister_cache := message_cache; persister_messages := messages_manager;
        persister_accounts := account_manager; persister_db := db |}.

Inductive persisterE : Type → Type :=
| LoadRunFlag : persisterE bool
| StoreRunFlag (b : bool) : persisterE unit
| Sleep (millis : Z) : persisterE unit
| Persisting {X} (c : serverE X) : persisterE X.

(** [Persister::stop] *)
Definition stop : prog persisterE string unit := op (StoreRunFlag false).

(** The task: at most [rounds] tests of the flag; [persist] is one round. *)
Fixpoint listen_task (rounds : nat) (persist : prog serverE string unit) : prog persisterE string unit :=
  match rounds with
  | O => Crash "out of fuel"
  | S rounds =>
      run ← op LoadRunFlag;
      if (run : bool) then
        _ ← try_ (embed (λ X c, Persisting c) persist);
        _ ← op (Sleep 100);
        listen_task rounds persist
      else Ret tt
  end.

(** [loads] is what the loads will see, as far as the other tasks have written
    the flag; a store is seen by all of them. *)
Definition persister_step {S} (server : handler serverE string S) : handler persisterE string (list bool * S) := λ X c w,
  match c in persisterE X return outcome string X * (list bool * S) with
  | LoadRunFlag => match w.1 with [] => (Panic "still running", w) | b :: loads => (Ok b, (loads, w.2)) end
  | StoreRunFlag b => (Ok tt, (map (λ _, b) w.1, w.2))
  | Sleep _ => (Ok tt, w)
  | Persisting c => let '(o, s) := server _ c w.2 in (o, (w.1, s))
  end.

(** One round after the other: an error ends a round, a panic the task. *)
Fixpoint each_round {S} (server : handler serverE string S) (n : nat) (persist : prog serverE string unit) (s : S) : outcome string unit * S :=
  match n with
  | O => (Ok tt, s)
  | Datatypes.S n =>
      match interp server persist s with
      | (Panic w, s) => (Panic w, s)
      | (_, s) => each_round server n persist s
      end
  end.

(** *** Headers of responses *)

Abbreviation header := (string * string)%type.

(** [HeaderMap::insert] replaces the values that a name has, [append] adds one. *)
Definition header_insert (name value : string) (headers : list header) : list header :=
  filter (λ h, h.1 ≠ name) headers ++ [(name, value)].
Definition header_append (name value : string) (headers : list header) : list header := headers ++ [(name, value)].

(** [f32::to_string] *)
Class F32Text := { show_f32 : f32 → string }.

(** [create_websocket_endpoint]: the headers of the answer, [switching] being
    those of the upgrade; the socket then runs [on_upgrade]. *)
Definition upgrade_headers `{WebLibraries, F32Text} (chunker : Chunker) (switching : list header) : outcome string (list header) :=
  let text := show_f32 (q_value chunker) in
  value ← expect "called `Result::unwrap()` on an `Err` value" (if header_value_ok text then Some text else None);
  Ok (header_append "q-value" value switching).

(** [signal_time_middleware], around every route; [now] is in milliseconds. *)
Definition signal_time_middleware (now : Z) (headers : list header) : outcome string (list header) :=
  now ← expect "Time went backwards" (if now <? 0 then None else Some now);
  Ok (header_insert "x-signal-timestamp" (show (now mod 2 ^ 64)) headers).

(** A header value that is visible ASCII has a text. *)
Definition received (headers : list header) : list (string * option string) := map (λ h, (h.1, Some h.2)) headers.

(** *** The redirect from HTTP to HTTPS *)

Record uri := { scheme : option string; authority : option string; path_and_query : option string }.

(** [make_https]; [parse_authority] is the parser of the [http] crate. *)
Definition make_https (parse_authority : string → option string) (host : string) (u : uri) (http https : Z) : outcome string uri :=
  let path := match path_and_query u with None => "/" | Some p => p end in
  let https_host := replace (show http) (show https) host in
  authority ← ok_or "invalid authority" (parse_authority https_host);
  Ok {| scheme := Some "https"; authority := Some authority; path_and_query := Some path |}.

(** *** The client *)

Module ClientApp.
Definition get_service_id_from_server (phone_number : string) : capp ServiceId := Client.api (Get_service_id_from_server phone_number).
Definition disconnect : capp unit := Client.api Client.Disconnect.
Definition has_message : capp bool := Client.api Has_message.
End ClientApp.

(** ** Lemmas *)

Lemma persisting_run {S A} (server : handler serverE string S) (p : prog serverE string A) loads s :
  interp (persister_step server) (embed (λ X c, Persisting c) p) (loads, s) =
    let '(o, s') := interp server p s in (o, (loads, s')).
Proof.
  rewrite interp_embed. revert s. induction p as [a|e|e|X c k IH]; intros s; try done.
  cbn [interp persister_step fst snd]. destruct (server X c s) as [[x|e|e] s']; [apply IH..|done].
Qed.

(** Whatever a round returns, the task goes on until it sees the flag down,
    and then ends. *)
Theorem persister_runs_until_stopped {S} (server : handler serverE string S) persist n fuel loads s (Hfuel : (n < fuel)%nat) :
  let r := interp (persister_step server) (listen_task fuel persist) (replicate n true ++ false :: loads, s) in
  (r.1, r.2.2) = each_round server n persist s.
Proof.
  cbv zeta. revert fuel s Hfuel. induction n as [|n IH]; intros [|fuel] s Hfuel; try lia.
  - cbn [listen_task replicate app each_round]. rewrite interp_op_bind. reflexivity.
  - cbn [listen_task replicate app each_round]. rewrite interp_op_bind. cbn [persister_step fst snd].
    rewrite interp_bind, interp_try, persisting_run. destruct (interp server persist s) as [[u|e|w] s1]; [| |done];
      rewrite interp_op_bind; cbn [persister_step fst snd]; apply IH; lia.
Qed.

(** The server starts its persister with the managers that it looks for. *)
Theorem server_starts_the_persister {A B C D} (m : A) (c : B) (a : C) (db : D) :
  listen db [IsMessagesManager m; IsMessageCache c; IsAccountManager a] =
    Ok {| persister_cache := c; persister_messages := m; persister_accounts := a; persister_db := db |}.
Proof. reflexivity. Qed.

Lemma header_values_app name a b : header_values name (a ++ b) = header_values name a ++ header_values name b.
Proof. unfold header_values. by rewrite filter_app, map_app. Qed.

Lemma header_values_cons name h hs :
  header_values name (h :: hs) = (if decide (h.1 = name) then [h.2] else []) ++ header_values name hs.
Proof. unfold header_values. rewrite filter_cons. by destruct (decide (h.1 = name)). Qed.

Lemma inserted_elsewhere name name' value headers :
  name ≠ name' → header_values name (received (header_insert name' value headers)) = header_values name (received headers).
Proof.
  intros Hne. unfold header_insert, received. rewrite map_app, header_values_app.
  replace (header_values name (map _ [(name', value)])) with (@nil (option string)); [rewrite app_nil_r|].
  - induction headers as [|[x v] hs IH]; [done|]. rewrite filter_cons. cbn [fst map].
    destruct (decide (x ≠ name')) as [Hx|Hx].
    + cbn [map]. by rewrite !header_values_cons, IH.
    + rewrite header_values_cons, decide_False by (cbn; intros ->; tauto). exact IH.
  - unfold header_values. cbn [map fst snd]. by rewrite filter_cons_False by (cbn; congruence).
Qed.


(** *** A client that connects *)

Section connecting.
Context `{WebLibraries, Base64, ServiceIdText, Libsignal, F32Text}.
Context {S : Type} (socket : handler transportE SignalClientError S).

(** A socket that comes up from every state that is [fresh]: each step of
    [connect] succeeds, the handshake is answered with [headers], and the socket
    ends up [live]. *)
Record comes_up (fresh live : S → Prop) (tls : option string) (headers : list header) : Prop := {
  up_idle s : fresh s → ∃ s', socket _ SocketActive s = (Ok false, s') ∧ fresh s';
  up_tcp host port s : fresh s → ∃ s', socket _ (TcpConnect host port) s = (Ok (inr tt), s') ∧ fresh s';
  up_keepalive s : fresh s → ∃ s', socket _ SetKeepalive s = (Ok true, s') ∧ fresh s';
  up_tls path s : tls = Some path → fresh s → ∃ s', socket _ (RustlsCfg path) s = (Ok (inr tt), s') ∧ fresh s';
  up_handshake url sent s : fresh s → ∃ s', socket _ (Handshake url sent) s = (Ok (Some (received headers)), s') ∧ fresh s';
  up_stream s : fresh s → ∃ s', socket _ SetStream s = (Ok (inr tt), s') ∧ live s';
}.

Lemma called {X A} (c : transportE X) (f : X → prog transportE SignalClientError A) s x s' :
  socket X c s = (Ok x, s') → interp socket (op c ≫= f) s = interp socket (f x) s'.
Proof. intros Hc. by rewrite interp_op_bind, Hc. Qed.

(** A text that is a header, and reads back as the number it shows. *)
Definition reads_back (q : f32) : Prop := header_value_ok (show_f32 q) = true ∧ parse_f32 (show_f32 q) = Some q.

(** The answer to the upgrade: it passes the other layers of the server and
    gets its time. *)
Definition upgrade_answer (server_chunker : Chunker) (switching : list header) (layers : list header → list header) (now : Z)
    : outcome string (list header) :=
  upgrade_headers server_chunker switching ≫= λ hs, signal_time_middleware now (layers hs).

Lemma answer_has_the_q_value server_chunker switching layers now :
  header_value_ok (show_f32 (q_value server_chunker)) = true → 0 ≤ now →
  header_values "q-value" (received switching) = [] →
  (∀ hs, header_values "q-value" (received (layers hs)) = header_values "q-value" (received hs)) →
  ∃ headers, upgrade_answer server_chunker switching layers now = Ok headers ∧
    header_values "q-value" (received headers) = [Some (show_f32 (q_value server_chunker))].
Proof.
  intros Hascii Hnow Hfresh Hlayers. unfold upgrade_answer, upgrade_headers, signal_time_middleware. rewrite Hascii.
  cbn [expect mbind outcome_bind]. rewrite (proj2 (Z.ltb_ge _ _) Hnow). cbn [expect mbind outcome_bind].
  eexists. split; [done|]. rewrite inserted_elsewhere, Hlayers by done. unfold header_append, received in *.
  by rewrite map_app, header_values_app, Hfresh.
Qed.

(** A client connects to a socket that comes up. *)
Lemma ws_connect_run fresh live tls headers q url username password host port s :
  comes_up fresh live tls headers → header_values "q-value" (received headers) = [Some (show_f32 q)] → reads_back q →
  uri_parts (replace "http" "ws" url +:+ "/v1/websocket") = Some (Some host, Some port) →
  Forall (λ h, header_value_ok h.2 = true) (connect_headers username password) → fresh s →
  ∃ s', interp socket (signal_ws_connect tls url username password) s = (Ok q, s') ∧ fresh s'.
Proof.
  intros [Hidle Htcp Hkeep Htls Hshake Hstream] Hvalue [Hascii Hread] Huri Hok Hs.
  assert (find (λ h, negb (header_value_ok h.2)) (connect_headers username password) = None) as Hfind.
  { induction Hok as [|h hs Hh _ IH]; [done|]. cbn [find]. rewrite Hh. exact IH. }
  unfold signal_ws_connect. rewrite Huri, Hfind. cbn [or_ws_error fst snd mbind prog_mbind prog_bind].
  destruct (Htcp host port s Hs) as (s1 & Hr1 & Hs1). rewrite (called _ _ _ _ _ Hr1). cbn [ws_error mbind prog_mbind prog_bind].
  destruct (Hkeep s1 Hs1) as (s2 & Hr2 & Hs2). rewrite (called _ _ _ _ _ Hr2). cbn [mbind prog_mbind prog_bind].
  assert (∃ s3, interp socket (match tls return prog transportE SignalClientError unit with
    Some path => tls_cfg ← op (RustlsCfg path); ws_error tls_cfg | None => Ret tt end) s2 = (Ok tt, s3) ∧ fresh s3) as (s3 & Hr3 & Hs3).
  { destruct tls as [path|]; [|by eexists]. destruct (Htls path s2 eq_refl Hs2) as (s3 & Hr3 & Hs3).
    exists s3. by rewrite (called _ _ _ _ _ Hr3). }
  rewrite (interp_bind_ok _ _ _ _ _ _ Hr3).
  destruct (Hshake (replace "http" "ws" url +:+ "/v1/websocket") (connect_headers username password) s3 Hs3) as (s4 & Hr4 & Hs4).
  rewrite (called _ _ _ _ _ Hr4). cbn [or_ws_error mbind prog_mbind prog_bind]. rewrite Hvalue.
  cbn [head expect lift mbind prog_mbind prog_bind]. rewrite Hread. by exists s4.
Qed.

Lemma connect_run fresh live tls headers q url username password host port s :
  comes_up fresh live tls headers → header_values "q-value" (received headers) = [Some (show_f32 q)] → reads_back q →
  uri_parts (replace "http" "ws" url +:+ "/v1/websocket") = Some (Some host, Some port) →
  Forall (λ h, header_value_ok h.2 = true) (connect_headers username password) → fresh s →
  ∃ s', interp socket (connect username password url tls) s = (Ok (Some q), s') ∧ live s'.
Proof.
  intros Hup Hvalue Hq Huri Hok Hs. pose proof Hup as [Hidle _ _ _ _ Hstream].
  destruct (Hidle s Hs) as (s0 & Hr0 & Hs0). unfold connect. rewrite (called _ _ _ _ _ Hr0).
  destruct (ws_connect_run fresh live tls headers q url username password host port s0) as (s1 & Hr1 & Hs1); [done..|].
  rewrite (interp_bind_ok _ _ _ _ _ _ Hr1). destruct (Hstream s1 Hs1) as (s2 & Hr2 & Hs2).
  exists s2. rewrite (called _ _ _ _ _ Hr2). by split.
Qed.
End connecting.

(** *** The client and the server agree on the q value *)

Section agreeing.
Context `{Sqlite, HashOrder, HttpLibraries, Libsignal, Bincode, ServerText, ScanOrder, Kdf, Signatures, LinkCodes, F32Text}.
Context {S O : Type} (env : nat → environment) (server : handler serverE string S) (public_key_ok : bytes → bool)
  (socket : handler transportE SignalClientError O).
Abbreviation web := (web_step env server public_key_ok socket).

(** A world whose other parts are given. *)
Definition socket_is (P : O → Prop) (auth : option BasicAuthorizationHeader) (n : nat) (sd : S * pg) (v : web_world S O) : Prop :=
  P (ww_socket v) ∧ ww_auth v = auth ∧ ww_count v = n ∧ ww_server v = sd.

Lemma web_step_socket {A} (c : transportE A) (P Q : O → Prop) auth n sd (a : A) (v : web_world S O) :
  (∃ s', socket _ c (ww_socket v) = (Ok a, s') ∧ Q s') → socket_is P auth n sd v →
  match c with AuthHeader | SetAuthHeader _ | HttpSend _ => False | _ => True end →
  ∃ v', web _ c v = (Ok a, v') ∧ socket_is Q auth n sd v'.
Proof.
  intros (s' & Hrun & Hq) (_ & <- & <- & <-) Hc. exists {| ww_auth := ww_auth v; ww_count := ww_count v; ww_server := ww_server v; ww_socket := s' |}.
  split; [|done]. by destruct c; cbn [web_step]; rewrite ?Hrun.
Qed.

Lemma web_comes_up fresh live tls headers auth n sd :
  comes_up socket fresh live tls headers → comes_up web (socket_is fresh auth n sd) (socket_is live auth n sd) tls headers.
Proof.
  intros [Hidle Htcp Hkeep Htls Hshake Hstream].
  split; intros; match goal with Hv : socket_is _ _ _ _ _ |- _ => pose proof Hv as [Hfresh _]; eapply web_step_socket; [|exact Hv|done]; eauto end.
Qed.

(** What makes the two sides agree: the answer of the server's upgrade, with
    the chunker of the server, is what the handshake of a fresh socket gets. *)
Record agree (server_chunker : Chunker) (fresh : O → Prop) (server_url : string) (cert_path : option string) : Prop := {
  ag_answer : ∃ headers, header_values "q-value" (received headers) = [Some (show_f32 (q_value server_chunker))] ∧
    comes_up socket fresh (λ _, True) cert_path headers;
  ag_q : reads_back (q_value server_chunker);
  ag_uri : ∃ host port, uri_parts (replace "http" "ws" server_url +:+ "/v1/websocket") = Some (Some host, Some port);
  ag_credentials username password : Forall (λ h, header_value_ok h.2 = true) (connect_headers username password);
}.

Lemma agreed_connect server_chunker fresh server_url cert_path username password (v : web_world S O) :
  agree server_chunker fresh server_url cert_path → fresh (ww_socket v) →
  ∃ v', interp web (connect username password server_url cert_path) v = (Ok (Some (q_value server_chunker)), v') ∧
    socket_is (λ _, True) (ww_auth v) (ww_count v) (ww_server v) v'.
Proof.
  intros [(headers & Hvalue & Hup) Hq (host & port & Huri) Hok] Hv.
  by apply (connect_run web _ _ _ headers _ _ _ _ host port v (web_comes_up _ _ _ _ (ww_auth v) (ww_count v) (ww_server v) Hup)).
Qed.

Lemma agreed_socket_connects server_chunker fresh server_url cert_path so :
  agree server_chunker fresh server_url cert_path → fresh so →
  socket_connects env server public_key_ok socket server_url cert_path (q_value server_chunker) so.
Proof.
  intros Hagree Hso username password auth n sd.
  destruct (agreed_connect server_chunker fresh server_url cert_path username password
    {| ww_auth := auth; ww_count := n; ww_server := sd; ww_socket := so |} Hagree Hso) as ([auth' n' sd' so'] & Hrun & _ & Ha & Hn & Hsd).
  cbn in *. subst. by exists so'.
Qed.

(** A login that succeeds. *)
Lemma login_chunker server_chunker fresh server_url cert_path alias (v v' : client_world (web_world S O)) self :
  agree server_chunker fresh server_url cert_path → fresh (ww_socket (cw_server v)) →
  interp (client_step (served_by env server public_key_ok socket server_url cert_path)) (login alias) v = (Ok self, v') →
  chunker self = server_chunker.
Proof.
  intros Hagree Hfresh. unfold login.
  rewrite interp_db_any. destruct (device _ Load_contacts (cw_db v)) as [[contacts|e|e] d1]; try done.
  rewrite interp_db_any. destruct (device _ Get_key_ids _) as [[[[one_time signed] kyber]|e|e] d2]; try done.
  rewrite interp_db_any. destruct (device _ Get_password _) as [[pw|e|e] d3]; try done.
  rewrite interp_db_any. destruct (device _ Get_aci _) as [[u|e|e] d4]; try done.
  unfold Client.api. rewrite interp_op_bind. cbn [client_step with_db cw_server]. unfold served_by at 1. cbn [signal_server].
  destruct (agreed_connect server_chunker fresh server_url cert_path (service_id_string (Aci u)) pw (cw_server v) Hagree Hfresh) as (w & Hrun & _).
  rewrite Hrun. apply (returns_sound _ (λ self, chunker self = server_chunker)).
  do 3 (apply returns_skip; intros ?). apply returns_skip. intros manager. cbn. by destruct server_chunker.
Qed.
End agreeing.

(** C10: a client and the server cut their deniable payloads alike: a client that
    registers ends up with the chunker of the server that it registered at, and
    so does every client that logs in there.  The server writes its q value
    into the answer to the upgrade and adds its time; given that the other
    layers of the server leave that header alone, that the socket's handshake
    delivers the answer, and that the text of the q value is a header that reads
    back as the same number, the client reads it off the answer and makes its
    chunker of it. *)
Theorem clients_chunk_like_the_server `{Sqlite, HashOrder, HttpLibraries, Libsignal, Bincode, ServerText, ScanOrder, Kdf, Signatures,
      LinkCodes, KeyGeneration, !SigningKeys, !PublicKeys, F32Text} {S O : Type}
    (env : nat → environment) (server : handler serverE string S) (public_key_ok : bytes → bool)
    (socket : handler transportE SignalClientError O) (server_url host : string) (port : Z) (cert_path : option string)
    (server_chunker : Chunker) (switching : list header) (layers : list header → list header) (now : Z) (fresh : O → Prop)
    (name phone_number alias : string) (w : setup_world (web_world S O))
    (Hq : reads_back (q_value server_chunker)) (Hnow : 0 ≤ now)
    (Hswitching : header_values "q-value" (received switching) = [])
    (Hlayers : ∀ hs, header_values "q-value" (received (layers hs)) = header_values "q-value" (received hs))
    (Huri : uri_parts (replace "http" "ws" server_url +:+ "/v1/websocket") = Some (Some host, Some port))
    (Hheaders : ∀ username password, Forall (λ h, header_value_ok h.2 = true) (connect_headers username password))
    (Hup : ∀ headers, upgrade_answer server_chunker switching layers now = Ok headers →
           comes_up socket fresh (λ _, True) cert_path headers)
    (Hfresh : fresh (ww_socket (su_server w)))
    (Hdb : su_db w = empty_client_db) (Hclock : in_u64 (su_clock w) = true)
    (Hserver : takes_account (env (ww_count (su_server w))) phone_number (ww_server (su_server w)).2) (Hphone : good_phone phone_number)
    (Hvalid : ∀ seed, public_key_ok (generate_identity seed).1 = true)
    (Hascii : ∀ bs, ascii_text (b64_encode bs) = true)
    (Hpadded : ∀ bs, length bs = PASSWORD_LENGTH → 2 ≤ Z.of_nat (String.length (b64_encode bs)))
    (Hsign : can_sign (generate_identity (su_seed w + 2))) (Hread : readable (generate_identity (su_seed w + 2))) :
  let served := served_by env server public_key_ok socket server_url cert_path in
  (∃ c w', interp (setup_step served) (register name phone_number alias) w = (Ok c, w') ∧ chunker c = server_chunker) ∧
  ∀ v v' c, fresh (ww_socket (cw_server v)) → interp (client_step served) (login alias) v = (Ok c, v') → chunker c = server_chunker.
Proof.
  intros served. set (e := env (ww_count (su_server w))).
  assert (agree socket server_chunker fresh server_url cert_path) as Hagree.
  { split; [|done|by exists host, port|done].
    destruct (answer_has_the_q_value server_chunker switching layers now) as (headers & Hanswer & Hvalue); [apply Hq|done..|].
    exists headers. split; [done|by apply Hup]. }
  split; [|intros v v' c Hv; by apply (login_chunker env server public_key_ok socket server_chunker fresh server_url cert_path alias)].
  destruct (registration_run served (answer_to e phone_number) (q_value server_chunker) name phone_number alias w
    (can_be_contacted public_key_ok e phone_number)) as (c & w' & pw & request & bundle & Hrun & _ & Hc);
    [done|done|by apply Hserver|done..| |].
  { apply server_accepts; [done..|]. by apply (agreed_socket_connects env server public_key_ok socket server_chunker fresh). }
  exists c, w'. split; [done|]. destruct Hc as [(_ & _ & _ & Hc) _ _ _ _ _ _]. rewrite Hc. by destruct server_chunker.
Qed.

(** The redirect replaces the port wherever its digits occur in the host. *)
Theorem redirect_changes_the_host_name :
  make_https Some "app80.example.org:80" {| scheme := None; authority := None; path_and_query := None |} 80 443 =
    Ok {| scheme := Some "https"; authority := Some "app443.example.org:443"; path_and_query := Some "/" |}.
Proof. by vm_compute. Qed.

(** *** The demonstration's connection *)

#[local] Existing Instances plain_sqlite demo_service_ids demo_libsignal demo_hash_order demo_bincode in_order demo_kdf demo_signatures
  demo_codes demo_text demo_web_libraries hex_base64 demo_http demo_signer demo_signing demo_public_keys.
#[local] Instance demo_f32_text : F32Text := {| show_f32 _ := "0.6" |}.

Definition demo_switching : list header := [("connection", "Upgrade"); ("upgrade", "websocket")].
Definition demo_answer : list header :=
  header_insert "x-signal-timestamp" "1700000000000" (header_append "q-value" "0.6" demo_switching).
(** A socket that is connected once. *)
Definition demo_dialled : handler transportE SignalClientError bool := λ X c s,
  match c in transportE X return outcome SignalClientError X * bool with
  | SocketActive => (Ok s, s)
  | TcpConnect _ _ => (Ok (inr tt), s)
  | SetKeepalive => (Ok true, s)
  | RustlsCfg _ => (Ok (inr tt), s)
  | Handshake _ _ => (Ok (Some (received demo_answer)), s)
  | SetStream => (Ok (inr tt), true)
  | _ => (Panic "not asked", s)
  end.
Definition demo_caller : setup_world (web_world unit bool) :=
  {| su_db := empty_client_db; su_manager := KeyManager_default; su_seed := 0; su_clock := 1700000000;
     su_server := {| ww_auth := None; ww_count := 0; ww_server := (tt, demo_accounts); ww_socket := false |} |}.

Lemma clients_chunk_like_the_server_witness :
  ∃ c w', interp (setup_step (served_by demo_second demo_idle (λ _, true) demo_dialled "https://localhost:443" (Some "cert/rootCA.crt")))
      (register "Bob" "+4587654321" "bob") demo_caller = (Ok c, w') ∧ chunker c = Chunker_default.
Proof.
  apply (clients_chunk_like_the_server demo_second demo_idle (λ _, true) demo_dialled "https://localhost:443" "localhost" 443
    (Some "cert/rootCA.crt") Chunker_default demo_switching id 1700000000000 (λ s, s = false) "Bob" "+4587654321" "bob" demo_caller).
  - split; by vm_compute.
  - lia.
  - by vm_compute.
  - done.
  - by vm_compute.
  - intros. repeat constructor; by vm_compute.
  - intros headers Hh. vm_compute in Hh. injection Hh as <-. split; intros; subst; by eexists.
  - done.
  - reflexivity.
  - vm_compute. reflexivity.
  - exact demo_takes_account.
  - split; vm_compute; reflexivity.
  - reflexivity.
  - exact hex_ascii.
  - intros bs Hl. change (2 <= Z.of_nat (String.length (hex_encode bs))).
    destruct bs as [|x bs]; [discriminate Hl|]. rewrite hex_encode_cons. cbn -[Z.of_nat]. lia.
  - split; intros; by eexists.
  - split_and!; done.
Defined.
