(* ===== verification/Delivery.v ===== *)
(** Deniable messages from the client that sends them to the client that
    receives them: the chunker and the database of the sender, the handler and
    the queues of the server, the messages that the server makes for the
    receiver, and the database of the receiver, one after the other. *)
From S2P Require Export ClientReassembly.
From S2P Require Export Outbox.
From S2P Require Export Routing.

Local Open Scope Z_scope.
Local Open Scope denim_scope.

(** ** What the server receives *)

(** The chunks of a regular message, with its destination and its timestamp. *)
Record batch := { batch_destination : Account; batch_chunks : list DenimChunk; batch_timestamp : Z }.

Definition receive_batches `{Bincode, Base64, ServiceIdText, ServerText} (ad : AuthenticatedDevice) (batches : list batch)
    : prog stateE string unit :=
  for_each batches tt (λ b _, handle_receiving_chunks ad (batch_destination b) (batch_chunks b) (batch_timestamp b)).

(** A deniable message as it is passed on: with the timestamp of one of the
    regular messages, by a server with this clock. *)
Definition forwarded `{Bincode, Base64, ServiceIdText} (ad : AuthenticatedDevice) (batches : list batch) (times : nat → Z)
    (p p' : DeniablePayload) : Prop :=
  ∃ m, m ∈ batches ∧ becomes ad (batch_timestamp m) times p p'.

Section receiving.
Context `{Bincode, Base64, ServiceIdText, ServerText, ScanOrder} (public_key_ok : bytes → bool) (ad : AuthenticatedDevice).
Abbreviation step := (state_step server_step (postgres public_key_ok)).

Lemma payloads_for_app c cs cs' ps ps' :
  length cs = length ps → payloads_for c (zip (cs ++ cs') (ps ++ ps')) = payloads_for c (zip cs ps) ++ payloads_for c (zip cs' ps').
Proof. intros Hl. unfold payloads_for. rewrite zip_with_app by done. by rewrite filter_app, map_app. Qed.

(** What is queued for an address. *)
Definition queued_at (known cs : list Account) (ps : list DeniablePayload) (a : ProtocolAddress) : list (bytes * Z) :=
  match find (λ c, bool_decide (a ∈ device_addresses c)) known with
  | Some c => map queued (payloads_for c (zip cs ps))
  | None => []
  end.

Lemma queued_at_device known cs ps c v :
  (∀ c c', c ∈ known → c' ∈ known → aci c = aci c' → c = c') → c ∈ known → v ∈ acc_devices c →
  queued_at known cs ps (get_protocol_address c KindAci (dev_id v)) = map queued (payloads_for c (zip cs ps)).
Proof.
  intros Hinj Hc Hv. unfold queued_at. set (a := get_protocol_address c KindAci (dev_id v)).
  assert (a ∈ device_addresses c) as Ha by by apply (list_elem_of_fmap_2 (λ v, get_protocol_address c KindAci (dev_id v))).
  destruct (find _ known) as [c'|] eqn:Hfind.
  - apply find_some in Hfind as [Hc'%list_elem_of_In (v' & Heq & _)%bool_decide_eq_true%list_elem_of_fmap].
    replace c' with c; [done|]. apply Hinj; [done|done|]. by injection Heq.
  - pose proof (find_none _ _ Hfind c) as Hn. cbn in Hn. rewrite bool_decide_true in Hn by done.
    apply list_elem_of_In in Hc. by specialize (Hn Hc).
Qed.

Lemma receive_batches_run known d batches : ∀ w pend b n ds rest ps cs k data,
  let sender := authenticated_address ad KindAci in let chunks := map batch_chunks batches in
  inbox sender w pend b n → well_flagged b (concat chunks) → absorb (joined pend) (concat chunks) = (ds, rest) → payloads_of ds ps →
  fits pend chunks → n + 200 * len batches < 2 ^ 31 → Forall (λ b, acc_devices (batch_destination b) ≠ []) batches →
  is_uuid (aci (ad_account ad)) = true → 0 ≤ k → Forall2 (sends_to public_key_ok d) ps cs → cs ⊆ known →
  (∀ c, c ∈ known → account_wf c ∧ is_uuid (aci c) = true) → (∀ c c', c ∈ known → c' ∈ known → aci c = aci c' → c = c') →
  (∀ c v, c ∈ known → v ∈ acc_devices c →
     outbox w (len ps + k) (get_protocol_address c KindAci (dev_id v)) (data (get_protocol_address c KindAci (dev_id v)))) →
  ∃ ps' w', Forall2 (forwarded ad batches (clock w)) ps ps' ∧ interp step (receive_batches ad batches) (w, d) = (Ok tt, (w', d)) ∧
    (∃ pend' b', inbox sender w' pend' b' (n + 200 * len batches) ∧ joined pend' = rest) ∧ untouched ad known w w' ∧
    ∀ c v, c ∈ known → v ∈ acc_devices c →
      outbox w' k (get_protocol_address c KindAci (dev_id v))
        (data (get_protocol_address c KindAci (dev_id v)) ++ map queued (payloads_for c (zip cs ps'))).
Proof.
  induction batches as [|m batches IH]; intros w pend b n ds rest ps cs k data sender chunks Hin Hf Ha Hps Hfit Hn Hdest Huuid Hk Hto
    Hsub Hwf Hinj Hout.
  { cbn in Ha. simplify_eq. inversion Hps; subst. apply Forall2_nil_inv_l in Hto as ->. exists [], w.
    split_and!; [constructor|done| |done|].
    - exists pend, b. split; [|done]. by rewrite (len_nil (A := batch)), Z.mul_0_r, Z.add_0_r.
    - intros c v Hc Hv. rewrite app_nil_r. by apply Hout. }
  unfold chunks in *. cbn [map concat fits] in *. rewrite len_cons in *. pose proof (len_nonneg batches).
  apply absorb_app_inv in Ha as (ds1 & rest1 & ds2 & Ha1 & Ha2 & ->).
  apply Forall2_app_inv_l in Hps as (ps1 & ps2 & Hps1 & Hps2 & ->).
  apply Forall2_app_inv_l in Hto as (cs1 & cs2 & Hto1 & Hto2 & ->).
  destruct Hfit as [Hfit Hfits]. apply Forall_cons in Hdest as [Hdest Hdests]. rewrite len_app in Hout.
  pose proof (len_nonneg ps2). apply list_subseteq_app_iff_l in Hsub as [Hsub1 Hsub2].
  destruct (receiving_run public_key_ok ad (batch_timestamp m) known w d (batch_destination m) (batch_chunks m) pend b n ds1 rest1 ps1 cs1
    (len ps2 + k) data Hin (well_flagged_app_l _ _ _ Hf) Ha1 Hps1 Hfit ltac:(lia) Hdest Huuid ltac:(lia) Hto1 Hsub1 Hwf Hinj)
    as (ps1' & w1 & b1 & Hes1 & Hclk & Hrun & Hin1 & Hj & Hflags & Hkeep1 & Hout1); [intros c v Hc Hv; rewrite Z.add_assoc; by apply Hout|].
  assert (length cs1 = length ps1') as Hl by (rewrite <- (Forall2_length _ _ _ Hto1); apply (Forall2_length _ _ _ Hes1)).
  destruct (IH w1 (trailing pend (batch_chunks m)) b1 (n + 200) ds2 rest ps2 cs2 k (λ a, data a ++ queued_at known cs1 ps1' a))
    as (ps2' & w2 & Hes2 & Hrun2 & (pend' & b' & Hin2 & Hj2) & Hkeep2 & Hout2); try done; [by apply Hflags|by rewrite Hj|lia| |].
  { intros c v Hc Hv. rewrite queued_at_device by done. by apply Hout1. }
  rewrite Hclk in Hes2. exists (ps1' ++ ps2'), w2. split_and!.
  - apply Forall2_app.
    + eapply Forall2_impl; [exact Hes1|]. intros p p' Hp. exists m. split; [by left|done].
    + eapply Forall2_impl; [exact Hes2|]. intros p p' (m' & Hm & Hp). exists m'. split; [by right|done].
  - unfold receive_batches. cbn [for_each]. by rewrite interp_bind, Hrun.
  - exists pend', b'. split; [|done]. by replace (n + 200 * (1 + len batches)) with (n + 200 + 200 * len batches) by lia.
  - by etrans.
  - intros c v Hc Hv. rewrite payloads_for_app, map_app, app_assoc by done. specialize (Hout2 c v Hc Hv). cbn beta in Hout2.
    by rewrite queued_at_device in Hout2 by done.
Qed.
End receiving.

(** ** What a device is sent *)

Section sending.
Context `{Bincode, Base64}.

Lemma queued_contents q qs : pieces q = map queued qs → contents q = map serialize_payload qs ∧ Forall (λ it, it_order it = 0) (q_items q).
Proof.
  unfold pieces, contents, queued. revert qs. induction (q_items q) as [|it its IH]; intros [|p qs] Heq; try done.
  cbn [map] in *. injection Heq as Hd Ho Heq. destruct (IH qs Heq) as [-> Hos]. split; [by rewrite Hd|by constructor].
Qed.

Lemma queued_cuttable q qs n :
  pieces q = map queued qs → n + payload_bytes qs < 2 ^ 31 → cuttable n q.
Proof.
  intros Hq Hn. destruct (queued_contents q qs Hq) as [Hc Ho]. unfold cuttable. apply Forall_forall. intros it Hit.
  rewrite Forall_forall in Ho. rewrite (Ho it Hit).
  assert (it_data it ∈ contents q) as Hin by by apply list_elem_of_fmap_2.
  rewrite Hc in Hin. apply list_elem_of_fmap in Hin as (p & -> & Hp). pose proof (payload_bytes_each qs p Hp).
  split; [apply serialize_payload_nonempty|]. unfold i32_min. lia.
Qed.

(** Emptying the outbox of a device. *)
Lemma outbox_drains self w a n qs es :
  outbox w n a (map queued qs) → Forall (λ e, 20 < message_space self e) es → payload_bytes qs ≤ len es →
  len es + payload_bytes qs < 2 ^ 31 →
  ∃ ms w', interp server_step (send_messages self a es) w = (Ok ms, w') ∧
    absorb [] (all_chunks ms) = (map serialize_payload qs, []) ∧ well_flagged 0 (all_chunks ms) ∧
    Forall2 (λ e m, regular_payload m = RegularEnvelope e) es ms ∧ len (all_chunks ms) ≤ sumZ (map (message_space self) es).
Proof.
  intros (q & Hr & Hq & _) Hes Henough Hsmall. destruct (queued_contents q qs Hq) as [Hc Ho].
  destruct (drain_run self a es w q (ready_holds _ _ _ Hr) (queued_cuttable q qs _ Hq Hsmall) Hes)
    as (ms & w' & q' & Hrun & _ & _ & Hs & Hf & Hms & Hl).
  { unfold content_bytes. rewrite Hc, map_map. exact Henough. }
  exists ms, w'. split_and!; [done|by rewrite Hs, Hc| |done|done]. apply Hf; [|done]. unfold head_order.
  destruct Ho as [|it its Ho _]; [done|]. by rewrite Ho.
Qed.
End sending.

(** ** Properties *)

(** C1: deniable messages get from client to client.  A client stores some
    messages, and as many regular messages as they have bytes take their chunks
    to the server, where they come in their order and at no time with more than
    a hundred pending; the server hands each assembled message, as an envelope
    from the sender, to the devices of the account it is for, and to no other
    device; and as many regular messages as these have bytes take a device's own
    to the client there, which gets exactly the messages for its account, in the
    order they were stored and each once, whoever all these regular messages are
    for.  The databases of both clients are taken to return rows in the order
    of their ids, which their statements do not ask for. *)
Theorem deniable_messages_are_delivered `{Sqlite, Base64, ServiceIdText, Libsignal, HashOrder, Bincode, ServerText, ScanOrder}
    (public_key_ok : bytes → bool) {S} (h : handler serverE string S) (view : S → world)
    {T} (api : handler serverApiE SignalClientError T) (self : Chunker) (sizes : list f32) (ps : list DeniablePayload)
    (d d1 d2 : client_db) (css : list (list DenimChunk))
    (ad : AuthenticatedDevice) (batches : list batch) (cs : list Account) (st : S) (accounts : pg)
    (Hscan : scans_by_rowid) (Hdoc : documented h view)
    (Hnone : d ClientDb.DeniablePayload = []) (Hcount : len ps ≤ 2 ^ 32 - 1) (Hsmall : payload_bytes ps < 2 ^ 31)
    (Hsizes : Forall (λ size, 20 < total_free_space self size) sizes) (Henough : payload_bytes ps ≤ len sizes)
    (Hstore : interp device (store_all (map serialize_payload ps)) d = (Ok tt, d1))
    (Hsend : interp (through deniable_sending_buffer device) (send_all self sizes []) d1 = (Ok css, d2))
    (Hbatches : map batch_chunks batches = css) (Hfits : fits [] css) (Hshort : 200 * len batches < 2 ^ 31)
    (Hdest : Forall (λ b, acc_devices (batch_destination b) ≠ []) batches)
    (Huuid : is_uuid (aci (ad_account ad)) = true)
    (Hready : ready (ChunkCache.queue (authenticated_address ad KindAci) Buffer.Sender) (view st) empty_queue)
    (Hto : Forall2 (sends_to public_key_ok accounts) ps cs)
    (Hwf : ∀ c, c ∈ cs → account_wf c ∧ is_uuid (aci c) = true)
    (Hinj : ∀ c c', c ∈ cs → c' ∈ cs → aci c = aci c' → c = c')
    (Hout : ∀ c v, c ∈ cs → v ∈ acc_devices c → outbox (view st) (len ps) (get_protocol_address c KindAci (dev_id v)) []) :
  ∃ envelopes st', Forall2 (forwarded ad batches (clock (view st))) ps envelopes ∧
    interp (state_step h (postgres public_key_ok)) (receive_batches ad batches) (st, accounts) = (Ok tt, (st', accounts)) ∧
    (∀ a k data, string_mem ":" (name a) = false → (∀ c, c ∈ cs → a ∉ device_addresses c) →
       outbox (view st) k a data → outbox (view st') k a data) ∧
    ∀ c v chunker es, c ∈ cs → v ∈ acc_devices c → let mine := payloads_for c (zip cs envelopes) in
      Forall (λ e, 20 < message_space chunker e) es → payload_bytes mine ≤ len es → len es + payload_bytes mine < 2 ^ 31 →
      sumZ (map (message_space chunker) es) ≤ 2 ^ 32 - 1 →
      ∃ ms st'', interp h (send_messages chunker (get_protocol_address c KindAci (dev_id v)) es) st' = (Ok ms, st'') ∧
        Forall2 (λ e m, regular_payload m = RegularEnvelope e) es ms ∧
        ∀ w : client_world T, cw_db w IncomingDeniableChunk = [] →
          ∃ w', interp (client_step api) (receive_messages (map dm_chunks ms)) w = (Ok mine, w') ∧ only_received w w'.
Proof.
  assert (Forall (λ m, m ≠ [] ∧ len m < 2 ^ 31) (map serialize_payload ps)) as Hmsgs.
  { apply Forall_forall. intros m (p & -> & Hp)%list_elem_of_fmap. pose proof (payload_bytes_each ps p Hp).
    split; [apply serialize_payload_nonempty|lia]. }
  destruct (stored_payloads_run self sizes (map serialize_payload ps) d Hscan Hnone Hmsgs)
    as (css' & d1' & d2' & Hstore' & Hsend' & Hread & Hflags & _); [unfold len in *; by rewrite length_map|done|by rewrite map_map|].
  rewrite Hstore in Hstore'. injection Hstore' as <-. rewrite Hsend in Hsend'. injection Hsend' as <- <-. subst css.
  destruct (receive_batches_run public_key_ok ad cs accounts batches (view st) [] 0 0 (map serialize_payload ps) [] ps cs 0 (λ _, [])
              (empty_inbox _ _ 0 (Z.le_refl 0) Hready) Hflags Hread (payloads_of_serialized ps) Hfits ltac:(lia) Hdest Huuid (Z.le_refl 0)
              Hto (reflexivity cs) Hwf Hinj)
    as (envelopes & w' & Hes & Hrun & _ & Hkeep & Hout'); [by rewrite Z.add_0_r|].
  destruct (sim_run _ _ _ _ (st, accounts) _ _ (state_sim h server_step view (postgres public_key_ok) Hdoc) Hrun)
    as ([st' accounts'] & Hrun' & [= <- ->]).
  exists envelopes, st'. split_and!; [exact Hes|exact Hrun'| |].
  { intros a k data. eapply untouched_outbox; [exact Hkeep|done|]. intros c Hc. by apply Hwf. }
  intros c v chunker es Hc Hv mine Hfree Henough' Hsmall' Hroom.
  destruct (outbox_drains chunker (view st') _ 0 mine es (Hout' c v Hc Hv) Hfree Henough' Hsmall')
    as (ms & w2 & Hrun2 & Hread2 & Hflags2 & Hms & Hchunks).
  destruct (sim_run _ _ _ _ _ _ _ Hdoc Hrun2) as (st'' & Hrun2' & _). exists ms, st''. split_and!; [exact Hrun2'|exact Hms|].
  intros w Hempty.
  destruct (receive_messages_run api (map dm_chunks ms) 0 w [] 0 (map serialize_payload mine) [] mine [] Hscan
              (empty_incoming 0 _ (Z.le_refl 0) Hempty) (pending_ok_nil) (Z.le_refl 0) Hflags2 Hread2 (payloads_of_serialized mine) (Z.le_trans _ _ _ Hchunks Hroom))
    as (w3 & pend & Hrun3 & _ & _ & Ho). by exists w3.
Qed.

(** *** Witness *)

#[local] Existing Instances plain_sqlite demo_service_ids demo_libsignal demo_hash_order demo_bincode in_order demo_text.

(** What a run returns, if it does. *)
Definition returned {F E S A} (h : handler F E S) (p : prog F E A) (a : A) (s : S) : A :=
  match (interp h p s).1 with Ok a => a | _ => a end.
Lemma run_returned {F E S A} (h : handler F E S) (p : prog F E A) a s :
  is_ok (interp h p s).1 = true → interp h p s = (Ok (returned h p a s), (interp h p s).2).
Proof. unfold returned. by destruct (interp h p s) as [[] s']. Qed.

(** The deniable message of Routing.v, spread over regular messages to oneself. *)
Definition demo_stored : list DeniablePayload := [DeniableSignalMessage demo_deniable].
Definition demo_storing : prog clientE string unit := store_all (map serialize_payload demo_stored).
Definition demo_after_storing : client_db := (interp demo_device demo_storing empty_client_db).2.
Definition demo_sending : prog bufferE string (list (list DenimChunk)) :=
  send_all Chunker_default (replicate (Z.to_nat (payload_bytes demo_stored)) (f32_of_usize 400)) [].
Definition demo_sender_step : handler bufferE string client_db := through deniable_sending_buffer demo_device.
Definition demo_sent : list (list DenimChunk) := returned demo_sender_step demo_sending [] demo_after_storing.
Definition as_batches : list (list DenimChunk) → list batch :=
  map (λ cs, {| batch_destination := ad_account demo_sender; batch_chunks := cs; batch_timestamp := 5 |}).

Lemma as_batches_time css m : m ∈ as_batches css → batch_timestamp m = 5.
Proof. by intros (cs & -> & _)%list_elem_of_fmap. Qed.

(** The sender's run, checked once. *)
Definition is_sent (o : outcome string (list (list DenimChunk))) : bool :=
  match o with
  | Ok css => (len (no_dummies (concat css)) <=? PAGE_SIZE) && (200 * len css <? 2 ^ 31)
  | _ => false
  end.

Lemma is_sent_returned {E S} (h : handler E string S) (p : prog E string _) s :
  is_sent (interp h p s).1 = true →
  is_ok (interp h p s).1 = true ∧ fits [] (returned h p [] s) ∧ 200 * len (returned h p [] s) < 2 ^ 31.
Proof.
  unfold returned. destruct (interp h p s) as [[css| |] s']; [|done..]. cbn [fst is_sent is_ok].
  intros [Hfits%Z.leb_le Hl%Z.ltb_lt]%andb_true_iff. split_and!; [done|by apply fits_small|done].
Qed.

Lemma demo_sent_ok :
  is_ok (interp demo_sender_step demo_sending demo_after_storing).1 = true ∧ fits [] demo_sent ∧ 200 * len demo_sent < 2 ^ 31.
Proof.
  assert (is_sent (interp demo_sender_step demo_sending demo_after_storing).1 = true) as Hok by by vm_compute.
  exact (is_sent_returned demo_sender_step demo_sending demo_after_storing Hok).
Qed.

Lemma as_batches_chunks css : map batch_chunks (as_batches css) = css.
Proof. unfold as_batches. rewrite map_map. apply map_id. Qed.

Lemma as_batches_length css : len (as_batches css) = len css.
Proof. unfold as_batches, len. by rewrite length_map. Qed.

Lemma as_batches_destination css : Forall (λ b, acc_devices (batch_destination b) ≠ []) (as_batches css).
Proof. unfold as_batches. by apply Forall_map, Forall_forall. Qed.

Definition demo_passed_on : outcome string Envelope :=
  to_envelope demo_deniable (Aci sample_uuid) (ad_account demo_sender) (sender_device_id demo_sender) 5 false 1700000000000.
Definition is_passed_on (o : outcome string Envelope) : bool :=
  match o with
  | Ok e => bool_decide (env_content e = Some [x01; x02]) && (payload_bytes [DeniableEnvelope e] <? 10 ^ 6)
  | _ => false
  end.

Lemma demo_passed_on_at i : to_envelope demo_deniable (Aci sample_uuid) (ad_account demo_sender) (sender_device_id demo_sender) 5
  false (clock empty_world i) = demo_passed_on.
Proof. reflexivity. Qed.

Lemma demo_uuid_parses : parse_from_service_id_string sample_uuid = Some (Aci sample_uuid).
Proof. by vm_compute. Qed.

Lemma demo_becomes i m t s e :
  DeniableSignalMessage demo_deniable = DeniableSignalMessage m → destination_service_id m = Some t →
  parse_from_service_id_string t = Some s →
  to_envelope m s (ad_account demo_sender) (sender_device_id demo_sender) 5 false (clock empty_world i) = Ok e →
  demo_passed_on = Ok e.
Proof.
  intros [= <-] [= <-] Hs He. rewrite demo_uuid_parses in Hs. injection Hs as <-. by rewrite demo_passed_on_at in He.
Qed.

Lemma is_passed_on_ok o e : is_passed_on o = true → o = Ok e →
  env_content e = Some [x01; x02] ∧ payload_bytes [DeniableEnvelope e] < 10 ^ 6.
Proof. intros Hok ->. by apply andb_true_iff in Hok as [Hc%bool_decide_eq_true Hb%Z.ltb_lt]. Qed.

Lemma demo_forwarded css p' :
  forwarded demo_sender (as_batches css) (clock empty_world) (DeniableSignalMessage demo_deniable) p' →
  ∃ e, p' = DeniableEnvelope e ∧ env_content e = Some [x01; x02] ∧ payload_bytes [p'] < 10 ^ 6.
Proof.
  intros (m & Hin & m' & t & s & i & e & Hm & Ht & Hs & He & ->). exists e. split; [reflexivity|].
  rewrite (as_batches_time css m Hin) in He.
  assert (is_passed_on demo_passed_on = true) as Hok by by vm_compute.
  exact (is_passed_on_ok _ _ Hok (demo_becomes i m' t s e Hm Ht Hs He)).
Qed.

Lemma demo_regular_count n (e : Envelope) : len (replicate n e) = Z.of_nat n.
Proof. unfold len. by rewrite length_replicate. Qed.

Lemma sumZ_replicate {A} (f : A → Z) n x : sumZ (map f (replicate n x)) = Z.of_nat n * f x.
Proof. induction n as [|n IH]; [done|]. cbn [replicate map]. rewrite sumZ_cons, IH. lia. Qed.

Lemma deniable_messages_are_delivered_witness :
  ∃ e st' es ms st'' w',
    interp (state_step server_step (postgres (λ _, true))) (receive_batches demo_sender (as_batches demo_sent))
      (empty_world, demo_accounts) = (Ok tt, (st', demo_accounts)) ∧
    interp server_step (send_messages Chunker_default (get_protocol_address demo_destination KindAci 1) es) st' = (Ok ms, st'') ∧
    interp demo_client_step (receive_messages (map dm_chunks ms)) ClientReassembly.demo_world = (Ok [DeniableEnvelope e], w') ∧
    env_content e = Some [x01; x02].
Proof.
  destruct (deniable_messages_are_delivered (λ _, true) server_step id no_server Chunker_default
    (replicate (Z.to_nat (payload_bytes demo_stored)) (f32_of_usize 400)) demo_stored empty_client_db demo_after_storing
    (interp demo_sender_step demo_sending demo_after_storing).2 demo_sent demo_sender (as_batches demo_sent) [demo_destination]
    empty_world demo_accounts) as (envelopes & st' & Hes & Hrun & _ & Hout).
  - by intros A l _.
  - apply sim_refl.
  - done.
  - by vm_compute.
  - by vm_compute.
  - apply Forall_replicate. by vm_compute.
  - unfold len. rewrite length_replicate. vm_compute. discriminate.
  - apply (run_returned demo_device demo_storing tt). by vm_compute.
  - apply (run_returned demo_sender_step demo_sending [] _ (proj1 demo_sent_ok)).
  - apply as_batches_chunks.
  - exact (proj1 (proj2 demo_sent_ok)).
  - rewrite as_batches_length. exact (proj2 (proj2 demo_sent_ok)).
  - apply as_batches_destination.
  - by vm_compute.
  - apply empty_ready.
  - constructor; [|constructor]. exists demo_deniable, sample_uuid, (Aci sample_uuid).
    split_and!; [done..|by vm_compute|by eexists].
  - intros c ->%list_elem_of_singleton. split; [apply demo_destination_wf|by vm_compute].
  - by intros c c' ->%list_elem_of_singleton ->%list_elem_of_singleton.
  - intros c v ->%list_elem_of_singleton Hv. exists empty_queue. split_and!; [apply empty_ready|done|by cbn].
  - apply Forall2_cons_inv_l in Hes as (p' & es' & (e & -> & Hcontent & Hbytes)%demo_forwarded & ->%Forall2_nil_inv_l & ->).
    destruct (Hout demo_destination (hd sample_device (acc_devices demo_destination)) Chunker_default
      (replicate (Z.to_nat (payload_bytes [DeniableEnvelope e])) demo_envelope)) as (ms & st'' & Hmail & _ & Hclient);
      [by left|by vm_compute; left|..].
    + apply Forall_replicate. by vm_compute.
    + rewrite demo_regular_count, Z2Nat.id by apply payload_bytes_nonneg. done.
    + rewrite demo_regular_count, Z2Nat.id by apply payload_bytes_nonneg.
      change (payload_bytes [DeniableEnvelope e] + payload_bytes [DeniableEnvelope e] < 2 ^ 31). lia.
    + rewrite sumZ_replicate, Z2Nat.id by apply payload_bytes_nonneg.
      etrans; [apply (Z.mul_le_mono_nonneg _ (10 ^ 6) _ 4000)|by vm_compute].
      * apply payload_bytes_nonneg.
      * by apply Z.lt_le_incl.
      * vm_compute. discriminate.
      * vm_compute. discriminate.
    + destruct (Hclient ClientReassembly.demo_world eq_refl) as (w' & Hreceive & _).
      exists e, st', (replicate (Z.to_nat (payload_bytes [DeniableEnvelope e])) demo_envelope), ms, st'', w'.
      split_and!; [exact Hrun|exact Hmail|exact Hreceive|exact Hcontent].
Defined.
